(* ===== verification/_CoqProject ===== *)
-Q . S2P
Prelude.v
Types.v
Message.v
Text.v
Grouped.v
Codec.v
Framing.v
FloorFSM.v
Queue.v
UserIDPool.v
Session.v
Prog.v
World.v
Transport.v
UDPClient.v
Client.v
Virtual.v
Manager.v
Server.v
Listener.v
Examples.v
Scenario.v
Interleave.v
Threads.v
Frame.v
ServerSafe.v
Safety.v
Responses.v
ServerRun.v
Holder.v
UDPClientRun.v
ClientRun.v
FloorLocks.v
Channel.v
Typed.v
Service.v
Served.v
Hello.v
Keepalive.v
Quiet.v
LateGrant.v
ServiceSpec.v
ServiceStep.v
UDPService.v
TCPService.v
Exchange.v
VirtualRun.v
VirtualExchange.v
ManagerRun.v
ListenerRun.v
ExamplesRun.v
