(* ===== verification/Prelude.v ===== *)
(** * A verified model of the BFCP library

    The repository is a Go library for the Binary Floor Control Protocol (RFC 4582 over
    TCP, RFC 8855 over UDP): a codec for the messages, a floor control server, clients,
    and a layer of virtual clients.  This development models its logic as executable
    functions on the Go data, statement by statement, and proves what makes it correct.

    ** The program and the files

    A message is a header and a list of attributes ([message.go]).  [Encode] and
    [Decode] turn it into bytes and back; grouped attributes are encoded by hand and
    parsed in [grouped.go]; over TCP the messages are framed by [ReadMessage] in the
    read loop of [transport.go], over UDP a datagram is a message.  The server
    ([server.go]) holds floors ([state.go]) and sessions; for every message one of two
    families of handlers (UDP and TCP) looks the floor up, calls its state machine,
    answers, tells the other sessions and runs the application's callbacks.  On the
    server's UDP socket it can also be the client of another server ([udpclient.go]).
    The TCP client ([client.go]) waits for answers on channels while a read loop delivers
    them or runs callbacks; a virtual client ([virtual/client.go]) owns one, and a manager
    ([virtual/manager.go]) owns the virtual clients of a conference.  Three sample
    programs ([examples/]) call the library as an application does.

    - [Prelude.v]: machine integers, the results of Go calls ([res]: value, error,
      panic, endless loop), indexing and slicing with the bounds checks of the Go
      runtime, big-endian numbers, the tactics and hints.
    - [Types.v]: the constants of [types.go] and their [String] methods.
    - [Message.v], [Grouped.v], [Codec.v]: [message.go] and [grouped.go]: the records,
      the [Add*] and [Get*] methods, the builders, [parseTLVs] and
      [FloorRequestInfos], [Encode] and [Decode].
    - [Framing.v]: [ReadMessage], [WriteMessage] ([message.go]) and the read loop of
      [Transport] ([transport.go]) on a connection given by what a reader sees of it:
      bytes, expired deadlines, other errors, an end; the rounds of the loop may find the
      context cancelled or fail to set the deadline.
    - [FloorFSM.v], [Queue.v], [Session.v]: the floor state machine, the request queue
      and the session state machine of [state.go], and [Session] of [server.go].
    - [UserIDPool.v]: the pool of [virtual/manager.go].
    - [Listener.v]: [Listener] and [UDPListener] of [transport.go], and [Listen], [Serve],
      [Addr] and [Close] of [server.go].
    - [Prog.v]: programs over a shared world, and on a part of one (lenses);
      [World.v]: what the goroutines of a server share.
    - [Transport.v]: [Transport], [UDPTransport] and the transports of [UDPListener], with
      their roles, contexts and keepalive, whose [sync.WaitGroup] is modelled access by
      access; [UDPClient.v]: [udpclient.go], the messages received and the calls
      with their retries; [Server.v]: [server.go].
    - [Client.v]: the TCP client of [client.go], over any world that contains its own,
      because its callbacks are programs of the application.
    - [Virtual.v]: [virtual/client.go] and [virtual/callbacks.go], on a world with TCP
      clients; [Manager.v]: [Manager] of [virtual/manager.go], on a world with those.
    - [Text.v], [Examples.v]: the sample programs, with the text functions of Go that
      the command line of one needs, each on a world of the library with a terminal.
    - [Scenario.v]: a concrete server for the witnesses.
    - [Interleave.v], [Threads.v], [Frame.v], [ServerSafe.v], [Safety.v]: programs run one
      step at a time in any order, the goroutines and calls of a server ([thread]), what
      their steps leave alone (the class [Frame]), the server's invariant and its
      preservation by every handler.  [Interleave.v] has four small logics: [safe] (no
      panic, an invariant is kept, the others only extend the world), [keeps] and [blocked]
      (a relation is kept by every step that can be taken; a step that cannot be taken),
      [owns] (an invariant over what the programs of a pool own between them) and
      [guarded], which joins [safe] and [owns] (no panic, by what a program owns: a
      keepalive goroutine its unit of the wait group, a [Close] its right to close [done]).
    - [Holder.v]: who holds a floor, while the threads of a server take their steps in any
      order; [LateGrant.v]: one such order in which the wrong user gets it.
    - [Responses.v]: what a receiver reads out of the messages the server builds.
    - [ServerRun.v], [FloorLocks.v], [Channel.v], [Service.v], [Served.v]: handlers run
      alone, against a specification of the service; [Channel.v] is the interface that
      makes one proof serve UDP and TCP.  [Hello.v]: hellos; [Keepalive.v]: the whole
      of [Close] of a transport, which waits for its keepalive.
    - [ServiceSpec.v], [ServiceStep.v], [UDPService.v], [TCPService.v]: the whole server as
      an abstract service, which both of its families of handlers implement, for datagrams
      and for connections; [Quiet.v] is what the handlers leave alone.
    - [UDPClientRun.v], [ClientRun.v]: the calls of the two clients, run alone or up to
      their wait; [Typed.v]: what decoded messages hold; [Exchange.v]: a client and the
      server, joined by the bytes that pass between them; [VirtualExchange.v]: a virtual
      client and the server.
    - [ListenerRun.v], [VirtualRun.v], [ManagerRun.v], [ExamplesRun.v]: the listeners, the
      virtual clients, the manager and the sample programs at work.

    ** How the code is modelled

    Integers of a width are integers of [Z] with the conversions [u8], [u16], [u32]
    written where Go truncates.  Byte slices are lists; an index or slice expression out
    of range is [Panic].  A Go map is a [gmap]; ranging over one takes the order from
    the environment ([range_order]), about which only that it is a permutation is known.
    Pointers to floors, sessions, transports and clients are indices into heaps, so that
    a floor held by a handler stays the same object when the server's map changes.  The
    clock, the outcome of socket writes, address resolution, the configuration and the
    application's callbacks are the environment [Env]; callbacks are recorded in the
    trace with what they are told, and are taken not to call back into the server.

    A handler is a [prog]: a sequence of atomic steps, one per critical section, method
    call under a mutex, atomic counter, send or callback.  [run] executes it alone;
    [pool_run] interleaves any number of them step by step, in any order, which includes
    the orders the Go scheduler can produce and the pause of the TCP request handler.
    Accesses that Go does not synchronise (the fields of a session) are steps of their
    own.  Log calls are left out, except where they dereference something.

    A mutex that is only held within a step needs no state.  Where a call keeps one while
    it calls others - a virtual client during [RequestFloor] and [Connect], the manager
    during [ListClients] - there is a flag or a counter in the state, and a critical
    section of another call is [Diverge] meanwhile: a step that cannot be taken.

    Loops are structural or have fuel: [decode_attrs] and [parseTLVs_loop] take the
    length of the buffer plus one, since every round consumes at least two octets;
    [readLoop] takes the number of observations of the connection plus one;
    [Allocate_loop] takes [2^16], one round for each value of its variable.  Running out
    of fuel is [Diverge], and the theorems show where that cannot happen
    ([Decode_total], [readLoop_total]) and where the code really loops
    ([Allocate_spins]).

    ** The theorems

    - The codec: what fits survives [Encode] and [Decode] ([Decode_Encode_roundtrip]),
      [Decode] accepts exactly the wire grammar ([Decode_iff]) and never panics
      ([Decode_total]), [Encode] fails only on misaligned attributes ([Encode_total]),
      re-encoding is canonical ([Encode_Decode_canonical]); the hand-written FloorStatus
      agrees with the codec ([BuildFloorStatusMessage_encodes]).
    - Framing: the read loop delivers the messages of a stream in order
      ([readLoop_delivers], [readLoop_total]), and loses one when a deadline falls
      inside it ([deadline_inside_frame_loses_message]).
    - Floors: a floor is a lock with a waiting stage ([floor_refines_lock],
      [granted_history]); after [Deny] it stays blocked ([denied_floor_is_stuck]).
    - The server under interleaving: no panic and no endless loop, with the invariant
      [wf_world] ([server_never_panics]); the holder of a floor keeps it
      ([holder_keeps_floor_interleaved]); and, for any three connections, an order in which
      a late grant reaches the request of another user ([late_grant_goes_to_other_user]).
    - The server's answers: requests, releases, queries, goodbyes and hellos over UDP and
      TCP against [serve_request] and [serve_release] ([udp_floor_request_served],
      [tcp_floor_request_served], [floor_release_served], [floor_query_served],
      [tcp_goodbye_frees], [tcp_hello_served]), down to what the client reads out of the
      bytes.
    - The service: one small specification, with its locks, its clients and what each of
      them is sent, is what both families of handlers do.  Datagrams of any bytes from
      anywhere are a run of it ([udp_service_refined]), and so are connections that open,
      send messages and break off in any order ([tcp_service_refined]); a holder keeps its
      floor until it gives it up, even when its connection is gone
      ([udp_holder_keeps_floor], [tcp_holder_keeps_floor]).  Here messages are handled one
      at a time; [turns_of_connection] relates the turns to the goroutine of a connection.
    - Transports: [Close] returns once the keepalive goroutine has ended, at once when the
      context is the transport's own, and at the next tick when it was given
      ([close_waits_for_keepalive]); a hello that comes while it waits can make the wait
      group panic ([close_races_hello]).
    - The clients: a transaction of the UDP client returns answers of its own only
      ([transact_response_matches], under interleaving) and gives up after its retries
      ([transact_gives_up]); two races of the TCP client, a response that panics and a
      client that can neither connect nor disconnect ([tcp_late_response_panics],
      [dead_client_stays_dead]).
    - Client and server together: a floor request ends with the same outcome on both
      sides ([udp_request_exchange], [tcp_request_exchange]); what the server's theorems
      ask of a message holds of every decoded one ([typed_request]).  The exchanges over
      TCP are for one order of the client's goroutines, the first answer read while the
      call waits and the second after it has returned; when the second is read before the
      call has forgotten its transaction, it is lost ([tcp_decision_lost]).
    - Virtual clients: a request with the server, from the call to the callback
      ([virtual_request_exchange]); one that is granted in the first answer never returns
      ([virtual_request_deadlocks]); [Close] releases no floor
      ([virtual_close_releases_nothing]); under every interleaving the clients of a manager
      have distinct user ids and no id is lost ([manager_ids_unique]).
    - Listeners: [Listen] binds the first port of the range that can be bound
      ([Server_Listen_first_port]); [Close] leaves the connections open that have not
      said Hello, and they are served ([closed_server_still_serves]).
    - The sample programs: a request typed at the terminal, from the line to what is
      printed ([typed_request_exchange]), and the policy of the server ([sample_policy]).
    - The queue ([PopNext_best], [Queue_Add_stable]) and the id pool ([Allocate_least],
      [Allocate_wraps], [pool_ids_unique], [Allocate_spins]).

    ** What is not modelled

    What sockets do is the environment's: the outcomes of [bind], [dial] and writes, and
    the events that an accept loop and a read loop observe.  Errors of closing a socket
    are left out: the sockets' [Close] is taken to succeed.  [LocalAddr] and the logger
    only pass on what [net] and the application give; so do the callbacks of the sample
    conference, which only log.  A call that closes a transport does not wait for its
    keepalive in the programs of the server ([Transport_Close] is the part of [Close] under
    the mutex): the whole call is [Close] of [Keepalive.v], and [server_never_panics] leaves
    out what the wait can lead to, which [close_races_hello] shows.  A keepalive goroutine
    is a thread of its own; the ones that a hello starts while a pool of threads runs are
    counted in the wait group but do not join the pool.  The callbacks of the server's application
    do not call back into the server; those of the TCP client and the virtual client are
    programs. *)

From Stdlib Require Export ZArith Lia ZifyNat.
From stdpp Require Export base numbers list gmap strings pretty.

#[global] Set Default Proof Using "Type".

Declare Scope bfcp_scope.
Delimit Scope bfcp_scope with bfcp.
#[global] Open Scope Z_scope.
#[global] Open Scope bfcp_scope.

Create HintDb bfcp discriminated.
#[export] Hint Constants Opaque : bfcp.
Create Rewrite HintDb len.

#[global] Arguments Nat.ltb : simpl never.
#[global] Arguments Nat.leb : simpl never.

(** ** Machine integers

    Go's [uint8], [uint16] and [uint32] are integers of [Z]; every arithmetic
    operation of the source that can leave the width goes through the
    conversion below, and the predicates give the range of a variable. *)

Definition u8 (z : Z) : Z := z `mod` 2 ^ 8.
Definition u16 (z : Z) : Z := z `mod` 2 ^ 16.
Definition u32 (z : Z) : Z := z `mod` 2 ^ 32.

Definition is_u8 (z : Z) : Prop := 0 <= z < 2 ^ 8.
Definition is_u16 (z : Z) : Prop := 0 <= z < 2 ^ 16.
Definition is_u32 (z : Z) : Prop := 0 <= z < 2 ^ 32.

#[global] Instance is_u8_dec z : Decision (is_u8 z).
Proof. unfold is_u8. apply _. Defined.
#[global] Instance is_u16_dec z : Decision (is_u16 z).
Proof. unfold is_u16. apply _. Defined.
#[global] Instance is_u32_dec z : Decision (is_u32 z).
Proof. unfold is_u32. apply _. Defined.

(** [mlia] is [lia] with the equations of [div] and [mod] added; [width]
    unfolds the integer widths first. *)
Ltac mlia := zify; Z.to_euclidean_division_equations; lia.
Ltac width :=
  unfold u8, u16, u32, is_u8, is_u16, is_u32 in *;
  change (2 ^ 8) with 256 in *; change (2 ^ 16) with 65536 in *;
  change (2 ^ 32) with 4294967296 in *.

Lemma u8_range z : is_u8 (u8 z).
Proof. width. mlia. Qed.
Lemma u16_range z : is_u16 (u16 z).
Proof. width. mlia. Qed.
Lemma u32_range z : is_u32 (u32 z).
Proof. width. mlia. Qed.
Lemma u8_small z : is_u8 z → u8 z = z.
Proof. width. mlia. Qed.
Lemma u16_small z : is_u16 z → u16 z = z.
Proof. width. mlia. Qed.
Lemma u32_small z : is_u32 z → u32 z = z.
Proof. width. mlia. Qed.
Lemma is_u8_0 : is_u8 0.
Proof. width. lia. Qed.
#[export] Hint Resolve u8_range u16_range u32_range is_u8_0 : bfcp.

(** Bit operations on packed fields as arithmetic. *)
Lemma land_shiftl_low a b n :
  0 <= n → 0 <= a < 2 ^ n → Z.land a (Z.shiftl b n) = 0.
Proof.
  intros Hn Ha. apply Z.bits_inj'. intros i Hi. rewrite Z.land_spec, Z.bits_0.
  destruct (decide (i < n)).
  - by rewrite Z.shiftl_spec_low, andb_false_r by lia.
  - by rewrite <- (Z.mod_small a (2 ^ n)), Z.mod_pow2_bits_high by lia.
Qed.

Lemma lor_shiftl_add a b n :
  0 <= n → 0 <= a < 2 ^ n → Z.lor a (Z.shiftl b n) = a + b * 2 ^ n.
Proof.
  intros. rewrite <- Z.add_nocarry_lor, Z.shiftl_mul_pow2 by auto using land_shiftl_low.
  done.
Qed.

Lemma lor_shiftl_add_l a b n :
  0 <= n → 0 <= a < 2 ^ n → Z.lor (Z.shiftl b n) a = b * 2 ^ n + a.
Proof. intros. rewrite Z.lor_comm, lor_shiftl_add by done. lia. Qed.

Lemma land_ones_mod a n : 0 <= n → Z.land a (2 ^ n - 1) = a `mod` 2 ^ n.
Proof. intros. rewrite <- Z.land_ones, Z.ones_equiv by lia. f_equal. Qed.

(** ** Results

    A Go call returns a value, an error, or panics; [Diverge] marks a loop
    that has not ended within the fuel of its model. *)
Inductive res (E A : Type) : Type :=
| Ok (a : A)
| Err (e : E)
| Panic
| Diverge.
Arguments Ok {E A} a.
Arguments Err {E A} e.
Arguments Panic {E A}.
Arguments Diverge {E A}.

(** The result of a call that returns no error. *)
Abbreviation call := (res Empty_set).

#[global] Instance res_ret {E} : MRet (res E) := λ A a, Ok a.
#[global] Instance res_bind {E} : MBind (res E) := λ A B f r,
  match r with Ok a => f a | Err e => Err e | Panic => Panic | Diverge => Diverge end.

Definition is_Ok {E A} (r : res E A) : Prop := ∃ a, r = Ok a.

(** The call came back: with a value or with an error, but it neither
    panicked nor ran out of fuel. *)
Definition returns {E A} (r : res E A) : Prop :=
  match r with Ok _ | Err _ => True | Panic | Diverge => False end.

Lemma res_bind_Ok {E A B} (r : res E A) (f : A → res E B) b :
  (r ≫= f) = Ok b → ∃ a, r = Ok a ∧ f a = Ok b.
Proof. destruct r; intros H; [by eauto|discriminate..]. Qed.

Lemma returns_bind {E A B} (r : res E A) (f : A → res E B) :
  returns r → (∀ a, r = Ok a → returns (f a)) → returns (r ≫= f).
Proof. destruct r; cbn; eauto. Qed.

Lemma is_Ok_returns {E A} (r : res E A) : is_Ok r → returns r.
Proof. intros [a ->]. done. Qed.
#[export] Hint Resolve is_Ok_returns : bfcp.

(** [inv_res] splits every bind that returned [Ok]. *)
Ltac inv_res :=
  repeat match goal with
  | H : (_ ≫= _) = Ok _ |- _ => apply res_bind_Ok in H as (?&?&?)
  | H : mret _ = Ok _ |- _ => injection H as H
  | H : Ok _ = Ok _ |- _ => injection H as H
  | H : Panic = Ok _ |- _ => discriminate
  | H : Err _ = Ok _ |- _ => discriminate
  | H : Diverge = Ok _ |- _ => discriminate
  end.

(** ** Lists *)

Lemma filter_all {A} (P : A → Prop) `{∀ x, Decision (P x)} l : Forall P l → filter P l = l.
Proof. induction 1; [done|]. rewrite filter_cons_True by done. by f_equal. Qed.

Lemma filter_none {A} (P : A → Prop) `{∀ x, Decision (P x)} l :
  Forall (λ x, ¬ P x) l → filter P l = [].
Proof. induction 1; [done|]. by rewrite filter_cons_False. Qed.

Lemma sublist_Forall {A} (P : A → Prop) l1 l2 : l1 `sublist_of` l2 → Forall P l2 → Forall P l1.
Proof. induction 1; intros HF; inversion HF; subst; auto. Qed.

Lemma alter_insert {A} (f : A → A) (l : list A) i x :
  l !! i = Some x → alter f i l = <[i := f x]> l.
Proof.
  revert i. induction l as [|y l IH]; intros [|i] Hi; [done..|by simplify_eq/=|].
  change (y :: alter f i l = y :: <[i := f x]> l). f_equal. by apply IH.
Qed.

(** ** Byte slices

    A [[]byte] is a list of [Z], its bounds are checked as the Go runtime
    checks them: an index or a slice expression out of range panics. *)
Abbreviation bytes := (list Z).

(** [s[i]] *)
Definition index {E A} (s : list A) (i : nat) : res E A :=
  match s !! i with Some x => Ok x | None => Panic end.

(** [s[i:j]] *)
Definition slice {E A} (s : list A) (i j : nat) : res E (list A) :=
  if (i <=? j)%nat && (j <=? length s)%nat then Ok (take (j - i) (drop i s)) else Panic.

(** [s[i] = x] *)
Definition set_index {E A} (s : list A) (i : nat) (x : A) : res E (list A) :=
  if (i <? length s)%nat then Ok (<[i:=x]> s) else Panic.

(** [copy(s[i:], src)]: the slice expression is checked, [copy] stops at the
    end of the shorter of the two. *)
Definition copy_at {E A} (s : list A) (i : nat) (src : list A) : res E (list A) :=
  if (length s <? i)%nat then Panic
  else let n := Nat.min (length s - i) (length src) in
       Ok (take i s ++ take n src ++ drop (i + n) s).

(** [make([]byte, n)] *)
Definition zeros (n : nat) : bytes := replicate n 0.
#[global] Arguments zeros : simpl never.

(** [s] holds bytes. *)
Definition all_u8 (s : bytes) : Prop := Forall is_u8 s.

#[global] Instance all_u8_dec s : Decision (all_u8 s).
Proof. unfold all_u8. apply _. Defined.

Notation "s ⟦ i ⟧" := (index s i) (at level 1, i at level 99) : bfcp_scope.

Lemma index_lookup {E A} (s : list A) i x : s !! i = Some x → index (E:=E) s i = Ok x.
Proof. unfold index. by intros ->. Qed.

Lemma index_app {E A} (l1 l2 : list A) x : index (E:=E) (l1 ++ x :: l2) (length l1) = Ok x.
Proof. apply index_lookup. by rewrite lookup_app_r, Nat.sub_diag by lia. Qed.

Lemma index_is_Ok {E A} (s : list A) i : (i < length s)%nat → is_Ok (index (E:=E) s i).
Proof. intros [x Hx]%lookup_lt_is_Some. exists x. by apply index_lookup. Qed.

Lemma slice_app {E A} (l1 l2 l3 : list A) :
  slice (E:=E) (l1 ++ l2 ++ l3) (length l1) (length l1 + length l2) = Ok l2.
Proof.
  unfold slice. rewrite !length_app.
  destruct (Nat.leb_spec (length l1) (length l1 + length l2)); [|lia].
  destruct (Nat.leb_spec (length l1 + length l2)
              (length l1 + (length l2 + length l3))); [|lia].
  cbn. rewrite drop_app_length, Nat.add_comm, Nat.add_sub, take_app_length. done.
Qed.

(** The same facts with the decomposition of the slice as side conditions. *)
Lemma index_eq {E A} (s l1 l2 : list A) x i :
  s = l1 ++ x :: l2 → i = length l1 → index (E:=E) s i = Ok x.
Proof. intros -> ->. apply index_app. Qed.

Lemma slice_eq {E A} (s l1 l2 l3 : list A) i j :
  s = l1 ++ l2 ++ l3 → i = length l1 → j = (length l1 + length l2)%nat →
  slice (E:=E) s i j = Ok l2.
Proof. intros -> -> ->. apply slice_app. Qed.

Lemma slice_Ok {E A} (s : list A) i j :
  (i <= j <= length s)%nat → slice (E:=E) s i j = Ok (take (j - i) (drop i s)).
Proof.
  intros. unfold slice.
  destruct (Nat.leb_spec i j), (Nat.leb_spec j (length s)); try lia. done.
Qed.

Lemma slice_is_Ok {E A} (s : list A) i j :
  (i <= j <= length s)%nat → is_Ok (slice (E:=E) s i j).
Proof. intros. eexists. by apply slice_Ok. Qed.

Lemma slice_inv {E A} (s s' : list A) i j :
  slice (E:=E) s i j = Ok s' →
  (i <= j <= length s)%nat ∧ s' = take (j - i) (drop i s).
Proof.
  unfold slice. destruct (Nat.leb_spec i j), (Nat.leb_spec j (length s)); cbn;
    intros; inv_res; auto.
Qed.

Lemma slice_length {E A} (s s' : list A) i j :
  slice (E:=E) s i j = Ok s' → length s' = (j - i)%nat.
Proof. intros [? ->]%slice_inv. rewrite length_take, length_drop. lia. Qed.

Lemma slice_all_u8 {E} s s' i j :
  all_u8 s → slice (E:=E) s i j = Ok s' → all_u8 s'.
Proof. intros ? [? ->]%slice_inv. by apply Forall_take, Forall_drop. Qed.

Lemma index_u8 {E} s i b : all_u8 s → index (E:=E) s i = Ok b → is_u8 b.
Proof.
  unfold index. destruct (s !! i) eqn:Hi; intros; inv_res. subst.
  by eapply Forall_lookup_1.
Qed.

Lemma set_index_app {E A} (l1 l2 : list A) x y :
  set_index (E:=E) (l1 ++ x :: l2) (length l1) y = Ok (l1 ++ y :: l2).
Proof.
  unfold set_index. rewrite length_app, length_cons.
  destruct (Nat.ltb_spec (length l1) (length l1 + S (length l2))); [|lia].
  rewrite insert_app_r_alt, Nat.sub_diag by lia. done.
Qed.

Lemma copy_at_app {E A} (l1 l2 src : list A) :
  (length src <= length l2)%nat →
  copy_at (E:=E) (l1 ++ l2) (length l1) src = Ok (l1 ++ src ++ drop (length src) l2).
Proof.
  intros. unfold copy_at. rewrite length_app.
  destruct (Nat.ltb_spec (length l1 + length l2) (length l1)); [lia|].
  rewrite Nat.add_comm, Nat.add_sub, Nat.min_r by lia.
  rewrite take_app_length, firstn_all, <- drop_drop, drop_app_length. done.
Qed.

Lemma set_index_eq {E A} (s l1 l2 : list A) x y i :
  s = l1 ++ x :: l2 → i = length l1 → set_index (E:=E) s i y = Ok (l1 ++ y :: l2).
Proof. intros -> ->. apply set_index_app. Qed.

Lemma copy_at_eq {E A} (s l1 l2 src : list A) i :
  s = l1 ++ l2 → i = length l1 → (length src <= length l2)%nat →
  copy_at (E:=E) s i src = Ok (l1 ++ src ++ drop (length src) l2).
Proof. intros -> ->. apply copy_at_app. Qed.

Lemma set_index_length {E A} (s s' : list A) i x :
  set_index (E:=E) s i x = Ok s' → length s' = length s.
Proof.
  unfold set_index. destruct (_ <? _)%nat; intros; inv_res. subst. apply length_insert.
Qed.

Lemma copy_at_length {E A} (s s' src : list A) i :
  copy_at (E:=E) s i src = Ok s' → length s' = length s.
Proof.
  unfold copy_at. destruct (Nat.ltb_spec (length s) i); intros; inv_res. subst.
  rewrite !length_app, !length_take, length_drop. lia.
Qed.

Lemma set_index_is_Ok {E A} (s : list A) i x :
  (i < length s)%nat → is_Ok (set_index (E:=E) s i x).
Proof. intros. unfold set_index. destruct (Nat.ltb_spec i (length s)); [|lia]. by eexists. Qed.

Lemma copy_at_is_Ok {E A} (s src : list A) i :
  (i <= length s)%nat → is_Ok (copy_at (E:=E) s i src).
Proof. intros. unfold copy_at. destruct (Nat.ltb_spec (length s) i); [lia|]. by eexists. Qed.

Lemma length_zeros n : length (zeros n) = n.
Proof. apply length_replicate. Qed.
Lemma zeros_add n m : zeros (n + m) = zeros n ++ zeros m.
Proof. apply replicate_add. Qed.
Lemma zeros_S n : zeros (S n) = 0 :: zeros n.
Proof. done. Qed.
Lemma zeros_pos n : (0 < n)%nat → zeros n = 0 :: zeros (n - 1).
Proof. destruct n; [lia|]. intros. by rewrite zeros_S, Nat.sub_succ, Nat.sub_0_r. Qed.
Lemma drop_zeros n m : drop n (zeros m) = zeros (m - n).
Proof. apply drop_replicate. Qed.
Lemma all_u8_app s1 s2 : all_u8 (s1 ++ s2) ↔ all_u8 s1 ∧ all_u8 s2.
Proof. apply Forall_app. Qed.
Lemma all_u8_zeros n : all_u8 (zeros n).
Proof. apply Forall_replicate, is_u8_0. Qed.
Lemma all_u8_nil : all_u8 [].
Proof. constructor. Qed.
Lemma all_u8_cons b s : is_u8 b → all_u8 s → all_u8 (b :: s).
Proof. by constructor. Qed.
Lemma all_u8_app_2 s1 s2 : all_u8 s1 → all_u8 s2 → all_u8 (s1 ++ s2).
Proof. by rewrite all_u8_app. Qed.
#[export] Hint Resolve all_u8_zeros all_u8_nil all_u8_cons all_u8_app_2 : bfcp.
#[export] Hint Rewrite @length_app @length_cons @length_nil length_zeros
  @length_take @length_drop : len.

(** [lens]: arithmetic on the lengths of concatenated slices. *)
Ltac lens := autorewrite with len in *; cbn [length] in *; try mlia.

(** ** Big-endian integers ([encoding/binary]'s [BigEndian]) *)

(** [PutUint16], [PutUint32] *)
Definition be16 (v : Z) : bytes := [u8 (Z.shiftr v 8); u8 v].
Definition be32 (v : Z) : bytes :=
  [u8 (Z.shiftr v 24); u8 (Z.shiftr v 16); u8 (Z.shiftr v 8); u8 v].

#[global] Arguments be16 : simpl never.
#[global] Arguments be32 : simpl never.

(** [Uint16], [Uint32]; both read the head of the slice and panic when it is
    too short. *)
Definition get16 {E} (s : bytes) : res E Z :=
  match s with
  | b0 :: b1 :: _ => Ok (Z.lor b1 (Z.shiftl b0 8))
  | _ => Panic
  end.
Definition get32 {E} (s : bytes) : res E Z :=
  match s with
  | b0 :: b1 :: b2 :: b3 :: _ =>
      Ok (Z.lor (Z.lor (Z.lor b3 (Z.shiftl b2 8)) (Z.shiftl b1 16)) (Z.shiftl b0 24))
  | _ => Panic
  end.

Lemma length_be16 v : length (be16 v) = 2%nat.
Proof. done. Qed.
Lemma length_be32 v : length (be32 v) = 4%nat.
Proof. done. Qed.
#[export] Hint Rewrite length_be16 length_be32 : len.

Lemma all_u8_be16 v : all_u8 (be16 v).
Proof. repeat constructor; apply u8_range. Qed.
Lemma all_u8_be32 v : all_u8 (be32 v).
Proof. repeat constructor; apply u8_range. Qed.
#[export] Hint Resolve all_u8_be16 all_u8_be32 : bfcp.

Lemma get16_arith {E} b0 b1 s :
  is_u8 b1 → get16 (E:=E) (b0 :: b1 :: s) = Ok (b1 + b0 * 256).
Proof. intros. cbn. rewrite lor_shiftl_add by (width; lia). done. Qed.

Lemma get32_arith {E} b0 b1 b2 b3 s :
  is_u8 b1 → is_u8 b2 → is_u8 b3 →
  get32 (E:=E) (b0 :: b1 :: b2 :: b3 :: s) =
    Ok (b3 + b2 * 256 + b1 * 65536 + b0 * 16777216).
Proof.
  intros. cbn. width.
  rewrite (lor_shiftl_add b3) by lia.
  rewrite (lor_shiftl_add _ b1) by lia.
  rewrite (lor_shiftl_add _ b0) by lia. done.
Qed.

Lemma get16_be16 {E} v s : is_u16 v → get16 (E:=E) (be16 v ++ s) = Ok v.
Proof.
  intros. unfold be16. cbn [app]. rewrite get16_arith by apply u8_range.
  rewrite Z.shiftr_div_pow2 by lia. width. f_equal. mlia.
Qed.

Lemma get32_be32 {E} v s : is_u32 v → get32 (E:=E) (be32 v ++ s) = Ok v.
Proof.
  intros. unfold be32. cbn [app]. rewrite get32_arith by apply u8_range.
  rewrite !Z.shiftr_div_pow2 by lia. width. f_equal.
  change (2 ^ 24) with 16777216. mlia.
Qed.

Lemma get16_be16_nil {E} v : is_u16 v → get16 (E:=E) (be16 v) = Ok v.
Proof. intros. rewrite <- (app_nil_r (be16 v)). by apply get16_be16. Qed.
Lemma get32_be32_nil {E} v : is_u32 v → get32 (E:=E) (be32 v) = Ok v.
Proof. intros. rewrite <- (app_nil_r (be32 v)). by apply get32_be32. Qed.

Lemma be16_get16 b0 b1 : is_u8 b0 → is_u8 b1 → be16 (b1 + b0 * 256) = [b0; b1].
Proof.
  intros. unfold be16. rewrite Z.shiftr_div_pow2 by lia. width.
  f_equal; [mlia|]. f_equal. mlia.
Qed.

Lemma be32_get32 b0 b1 b2 b3 :
  is_u8 b0 → is_u8 b1 → is_u8 b2 → is_u8 b3 →
  be32 (b3 + b2 * 256 + b1 * 65536 + b0 * 16777216) = [b0; b1; b2; b3].
Proof.
  intros. unfold be32. rewrite !Z.shiftr_div_pow2 by lia. width.
  change (2 ^ 24) with 16777216.
  f_equal; [mlia|]. f_equal; [mlia|]. f_equal; [mlia|]. f_equal. mlia.
Qed.

Lemma get16_range {E} s v : all_u8 s → get16 (E:=E) s = Ok v → is_u16 v.
Proof.
  intros Hs H. destruct s as [|b0 [|b1 s]]; try discriminate.
  inversion Hs as [|?? H0 Hs']; subst. inversion Hs' as [|?? H1 _]; subst.
  rewrite get16_arith in H by done. inv_res. subst. width. lia.
Qed.

Lemma get32_range {E} s v : all_u8 s → get32 (E:=E) s = Ok v → is_u32 v.
Proof.
  intros Hs H. destruct s as [|b0 [|b1 [|b2 [|b3 s]]]]; try discriminate.
  unfold all_u8 in Hs. rewrite !Forall_cons in Hs. destruct Hs as (?&?&?&?&_).
  rewrite get32_arith in H by done. inv_res. subst. width. lia.
Qed.

Lemma get16_is_Ok {E} s : (2 <= length s)%nat → is_Ok (get16 (E:=E) s).
Proof. destruct s as [|? [|??]]; cbn; intros; try lia. by eexists. Qed.
Lemma get32_is_Ok {E} s : (4 <= length s)%nat → is_Ok (get32 (E:=E) s).
Proof. destruct s as [|? [|? [|? [|??]]]]; cbn; intros; try lia. by eexists. Qed.
