(* ===== verification/Types.v ===== *)
(** * Protocol constants ([types.go])

    The source declares each of these families as a Go integer type with named
    constants ([type Primitive uint8], ...): a value read from the wire may be
    any byte, so the model keeps the integer and names the constants.  The
    [String] methods are tables with the ["Unknown(%d)"] default. *)

From S2P Require Import Prelude.

(** ** Versions and sizes *)

Definition ProtocolVersionRFC4582 : Z := 1.
Definition ProtocolVersionRFC8855 : Z := 2.
Definition ProtocolVersion : Z := ProtocolVersionRFC4582.
Definition CommonHeaderLength : nat := 12.

(** A [switch] over constants with a string in each case. *)
Fixpoint switch_name (v : Z) (cases : list (Z * string)) (dflt : string) : string :=
  match cases with
  | [] => dflt
  | (c, name) :: cases => if v =? c then name else switch_name v cases dflt
  end.

(** [fmt.Sprintf("Unknown(%d)", v)] *)
Definition unknown_name (v : Z) : string := "Unknown(" +:+ pretty v +:+ ")".

(** ** [Primitive] ([uint8]) *)

Definition PrimitiveFloorRequest : Z := 1.
Definition PrimitiveFloorRelease : Z := 2.
Definition PrimitiveFloorRequestQuery : Z := 3.
Definition PrimitiveFloorRequestStatus : Z := 4.
Definition PrimitiveUserQuery : Z := 5.
Definition PrimitiveUserStatus : Z := 6.
Definition PrimitiveFloorQuery : Z := 7.
Definition PrimitiveFloorStatus : Z := 8.
Definition PrimitiveChairAction : Z := 9.
Definition PrimitiveChairActionAck : Z := 10.
Definition PrimitiveHello : Z := 11.
Definition PrimitiveHelloAck : Z := 12.
Definition PrimitiveError : Z := 13.
Definition PrimitiveFloorRequestStatusAck : Z := 14.
Definition PrimitiveFloorStatusAck : Z := 15.
Definition PrimitiveGoodbye : Z := 16.
Definition PrimitiveGoodbyeAck : Z := 17.
Definition PrimitiveTandbergFloorRequestStatusAck : Z := 91.
Definition PrimitiveTandbergFloorStatusAck : Z := 93.

Definition Primitive_String (v : Z) : string :=
  switch_name v
    [(PrimitiveFloorRequest, "FloorRequest");
     (PrimitiveFloorRelease, "FloorRelease");
     (PrimitiveFloorRequestQuery, "FloorRequestQuery");
     (PrimitiveFloorRequestStatus, "FloorRequestStatus");
     (PrimitiveUserQuery, "UserQuery");
     (PrimitiveUserStatus, "UserStatus");
     (PrimitiveFloorQuery, "FloorQuery");
     (PrimitiveFloorStatus, "FloorStatus");
     (PrimitiveChairAction, "ChairAction");
     (PrimitiveChairActionAck, "ChairActionAck");
     (PrimitiveHello, "Hello");
     (PrimitiveHelloAck, "HelloAck");
     (PrimitiveError, "Error");
     (PrimitiveFloorRequestStatusAck, "FloorRequestStatusAck");
     (PrimitiveFloorStatusAck, "FloorStatusAck");
     (PrimitiveGoodbye, "Goodbye");
     (PrimitiveGoodbyeAck, "GoodbyeAck");
     (PrimitiveTandbergFloorRequestStatusAck, "TandbergFloorRequestStatusAck");
     (PrimitiveTandbergFloorStatusAck, "TandbergFloorStatusAck")]
    (unknown_name v).

(** ** [AttributeType] ([uint8]) *)

Definition AttrBeneficiaryID : Z := 1.
Definition AttrFloorID : Z := 2.
Definition AttrFloorRequestID : Z := 3.
Definition AttrPriority : Z := 4.
Definition AttrRequestStatus : Z := 5.
Definition AttrErrorCode : Z := 6.
Definition AttrErrorInfo : Z := 7.
Definition AttrParticipantProvidedInfo : Z := 8.
Definition AttrStatusInfo : Z := 9.
Definition AttrSupportedAttributes : Z := 10.
Definition AttrSupportedPrimitives : Z := 11.
Definition AttrUserDisplayName : Z := 12.
Definition AttrUserURI : Z := 13.
Definition AttrBeneficiaryInfo : Z := 14.
Definition AttrFloorRequestInfo : Z := 15.
Definition AttrRequestedByInfo : Z := 16.
Definition AttrFloorRequestStatus : Z := 17.
Definition AttrOverallRequestStatus : Z := 18.

Definition AttributeType_String (v : Z) : string :=
  switch_name v
    [(AttrBeneficiaryID, "BeneficiaryID");
     (AttrFloorID, "FloorID");
     (AttrFloorRequestID, "FloorRequestID");
     (AttrPriority, "Priority");
     (AttrRequestStatus, "RequestStatus");
     (AttrErrorCode, "ErrorCode");
     (AttrErrorInfo, "ErrorInfo");
     (AttrParticipantProvidedInfo, "ParticipantProvidedInfo");
     (AttrStatusInfo, "StatusInfo");
     (AttrSupportedAttributes, "SupportedAttributes");
     (AttrSupportedPrimitives, "SupportedPrimitives");
     (AttrUserDisplayName, "UserDisplayName");
     (AttrUserURI, "UserURI");
     (AttrBeneficiaryInfo, "BeneficiaryInfo");
     (AttrFloorRequestInfo, "FloorRequestInfo");
     (AttrRequestedByInfo, "RequestedByInfo");
     (AttrFloorRequestStatus, "FloorRequestStatus");
     (AttrOverallRequestStatus, "OverallRequestStatus")]
    (unknown_name v).

(** ** [RequestStatus] ([uint8]) *)

Definition RequestStatusPending : Z := 1.
Definition RequestStatusAccepted : Z := 2.
Definition RequestStatusGranted : Z := 3.
Definition RequestStatusDenied : Z := 4.
Definition RequestStatusCancelled : Z := 5.
Definition RequestStatusReleased : Z := 6.
Definition RequestStatusRevoked : Z := 7.

Definition RequestStatus_String (v : Z) : string :=
  switch_name v
    [(RequestStatusPending, "Pending");
     (RequestStatusAccepted, "Accepted");
     (RequestStatusGranted, "Granted");
     (RequestStatusDenied, "Denied");
     (RequestStatusCancelled, "Cancelled");
     (RequestStatusReleased, "Released");
     (RequestStatusRevoked, "Revoked")]
    (unknown_name v).

(** ** [ErrorCode] ([uint8]) *)

Definition ErrorConferenceDoesNotExist : Z := 1.
Definition ErrorUserDoesNotExist : Z := 2.
Definition ErrorUnknownPrimitive : Z := 3.
Definition ErrorUnknownMandatoryAttribute : Z := 4.
Definition ErrorUnauthorizedOperation : Z := 5.
Definition ErrorInvalidFloorID : Z := 6.
Definition ErrorFloorRequestIDDoesNotExist : Z := 7.
Definition ErrorMaximumFloorsReached : Z := 8.
Definition ErrorUseBFCP : Z := 9.
Definition ErrorFloorReleaseDenied : Z := 10.
Definition ErrorInsufficientUserPrivileges : Z := 11.

Definition ErrorCode_String (v : Z) : string :=
  switch_name v
    [(ErrorConferenceDoesNotExist, "ConferenceDoesNotExist");
     (ErrorUserDoesNotExist, "UserDoesNotExist");
     (ErrorUnknownPrimitive, "UnknownPrimitive");
     (ErrorUnknownMandatoryAttribute, "UnknownMandatoryAttribute");
     (ErrorUnauthorizedOperation, "UnauthorizedOperation");
     (ErrorInvalidFloorID, "InvalidFloorID");
     (ErrorFloorRequestIDDoesNotExist, "FloorRequestIDDoesNotExist");
     (ErrorMaximumFloorsReached, "MaximumFloorsReached");
     (ErrorUseBFCP, "UseBFCP");
     (ErrorFloorReleaseDenied, "FloorReleaseDenied");
     (ErrorInsufficientUserPrivileges, "InsufficientUserPrivileges")]
    (unknown_name v).

(** ** [Priority] ([uint16]) *)

Definition PriorityLowest : Z := 0.
Definition PriorityLow : Z := 256.
Definition PriorityNormal : Z := 512.
Definition PriorityHigh : Z := 768.
Definition PriorityHighest : Z := 1023.

(** ** [SessionState] ([uint8]) *)

Definition StateDisconnected : Z := 0.
Definition StateConnected : Z := 1.
Definition StateWaitHelloAck : Z := 2.
Definition StateWaitFloorRequest : Z := 3.
Definition StateFloorRequested : Z := 4.
Definition StateFloorGranted : Z := 5.
Definition StateFloorDenied : Z := 6.
Definition StateFloorReleased : Z := 7.

Definition SessionState_String (v : Z) : string :=
  switch_name v
    [(StateDisconnected, "Disconnected");
     (StateConnected, "Connected");
     (StateWaitHelloAck, "WaitHelloAck");
     (StateWaitFloorRequest, "WaitFloorRequest");
     (StateFloorRequested, "FloorRequested");
     (StateFloorGranted, "FloorGranted");
     (StateFloorDenied, "FloorDenied");
     (StateFloorReleased, "FloorReleased")]
    (unknown_name v).

