(* ===== verification/Message.v ===== *)
(** * Messages and attribute builders ([message.go])

    The message record, the [Add*] methods and the byte-level builders of
    simple and grouped attributes.  Methods that mutate the receiver return the
    updated message. *)

From S2P Require Import Prelude Types.

(** ** Data *)

Record Attribute := mkAttribute {
  aType : Z;        (* AttributeType, uint8 *)
  aLength : Z;      (* uint8: bytes of the value *)
  aValue : bytes;
  aRawTLV : bool    (* the value is a complete pre-encoded TLV *)
}.

Record Message := mkMessage {
  mVersion : Z;        (* uint8, 3 bits on the wire *)
  mReserved : Z;       (* uint8, 5 bits on the wire; 0x10 is the R flag *)
  mPrimitive : Z;      (* Primitive, uint8 *)
  mPayloadLength : Z;  (* uint16, 4-byte words *)
  mConferenceID : Z;   (* uint32 *)
  mTransactionID : Z;  (* uint16 *)
  mUserID : Z;         (* uint16 *)
  mAttributes : list Attribute
}.

#[global] Instance Attribute_eq_dec : EqDecision Attribute.
Proof. solve_decision. Defined.
#[global] Instance Message_eq_dec : EqDecision Message.
Proof. solve_decision. Defined.

(** Field assignments of the source. *)
Definition set_Version (v : Z) (m : Message) : Message :=
  mkMessage v (mReserved m) (mPrimitive m) (mPayloadLength m) (mConferenceID m)
    (mTransactionID m) (mUserID m) (mAttributes m).
Definition set_Reserved (r : Z) (m : Message) : Message :=
  mkMessage (mVersion m) r (mPrimitive m) (mPayloadLength m) (mConferenceID m)
    (mTransactionID m) (mUserID m) (mAttributes m).
Definition set_PayloadLength (l : Z) (m : Message) : Message :=
  mkMessage (mVersion m) (mReserved m) (mPrimitive m) l (mConferenceID m)
    (mTransactionID m) (mUserID m) (mAttributes m).
Definition set_Attributes (l : list Attribute) (m : Message) : Message :=
  mkMessage (mVersion m) (mReserved m) (mPrimitive m) (mPayloadLength m) (mConferenceID m)
    (mTransactionID m) (mUserID m) l.

Definition NewMessage (primitive conferenceID transactionID userID : Z) : Message :=
  mkMessage ProtocolVersion 0 primitive 0 conferenceID transactionID userID [].

(** ** [Add*] methods *)

Definition AddAttribute (attrType : Z) (value : bytes) (m : Message) : Message :=
  set_Attributes
    (mAttributes m ++ [mkAttribute attrType (u8 (Z.of_nat (length value))) value false]) m.

Definition AddFloorID (floorID : Z) : Message → Message :=
  AddAttribute AttrFloorID (be16 floorID).

Definition AddFloorRequestID (requestID : Z) : Message → Message :=
  AddAttribute AttrFloorRequestID (be16 requestID).

Definition AddBeneficiaryID (beneficiaryID : Z) : Message → Message :=
  AddAttribute AttrBeneficiaryID (be16 beneficiaryID).

Definition AddRequestStatus (status queuePosition : Z) : Message → Message :=
  AddAttribute AttrRequestStatus [u8 status; queuePosition].

Definition AddErrorCode (errorCode : Z) : Message → Message :=
  AddAttribute AttrErrorCode [u8 errorCode].

(** [[]byte(info)] *)
Definition string_bytes (s : string) : bytes :=
  (λ a, Z.of_nat (Ascii.nat_of_ascii a)) <$> String.list_ascii_of_string s.

Definition AddErrorInfo (info : string) : Message → Message :=
  AddAttribute AttrErrorInfo (string_bytes info).

Definition AddSupportedPrimitives (primitives : list Z) : Message → Message :=
  AddAttribute AttrSupportedPrimitives (u8 <$> primitives).

Definition AddSupportedAttributes (attributes : list Z) : Message → Message :=
  AddAttribute AttrSupportedAttributes (u8 <$> attributes).

Definition AddPriority (priority : Z) : Message → Message :=
  AddAttribute AttrPriority (be16 (u16 priority)).

(** ** Byte-level builders *)

(** Padding of [n] bytes to a 4-byte boundary. *)
Definition pad4 (n : nat) : nat := ((4 - n mod 4) mod 4)%nat.

(** [attrType << 1], with the mandatory bit. *)
Definition type_byte (attrType : Z) (mandatory : bool) : Z :=
  Z.lor (u8 (Z.shiftl attrType 1)) (if mandatory then 1 else 0).

Definition buildSimpleAttr (attrType : Z) (mandatory : bool) (value : bytes) : bytes :=
  let l := (2 + length value)%nat in
  [type_byte attrType mandatory; u8 (Z.of_nat l)] ++ value ++ zeros (pad4 l).

Definition buildGroupedAttr (attrType : Z) (mandatory : bool) (children : list bytes) : bytes :=
  let size := (2 + sum_list (length <$> children))%nat in
  [type_byte attrType mandatory; u8 (Z.of_nat size)] ++ concat children ++ zeros (pad4 size).

Definition buildGroupedAttrWithHeaderID (attrType : Z) (mandatory : bool) (headerID : Z)
    (children : list bytes) : bytes :=
  let size := (4 + sum_list (length <$> children))%nat in
  [type_byte attrType mandatory; u8 (Z.of_nat size);
   u8 (Z.shiftr headerID 8); u8 (Z.land headerID 0xFF)]
    ++ concat children ++ zeros (pad4 size).

(** The FLOOR-REQUEST-INFORMATION attribute shared by
    [AddFloorRequestInformationRFC4582] and [BuildFloorStatusMessage]:
    OVERALL-REQUEST-STATUS and FLOOR-REQUEST-STATUS around one
    REQUEST-STATUS. *)
Definition floorReqInfoAttr (requestID status floorID : Z) : bytes :=
  let requestStatusAttr := buildSimpleAttr AttrRequestStatus false [u8 status; 0] in
  let overallReqStatusAttr :=
    buildGroupedAttrWithHeaderID AttrOverallRequestStatus false requestID [requestStatusAttr] in
  let floorReqStatusAttr :=
    buildGroupedAttrWithHeaderID AttrFloorRequestStatus false floorID [requestStatusAttr] in
  buildGroupedAttrWithHeaderID AttrFloorRequestInfo true requestID
    [overallReqStatusAttr; floorReqStatusAttr].

Definition BuildFloorStatusMessage
    (version confID txID userID floorID requestID status : Z) : bytes :=
  let floorIDAttr := buildSimpleAttr AttrFloorID true (be16 floorID) in
  let payload := floorIDAttr ++ floorReqInfoAttr requestID status floorID in
  [u8 (Z.shiftl version 5); u8 PrimitiveFloorStatus]
    ++ be16 (u16 (Z.of_nat (length payload / 4))) ++ be32 confID ++ be16 txID ++ be16 userID
    ++ payload.

Definition AddFloorRequestInformationRFC4582 (requestID status floorID : Z) (m : Message)
    : Message :=
  let attr := floorReqInfoAttr requestID status floorID in
  set_Attributes
    (mAttributes m ++ [mkAttribute AttrFloorRequestInfo (u8 (Z.of_nat (length attr))) attr true]) m.

Definition AddFloorRequestInformation (requestID status queuePos : Z) (floorIDs : list Z)
    (m : Message) : Message :=
  match floorIDs with
  | floorID :: _ => AddFloorRequestInformationRFC4582 requestID status floorID m
  | [] => m
  end.

(** One sub-attribute as [AddGroupedAttribute] writes it: its length byte is the
    length of the value alone. *)
Definition grouped_sub_bytes (attr : Attribute) : bytes :=
  let attrBytes :=
    [Z.lor (u8 (Z.shiftl (aType attr) 1)) 1; aLength attr] ++ aValue attr in
  attrBytes ++
    (if decide (length attrBytes mod 4 = 0)%nat then []
     else zeros (4 - length attrBytes mod 4)).

Definition AddGroupedAttribute (attrType : Z) (subAttributes : list Attribute)
    (m : Message) : Message :=
  AddAttribute attrType (concat (grouped_sub_bytes <$> subAttributes)) m.

(** ** [GetAttribute] *)

Definition GetAttribute (attrType : Z) (m : Message) : option Attribute :=
  head (filter (λ a, aType a = attrType) (mAttributes m)).

(** ** The R flag ([grouped.go]) *)

Definition headerFlagResponse : Z := 0x10.

Definition IsResponse (m : Message) : bool :=
  negb (Z.land (mReserved m) headerFlagResponse =? 0).

Definition SetResponse (response : bool) (m : Message) : Message :=
  if response then set_Reserved (Z.lor (mReserved m) headerFlagResponse) m
  else set_Reserved (Z.ldiff (mReserved m) headerFlagResponse) m.

(** ** Facts about the builders *)

(** An attribute type fits in the 7 bits of the type byte. *)
Definition is_u7 (t : Z) : Prop := 0 <= t < 2 ^ 7.

#[global] Instance is_u7_dec t : Decision (is_u7 t).
Proof. unfold is_u7. apply _. Defined.

(** [is_u7] of a named attribute type. *)
#[export] Hint Extern 1 (is_u7 _) => (apply (bool_decide_unpack _); vm_compute; exact I) : bfcp.

(** What a parser gets from the TLV of type [t] and value [v]. *)
Definition tlv_attr (t : Z) (v : bytes) : Attribute :=
  mkAttribute t (Z.of_nat (length v)) v false.

(** The largest value whose TLV length, header included, fits in the length
    byte. *)
Definition max_value_len : nat := 253.

Lemma pad4_spec n : ((n + pad4 n) mod 4 = 0 ∧ pad4 n < 4)%nat.
Proof. unfold pad4. mlia. Qed.

Lemma pad4_if n :
  (if decide (n mod 4 = 0) then 0 else 4 - n mod 4)%nat = pad4 n.
Proof. unfold pad4. case_decide; mlia. Qed.

Lemma pad4_mult n : (n mod 4 = 0 → pad4 n = 0)%nat.
Proof. unfold pad4. mlia. Qed.

Lemma type_byte_arith t mandatory :
  is_u7 t → type_byte t mandatory = t * 2 + (if mandatory then 1 else 0).
Proof.
  unfold is_u7, type_byte. change (2 ^ 7) with 128. intros.
  rewrite u8_small by (rewrite Z.shiftl_mul_pow2 by lia; width; lia).
  rewrite lor_shiftl_add_l; [done|lia|destruct mandatory; lia].
Qed.

Lemma type_byte_decode t mandatory : is_u7 t → Z.shiftr (type_byte t mandatory) 1 = t.
Proof.
  intros. rewrite type_byte_arith, Z.shiftr_div_pow2 by (done || lia).
  change (2 ^ 1) with 2. destruct mandatory; mlia.
Qed.

Lemma type_byte_range t mandatory : is_u7 t → is_u8 (type_byte t mandatory).
Proof.
  intros. rewrite type_byte_arith by done. unfold is_u7 in *. width.
  change (2 ^ 7) with 128 in *. destruct mandatory; lia.
Qed.
#[export] Hint Resolve type_byte_range : bfcp.

#[global] Arguments buildSimpleAttr : simpl never.
#[global] Arguments floorReqInfoAttr : simpl never.

Lemma length_buildSimpleAttr t mandatory v :
  length (buildSimpleAttr t mandatory v) = (2 + length v + pad4 (2 + length v))%nat.
Proof. unfold buildSimpleAttr. lens. Qed.
#[export] Hint Rewrite length_buildSimpleAttr : len.

Lemma buildSimpleAttr_aligned t mandatory v :
  (length (buildSimpleAttr t mandatory v) mod 4 = 0)%nat.
Proof. rewrite length_buildSimpleAttr. apply pad4_spec. Qed.

Lemma all_u8_buildSimpleAttr t mandatory v :
  is_u7 t → all_u8 v → all_u8 (buildSimpleAttr t mandatory v).
Proof.
  intros. unfold buildSimpleAttr. auto 7 with bfcp.
Qed.
#[export] Hint Resolve all_u8_buildSimpleAttr : bfcp.

Lemma length_concat {A} (ls : list (list A)) :
  length (concat ls) = sum_list (length <$> ls).
Proof. induction ls as [|l ls IH]; [done|]. cbn. by rewrite length_app, IH. Qed.

(** A grouped attribute is the simple attribute whose value is the header ID
    followed by the children. *)
Lemma buildGroupedAttrWithHeaderID_simple t mandatory id children :
  buildGroupedAttrWithHeaderID t mandatory id children =
  buildSimpleAttr t mandatory (be16 id ++ concat children).
Proof.
  unfold buildGroupedAttrWithHeaderID, buildSimpleAttr, be16.
  rewrite length_app, length_concat. cbn [length app].
  replace (u8 (Z.land id 255)) with (u8 id)
    by (change 255 with (2 ^ 8 - 1); rewrite land_ones_mod by lia; width; mlia).
  reflexivity.
Qed.

Lemma buildGroupedAttr_simple t mandatory children :
  buildGroupedAttr t mandatory children = buildSimpleAttr t mandatory (concat children).
Proof. unfold buildGroupedAttr, buildSimpleAttr. by rewrite length_concat. Qed.

(** The value of the FLOOR-REQUEST-INFORMATION attribute. *)
Definition floorReqInfoValue (requestID status floorID : Z) : bytes :=
  let rs := buildSimpleAttr AttrRequestStatus false [u8 status; 0] in
  be16 requestID ++
  buildSimpleAttr AttrOverallRequestStatus false (be16 requestID ++ rs) ++
  buildSimpleAttr AttrFloorRequestStatus false (be16 floorID ++ rs).

#[global] Arguments floorReqInfoValue : simpl never.

Lemma floorReqInfoAttr_simple requestID status floorID :
  floorReqInfoAttr requestID status floorID =
  buildSimpleAttr AttrFloorRequestInfo true (floorReqInfoValue requestID status floorID).
Proof.
  unfold floorReqInfoAttr, floorReqInfoValue.
  rewrite !buildGroupedAttrWithHeaderID_simple. cbn [concat].
  by rewrite !app_nil_r.
Qed.

Lemma length_floorReqInfoValue requestID status floorID :
  length (floorReqInfoValue requestID status floorID) = 18%nat.
Proof. reflexivity. Qed.
#[export] Hint Rewrite length_floorReqInfoValue : len.

Lemma all_u8_floorReqInfoValue requestID status floorID :
  all_u8 (floorReqInfoValue requestID status floorID).
Proof.
  unfold floorReqInfoValue. auto 12 with bfcp.
Qed.
#[export] Hint Resolve all_u8_floorReqInfoValue : bfcp.
