(* ===== verification/Text.v ===== *)
(** * The text functions of Go that a command line needs

    [strings.TrimSpace], [strings.Fields] and [strconv.ParseUint(s, 10, 16)] on strings
    as bytes: white space is that of Unicode, read from its UTF-8 encoding, and bytes
    that encode nothing are not white space. *)

From S2P Require Import Prelude Types Message.

(** The number of bytes of the white space that [s] starts with, if it does: the ASCII
    characters, U+0085 and U+00A0, U+1680, U+2000 to U+200A, U+2028, U+2029, U+202F,
    U+205F and U+3000. *)
Definition space_len (s : bytes) : nat :=
  match s with
  | [] => 0
  | b :: s =>
      if ((9 <=? b) && (b <=? 13)) || (b =? 32) then 1
      else match s with
      | c :: s' =>
          if (b =? 194) && ((c =? 133) || (c =? 160)) then 2
          else match s' with
          | d :: _ =>
              if ((b =? 225) && (c =? 154) && (d =? 128))
                 || ((b =? 226) && (c =? 128) && (((128 <=? d) && (d <=? 138)) || (d =? 168) || (d =? 169) || (d =? 175)))
                 || ((b =? 226) && (c =? 129) && (d =? 159))
                 || ((b =? 227) && (c =? 128) && (d =? 128))
              then 3 else 0
          | [] => 0
          end
      | [] => 0
      end
  end.

(** [strings.Fields]: [cur] is the word that is read, [skip] what is left of a white
    space. *)
Fixpoint fields_from (s cur : bytes) (skip : nat) : list bytes :=
  match s with
  | [] => match cur with [] => [] | _ => [cur] end
  | b :: s' =>
      match skip with
      | S skip => fields_from s' cur skip
      | O =>
          match space_len s with
          | O => fields_from s' (cur ++ [b]) 0
          | S skip => match cur with [] => [] | _ => [cur] end ++ fields_from s' [] skip
          end
      end
  end.
Definition Fields (s : bytes) : list bytes := fields_from s [] 0.

(** [strings.TrimSpace]: the white space at the start goes, and the end of the string from
    where there is nothing else. *)
Fixpoint trim_left (s : bytes) (skip : nat) : bytes :=
  match s with
  | [] => []
  | b :: s' =>
      match skip with
      | S skip => trim_left s' skip
      | O => match space_len s with O => s | S skip => trim_left s' skip end
      end
  end.
Fixpoint trim_right (s : bytes) : bytes :=
  match s with
  | [] => []
  | b :: s' => if bool_decide (trim_left s 0 = []) then [] else b :: trim_right s'
  end.
Definition TrimSpace (s : bytes) : bytes := trim_right (trim_left s 0).

(** [strconv.ParseUint(s, 10, 16)] *)
Inductive parse_error := ErrSyntax | ErrRange.

Fixpoint parse_digits (s : bytes) (n : Z) : Z + parse_error :=
  match s with
  | [] => inl n
  | c :: s =>
      if (48 <=? c) && (c <=? 57) then
        let n := n * 10 + (c - 48) in
        if 65535 <? n then inr ErrRange else parse_digits s n
      else inr ErrSyntax
  end.
Definition ParseUint (s : bytes) : Z + parse_error :=
  match s with [] => inr ErrSyntax | _ => parse_digits s 0 end.

(** ** Numbers *)

Lemma parse_digits_range s n m :
  0 ≤ n ≤ 65535 → parse_digits s n = inl m → is_u16 m.
Proof.
  revert n. induction s as [|c s IH]; intros n Hn; cbn [parse_digits].
  { intros [= <-]. unfold is_u16. lia. }
  destruct (Z.leb_spec 48 c), (Z.leb_spec c 57); cbn [andb]; try done.
  destruct (Z.ltb_spec 65535 (n * 10 + (c - 48))); [done|]. apply IH. lia.
Qed.

Lemma ParseUint_range s n : ParseUint s = inl n → is_u16 n.
Proof. destruct s; [done|]. apply parse_digits_range. lia. Qed.

Lemma digit_byte (x : N) :
  (x < 10)%N → Z.of_nat (Ascii.nat_of_ascii (pretty_N_char x)) = 48 + Z.of_N x.
Proof.
  intros Hx. assert (x = 0 ∨ x = 1 ∨ x = 2 ∨ x = 3 ∨ x = 4 ∨ x = 5 ∨ x = 6 ∨ x = 7 ∨ x = 8 ∨ x = 9)%N as H
    by lia. by destruct H as [->|[->|[->|[->|[->|[->|[->|[->|[->| ->]]]]]]]]].
Qed.

(** Reading a decimal number gives it back. *)
Lemma parse_digits_pretty_go x s :
  (x <= 65535)%N →
  parse_digits (string_bytes (pretty_N_go x s)) 0 = parse_digits (string_bytes s) (Z.of_N x).
Proof.
  revert s. induction (N.lt_wf_0 x) as [x _ IH]; intros s Hx.
  destruct (decide (x = 0)%N) as [->|Hne]; [by rewrite pretty_N_go_0|].
  rewrite pretty_N_go_step by lia. pose proof (N.div_mod x 10 ltac:(lia)) as Hdm.
  assert (x mod 10 < 10)%N as Hmod by (apply N.mod_lt; lia).
  rewrite IH by lia. cbn [string_bytes String.list_ascii_of_string fmap list_fmap parse_digits].
  rewrite digit_byte by done. set (q := (x / 10)%N) in *. set (r := (x mod 10)%N) in *.
  rewrite (proj2 (Z.leb_le _ _)), (proj2 (Z.leb_le _ _)), (proj2 (Z.ltb_ge _ _)) by lia.
  cbn [andb]. f_equal. lia.
Qed.

Lemma ParseUint_pretty n : is_u16 n → ParseUint (string_bytes (pretty n)) = inl n.
Proof.
  unfold is_u16. intros Hn. destruct n as [|p|p]; [done| |lia].
  change (pretty (Z.pos p)) with (pretty (N.pos p)). unfold pretty, pretty_N.
  rewrite decide_False by done.
  pose proof (parse_digits_pretty_go (N.pos p) "" ltac:(lia)) as H.
  unfold ParseUint. destruct (string_bytes _) eqn:He; [|by rewrite H].
  by apply (f_equal (λ s, parse_digits s 0)) in He; rewrite H in He; cbn in He.
Qed.

(** ** Words *)

Definition plain (b : Z) : Prop := 33 ≤ b ≤ 126.
Definition blank (b : Z) : Prop := 9 ≤ b ≤ 13 ∨ b = 32.

#[global] Instance plain_dec b : Decision (plain b).
Proof. unfold plain. apply _. Defined.
#[global] Instance blank_dec b : Decision (blank b).
Proof. unfold blank. apply _. Defined.

(** Decimal numbers are words. *)
Lemma pretty_go_plain x s :
  Forall plain (string_bytes s) → Forall plain (string_bytes (pretty_N_go x s)).
Proof.
  revert s. induction (N.lt_wf_0 x) as [x _ IH]; intros s Hs.
  destruct (decide (x = 0)%N) as [->|Hne]; [by rewrite pretty_N_go_0|].
  rewrite pretty_N_go_step by lia. apply IH; [apply N.div_lt; lia|].
  assert (x mod 10 < 10)%N as Hmod by (apply N.mod_lt; lia).
  constructor; [|exact Hs]. rewrite digit_byte by done. unfold plain. lia.
Qed.

Lemma pretty_plain n : is_u16 n → Forall plain (string_bytes (pretty n)).
Proof.
  unfold is_u16. intros Hn. destruct n as [|p|p]; [apply (bool_decide_unpack _); exact I| |lia].
  change (pretty (Z.pos p)) with (pretty (N.pos p)). unfold pretty, pretty_N.
  rewrite decide_False by done. by apply pretty_go_plain.
Qed.

Lemma space_len_plain b s : plain b → space_len (b :: s) = 0%nat.
Proof.
  unfold plain. intros Hb. cbn [space_len].
  replace (9 <=? b) with true by lia. replace (b <=? 13) with false by lia.
  replace (b =? 32) with false by lia. replace (b =? 194) with false by lia.
  replace (b =? 225) with false by lia. replace (b =? 226) with false by lia.
  replace (b =? 227) with false by lia. by destruct s as [|? [|? ?]].
Qed.

Lemma space_len_blank b s : blank b → space_len (b :: s) = 1%nat.
Proof.
  unfold blank. intros Hb. cbn [space_len].
  by replace (((9 <=? b) && (b <=? 13)) || (b =? 32)) with true by lia.
Qed.

Lemma trim_left_blanks u s : Forall blank u → trim_left (u ++ s) 0 = trim_left s 0.
Proof. induction 1 as [|b u Hb _ IH]; [done|]. cbn -[space_len]. by rewrite space_len_blank. Qed.

Lemma trim_left_plain b s : plain b → trim_left (b :: s) 0 = b :: s.
Proof. intros Hb. cbn -[space_len]. by rewrite space_len_plain. Qed.

(** A word somewhere ahead stops the trimming. *)
Lemma trim_left_text s b t :
  Forall (λ c, blank c ∨ plain c) s → plain b → trim_left (s ++ b :: t) 0 ≠ [].
Proof.
  intros Hs Hb. induction Hs as [|c s [Hc|Hc] _ IH]; cbn [app].
  - by rewrite trim_left_plain.
  - cbn -[space_len]. by rewrite space_len_blank.
  - by rewrite trim_left_plain.
Qed.

Lemma trim_right_blanks u : Forall blank u → trim_right u = [].
Proof.
  intros Hu. destruct u as [|b u]; [done|]. cbn [trim_right].
  rewrite bool_decide_eq_true_2; [done|].
  rewrite <- (app_nil_r (b :: u)). by rewrite trim_left_blanks.
Qed.

Lemma trim_right_text s b u :
  Forall (λ c, blank c ∨ plain c) s → plain b → Forall blank u →
  trim_right (s ++ b :: u) = s ++ [b].
Proof.
  intros Hs Hb Hu. induction Hs as [|c s Hc Hs IH]; cbn [app trim_right].
  - rewrite trim_left_plain by done. by rewrite bool_decide_eq_false_2, trim_right_blanks by done.
  - rewrite bool_decide_eq_false_2; [by rewrite IH|].
    apply (trim_left_text (c :: s)); [by constructor|done].
Qed.

Lemma fields_blanks u s : Forall blank u → fields_from (u ++ s) [] 0 = fields_from s [] 0.
Proof. induction 1 as [|b u Hb _ IH]; [done|]. cbn -[space_len]. by rewrite space_len_blank. Qed.

Lemma fields_word w cur s :
  Forall plain w → fields_from (w ++ s) cur 0 = fields_from s (cur ++ w) 0.
Proof.
  intros Hw. revert cur. induction Hw as [|b w Hb _ IH]; intros cur; [by rewrite app_nil_r|].
  cbn -[space_len]. rewrite space_len_plain by done. rewrite IH. by rewrite <- app_assoc.
Qed.

Lemma fields_end cur u : cur ≠ [] → u ≠ [] → Forall blank u →
  ∀ s, fields_from (u ++ s) cur 0 = cur :: fields_from s [] 0.
Proof.
  intros Hc Hu Hb s. destruct Hb as [|b u Hb Hbs]; [done|]. cbn -[space_len].
  rewrite space_len_blank by done. rewrite fields_blanks by done. by destruct cur.
Qed.

(** A command and its argument, between blanks. *)
Lemma Fields_two u cmd v arg t :
  Forall blank u → Forall plain cmd → cmd ≠ [] → Forall blank v → v ≠ [] →
  Forall plain arg → arg ≠ [] → Forall blank t →
  Fields (TrimSpace (u ++ cmd ++ v ++ arg ++ t)) = [cmd; arg].
Proof.
  intros Hu Hcmd Hne Hv Hnv Harg Hna Ht. unfold TrimSpace. rewrite trim_left_blanks by done.
  destruct Hcmd as [|b cmd Hb Hcmd]; [done|]. cbn [app]. rewrite trim_left_plain by done.
  destruct (exists_last Hna) as (arg' & c & ->). apply Forall_app in Harg as [Harg Hc].
  rewrite <- app_assoc. cbn [app].
  replace (b :: cmd ++ v ++ arg' ++ c :: t) with ((b :: cmd ++ v ++ arg') ++ c :: t)
    by (cbn; by rewrite <- !app_assoc).
  rewrite trim_right_text; [|  |by inversion Hc|done].
  - replace ((b :: cmd ++ v ++ arg') ++ [c]) with ((b :: cmd) ++ v ++ (arg' ++ [c]) ++ [])
      by (cbn; by rewrite app_nil_r, <- !app_assoc).
    unfold Fields. rewrite fields_word by by constructor. rewrite fields_end by done.
    rewrite fields_word by by apply Forall_app. cbn [app fields_from]. by destruct arg'.
  - constructor; [by right|]. apply Forall_app. split; [by eapply Forall_impl; [exact Hcmd|right]|].
    apply Forall_app. split; (eapply Forall_impl; [eassumption|]); [by left|by right].
Qed.

(** ** A line that is not empty has a word *)

Lemma space_len_prefix s s' : s `prefix_of` s' → space_len s' = 0%nat → space_len s = 0%nat.
Proof.
  intros [t ->]. destruct s as [|b [|c [|d s]]]; cbn [app space_len]; try done.
  - destruct (_ || _); [done|]. by destruct t as [|? [|? ?]].
  - destruct (_ || _); [done|]. destruct (_ && _); [done|]. by destruct t.
Qed.

Lemma trim_right_prefix s : trim_right s `prefix_of` s.
Proof.
  induction s as [|b s IH]; [done|]. cbn [trim_right]. case_bool_decide; [apply prefix_nil|].
  by apply prefix_cons.
Qed.

Lemma trim_left_head s k : trim_left s k ≠ [] → space_len (trim_left s k) = 0%nat.
Proof.
  revert k. induction s as [|b s IH]; intros k; [done|]. cbn -[space_len].
  destruct k; [|apply IH]. destruct (space_len (b :: s)) eqn:Hl; [done|apply IH].
Qed.

Lemma fields_from_word s cur k : cur ≠ [] → fields_from s cur k ≠ [].
Proof.
  revert cur k. induction s as [|b s IH]; intros cur k Hc; cbn -[space_len]; [by destruct cur|].
  destruct k; [|by apply IH]. destruct (space_len _); [|by destruct cur].
  apply IH. by destruct cur.
Qed.

Lemma Fields_TrimSpace s : TrimSpace s ≠ [] → Fields (TrimSpace s) ≠ [].
Proof.
  unfold TrimSpace. intros Hne. pose proof (trim_right_prefix (trim_left s 0)) as Hp.
  assert (space_len (trim_right (trim_left s 0)) = 0%nat) as Hl.
  { eapply space_len_prefix; [exact Hp|]. apply trim_left_head. intros He. by rewrite He in Hne. }
  destruct (trim_right _) as [|b t]; [done|]. unfold Fields. cbn -[space_len]. rewrite Hl.
  by apply fields_from_word.
Qed.
