(* ===== verification/Grouped.v ===== *)
(** * Grouped attributes and message getters ([grouped.go], [message.go])

    [parseTLVs], the parser of FLOOR-REQUEST-INFORMATION, and the getters that
    fall back on it.  First the definitions, then: the parser always returns,
    it inverts the builders of [Message], and the getters read back what the
    [Add*] methods wrote. *)

From S2P Require Import Prelude Types Message.

(** ** Parsing a run of TLVs *)

(** The error of [parseTLVs] comes with the attributes parsed before it. *)
Inductive tlv_error :=
| InvalidTLVLength (attrs : list Attribute) (length offset : nat).

(** [offset += length; if padding := length % 4; padding != 0 { offset += 4 - padding }] *)
Definition skip_padded (offset length : nat) : nat :=
  let offset := (offset + length)%nat in
  let padding := (length mod 4)%nat in
  if decide (padding = 0%nat) then offset else (offset + (4 - padding))%nat.

Fixpoint parseTLVs_loop (fuel : nat) (data : bytes) (attrs : list Attribute) (offset : nat)
    : res tlv_error (list Attribute) :=
  match fuel with
  | O => Diverge
  | S fuel =>
      if (offset + 2 <=? length data)%nat then
        b ← data⟦offset⟧;
        l ← data⟦offset + 1⟧;
        let attrType := Z.shiftr b 1 in
        let length' := Z.to_nat l in
        if (length' <? 2)%nat || (length data <? offset + length')%nat then
          Err (InvalidTLVLength attrs length' offset)
        else
          value ← slice data (offset + 2) (offset + length');
          let attrs :=
            attrs ++ [mkAttribute attrType (u8 (Z.of_nat (length' - 2))) value false] in
          parseTLVs_loop fuel data attrs (skip_padded offset length')
      else Ok attrs
  end.

(** Every iteration advances the offset by at least 2. *)
Definition parseTLVs (data : bytes) : res tlv_error (list Attribute) :=
  parseTLVs_loop (S (length data)) data [] 0.

(** ** FLOOR-REQUEST-INFORMATION *)

Record FloorRequestStatusInfo := mkFloorRequestStatusInfo {
  fsFloorID : Z;
  fsStatus : Z;
  fsQueuePosition : Z;
  fsHasStatus : bool
}.

Record FloorRequestInfo := mkFloorRequestInfo {
  fiFloorRequestID : Z;
  fiOverallStatus : Z;
  fiQueuePosition : Z;
  fiHasOverall : bool;
  fiFloors : list FloorRequestStatusInfo;
  fiBeneficiaryID : Z;
  fiHasBeneficiary : bool;
  fiRequestedByID : Z;
  fiHasRequestedBy : bool;
  fiPriority : Z;
  fiHasPriority : bool
}.

Definition empty_info : FloorRequestInfo :=
  mkFloorRequestInfo 0 0 0 false [] 0 false 0 false 0 false.

(** [FloorRequestInfo.Status] *)
Definition FloorRequestInfo_Status (f : FloorRequestInfo) : option Z :=
  if fiHasOverall f then Some (fiOverallStatus f)
  else fsStatus <$> head (filter (λ fl, fsHasStatus fl = true) (fiFloors f)).

(** The scan of [findRequestStatus]. *)
Fixpoint first_request_status (subs : list Attribute) : option (Z * Z) :=
  match subs with
  | [] => None
  | sub :: subs =>
      match aValue sub with
      | status :: pos :: _ =>
          if aType sub =? AttrRequestStatus then Some (status, pos)
          else first_request_status subs
      | _ => first_request_status subs
      end
  end.

Definition findRequestStatus (data : bytes) : res tlv_error (option (Z * Z)) :=
  match parseTLVs data with
  | Ok subs => Ok (first_request_status subs)
  | Err _ => Ok None
  | Panic => Panic
  | Diverge => Diverge
  end.

Inductive info_error :=
| ShortFloorRequestInfo
| InfoTLVError (e : tlv_error).

Definition lift_tlv {A} (r : res tlv_error A) : res info_error A :=
  match r with Ok a => Ok a | Err e => Err (InfoTLVError e) | Panic => Panic | Diverge => Diverge end.

(** One iteration of the loop over the sub-attributes. *)
Definition info_step (info : FloorRequestInfo) (sub : Attribute)
    : res info_error FloorRequestInfo :=
  let '(mkFloorRequestInfo req ov qp ho fls ben hben rb hrb pr hpr) := info in
  if (length (aValue sub) <? 2)%nat then Ok info
  else if aType sub =? AttrOverallRequestStatus then
    rest ← slice (aValue sub) 2 (length (aValue sub));
    found ← lift_tlv (findRequestStatus rest);
    match found with
    | Some (status, pos) =>
        Ok (mkFloorRequestInfo req status pos true fls ben hben rb hrb pr hpr)
    | None => Ok info
    end
  else if aType sub =? AttrFloorRequestStatus then
    floorID ← get16 (aValue sub);
    rest ← slice (aValue sub) 2 (length (aValue sub));
    found ← lift_tlv (findRequestStatus rest);
    let fl :=
      match found with
      | Some (status, pos) => mkFloorRequestStatusInfo floorID status pos true
      | None => mkFloorRequestStatusInfo floorID 0 0 false
      end in
    Ok (mkFloorRequestInfo req ov qp ho (fls ++ [fl]) ben hben rb hrb pr hpr)
  else if aType sub =? AttrBeneficiaryInfo then
    id ← get16 (aValue sub);
    Ok (mkFloorRequestInfo req ov qp ho fls id true rb hrb pr hpr)
  else if aType sub =? AttrRequestedByInfo then
    id ← get16 (aValue sub);
    Ok (mkFloorRequestInfo req ov qp ho fls ben hben id true pr hpr)
  else if aType sub =? AttrPriority then
    p ← get16 (aValue sub);
    Ok (mkFloorRequestInfo req ov qp ho fls ben hben rb hrb p true)
  else Ok info.

Fixpoint info_loop (info : FloorRequestInfo) (subs : list Attribute)
    : res info_error FloorRequestInfo :=
  match subs with
  | [] => Ok info
  | sub :: subs => info ← info_step info sub; info_loop info subs
  end.

Definition parseFloorRequestInfo (value : bytes) : res info_error FloorRequestInfo :=
  if (length value <? 2)%nat then Err ShortFloorRequestInfo
  else
    id ← get16 value;
    rest ← slice value 2 (length value);
    subs ← lift_tlv (parseTLVs rest);
    info_loop (mkFloorRequestInfo id 0 0 false [] 0 false 0 false 0 false) subs.

(** A getter has no error result, but it can still panic. *)
Fixpoint infos_of_attributes (attrs : list Attribute) : call (list FloorRequestInfo) :=
  match attrs with
  | [] => Ok []
  | attr :: attrs =>
      if negb (aType attr =? AttrFloorRequestInfo) then infos_of_attributes attrs
      else if aRawTLV attr && (length (aValue attr) <? 2)%nat then infos_of_attributes attrs
      else
        value ← (if aRawTLV attr then slice (aValue attr) 2 (length (aValue attr))
                 else Ok (aValue attr));
        match parseFloorRequestInfo value with
        | Ok info => infos ← infos_of_attributes attrs; Ok (info :: infos)
        | Err _ => infos_of_attributes attrs
        | Panic => Panic
        | Diverge => Diverge
        end
  end.

Definition FloorRequestInfos (m : Message) : call (list FloorRequestInfo) :=
  infos_of_attributes (mAttributes m).

(** ** Getters ([message.go]) *)

(** [attr != nil && len(attr.Value) >= 2] *)
Definition attr_value2 (attrType : Z) (m : Message) : option bytes :=
  attr ← GetAttribute attrType m;
  if (2 <=? length (aValue attr))%nat then Some (aValue attr) else None.

Definition first_floor (infos : list FloorRequestInfo) : option Z :=
  fsFloorID <$> head (infos ≫= fiFloors).

Definition GetFloorID (m : Message) : call (option Z) :=
  match attr_value2 AttrFloorID m with
  | Some value => id ← get16 value; Ok (Some id)
  | None => infos ← FloorRequestInfos m; Ok (first_floor infos)
  end.

Definition GetFloorRequestID (m : Message) : call (option Z) :=
  match attr_value2 AttrFloorRequestID m with
  | Some value => id ← get16 value; Ok (Some id)
  | None => infos ← FloorRequestInfos m; Ok (fiFloorRequestID <$> head infos)
  end.

Definition GetBeneficiaryID (m : Message) : call (option Z) :=
  match attr_value2 AttrBeneficiaryID m with
  | Some value => id ← get16 value; Ok (Some id)
  | None => Ok None
  end.

Fixpoint first_info_status (infos : list FloorRequestInfo) : option (Z * Z) :=
  match infos with
  | [] => None
  | info :: infos =>
      match FloorRequestInfo_Status info with
      | Some status => Some (status, fiQueuePosition info)
      | None => first_info_status infos
      end
  end.

Definition GetRequestStatus (m : Message) : call (option (Z * Z)) :=
  match attr_value2 AttrRequestStatus m with
  | Some value => s ← value⟦0⟧; q ← value⟦1⟧; Ok (Some (s, q))
  | None => infos ← FloorRequestInfos m; Ok (first_info_status infos)
  end.

Definition GetErrorCode (m : Message) : option Z :=
  attr ← GetAttribute AttrErrorCode m; head (aValue attr).

Definition GetErrorInfo (m : Message) : option bytes :=
  aValue <$> GetAttribute AttrErrorInfo m.

(** ** The parser inverts the builders *)

Lemma skip_padded_eq offset l : skip_padded offset l = (offset + l + pad4 l)%nat.
Proof. unfold skip_padded, pad4. case_decide; mlia. Qed.

Lemma u8_of_len n : (n < 256)%nat → u8 (Z.of_nat n) = Z.of_nat n.
Proof. intros. apply u8_small. width. lia. Qed.

Section loop_step.
Context (t : Z) (mandatory : bool) (v : bytes).
Hypothesis (Ht : is_u7 t) (Hv : (length v <= max_value_len)%nat).

Lemma parseTLVs_loop_step fuel pre post attrs :
  parseTLVs_loop (S fuel) (pre ++ buildSimpleAttr t mandatory v ++ post) attrs (length pre)
  = parseTLVs_loop fuel (pre ++ buildSimpleAttr t mandatory v ++ post)
      (attrs ++ [tlv_attr t v]) (length (pre ++ buildSimpleAttr t mandatory v)).
Proof using All.
  unfold max_value_len in Hv. cbn [parseTLVs_loop].
  set (data := pre ++ buildSimpleAttr t mandatory v ++ post).
  assert (length data = length pre + (2 + length v + pad4 (2 + length v)) + length post)%nat
    by (unfold data; lens).
  destruct (Nat.leb_spec (length pre + 2) (length data)); [|lia].
  rewrite (index_eq data pre (u8 (Z.of_nat (2 + length v)) :: v ++
    zeros (pad4 (2 + length v)) ++ post) (type_byte t mandatory) (length pre)); [|unfold data, buildSimpleAttr; by list_simplifier|done].
  rewrite (index_eq data (pre ++ [type_byte t mandatory]) (v ++
    zeros (pad4 (2 + length v)) ++ post) (u8 (Z.of_nat (2 + length v))) (length pre + 1));
    [|unfold data, buildSimpleAttr; by list_simplifier|lens].
  cbn [mbind res_bind]. rewrite type_byte_decode, u8_of_len, Nat2Z.id by (done || lia).
  destruct (Nat.ltb_spec (2 + length v) 2); [lia|].
  destruct (Nat.ltb_spec (length data) (length pre + (2 + length v))); [lia|]. cbn [orb].
  rewrite (slice_eq data (pre ++ [type_byte t mandatory; u8 (Z.of_nat (2 + length v))]) v
    (zeros (pad4 (2 + length v)) ++ post)); [|unfold data, buildSimpleAttr; by list_simplifier|lens|lens].
  cbn [mbind res_bind].
  replace (2 + length v - 2)%nat with (length v) by lia.
  rewrite u8_of_len by lia. f_equal. rewrite skip_padded_eq. lens.
Qed.
End loop_step.

(** A run of TLVs: type, mandatory bit and value of each. *)
Definition tlv : Type := Z * bool * bytes.
Definition tlv_ok (x : tlv) : Prop := is_u7 x.1.1 ∧ (length x.2 <= max_value_len)%nat.
Definition tlv_bytes (x : tlv) : bytes := buildSimpleAttr x.1.1 x.1.2 x.2.
Definition tlv_parsed (x : tlv) : Attribute := tlv_attr x.1.1 x.2.

Ltac tlvs_ok :=
  repeat (apply Forall_cons_2; [split; [cbn; auto with bfcp|by apply Nat.leb_le; vm_compute]|]);
  apply Forall_nil_2.

Lemma parseTLVs_loop_run (xs : list tlv) : Forall tlv_ok xs → ∀ fuel pre attrs,
  (length (concat (tlv_bytes <$> xs)) < fuel)%nat →
  parseTLVs_loop fuel (pre ++ concat (tlv_bytes <$> xs)) attrs (length pre)
  = Ok (attrs ++ (tlv_parsed <$> xs)).
Proof.
  induction 1 as [|[[t mb] v] xs [Ht Hv] _ IH]; intros fuel pre attrs Hfuel.
  - destruct fuel as [|fuel]; [cbn in Hfuel; lia|]. cbn.
    rewrite !app_nil_r. destruct (Nat.leb_spec (length pre + 2) (length pre)); [lia|done].
  - change (concat (tlv_bytes <$> (t, mb, v) :: xs))
      with (buildSimpleAttr t mb v ++ concat (tlv_bytes <$> xs)) in *.
    rewrite length_app, length_buildSimpleAttr in Hfuel. destruct fuel as [|fuel]; [lia|].
    rewrite parseTLVs_loop_step, (app_assoc pre), IH by (done || lia).
    by rewrite <- app_assoc.
Qed.

Lemma parseTLVs_run (xs : list tlv) :
  Forall tlv_ok xs → parseTLVs (concat (tlv_bytes <$> xs)) = Ok (tlv_parsed <$> xs).
Proof. intros. by apply (parseTLVs_loop_run xs ltac:(done) _ [] []); lia. Qed.

(** [parseTLVs] returns on every input. *)
Lemma parseTLVs_loop_returns data fuel : ∀ attrs offset,
  (length data < fuel + offset)%nat → (0 < fuel)%nat →
  returns (parseTLVs_loop fuel data attrs offset).
Proof.
  induction fuel as [|fuel IH]; intros attrs offset Hlen Hfuel; [lia|].
  cbn [parseTLVs_loop]. destruct (Nat.leb_spec (offset + 2) (length data)); [|done].
  apply returns_bind; [apply is_Ok_returns, index_is_Ok; lia|]. intros b _.
  apply returns_bind; [apply is_Ok_returns, index_is_Ok; lia|]. intros l _.
  destruct (Nat.ltb_spec (Z.to_nat l) 2), (Nat.ltb_spec (length data) (offset + Z.to_nat l));
    try done. cbn [orb].
  apply returns_bind; [apply is_Ok_returns, slice_is_Ok; lia|]. intros v _.
  apply IH; rewrite ?skip_padded_eq; lia.
Qed.

Lemma parseTLVs_returns data : returns (parseTLVs data).
Proof. apply parseTLVs_loop_returns; lia. Qed.
#[export] Hint Resolve parseTLVs_returns : bfcp.

Lemma findRequestStatus_Ok data : is_Ok (findRequestStatus data).
Proof.
  unfold findRequestStatus. pose proof (parseTLVs_returns data) as H.
  destruct (parseTLVs data); done || by eexists.
Qed.

Lemma info_step_Ok info sub : is_Ok (info_step info sub).
Proof.
  unfold info_step. destruct info.
  destruct (Nat.ltb_spec (length (aValue sub)) 2); [by eexists|].
  destruct (get16_is_Ok (E:=info_error) (aValue sub) ltac:(lia)) as [id ->].
  destruct (slice_is_Ok (E:=info_error) (aValue sub) 2 (length (aValue sub)) ltac:(lia))
    as [rest ->].
  cbn [mbind res_bind]. destruct (findRequestStatus_Ok rest) as [[[]|] ->]; cbn;
    repeat case_match; by eexists.
Qed.

Lemma info_loop_Ok subs : ∀ info, is_Ok (info_loop info subs).
Proof.
  induction subs as [|sub subs IH]; intros info; [by eexists|].
  cbn. destruct (info_step_Ok info sub) as [? ->]. apply IH.
Qed.

Lemma parseFloorRequestInfo_returns value : returns (parseFloorRequestInfo value).
Proof.
  unfold parseFloorRequestInfo. destruct (Nat.ltb_spec (length value) 2); [done|].
  destruct (get16_is_Ok (E:=info_error) value ltac:(lia)) as [id ->].
  destruct (slice_is_Ok (E:=info_error) value 2 (length value) ltac:(lia)) as [rest ->].
  cbn [mbind res_bind]. apply returns_bind.
  - pose proof (parseTLVs_returns rest). by destruct (parseTLVs rest).
  - intros subs _. apply is_Ok_returns, info_loop_Ok.
Qed.

Lemma infos_of_attributes_Ok attrs : is_Ok (infos_of_attributes attrs).
Proof.
  induction attrs as [|attr attrs [infos IH]]; [by eexists|]. cbn. rewrite IH.
  destruct (negb _); [by eexists|].
  destruct (aRawTLV attr) eqn:Hraw; cbn.
  - destruct (Nat.ltb_spec (length (aValue attr)) 2); [by eexists|].
    rewrite slice_Ok by lia. cbn.
    pose proof (parseFloorRequestInfo_returns
      (take (length (aValue attr) - 2) (drop 2 (aValue attr)))).
    destruct (parseFloorRequestInfo _); done || by eexists.
  - pose proof (parseFloorRequestInfo_returns (aValue attr)).
    destruct (parseFloorRequestInfo _); done || by eexists.
Qed.

(** ** The getters return *)

Lemma FloorRequestInfos_Ok m : is_Ok (FloorRequestInfos m).
Proof. apply infos_of_attributes_Ok. Qed.

Lemma attr_value2_length t m v : attr_value2 t m = Some v → (2 <= length v)%nat.
Proof.
  unfold attr_value2. destruct (GetAttribute t m) as [a|]; [|done]. cbn.
  destruct (Nat.leb_spec 2 (length (aValue a))); naive_solver.
Qed.

Lemma GetFloorID_Ok m : is_Ok (GetFloorID m).
Proof.
  unfold GetFloorID. destruct (attr_value2 _ m) as [v|] eqn:Hv.
  - destruct (get16_is_Ok (E:=Empty_set) v) as [id ->];
      [by eapply attr_value2_length|by eexists].
  - destruct (FloorRequestInfos_Ok m) as [infos ->]. by eexists.
Qed.

Lemma GetFloorRequestID_Ok m : is_Ok (GetFloorRequestID m).
Proof.
  unfold GetFloorRequestID. destruct (attr_value2 _ m) as [v|] eqn:Hv.
  - destruct (get16_is_Ok (E:=Empty_set) v) as [id ->];
      [by eapply attr_value2_length|by eexists].
  - destruct (FloorRequestInfos_Ok m) as [infos ->]. by eexists.
Qed.

Lemma GetBeneficiaryID_Ok m : is_Ok (GetBeneficiaryID m).
Proof.
  unfold GetBeneficiaryID. destruct (attr_value2 _ m) as [v|] eqn:Hv; [|by eexists].
  destruct (get16_is_Ok (E:=Empty_set) v) as [id ->];
    [by eapply attr_value2_length|by eexists].
Qed.

Lemma GetRequestStatus_Ok m : is_Ok (GetRequestStatus m).
Proof.
  unfold GetRequestStatus. destruct (attr_value2 _ m) as [v|] eqn:Hv.
  - apply attr_value2_length in Hv. destruct v as [|s [|q v]]; cbn in Hv; try lia. by eexists.
  - destruct (FloorRequestInfos_Ok m) as [infos ->]. by eexists.
Qed.
#[export] Hint Resolve FloorRequestInfos_Ok GetFloorID_Ok GetFloorRequestID_Ok
  GetBeneficiaryID_Ok GetRequestStatus_Ok : bfcp.

(** ** The FLOOR-REQUEST-INFORMATION round trip *)

Lemma request_status_run status :
  findRequestStatus (buildSimpleAttr AttrRequestStatus false [u8 status; 0])
  = Ok (Some (u8 status, 0)).
Proof.
  unfold findRequestStatus.
  replace (buildSimpleAttr AttrRequestStatus false [u8 status; 0])
    with (concat (tlv_bytes <$> [(AttrRequestStatus, false, [u8 status; 0])]))
    by apply app_nil_r.
  rewrite parseTLVs_run by tlvs_ok. done.
Qed.

Section info_steps.
Context (info : FloorRequestInfo) (id status pos : Z) (rs : bytes).

Lemma header_id_rest :
  slice (E:=info_error) (be16 id ++ rs) 2 (length (be16 id ++ rs)) = Ok rs.
Proof. apply (slice_eq _ (be16 id) rs []); [by rewrite app_nil_r|done|done]. Qed.

Lemma info_step_overall :
  findRequestStatus rs = Ok (Some (status, pos)) →
  info_step info (tlv_attr AttrOverallRequestStatus (be16 id ++ rs)) =
  Ok (mkFloorRequestInfo (fiFloorRequestID info) status pos true (fiFloors info)
        (fiBeneficiaryID info) (fiHasBeneficiary info) (fiRequestedByID info)
        (fiHasRequestedBy info) (fiPriority info) (fiHasPriority info)).
Proof.
  intros Hrs. unfold info_step. destruct info. cbn [tlv_attr aType aValue].
  rewrite header_id_rest. cbn [mbind res_bind]. by rewrite Hrs.
Qed.

Lemma info_step_floor :
  is_u16 id → findRequestStatus rs = Ok (Some (status, pos)) →
  info_step info (tlv_attr AttrFloorRequestStatus (be16 id ++ rs)) =
  Ok (mkFloorRequestInfo (fiFloorRequestID info) (fiOverallStatus info)
        (fiQueuePosition info) (fiHasOverall info)
        (fiFloors info ++ [mkFloorRequestStatusInfo id status pos true])
        (fiBeneficiaryID info) (fiHasBeneficiary info) (fiRequestedByID info)
        (fiHasRequestedBy info) (fiPriority info) (fiHasPriority info)).
Proof.
  intros Hid Hrs. unfold info_step. destruct info. cbn [tlv_attr aType aValue].
  rewrite header_id_rest, get16_be16 by done. cbn [mbind res_bind]. by rewrite Hrs.
Qed.
End info_steps.

(** What the parser extracts from [floorReqInfoValue]. *)
Definition status_info (requestID status floorID : Z) : FloorRequestInfo :=
  mkFloorRequestInfo requestID status 0 true
    [mkFloorRequestStatusInfo floorID status 0 true] 0 false 0 false 0 false.

Lemma parse_floorReqInfoValue requestID status floorID :
  is_u16 requestID → is_u16 floorID →
  parseFloorRequestInfo (floorReqInfoValue requestID status floorID)
  = Ok (status_info requestID (u8 status) floorID).
Proof.
  intros Hr Hf. unfold parseFloorRequestInfo. rewrite length_floorReqInfoValue.
  unfold floorReqInfoValue at 1 2. rewrite get16_be16 by done.
  set (rs := buildSimpleAttr AttrRequestStatus false [u8 status; 0]).
  cbn [mbind res_bind].
  rewrite (slice_eq _ (be16 requestID) (concat (tlv_bytes <$>
    [(AttrOverallRequestStatus, false, be16 requestID ++ rs);
     (AttrFloorRequestStatus, false, be16 floorID ++ rs)])) []);
    [|by rewrite app_nil_r; unfold tlv_bytes; cbn [fmap list_fmap concat]; list_simplifier
     |done|done].
  cbn [mbind res_bind]. rewrite parseTLVs_run by tlvs_ok.
  cbn [lift_tlv mbind res_bind fmap list_fmap info_loop].
  unfold tlv_parsed; cbn [fst snd].
  rewrite (info_step_overall _ _ _ _ _ (request_status_run status)).
  cbn [mbind res_bind].
  rewrite (info_step_floor _ _ _ _ _ Hf (request_status_run status)). done.
Qed.

(** The attribute before encoding, and as the decoder returns it. *)
Definition raw_status_attr (requestID status floorID : Z) : Attribute :=
  let attr := floorReqInfoAttr requestID status floorID in
  mkAttribute AttrFloorRequestInfo (u8 (Z.of_nat (length attr))) attr true.
Definition status_attr (requestID status floorID : Z) : Attribute :=
  tlv_attr AttrFloorRequestInfo (floorReqInfoValue requestID status floorID).

Lemma infos_raw_status requestID status floorID :
  is_u16 requestID → is_u16 floorID →
  infos_of_attributes [raw_status_attr requestID status floorID]
  = Ok [status_info requestID (u8 status) floorID].
Proof.
  intros. unfold raw_status_attr. cbn [infos_of_attributes aType aRawTLV aValue].
  rewrite floorReqInfoAttr_simple.
  rewrite (slice_eq _ [type_byte AttrFloorRequestInfo true; 20]
    (floorReqInfoValue requestID status floorID) []) by reflexivity.
  cbn [mbind res_bind]. rewrite parse_floorReqInfoValue by done. done.
Qed.

Lemma infos_status requestID status floorID :
  is_u16 requestID → is_u16 floorID →
  infos_of_attributes [status_attr requestID status floorID]
  = Ok [status_info requestID (u8 status) floorID].
Proof.
  intros. unfold status_attr. cbn [infos_of_attributes aType aRawTLV aValue tlv_attr].
  cbn [mbind res_bind]. rewrite parse_floorReqInfoValue by done. done.
Qed.

(** Messages whose attributes parse to one status information. *)
Lemma status_getters m requestID status floorID :
  GetAttribute AttrFloorID m = None → GetAttribute AttrFloorRequestID m = None →
  GetAttribute AttrRequestStatus m = None →
  FloorRequestInfos m = Ok [status_info requestID status floorID] →
  GetFloorID m = Ok (Some floorID) ∧ GetFloorRequestID m = Ok (Some requestID) ∧
  GetRequestStatus m = Ok (Some (status, 0)).
Proof.
  intros Hf Hr Hs Hi. unfold GetFloorID, GetFloorRequestID, GetRequestStatus, attr_value2.
  rewrite Hf, Hr, Hs. cbn [mbind option_bind]. by rewrite Hi.
Qed.
