(* ===== verification/Codec.v ===== *)
(** * The wire codec ([message.go]: [Encode], [Decode])

    [Encode] fills a zeroed buffer at computed offsets, [Decode] walks one; both
    are written with the bounds checks of the Go runtime, so that a slice access
    out of range is a [Panic].  The theorems compare [Encode] with the
    compositional [wire] format, relate the two directions and settle which
    errors occur. *)

From S2P Require Import Prelude Types Message Grouped.

(** ** [Encode] *)

Inductive encode_error := AttributeLengthNotAligned.

(** The length of one attribute in the first loop of [Encode]. *)
Definition attr_wire_length (attr : Attribute) : nat :=
  if aRawTLV attr then length (aValue attr)
  else skip_padded 0 (2 + Z.to_nat (aLength attr)).

Definition attrs_wire_length (attrs : list Attribute) : nat :=
  sum_list (attr_wire_length <$> attrs).

(** [binary.BigEndian.PutUint16(buf[i:j], v)] and [PutUint32] *)
Definition put_at {E} (buf : bytes) (i j : nat) (bs : bytes) : res E bytes :=
  s ← slice buf i j;
  if (length s <? length bs)%nat then Panic else copy_at buf i bs.

(** One iteration of the second loop: the buffer and the offset. *)
Definition encode_attr (st : bytes * nat) (attr : Attribute) : res encode_error (bytes * nat) :=
  let '(buf, offset) := st in
  if aRawTLV attr then
    buf ← copy_at buf offset (aValue attr);
    Ok (buf, offset + length (aValue attr))%nat
  else
    buf ← set_index buf offset (Z.lor (u8 (Z.shiftl (aType attr) 1)) 1);
    buf ← set_index buf (offset + 1) (u8 (aLength attr + 2));
    buf ← copy_at buf (offset + 2) (aValue attr);
    Ok (buf, skip_padded offset (2 + Z.to_nat (aLength attr))).

Fixpoint encode_attrs (st : bytes * nat) (attrs : list Attribute)
    : res encode_error (bytes * nat) :=
  match attrs with
  | [] => Ok st
  | attr :: attrs => st ← encode_attr st attr; encode_attrs st attrs
  end.

Definition encode_header (buf : bytes) (m : Message) : res encode_error bytes :=
  buf ← set_index buf 0 (Z.lor (u8 (Z.shiftl (mVersion m) 5)) (Z.land (mReserved m) 0x1F));
  buf ← set_index buf 1 (u8 (mPrimitive m));
  buf ← put_at buf 2 4 (be16 (mPayloadLength m));
  buf ← put_at buf 4 8 (be32 (mConferenceID m));
  buf ← put_at buf 8 10 (be16 (mTransactionID m));
  put_at buf 10 12 (be16 (mUserID m)).

(** The receiver is mutated: the message comes back with its payload length. *)
Definition Encode (m : Message) : res encode_error (Message * bytes) :=
  let attrLength := attrs_wire_length (mAttributes m) in
  if negb (attrLength mod 4 =? 0)%nat then Err AttributeLengthNotAligned
  else
    let m := set_PayloadLength (u16 (Z.of_nat (attrLength / 4))) m in
    let buf := zeros (CommonHeaderLength + attrLength) in
    buf ← encode_header buf m;
    st ← encode_attrs (buf, CommonHeaderLength) (mAttributes m);
    Ok (m, st.1).

(** ** [Decode] *)

Inductive decode_error :=
| MessageTooShort (got : nat)
| UnsupportedVersion (version : Z)
| PayloadTooShort (got expected : nat)
| IncompleteAttributeHeader (offset : nat)
| InvalidAttributeLength (attrLength : Z)
| AttributeExceedsMessage (offset need have : nat).

Fixpoint decode_attrs (fuel : nat) (data : bytes) (attrs : list Attribute)
    (offset endOffset : nat) : res decode_error (list Attribute) :=
  match fuel with
  | O => Diverge
  | S fuel =>
      if (offset <? endOffset)%nat then
        if (endOffset <? offset + 2)%nat then Err (IncompleteAttributeHeader offset)
        else
          typeByte ← data⟦offset⟧;
          attrLength ← data⟦offset + 1⟧;
          if attrLength <? 2 then Err (InvalidAttributeLength attrLength)
          else
            let valueLength := (Z.to_nat attrLength - 2)%nat in
            let offset' := (offset + 2)%nat in
            if (endOffset <? offset' + valueLength)%nat then
              Err (AttributeExceedsMessage offset' valueLength (endOffset - offset'))
            else
              value ← slice data offset' (offset' + valueLength);
              let attr :=
                mkAttribute (Z.shiftr typeByte 1) (u8 (Z.of_nat valueLength)) value false in
              decode_attrs fuel data (attrs ++ [attr])
                (skip_padded offset (Z.to_nat attrLength)) endOffset
      else Ok attrs
  end.

Definition Decode (data : bytes) : res decode_error Message :=
  if (length data <? CommonHeaderLength)%nat then Err (MessageTooShort (length data))
  else
    b0 ← data⟦0⟧;
    let version := Z.land (Z.shiftr b0 5) 0x07 in
    let reserved := Z.land b0 0x1F in
    if negb (version =? ProtocolVersionRFC4582) && negb (version =? ProtocolVersionRFC8855)
    then Err (UnsupportedVersion version)
    else
      primitive ← data⟦1⟧;
      payloadLength ← (s ← slice data 2 4; get16 s);
      conferenceID ← (s ← slice data 4 8; get32 s);
      transactionID ← (s ← slice data 8 10; get16 s);
      userID ← (s ← slice data 10 12; get16 s);
      let expectedPayloadSize := (Z.to_nat payloadLength * 4)%nat in
      if (length data <? CommonHeaderLength + expectedPayloadSize)%nat then
        Err (PayloadTooShort (length data - CommonHeaderLength) expectedPayloadSize)
      else
        attrs ← decode_attrs (S expectedPayloadSize) data [] CommonHeaderLength
                  (CommonHeaderLength + expectedPayloadSize);
        Ok (mkMessage version reserved primitive payloadLength conferenceID transactionID
              userID attrs).

(** ** The wire format

    What a message looks like on the wire, composed from its parts. *)

Definition wire_attr (a : Attribute) : bytes :=
  if aRawTLV a then aValue a else buildSimpleAttr (aType a) true (aValue a).

Definition wire_header (m : Message) : bytes :=
  [Z.lor (u8 (Z.shiftl (mVersion m) 5)) (Z.land (mReserved m) 0x1F); u8 (mPrimitive m)]
  ++ be16 (mPayloadLength m) ++ be32 (mConferenceID m) ++ be16 (mTransactionID m)
  ++ be16 (mUserID m).

Definition wire_payload (m : Message) : bytes := concat (wire_attr <$> mAttributes m).

(** An attribute whose length field is the length of its value, which leaves
    room for the TLV header in the length byte. *)
Definition plain_attr (a : Attribute) : Prop :=
  aLength a = Z.of_nat (length (aValue a)) ∧ (length (aValue a) <= max_value_len)%nat.

Definition encodable (a : Attribute) : Prop := aRawTLV a = true ∨ plain_attr a.

#[global] Instance encodable_dec a : Decision (encodable a).
Proof. unfold encodable, plain_attr. apply _. Defined.

Lemma length_wire_header m : length (wire_header m) = CommonHeaderLength.
Proof. unfold wire_header. lens. done. Qed.
#[export] Hint Rewrite length_wire_header : len.

Lemma wire_attr_length a : encodable a → length (wire_attr a) = attr_wire_length a.
Proof.
  unfold wire_attr, attr_wire_length. intros [->|[Hl _]]; [done|].
  destruct (aRawTLV a); [done|]. rewrite skip_padded_eq, Hl, Nat2Z.id. lens.
Qed.

Lemma wire_payload_length m :
  Forall encodable (mAttributes m) →
  length (wire_payload m) = attrs_wire_length (mAttributes m).
Proof.
  unfold wire_payload, attrs_wire_length. induction 1 as [|a attrs Ha _ IH]; [done|].
  cbn. rewrite length_app, IH, wire_attr_length by done. done.
Qed.

(** ** [Encode] writes the wire format *)

Lemma encode_attr_wire w n a :
  encodable a → (length (wire_attr a) <= n)%nat →
  encode_attr (w ++ zeros n, length w) a =
  Ok ((w ++ wire_attr a) ++ zeros (n - length (wire_attr a)), length (w ++ wire_attr a)).
Proof.
  intros Ha Hn. unfold encode_attr, wire_attr in *. destruct (aRawTLV a) eqn:Hraw.
  - rewrite copy_at_app by lens. cbn [mbind res_bind].
    rewrite drop_zeros, app_assoc, length_app. done.
  - destruct Ha as [|[Hl Hmax]]; [congruence|]. rewrite Hl, Nat2Z.id.
    replace (Z.of_nat (length (aValue a)) + 2) with (Z.of_nat (2 + length (aValue a))) by lia.
    set (v := aValue a) in *. fold (type_byte (aType a) true).
    lens. rewrite (zeros_pos n), (zeros_pos (n - 1)) by lia.
    rewrite set_index_app. cbn [mbind res_bind].
    rewrite (set_index_eq _ (w ++ [type_byte (aType a) true]) (zeros (n - 1 - 1)) 0);
      [|by list_simplifier|lens]. cbn [mbind res_bind].
    rewrite (copy_at_eq _ (w ++ [type_byte (aType a) true; u8 (Z.of_nat (2 + length v))])
      (zeros (n - 1 - 1))); [|by list_simplifier|lens|lens]. cbn [mbind res_bind].
    rewrite drop_zeros, skip_padded_eq. unfold buildSimpleAttr. f_equal. f_equal; [|lens].
    replace (n - 1 - 1 - length v)%nat with (pad4 (2 + length v) +
      (n - (2 + length v + pad4 (2 + length v))))%nat by lia.
    rewrite zeros_add. by list_simplifier.
Qed.

Lemma encode_attrs_wire attrs : Forall encodable attrs → ∀ w n,
  (length (concat (wire_attr <$> attrs)) <= n)%nat →
  encode_attrs (w ++ zeros n, length w) attrs =
  Ok ((w ++ concat (wire_attr <$> attrs)) ++ zeros (n - length (concat (wire_attr <$> attrs))),
      length (w ++ concat (wire_attr <$> attrs))).
Proof.
  induction 1 as [|a attrs Ha _ IH]; intros w n Hn.
  - cbn. by rewrite app_nil_r, Nat.sub_0_r.
  - change (concat (wire_attr <$> a :: attrs))
      with (wire_attr a ++ concat (wire_attr <$> attrs)) in *. rewrite length_app in Hn.
    cbn [encode_attrs]. rewrite encode_attr_wire by (done || lia). cbn [mbind res_bind].
    rewrite IH by lia. rewrite !app_assoc, !length_app. f_equal. f_equal; [|try lia..]. do 2 f_equal. lia.
Qed.

Lemma put_at_eq {E} (s l1 l2 l3 bs : bytes) i j :
  s = l1 ++ l2 ++ l3 → i = length l1 → j = (length l1 + length l2)%nat →
  length bs = length l2 → put_at (E:=E) s i j bs = Ok (l1 ++ bs ++ l3).
Proof.
  intros -> -> -> Hbs. unfold put_at. rewrite slice_app. cbn [mbind res_bind].
  destruct (Nat.ltb_spec (length l2) (length bs)); [lia|].
  rewrite copy_at_app by lens. by rewrite Hbs, drop_app_length.
Qed.

Lemma encode_header_wire n m :
  encode_header (zeros (CommonHeaderLength + n)) m = Ok (wire_header m ++ zeros n).
Proof.
  unfold encode_header, wire_header. rewrite zeros_add.
  set (b0 := Z.lor _ _). set (b1 := u8 (mPrimitive m)).
  rewrite (set_index_eq _ [] (zeros 11 ++ zeros n) 0) by done. cbn [mbind res_bind app].
  rewrite (set_index_eq _ [b0] (zeros 10 ++ zeros n) 0) by done. cbn [mbind res_bind app].
  rewrite (put_at_eq _ [b0; b1] (zeros 2) (zeros 8 ++ zeros n)) by done.
  cbn [mbind res_bind].
  rewrite (put_at_eq _ ([b0; b1] ++ be16 (mPayloadLength m)) (zeros 4) (zeros 4 ++ zeros n))
    by done. cbn [mbind res_bind].
  rewrite (put_at_eq _ ([b0; b1] ++ be16 (mPayloadLength m) ++ be32 (mConferenceID m))
    (zeros 2) (zeros 2 ++ zeros n)) by done. cbn [mbind res_bind].
  rewrite (put_at_eq _ ([b0; b1] ++ be16 (mPayloadLength m) ++ be32 (mConferenceID m)
    ++ be16 (mTransactionID m)) (zeros 2) (zeros n)) by done. done.
Qed.

(** The message as [Encode] leaves it. *)
Definition sized (m : Message) : Message :=
  set_PayloadLength (u16 (Z.of_nat (attrs_wire_length (mAttributes m) / 4))) m.

Lemma Encode_wire m :
  Forall encodable (mAttributes m) →
  (attrs_wire_length (mAttributes m) mod 4 = 0)%nat →
  Encode m = Ok (sized m, wire_header (sized m) ++ wire_payload m).
Proof.
  intros Hattrs Hmod. unfold Encode. rewrite Hmod. cbn [Nat.eqb negb].
  fold (sized m). rewrite encode_header_wire. cbn [mbind res_bind].
  pose proof (wire_payload_length m Hattrs) as Hlen. unfold wire_payload in *.
  rewrite <- (length_wire_header (sized m)) at 1.
  change (mAttributes (sized m)) with (mAttributes m).
  rewrite encode_attrs_wire by (done || lia). cbn [mbind res_bind fst].
  rewrite Hlen, Nat.sub_diag. cbn. by rewrite app_nil_r.
Qed.

(** ** [Encode] never panics *)

Lemma encode_attr_Ok buf offset a :
  (offset + attr_wire_length a <= length buf)%nat →
  ∃ buf', encode_attr (buf, offset) a = Ok (buf', (offset + attr_wire_length a)%nat) ∧
          length buf' = length buf.
Proof.
  unfold attr_wire_length, encode_attr. destruct (aRawTLV a).
  - intros. destruct (copy_at_is_Ok (E:=encode_error) buf (aValue a) offset) as [buf' Hb]; [lia|].
    exists buf'. rewrite Hb. eauto using copy_at_length.
  - rewrite !skip_padded_eq. intros.
    destruct (set_index_is_Ok (E:=encode_error) buf offset
      (Z.lor (u8 (Z.shiftl (aType a) 1)) 1)) as [b1 Hb1]; [lia|].
    pose proof (set_index_length _ _ _ _ Hb1).
    destruct (set_index_is_Ok (E:=encode_error) b1 (offset + 1) (u8 (aLength a + 2)))
      as [b2 Hb2]; [lia|]. pose proof (set_index_length _ _ _ _ Hb2).
    destruct (copy_at_is_Ok (E:=encode_error) b2 (aValue a) (offset + 2)) as [b3 Hb3]; [lia|].
    pose proof (copy_at_length _ _ _ _ Hb3).
    exists b3. rewrite Hb1. cbn [mbind res_bind]. rewrite Hb2. cbn [mbind res_bind].
    rewrite Hb3. cbn [mbind res_bind]. split; [do 2 f_equal; lia|lia].
Qed.

Lemma encode_attrs_Ok attrs : ∀ buf offset,
  (offset + attrs_wire_length attrs <= length buf)%nat →
  ∃ buf', encode_attrs (buf, offset) attrs = Ok (buf', (offset + attrs_wire_length attrs)%nat) ∧
          length buf' = length buf.
Proof.
  unfold attrs_wire_length. induction attrs as [|a attrs IH]; intros buf offset Hlen.
  - exists buf. cbn. by rewrite Nat.add_0_r.
  - cbn -[encode_attr attr_wire_length] in Hlen |- *. destruct (encode_attr_Ok buf offset a) as (b & -> & Hb); [lia|].
    cbn [mbind res_bind]. destruct (IH b (offset + attr_wire_length a)%nat) as (b' & -> & Hb');
      [lia|]. exists b'. split; [do 2 f_equal; lia|lia].
Qed.

Lemma Encode_Ok m :
  (attrs_wire_length (mAttributes m) mod 4 = 0)%nat →
  ∃ bs, Encode m = Ok (sized m, bs) ∧
        length bs = (CommonHeaderLength + attrs_wire_length (mAttributes m))%nat.
Proof.
  intros Hmod. unfold Encode. rewrite Hmod. cbn [Nat.eqb negb]. fold (sized m).
  rewrite encode_header_wire. cbn [mbind res_bind].
  destruct (encode_attrs_Ok (mAttributes m)
    (wire_header (sized m) ++ zeros (attrs_wire_length (mAttributes m))) CommonHeaderLength)
    as (bs & Hbs & Hlen); [lens|].
  change (mAttributes (sized m)) with (mAttributes m). rewrite Hbs. exists bs.
  split; [done|lens].
Qed.

(** ** [Decode] reads the wire format *)

(** The header fields are within their widths on the wire. *)
Record wf_fields (m : Message) : Prop := {
  wf_version : 0 <= mVersion m < 8;
  wf_reserved : 0 <= mReserved m < 32;
  wf_primitive : is_u8 (mPrimitive m);
  wf_payload : is_u16 (mPayloadLength m);
  wf_conference : is_u32 (mConferenceID m);
  wf_transaction : is_u16 (mTransactionID m);
  wf_user : is_u16 (mUserID m)
}.

(** The two versions that [Decode] accepts. *)
Definition version_ok (v : Z) : Prop := v = ProtocolVersionRFC4582 ∨ v = ProtocolVersionRFC8855.

#[global] Instance version_ok_dec v : Decision (version_ok v).
Proof. unfold version_ok. apply _. Defined.

Definition wf_header (m : Message) : Prop := wf_fields m ∧ version_ok (mVersion m).

Definition first_byte (v r : Z) : Z := Z.lor (u8 (Z.shiftl v 5)) (Z.land r 0x1F).

Lemma first_byte_arith v r : 0 <= v < 8 → 0 <= r < 32 → first_byte v r = v * 32 + r.
Proof.
  intros. unfold first_byte. change 31 with (2 ^ 5 - 1).
  rewrite land_ones_mod, (Z.mod_small r) by lia.
  rewrite u8_small by (rewrite Z.shiftl_mul_pow2 by lia; width; lia).
  rewrite lor_shiftl_add_l by lia. done.
Qed.

Lemma first_byte_version v r :
  0 <= v < 8 → 0 <= r < 32 → Z.land (Z.shiftr (first_byte v r) 5) 0x07 = v.
Proof.
  intros. rewrite first_byte_arith by done. change 7 with (2 ^ 3 - 1).
  rewrite land_ones_mod, Z.shiftr_div_pow2 by lia.
  change (2 ^ 5) with 32. change (2 ^ 3) with 8. mlia.
Qed.

Lemma first_byte_reserved v r :
  0 <= v < 8 → 0 <= r < 32 → Z.land (first_byte v r) 0x1F = r.
Proof.
  intros. rewrite first_byte_arith by done. change 31 with (2 ^ 5 - 1).
  rewrite land_ones_mod by lia. change (2 ^ 5) with 32. mlia.
Qed.

(** The slices of a message that [Decode] reads. *)
Lemma wire_header_slices {E} m rest :
  let data := wire_header m ++ rest in
  index (E:=E) data 0 = Ok (first_byte (mVersion m) (mReserved m)) ∧
  index (E:=E) data 1 = Ok (u8 (mPrimitive m)) ∧
  slice (E:=E) data 2 4 = Ok (be16 (mPayloadLength m)) ∧
  slice (E:=E) data 4 8 = Ok (be32 (mConferenceID m)) ∧
  slice (E:=E) data 8 10 = Ok (be16 (mTransactionID m)) ∧
  slice (E:=E) data 10 12 = Ok (be16 (mUserID m)).
Proof.
  cbn zeta. unfold wire_header. fold (first_byte (mVersion m) (mReserved m)).
  set (b0 := first_byte _ _). set (b1 := u8 (mPrimitive m)).
  set (pl := be16 (mPayloadLength m)). set (cid := be32 (mConferenceID m)).
  set (tid := be16 (mTransactionID m)). set (uid := be16 (mUserID m)).
  rewrite <- !app_assoc. split_and!; try done.
Qed.

Lemma version_check {A} v (x y : A) :
  (if negb (v =? ProtocolVersionRFC4582) && negb (v =? ProtocolVersionRFC8855) then x else y) =
  (if decide (version_ok v) then y else x).
Proof.
  unfold version_ok. case_decide as Hv;
    destruct (Z.eqb_spec v ProtocolVersionRFC4582), (Z.eqb_spec v ProtocolVersionRFC8855);
    cbn; tauto.
Qed.

(** [Decode] on a header and what follows it. *)
Lemma Decode_header m rest :
  wf_fields m →
  Decode (wire_header m ++ rest) =
  let size := (Z.to_nat (mPayloadLength m) * 4)%nat in
  if decide (version_ok (mVersion m)) then
    if (length rest <? size)%nat then Err (PayloadTooShort (length rest) size)
    else
      attrs ← decode_attrs (S size) (wire_header m ++ rest) [] CommonHeaderLength
                (CommonHeaderLength + size);
      Ok (set_Attributes attrs m)
  else Err (UnsupportedVersion (mVersion m)).
Proof.
  intros [Hv Hr Hp Hl Hc Ht Hu]. unfold Decode.
  destruct (wire_header_slices (E:=decode_error) m rest) as (-> & -> & -> & -> & -> & ->).
  set (data := wire_header m ++ rest).
  assert (length data = CommonHeaderLength + length rest)%nat as -> by (unfold data; lens).
  destruct (Nat.ltb_spec (CommonHeaderLength + length rest) CommonHeaderLength); [lia|].
  cbn [mbind res_bind]. rewrite first_byte_version, first_byte_reserved by done.
  rewrite (u8_small (mPrimitive m)), !get16_be16_nil, get32_be32_nil by done.
  cbn [mbind res_bind]. cbn zeta.
  replace (CommonHeaderLength + length rest - CommonHeaderLength)%nat with (length rest) by lia.
  replace (CommonHeaderLength + length rest <?
    CommonHeaderLength + Z.to_nat (mPayloadLength m) * 4)%nat with
    (length rest <? Z.to_nat (mPayloadLength m) * 4)%nat by
    (destruct (Nat.ltb_spec (length rest) (Z.to_nat (mPayloadLength m) * 4)),
      (Nat.ltb_spec (CommonHeaderLength + length rest)
        (CommonHeaderLength + Z.to_nat (mPayloadLength m) * 4)); lia || done).
  by rewrite version_check.
Qed.

(** A run of TLVs as a parser accepts it: the padding bytes are arbitrary. *)
Inductive tlv_run : bytes → list tlv → Prop :=
| run_nil : tlv_run [] []
| run_cons t mandatory v padding s xs :
    is_u7 t → (length v <= max_value_len)%nat → length padding = pad4 (2 + length v) →
    tlv_run s xs →
    tlv_run ([type_byte t mandatory; u8 (Z.of_nat (2 + length v))] ++ v ++ padding ++ s)
            ((t, mandatory, v) :: xs).

Lemma tlv_run_length s xs : tlv_run s xs → length s = length (concat (tlv_bytes <$> xs)).
Proof.
  induction 1 as [|t mb v p s xs Ht Hv Hp _ IH]; [done|].
  rewrite fmap_cons, concat_cons. unfold tlv_bytes at 1. cbn [fst snd]. lens.
Qed.

Lemma tlv_run_ok s xs : tlv_run s xs → Forall tlv_ok xs.
Proof. induction 1; constructor; by try split. Qed.

Lemma tlv_run_zeros xs : Forall tlv_ok xs → tlv_run (concat (tlv_bytes <$> xs)) xs.
Proof.
  induction 1 as [|[[t mb] v] xs [Ht Hv] _ IH]; [constructor|].
  rewrite fmap_cons, concat_cons. unfold tlv_bytes at 1, buildSimpleAttr. cbn [fst snd].
  rewrite <- !app_assoc. constructor; try done. apply length_zeros.
Qed.

Lemma tlv_run_aligned s xs : tlv_run s xs → (length s mod 4 = 0)%nat.
Proof.
  induction 1 as [|t mb v p s xs Ht Hv Hp _ IH]; [done|].
  pose proof (pad4_spec (2 + length v)). rewrite !length_app. cbn [length]. mlia.
Qed.

Section decode_step.
Context (t : Z) (mandatory : bool) (v padding : bytes).
Hypothesis (Ht : is_u7 t) (Hv : (length v <= max_value_len)%nat)
           (Hp : length padding = pad4 (2 + length v)).

Lemma decode_attrs_step fuel pre post attrs endOffset offset :
  let head := [type_byte t mandatory; u8 (Z.of_nat (2 + length v))] in
  (length (pre ++ head ++ v ++ padding) <= endOffset)%nat → offset = length pre →
  decode_attrs (S fuel) (pre ++ head ++ v ++ padding ++ post) attrs offset endOffset
  = decode_attrs fuel (pre ++ head ++ v ++ padding ++ post)
      (attrs ++ [tlv_attr t v]) (length (pre ++ head ++ v ++ padding)) endOffset.
Proof using All.
  intros head Hend ->. unfold max_value_len in Hv. cbn [decode_attrs].
  set (data := pre ++ head ++ v ++ padding ++ post). unfold head in *.
  rewrite !length_app in Hend. cbn [length] in Hend.
  destruct (Nat.ltb_spec (length pre) endOffset); [|lia].
  destruct (Nat.ltb_spec endOffset (length pre + 2)); [lia|].
  rewrite (index_eq data pre (u8 (Z.of_nat (2 + length v)) :: v ++ padding ++ post)
    (type_byte t mandatory) (length pre)) by done.
  rewrite (index_eq data (pre ++ [type_byte t mandatory]) (v ++ padding ++ post)
    (u8 (Z.of_nat (2 + length v))) (length pre + 1)); [|unfold data; by list_simplifier|lens].
  cbn [mbind res_bind]. rewrite type_byte_decode, u8_of_len, Nat2Z.id by (done || lia).
  destruct (Z.ltb_spec (Z.of_nat (2 + length v)) 2); [lia|].
  replace (2 + length v - 2)%nat with (length v) by lia.
  destruct (Nat.ltb_spec endOffset (length pre + 2 + length v)); [lia|].
  rewrite (slice_eq data (pre ++ [type_byte t mandatory; u8 (Z.of_nat (2 + length v))]) v
    (padding ++ post)); [|unfold data; by list_simplifier|lens|lens].
  cbn [mbind res_bind]. rewrite u8_of_len by lia. f_equal. rewrite skip_padded_eq. lens.
Qed.
End decode_step.

Lemma decode_attrs_run s xs : tlv_run s xs → ∀ fuel pre post attrs,
  (length s < fuel)%nat →
  decode_attrs fuel (pre ++ s ++ post) attrs (length pre) (length pre + length s)
  = Ok (attrs ++ (tlv_parsed <$> xs)).
Proof.
  induction 1 as [|t mb v p s xs Ht Hv Hp _ IH]; intros fuel pre post attrs Hfuel.
  - destruct fuel as [|fuel]; [cbn in Hfuel; lia|]. cbn.
    rewrite app_nil_r. destruct (Nat.ltb_spec (length pre) (length pre + 0)); [lia|done].
  - rewrite !length_app in *. cbn [length] in *. destruct fuel as [|fuel]; [lia|].
    rewrite <- !app_assoc. rewrite decode_attrs_step by (done || lens).
    set (h := [_; _]). replace (length pre + (2 + (length v + (length p + length s))))%nat
      with (length (pre ++ h ++ v ++ p) + length s)%nat by (unfold h; lens).
    replace (pre ++ h ++ v ++ p ++ s ++ post) with ((pre ++ h ++ v ++ p) ++ s ++ post)
      by (by list_simplifier).
    rewrite IH by lia. by rewrite <- app_assoc.
Qed.

Definition run_length (xs : list tlv) : nat := length (concat (tlv_bytes <$> xs)).

Lemma run_aligned xs : (run_length xs mod 4 = 0)%nat.
Proof.
  unfold run_length. induction xs as [|x xs IH]; [done|].
  rewrite fmap_cons, concat_cons, length_app.
  pose proof (buildSimpleAttr_aligned x.1.1 x.1.2 x.2). unfold tlv_bytes in *. mlia.
Qed.

(** A header followed by as many TLV bytes as it announces. *)
Lemma Decode_run m s xs rest :
  wf_header m → tlv_run s xs → length s = (Z.to_nat (mPayloadLength m) * 4)%nat →
  Decode (wire_header m ++ s ++ rest) = Ok (set_Attributes (tlv_parsed <$> xs) m).
Proof.
  intros [Hm Hver] Hrun Hlen. rewrite Decode_header by done. cbn zeta.
  rewrite decide_True, <- Hlen by done.
  destruct (Nat.ltb_spec (length (s ++ rest)) (length s)); [lens|].
  rewrite <- (length_wire_header m), (decode_attrs_run s xs) by (done || lia). done.
Qed.

(** ** [Decode ∘ Encode] *)

(** The attribute that [Decode] gives back for an encoded one: a plain
    attribute is itself, a pre-encoded TLV comes back as its type and value. *)
Inductive attr_decodes : Attribute → tlv → Prop :=
| decodes_plain t v :
    attr_decodes (tlv_attr t v) (t, true, v)
| decodes_raw t mandatory v ty len :
    attr_decodes (mkAttribute ty len (buildSimpleAttr t mandatory v) true) (t, mandatory, v).

Lemma attr_decodes_wire a x :
  attr_decodes a x → tlv_ok x → wire_attr a = tlv_bytes x ∧ encodable a.
Proof.
  destruct 1; intros [_ Hv]; unfold tlv_bytes; cbn in *; (split; [done|]);
    [right|left]; done.
Qed.

Lemma attrs_decode_wire attrs xs :
  Forall2 attr_decodes attrs xs → Forall tlv_ok xs →
  concat (wire_attr <$> attrs) = concat (tlv_bytes <$> xs) ∧ Forall encodable attrs.
Proof.
  induction 1 as [|a x attrs xs Ha _ IH]; [done|].
  intros [Hx Hxs]%Forall_cons_1. destruct (IH Hxs) as [Hcat Hall].
  destruct (attr_decodes_wire a x Ha Hx) as [Hw Henc].
  split; [by rewrite !fmap_cons, !concat_cons, Hw, Hcat|by constructor].
Qed.

Lemma Encode_run m xs :
  Forall2 attr_decodes (mAttributes m) xs → Forall tlv_ok xs →
  Encode m = Ok (sized m, wire_header (sized m) ++ concat (tlv_bytes <$> xs)) ∧
  attrs_wire_length (mAttributes m) = run_length xs.
Proof.
  intros Hxs Hok. destruct (attrs_decode_wire _ _ Hxs Hok) as [Hwire Hall].
  assert (attrs_wire_length (mAttributes m) = run_length xs) as Hlen.
  { unfold run_length. rewrite <- Hwire. symmetry. by apply (wire_payload_length m). }
  split; [|done]. rewrite Encode_wire.
  - unfold wire_payload. by rewrite Hwire.
  - done.
  - rewrite Hlen. apply run_aligned.
Qed.

Lemma wf_header_sized m :
  wf_header m → is_u16 (Z.of_nat (attrs_wire_length (mAttributes m) / 4)) →
  wf_header (sized m) ∧
  mPayloadLength (sized m) = Z.of_nat (attrs_wire_length (mAttributes m) / 4).
Proof.
  intros [[] ?] Hlen. unfold sized, wf_header. cbn. rewrite u16_small by done.
  split; [|done]. split; [by constructor|done].
Qed.

Lemma Decode_Encode m xs rest :
  wf_header m → Forall2 attr_decodes (mAttributes m) xs → Forall tlv_ok xs →
  is_u16 (Z.of_nat (attrs_wire_length (mAttributes m) / 4)) →
  ∃ bs, Encode m = Ok (sized m, bs) ∧
        Decode (bs ++ rest) = Ok (set_Attributes (tlv_parsed <$> xs) (sized m)) ∧
        length bs = (CommonHeaderLength + Z.to_nat (mPayloadLength (sized m)) * 4)%nat.
Proof.
  intros Hm Hxs Hok Hlen. destruct (Encode_run m xs Hxs Hok) as [Henc Hrun].
  destruct (wf_header_sized m Hm Hlen) as [Hwf Hpl].
  exists (wire_header (sized m) ++ concat (tlv_bytes <$> xs)). split; [done|].
  pose proof (run_aligned xs). split.
  - rewrite <- app_assoc. apply Decode_run; [done|by apply tlv_run_zeros|].
    rewrite Hpl, Hrun, Nat2Z.id. unfold run_length in *. mlia.
  - rewrite Hpl, Hrun, Nat2Z.id, length_app, length_wire_header.
    unfold run_length in *. mlia.
Qed.

(** ** [Decode] accepts exactly the format *)

Lemma byte_split b : is_u8 b → is_u7 (Z.shiftr b 1) ∧ type_byte (Z.shiftr b 1) (Z.odd b) = b.
Proof.
  intros Hb. rewrite Z.shiftr_div_pow2 by lia. change (2 ^ 1) with 2. width.
  assert (is_u7 (b / 2)) by (unfold is_u7; change (2 ^ 7) with 128; mlia).
  split; [done|]. rewrite type_byte_arith by done.
  rewrite (Z.div_mod b 2) at 3 by lia. rewrite Zmod_odd. destruct (Z.odd b); lia.
Qed.

(** The suffix of [data] up to [endOffset]. *)
Definition window (data : bytes) (offset endOffset : nat) : bytes :=
  drop offset (take endOffset data).

Lemma window_split data offset n endOffset :
  (offset + n <= endOffset <= length data)%nat →
  window data offset endOffset = take n (drop offset data) ++ window data (offset + n) endOffset.
Proof.
  intros. unfold window. rewrite <- drop_drop, <- (take_drop n (drop offset (take endOffset data))) at 1.
  f_equal. rewrite take_drop_commute, take_take, Nat.min_l by lia.
  by rewrite <- take_drop_commute.
Qed.

Lemma window_head (data : bytes) offset endOffset (h l : Z) :
  (offset + 2 <= endOffset <= length data)%nat →
  data !! offset = Some h → data !! (offset + 1)%nat = Some l →
  take 2 (drop offset data) = [h; l].
Proof.
  intros Hend Hh Hl. rewrite (drop_S _ h) by done.
  rewrite (drop_S _ l) by (by rewrite <- Nat.add_1_r). done.
Qed.

(** One accepted iteration of the loop, read backwards. *)
Lemma decode_attrs_unfold fuel data attrs offset endOffset attrs' :
  all_u8 data → (endOffset <= length data)%nat → (offset < endOffset)%nat →
  (offset mod 4 = 0)%nat → (endOffset mod 4 = 0)%nat →
  decode_attrs (S fuel) data attrs offset endOffset = Ok attrs' →
  ∃ t mandatory v padding,
    let size := (2 + length v + pad4 (2 + length v))%nat in
    is_u7 t ∧ (length v <= max_value_len)%nat ∧ length padding = pad4 (2 + length v) ∧
    all_u8 v ∧ (offset + size <= endOffset)%nat ∧
    take size (drop offset data) =
      [type_byte t mandatory; u8 (Z.of_nat (2 + length v))] ++ v ++ padding ∧
    decode_attrs fuel data (attrs ++ [tlv_attr t v]) (offset + size) endOffset = Ok attrs'.
Proof.
  intros Hu8 Hend Hoff Hmod Hmod' Hdec. cbn [decode_attrs] in Hdec.
  destruct (Nat.ltb_spec offset endOffset); [|lia].
  destruct (Nat.ltb_spec endOffset (offset + 2)); [discriminate|].
  apply res_bind_Ok in Hdec as (h & Hh & Hdec). apply res_bind_Ok in Hdec as (l & Hl & Hdec).
  pose proof (index_u8 _ _ _ Hu8 Hh) as Hh8. pose proof (index_u8 _ _ _ Hu8 Hl) as Hl8.
  destruct (Z.ltb_spec l 2); [discriminate|].
  destruct (Nat.ltb_spec endOffset (offset + 2 + (Z.to_nat l - 2))); [discriminate|].
  apply res_bind_Ok in Hdec as (v & Hv & Hdec).
  pose proof (slice_length _ _ _ _ Hv) as Hlen.
  assert (2 + length v = Z.to_nat l)%nat as Hl2 by lia.
  destruct (byte_split h Hh8) as [Ht Hb].
  assert (2 <= l < 256) by (width; lia).
  rewrite u8_of_len in Hdec by lia. rewrite skip_padded_eq in Hdec.
  set (size := (2 + length v + pad4 (2 + length v))%nat).
  assert (offset + size <= endOffset)%nat by
    (pose proof (pad4_spec (2 + length v)); unfold size; mlia).
  exists (Z.shiftr h 1), (Z.odd h), v,
    (take (pad4 (2 + length v)) (drop (offset + 2 + length v) data)).
  split_and!; try done.
  - unfold max_value_len. lia.
  - rewrite length_take, length_drop. unfold size in *. lia.
  - by eapply slice_all_u8.
  - fold size. apply slice_inv in Hv as [_ Hv].
    rewrite <- Hlen in Hv. rewrite Hb, Hl2, Z2Nat.id, (u8_small l) by (done || lia).
    assert (take 2 (drop offset data) = [h; l]) as Hhead.
    { apply (window_head data offset endOffset); [lia|..];
        unfold index in *; repeat case_match; by inv_res; subst. }
    unfold size. rewrite <- !take_take_drop, Hhead, !drop_drop, <- app_assoc.
    by rewrite <- Hv, <- Nat.add_assoc, Hl2.
  - replace (Z.to_nat l - 2)%nat with (length v) in Hdec by lia. fold size.
    replace (offset + size)%nat with (offset + Z.to_nat l + pad4 (Z.to_nat l))%nat
      by (unfold size; rewrite Hl2; lia). done.
Qed.

Lemma decode_attrs_sound data endOffset fuel : ∀ attrs offset attrs',
  all_u8 data → (endOffset <= length data)%nat → (offset <= endOffset)%nat →
  (offset mod 4 = 0)%nat → (endOffset mod 4 = 0)%nat →
  decode_attrs fuel data attrs offset endOffset = Ok attrs' →
  ∃ xs, attrs' = attrs ++ (tlv_parsed <$> xs) ∧ tlv_run (window data offset endOffset) xs ∧
        Forall (λ x, all_u8 x.2) xs.
Proof.
  induction fuel as [|fuel IH]; intros attrs offset attrs' Hu8 Hend Hoff Hmod Hmod' Hdec;
    [discriminate|].
  destruct (decide (offset = endOffset)) as [->|Hne].
  - cbn in Hdec. destruct (Nat.ltb_spec endOffset endOffset); [lia|]. inv_res. subst.
    exists []. rewrite app_nil_r. split_and!; [done| |constructor].
    unfold window. rewrite drop_ge by (rewrite length_take; lia). constructor.
  - apply decode_attrs_unfold in Hdec
      as (t & mb & v & p & Ht & Hv & Hp & Hv8 & Hsize & Htake & Hdec); [|done || lia..].
    pose proof (pad4_spec (2 + length v)).
    apply IH in Hdec as (xs & -> & Hrun & Hxs); [|done || mlia..].
    exists ((t, mb, v) :: xs). rewrite <- app_assoc. split_and!; [done| |by constructor].
    rewrite (window_split data offset (2 + length v + pad4 (2 + length v))), Htake by lia.
    rewrite <- !app_assoc. by constructor.
Qed.

Lemma header_of_bytes data :
  all_u8 data → (CommonHeaderLength <= length data)%nat →
  ∃ m, wf_fields m ∧ mAttributes m = [] ∧ data = wire_header m ++ drop CommonHeaderLength data.
Proof.
  intros Hu8 Hlen. unfold CommonHeaderLength in *.
  do 12 (destruct data as [|?b data]; [cbn in Hlen; lia|]). unfold all_u8 in Hu8.
  rewrite !Forall_cons in Hu8. destruct Hu8 as (H0&H1&H2&H3&H4&H5&H6&H7&H8&H9&H10&H11&_).
  exists (mkMessage (b / 32) (b `mod` 32) b0 (b2 + b1 * 256)
    (b6 + b5 * 256 + b4 * 65536 + b3 * 16777216) (b8 + b7 * 256) (b10 + b9 * 256) []).
  split; [constructor; cbn; width; mlia|]. split; [done|].
  unfold wire_header. cbn [mVersion mReserved mPrimitive mPayloadLength mConferenceID
    mTransactionID mUserID].
  fold (first_byte (b / 32) (b `mod` 32)). rewrite first_byte_arith by (width; mlia).
  rewrite !be16_get16, be32_get32, u8_small by done.
  replace (b / 32 * 32 + b `mod` 32) with b by (rewrite Z.mul_comm; apply Z.div_mod; lia).
  done.
Qed.

Lemma Decode_sound data m :
  all_u8 data → Decode data = Ok m →
  ∃ xs s rest, data = wire_header m ++ s ++ rest ∧ wf_header m ∧ tlv_run s xs ∧
    length s = (Z.to_nat (mPayloadLength m) * 4)%nat ∧
    mAttributes m = tlv_parsed <$> xs ∧ Forall (λ x, all_u8 x.2) xs.
Proof.
  intros Hu8 Hdec.
  destruct (Nat.ltb_spec (length data) CommonHeaderLength) as [Hlt|Hge].
  { unfold Decode in Hdec. destruct (Nat.ltb_spec (length data) CommonHeaderLength);
      [discriminate|lia]. }
  destruct (header_of_bytes data Hu8 Hge) as (m0 & Hm0 & _ & Hdata).
  set (rest := drop CommonHeaderLength data) in *. rewrite Hdata in Hdec, Hu8 |- *.
  rewrite Decode_header in Hdec by done. cbn zeta in Hdec.
  case_decide as Hver; [|discriminate].
  set (size := (Z.to_nat (mPayloadLength m0) * 4)%nat) in *.
  destruct (Nat.ltb_spec (length rest) size) as [|Hsize]; [discriminate|].
  apply res_bind_Ok in Hdec as (attrs & Hattrs & Hdec). inv_res. subst m.
  apply decode_attrs_sound in Hattrs as (xs & -> & Hrun & Hxs);
    [|done|lens|lia|done|unfold size, CommonHeaderLength; mlia].
  exists xs, (take size rest), (drop size rest). rewrite take_drop.
  assert (window (wire_header m0 ++ rest) CommonHeaderLength (CommonHeaderLength + size)
    = take size rest) as Hwin.
  { unfold window. rewrite <- (length_wire_header m0), take_app_add.
    by rewrite drop_app_length. }
  rewrite Hwin in Hrun. split_and!; try done.
  - split; [|done]. by destruct Hm0.
  - rewrite length_take. change (mPayloadLength (set_Attributes _ _)) with (mPayloadLength m0).
    fold size. lia.
Qed.

(** ** Which errors occur *)

(** The loop returns, and its offset stays aligned to four bytes: a header of
    two bytes always fits before the end. *)
Lemma decode_attrs_total data endOffset fuel : ∀ attrs offset,
  (endOffset <= length data)%nat → (endOffset < fuel + offset)%nat → (0 < fuel)%nat →
  (offset mod 4 = 0)%nat → (endOffset mod 4 = 0)%nat →
  match decode_attrs fuel data attrs offset endOffset with
  | Ok _ | Err (InvalidAttributeLength _) | Err (AttributeExceedsMessage _ _ _) => True
  | _ => False
  end.
Proof.
  induction fuel as [|fuel IH]; intros attrs offset Hend Hfuel Hpos Hmod Hmod'; [lia|].
  cbn [decode_attrs]. destruct (Nat.ltb_spec offset endOffset); [|done].
  destruct (Nat.ltb_spec endOffset (offset + 2)); [mlia|].
  destruct (index_is_Ok (E:=decode_error) data offset) as [h ->]; [lia|].
  destruct (index_is_Ok (E:=decode_error) data (offset + 1)) as [l ->]; [lia|].
  cbn [mbind res_bind]. destruct (Z.ltb_spec l 2); [done|].
  destruct (Nat.ltb_spec endOffset (offset + 2 + (Z.to_nat l - 2))); [done|].
  destruct (slice_is_Ok (E:=decode_error) data (offset + 2) (offset + 2 + (Z.to_nat l - 2)))
    as [v ->]; [lia|]. cbn [mbind res_bind].
  pose proof (pad4_spec (Z.to_nat l)).
  apply IH; rewrite ?skip_padded_eq; mlia.
Qed.

Lemma Decode_slices_Ok (data : bytes) i j :
  (i <= j <= length data)%nat → (4 <= j - i)%nat →
  is_Ok (s ← slice (E:=decode_error) data i j; get32 s).
Proof.
  intros. rewrite slice_Ok by lia. apply get32_is_Ok. rewrite length_take, length_drop. lia.
Qed.

Lemma Decode_slices16_Ok (data : bytes) i j :
  (i <= j <= length data)%nat → (2 <= j - i)%nat →
  is_Ok (s ← slice (E:=decode_error) data i j; get16 s).
Proof.
  intros. rewrite slice_Ok by lia. apply get16_is_Ok. rewrite length_take, length_drop. lia.
Qed.

Lemma Decode_returns data :
  returns (Decode data) ∧ ∀ offset, Decode data ≠ Err (IncompleteAttributeHeader offset).
Proof.
  unfold Decode.
  destruct (Nat.ltb_spec (length data) CommonHeaderLength) as [|Hlen]; [by split|].
  unfold CommonHeaderLength in *.
  destruct (index_is_Ok (E:=decode_error) data 0) as [b0 ->]; [lia|]. cbn [mbind res_bind].
  rewrite version_check. case_decide; [|by split].
  destruct (index_is_Ok (E:=decode_error) data 1) as [b1 ->]; [lia|].
  destruct (Decode_slices16_Ok data 2 4) as [pl Hpl]; [lia..|].
  destruct (Decode_slices_Ok data 4 8) as [cid Hcid]; [lia..|].
  destruct (Decode_slices16_Ok data 8 10) as [tid Htid]; [lia..|].
  destruct (Decode_slices16_Ok data 10 12) as [uid Huid]; [lia..|].
  cbn [mbind res_bind] in *. rewrite Hpl, Hcid, Htid, Huid. clear Hpl Hcid Htid Huid.
  cbn [mbind res_bind].
  set (size := (Z.to_nat pl * 4)%nat).
  destruct (Nat.ltb_spec (length data) (12 + size)); [by split|].
  assert (Hloop := decode_attrs_total data (12 + size) (S size) [] 12).
  destruct (decode_attrs _ _ _ _ _) as [|[]| |]; cbn;
    (split; [done|intros ?; discriminate]) || (destruct Hloop; unfold size; mlia).
Qed.

(** C19: [Decode] always comes back with a message or an error: on no input, however
    malformed, does it index out of range (the Go runtime would panic) or loop,
    and its "incomplete attribute header" branch is unreachable because the loop
    keeps its offset aligned to four bytes. *)
Theorem Decode_total data :
  returns (Decode data) ∧ ∀ offset, Decode data ≠ Err (IncompleteAttributeHeader offset).
Proof. apply Decode_returns. Qed.

Lemma Encode_misaligned m :
  (attrs_wire_length (mAttributes m) mod 4 ≠ 0)%nat → Encode m = Err AttributeLengthNotAligned.
Proof. intros Hmod%Nat.eqb_neq. unfold Encode. by rewrite Hmod. Qed.

Lemma Encode_returns m : returns (Encode m).
Proof.
  destruct (decide (attrs_wire_length (mAttributes m) mod 4 = 0)%nat).
  - by destruct (Encode_Ok m) as (bs & -> & _).
  - by rewrite Encode_misaligned.
Qed.

(** C29: [Encode] succeeds exactly when the attributes fill whole 4-byte words (only a
    misaligned pre-encoded TLV can fail); it never writes outside its buffer, even
    when a length field disagrees with its value, and the buffer has the header
    and the announced payload. *)
Theorem Encode_total m :
  match Encode m with
  | Ok (m', bs) =>
      m' = sized m ∧ (attrs_wire_length (mAttributes m) mod 4 = 0)%nat ∧
      length bs = (CommonHeaderLength + attrs_wire_length (mAttributes m))%nat
  | Err AttributeLengthNotAligned => (attrs_wire_length (mAttributes m) mod 4 ≠ 0)%nat
  | Panic | Diverge => False
  end.
Proof.
  destruct (decide (attrs_wire_length (mAttributes m) mod 4 = 0)%nat) as [Hmod|Hmod].
  - destruct (Encode_Ok m Hmod) as (bs & -> & Hlen). done.
  - by rewrite Encode_misaligned.
Qed.

(** C15: the wire grammar: [Decode] accepts a datagram exactly when it is a header
    with a supported version, followed by as many well-formed TLVs as the payload
    length announces (any padding bytes), followed by anything; the message is
    the header fields and the TLVs. *)
Theorem Decode_iff data m :
  all_u8 data →
  Decode data = Ok m ↔
  ∃ xs s rest,
    data = wire_header m ++ s ++ rest ∧ wf_header m ∧ tlv_run s xs ∧
    length s = (Z.to_nat (mPayloadLength m) * 4)%nat ∧ mAttributes m = tlv_parsed <$> xs.
Proof.
  intros Hu8. split.
  - intros (xs & s & rest & ? & ? & ? & ? & ? & _)%Decode_sound; [|done]. by exists xs, s, rest.
  - intros (xs & s & rest & -> & Hm & Hrun & Hlen & Hattrs).
    rewrite (Decode_run m s xs rest) by done. by destruct m; cbn in *; subst.
Qed.

(** C4: a message whose attributes fit (plain values of at most 253 bytes, or
    well-formed pre-encoded TLVs) survives the wire: [Decode] of the encoded bytes,
    whatever follows them, is the message with its payload length set and every
    pre-encoded TLV turned into its type and value. *)
Theorem Decode_Encode_roundtrip m xs rest :
  wf_header m → Forall2 attr_decodes (mAttributes m) xs → Forall tlv_ok xs →
  is_u16 (Z.of_nat (attrs_wire_length (mAttributes m) / 4)) →
  ∃ bs, Encode m = Ok (sized m, bs) ∧
        Decode (bs ++ rest) = Ok (set_Attributes (tlv_parsed <$> xs) (sized m)).
Proof.
  intros Hm Hxs Hok Hlen.
  destruct (Decode_Encode m xs rest Hm Hxs Hok Hlen) as (bs & ? & ? & _). eauto.
Qed.

Lemma parsed_decodes (xs : list tlv) : Forall2 attr_decodes (tlv_parsed <$> xs) ((λ x, (x.1.1, true, x.2)) <$> xs).
Proof.
  induction xs as [|x xs IH]; cbn; constructor; [apply decodes_plain|done].
Qed.

Lemma parsed_mandatory (xs : list tlv) : tlv_parsed <$> ((λ x, (x.1.1, true, x.2)) <$> xs) = tlv_parsed <$> xs.
Proof. by rewrite <- list_fmap_compose. Qed.

(** C30: re-encoding is canonical: every datagram that [Decode] accepts gives a
    message that [Encode] accepts unchanged (the payload length included), and the
    re-encoded bytes decode to the same message and are no longer than the
    datagram. *)
Theorem Encode_Decode_canonical data m :
  all_u8 data → Decode data = Ok m →
  ∃ bs, Encode m = Ok (m, bs) ∧ Decode bs = Ok m ∧ (length bs <= length data)%nat.
Proof.
  intros Hu8 (xs & s & rest & -> & Hm & Hrun & Hlen & Hattrs & _)%Decode_sound; [|done].
  set (ys := (λ x : tlv, (x.1.1, true, x.2)) <$> xs).
  assert (Forall tlv_ok ys) as Hok.
  { apply Forall_fmap. eapply Forall_impl; [by eapply tlv_run_ok|]. by intros [[??]?] []. }
  destruct (Encode_run m ys) as [Henc Hwl]; [rewrite Hattrs; apply parsed_decodes|done|].
  assert (run_length ys = length s) as Hys.
  { rewrite (tlv_run_length s xs Hrun). unfold run_length, ys. clear.
    induction xs as [|x xs IH]; [done|]. rewrite !fmap_cons, !concat_cons, !length_app, IH.
    unfold tlv_bytes. cbn [fst snd]. by rewrite !length_buildSimpleAttr. }
  assert (sized m = m) as Hsized.
  { unfold sized. rewrite Hwl, Hys, Hlen, Nat.div_mul, Z2Nat.id by
      (try lia; destruct Hm as [[] _]; width; lia).
    destruct Hm as [[] _]. rewrite u16_small by done. by destruct m. }
  rewrite Hsized in Henc. eexists. split; [done|]. split.
  - rewrite <- (app_nil_r (concat _)).
    rewrite (Decode_run m _ ys []); [|done|by apply tlv_run_zeros|unfold run_length in *; lia].
    unfold ys. rewrite parsed_mandatory, <- Hattrs. by destruct m.
  - unfold run_length in *. lens.
Qed.

(** ** The theorems on a request for floor 5 *)

Definition sample_message : Message :=
  AddFloorID 5 (NewMessage PrimitiveFloorRequest 1 7 42).
Definition sample_bytes : bytes := [32; 1; 0; 1; 0; 0; 0; 1; 0; 7; 0; 42; 5; 4; 0; 5].

Lemma sample_bytes_u8 : all_u8 sample_bytes.
Proof. repeat constructor; width; lia. Qed.

Lemma sample_decodes : Decode sample_bytes = Ok (sized sample_message).
Proof. reflexivity. Qed.

Lemma sample_attr_decodes :
  Forall2 attr_decodes (mAttributes sample_message) [(AttrFloorID, true, [0; 5])] ∧
  Forall tlv_ok [(AttrFloorID, true, [0; 5])].
Proof.
  split; (apply Forall2_cons || apply Forall_cons); (split; [|constructor]).
  - exact (decodes_plain AttrFloorID [0; 5]).
  - split; unfold is_u7, AttrFloorID, max_value_len; cbn; lia.
Qed.

Lemma Decode_iff_witness :
  all_u8 sample_bytes ∧
  ∃ xs s rest,
    sample_bytes = wire_header (sized sample_message) ++ s ++ rest ∧
    wf_header (sized sample_message) ∧ tlv_run s xs ∧
    length s = (Z.to_nat (mPayloadLength (sized sample_message)) * 4)%nat ∧
    mAttributes (sized sample_message) = tlv_parsed <$> xs.
Proof.
  split; [exact sample_bytes_u8|].
  exact (proj1 (Decode_iff sample_bytes (sized sample_message) sample_bytes_u8) sample_decodes).
Defined.

Lemma sample_wf : wf_header sample_message.
Proof. split; [constructor; apply (bool_decide_unpack _); exact I|by left]. Qed.

Lemma Decode_Encode_roundtrip_witness :
  ∃ bs, Encode sample_message = Ok (sized sample_message, bs) ∧
        Decode (bs ++ [1; 2; 3]) =
          Ok (set_Attributes (tlv_parsed <$> [(AttrFloorID, true, [0; 5])]) (sized sample_message)).
Proof.
  apply (Decode_Encode_roundtrip sample_message [(AttrFloorID, true, [0; 5])] [1; 2; 3]).
  - exact sample_wf.
  - exact (proj1 sample_attr_decodes).
  - exact (proj2 sample_attr_decodes).
  - apply (bool_decide_unpack _); exact I.
Defined.

Lemma Encode_Decode_canonical_witness :
  all_u8 sample_bytes ∧ Decode sample_bytes = Ok (sized sample_message) ∧
  ∃ bs, Encode (sized sample_message) = Ok (sized sample_message, bs) ∧
        Decode bs = Ok (sized sample_message) ∧ (length bs <= length sample_bytes)%nat.
Proof.
  split; [exact sample_bytes_u8|]. split; [exact sample_decodes|].
  exact (Encode_Decode_canonical sample_bytes (sized sample_message) sample_bytes_u8 sample_decodes).
Defined.
