(* ===== verification/Framing.v ===== *)
(** * TCP framing ([message.go]: [ReadMessage], [WriteMessage]; [transport.go]: [readLoop])

    A connection is what its reader will observe: bytes, expiries of the 5 s
    read deadline, other errors, and the end (EOF, or the connection closed locally);
    what the loop sees before a read - that its context is done, or that the deadline
    cannot be set - is given by the number of the round.  The theorems: messages written
    one after the other are delivered one by one whatever follows and however long the
    peer stays silent between them; a deadline that expires inside a message loses the
    framing. *)

From S2P Require Import Prelude Types Message Grouped Codec.

(** ** [io.ReadFull] on a connection *)

Inductive conn_item :=
| Byte (b : Z)
| Deadline  (* the read deadline expires before the next byte *)
| Broken.  (* any other error of the read *)

Abbreviation conn := (list conn_item).

Inductive read_error := EOF | UnexpectedEOF | Timeout | OtherError.

(** Reads [n] more bytes after [acc]; on an error the bytes already read are gone. *)
Fixpoint ReadFull (n : nat) (c : conn) (acc : bytes) : (bytes + read_error) * conn :=
  match n with
  | O => (inl acc, c)
  | S n =>
      match c with
      | [] => (inr (if decide (acc = []) then EOF else UnexpectedEOF), [])
      | Byte b :: c => ReadFull n c (acc ++ [b])
      | Deadline :: c => (inr Timeout, c)
      | Broken :: c => (inr OtherError, c)
      end
  end.

(** ** [ReadMessage], [WriteMessage] *)

Inductive message_error :=
| HeaderReadError (e : read_error)
| PayloadReadError (e : read_error)
| DecodeError (e : decode_error)
| DeadlineError.  (* of the read loop, before [ReadMessage] *)

Definition lift_decode (r : res decode_error Message) : res message_error Message :=
  match r with Ok m => Ok m | Err e => Err (DecodeError e) | Panic => Panic | Diverge => Diverge end.

Definition ReadMessage (c : conn) : res message_error Message * conn :=
  match ReadFull CommonHeaderLength c [] with
  | (inr e, c) => (Err (HeaderReadError e), c)
  | (inl header, c) =>
      match (s ← slice header 2 4; get16 s) with
      | Ok payloadLength =>
          let payloadSize := (Z.to_nat payloadLength * 4)%nat in
          if (0 <? payloadSize)%nat then
            match ReadFull payloadSize c [] with
            | (inr e, c) => (Err (PayloadReadError e), c)
            | (inl payload, c) => (lift_decode (Decode (header ++ payload)), c)
            end
          else (lift_decode (Decode header), c)
      | Err e => (Err e, c)
      | Panic => (Panic, c)
      | Diverge => (Diverge, c)
      end
  end.

Inductive write_error :=
| EncodeFailed (e : encode_error)
| WriteFailed.

(** [write] is the outcome of the writer on the encoded bytes. *)
Definition WriteMessage (write : bytes → bool) (msg : Message) : res write_error Message :=
  match Encode msg with
  | Ok (msg, data) => if write data then Ok msg else Err WriteFailed
  | Err e => Err (EncodeFailed e)
  | Panic => Panic
  | Diverge => Diverge
  end.

(** ** The read loop *)

(** What a round finds before it reads: the context is not done and the deadline is set,
    or the context is done, or setting the deadline fails. *)
Inductive round_start := Reading | ContextDone | NoDeadline.

(** How the loop ends: the context is done, the peer or a local [Close] ended the
    connection, the deadline could not be set, or a read failed or a message did not
    decode.  [OnError] is called in the last two cases, in the last one unless the
    transport is closed by then.  The transport is closed in every case. *)
Inductive loop_end :=
| Cancelled
| ConnectionClosed
| DeadlineFailed
| ReadFailed (e : message_error).

(** [isTimeout]: the wrapped error mentions "i/o timeout". *)
Definition is_timeout (e : message_error) : bool :=
  match e with
  | HeaderReadError Timeout | PayloadReadError Timeout => true
  | _ => false
  end.

(** [isEOF]: the wrapped error mentions "EOF". *)
Definition is_eof (e : message_error) : bool :=
  match e with
  | HeaderReadError (EOF | UnexpectedEOF) | PayloadReadError (EOF | UnexpectedEOF) => true
  | _ => false
  end.

(** The messages handed to [OnMessage], in order, and the end of the loop; [start]: what
    the rounds find. *)
Fixpoint readLoop_fuel (fuel : nat) (start : nat → round_start) (c : conn)
    : res Empty_set (list Message * loop_end) :=
  match fuel with
  | O => Diverge
  | S fuel =>
      let rest := readLoop_fuel fuel (λ n, start (S n)) in
      match start 0%nat with
      | ContextDone => Ok ([], Cancelled)
      | NoDeadline => Ok ([], DeadlineFailed)
      | Reading =>
          match ReadMessage c with
          | (Ok msg, c) => r ← rest c; Ok (msg :: r.1, r.2)
          | (Err e, c) =>
              if is_timeout e then rest c
              else if is_eof e then Ok ([], ConnectionClosed)
              else Ok ([], ReadFailed e)
          | (Panic, _) => Panic
          | (Diverge, _) => Diverge
          end
      end
  end.

(** Every iteration that continues consumes an item of the connection. *)
Definition readLoop_rounds (start : nat → round_start) (c : conn)
    : res Empty_set (list Message * loop_end) :=
  readLoop_fuel (S (length c)) start c.

(** The loop as long as nobody cancels its context and the deadline can be set. *)
Definition readLoop : conn → res Empty_set (list Message * loop_end) :=
  readLoop_rounds (λ _, Reading).

(** ** Reading what was written *)

Lemma ReadFull_bytes (bs : bytes) : ∀ c acc,
  ReadFull (length bs) ((Byte <$> bs) ++ c) acc = (inl (acc ++ bs), c).
Proof.
  induction bs as [|b bs IH]; intros c acc; cbn; [by rewrite app_nil_r|].
  rewrite IH. by rewrite <- app_assoc.
Qed.

Lemma ReadFull_length n : ∀ c acc bs c',
  ReadFull n c acc = (inl bs, c') → length bs = (length acc + n)%nat ∧ length c = (n + length c')%nat.
Proof.
  induction n as [|n IH]; intros c acc bs c' H; [by inversion H; subst; lens|].
  destruct c as [|[b| |] c]; try discriminate. apply IH in H. lens.
Qed.

Lemma ReadFull_error n : ∀ c acc e c',
  ReadFull n c acc = (inr e, c') → (length c' <= length c)%nat ∧
  (e = Timeout → (length c' < length c)%nat).
Proof.
  induction n as [|n IH]; intros c acc e c' H; [discriminate|]. cbn in H.
  destruct c as [|[b| |] c]; cbn.
  - inversion H; subst. cbn. split; [lia|]. case_decide; discriminate.
  - apply IH in H as [? H]. split; [lia|]. intros ->. specialize (H eq_refl). lia.
  - inversion H; subst. lia.
  - inversion H; subst. lia.
Qed.

Lemma ReadFull_deadline (bs : bytes) : ∀ n c acc,
  (length bs < n)%nat → ReadFull n ((Byte <$> bs) ++ Deadline :: c) acc = (inr Timeout, c).
Proof.
  induction bs as [|b bs IH]; intros [|n] c acc Hn; cbn in *; try lia; [done|].
  apply IH. lia.
Qed.

Lemma ReadFull_short (bs : bytes) : ∀ n acc,
  (length bs < n)%nat → acc ++ bs ≠ [] →
  ReadFull n (Byte <$> bs) acc = (inr UnexpectedEOF, []).
Proof.
  induction bs as [|b bs IH]; intros [|n] acc Hn Hne; cbn in *; try lia.
  - rewrite app_nil_r in Hne. by rewrite decide_False.
  - apply IH; [lia|]. by destruct acc.
Qed.

(** [bs] is the frame of the message [m]. *)
Definition frame (m : Message) (bs : bytes) : Prop :=
  Decode bs = Ok m ∧ length bs = (CommonHeaderLength + Z.to_nat (mPayloadLength m) * 4)%nat.

#[global] Instance frame_dec m bs : Decision (frame m bs).
Proof.
  unfold frame.
  destruct (Decode bs) as [m'| | |] eqn:Hd; try (right; by intros []).
  destruct (decide (m' = m)) as [->|]; [|right; intros []; congruence].
  destruct (decide (length bs = (CommonHeaderLength + Z.to_nat (mPayloadLength m) * 4)%nat));
    [left|right]; tauto.
Defined.

Lemma Decode_payload_length {E} (data : bytes) m :
  Decode data = Ok m →
  (CommonHeaderLength <= length data)%nat ∧
  (s ← slice (E:=E) data 2 4; get16 s) = Ok (mPayloadLength m).
Proof.
  unfold Decode. destruct (Nat.ltb_spec (length data) CommonHeaderLength); [discriminate|].
  unfold CommonHeaderLength in *. intros Hdec.
  apply res_bind_Ok in Hdec as (b0 & _ & Hdec). rewrite version_check in Hdec.
  case_decide; [|discriminate].
  apply res_bind_Ok in Hdec as (b1 & _ & Hdec).
  apply res_bind_Ok in Hdec as (pl & Hpl & Hdec).
  apply res_bind_Ok in Hdec as (cid & _ & Hdec).
  apply res_bind_Ok in Hdec as (tid & _ & Hdec).
  apply res_bind_Ok in Hdec as (uid & _ & Hdec).
  destruct (_ <? _)%nat; [discriminate|]. apply res_bind_Ok in Hdec as (attrs & _ & Hdec).
  injection Hdec as <-. split; [done|]. cbn [mPayloadLength].
  rewrite slice_Ok in Hpl by lia. rewrite slice_Ok by lia. cbn [mbind res_bind] in *.
  destruct (take (4 - 2) (drop 2 data)) as [|? [|??]]; try discriminate. cbn in *. by inv_res; subst.
Qed.

Lemma slice_take {E} (data : bytes) n i j :
  (i <= j <= n)%nat → (n <= length data)%nat →
  slice (E:=E) (take n data) i j = slice data i j.
Proof.
  intros. rewrite !slice_Ok by (rewrite ?length_take; lia).
  by rewrite skipn_firstn_comm, take_take, Nat.min_l by lia.
Qed.

Lemma ReadMessage_frame m bs c :
  frame m bs → ReadMessage ((Byte <$> bs) ++ c) = (Ok m, c).
Proof.
  intros [Hdec Hlen]. unfold ReadMessage.
  destruct (Decode_payload_length (E:=message_error) bs m Hdec) as [Hge Hpl].
  rewrite <- (take_drop CommonHeaderLength bs) at 1. rewrite fmap_app, <- app_assoc.
  replace CommonHeaderLength with (length (take CommonHeaderLength bs)) at 1
    by (rewrite length_take; lia).
  rewrite ReadFull_bytes. cbn [app].
  rewrite slice_take, Hpl by (unfold CommonHeaderLength in *; lia).
  set (size := (Z.to_nat (mPayloadLength m) * 4)%nat) in *.
  assert (length (drop CommonHeaderLength bs) = size) as Hrest by (rewrite length_drop; lia).
  destruct (Nat.ltb_spec 0 size).
  - rewrite <- Hrest, ReadFull_bytes. cbn [app]. by rewrite take_drop, Hdec.
  - rewrite (nil_length_inv (drop CommonHeaderLength bs)) by lia.
    rewrite take_ge, Hdec by lia. done.
Qed.

(** ** The read loop is total *)

Lemma ReadMessage_consumes c m c' : ReadMessage c = (Ok m, c') → (length c' < length c)%nat.
Proof.
  unfold ReadMessage, CommonHeaderLength.
  destruct (ReadFull 12 c []) as [[header|e] c1] eqn:Hh; [|discriminate].
  apply ReadFull_length in Hh as [_ Hc].
  destruct (s ← slice header 2 4; get16 s); try discriminate.
  destruct (_ <? _)%nat.
  - destruct (ReadFull _ c1 []) as [[p|e] c2] eqn:Hp; [|discriminate].
    apply ReadFull_length in Hp. intros H. inversion H; subst. lia.
  - intros H. inversion H; subst. lia.
Qed.

Lemma ReadMessage_timeout c e c' :
  ReadMessage c = (Err e, c') → is_timeout e = true → (length c' < length c)%nat.
Proof.
  unfold ReadMessage, CommonHeaderLength.
  destruct (ReadFull 12 c []) as [[header|e1] c1] eqn:Hh.
  - apply ReadFull_length in Hh as [_ Hc].
    destruct (s ← slice header 2 4; get16 s) as [pl|e2| |]; try discriminate;
      [|intros H _; inversion H; subst; lia].
    destruct (_ <? _)%nat.
    + destruct (ReadFull _ c1 []) as [[p|e2] c2] eqn:Hp.
      * apply ReadFull_length in Hp. intros H _. inversion H; subst. lia.
      * apply ReadFull_error in Hp as [Hle _]. intros Hm _. inversion Hm; subst. lia.
    + intros H _. inversion H; subst. lia.
  - apply ReadFull_error in Hh as [_ Hlt]. intros H Ht. inversion H; subst.
    destruct e1; try discriminate. by apply Hlt.
Qed.

Lemma ReadMessage_returns c : returns (ReadMessage c).1.
Proof.
  unfold ReadMessage, CommonHeaderLength.
  destruct (ReadFull 12 c []) as [[header|e1] c1] eqn:Hh; [|done].
  apply ReadFull_length in Hh as [Hlen _]. cbn in Hlen.
  rewrite slice_Ok by lia. cbn [mbind res_bind].
  destruct (get16_is_Ok (E:=message_error) (take (4 - 2) (drop 2 header))) as [pl ->];
    [rewrite length_take, length_drop; lia|].
  destruct (_ <? _)%nat.
  - destruct (ReadFull _ c1 []) as [[p|e2] c2]; [|done]. cbn.
    pose proof (Decode_returns (header ++ p)) as [? _]. by destruct (Decode _).
  - cbn. pose proof (Decode_returns header) as [? _]. by destruct (Decode _).
Qed.

Lemma readLoop_fuel_Ok fuel : ∀ start c, (length c < fuel)%nat → is_Ok (readLoop_fuel fuel start c).
Proof.
  induction fuel as [|fuel IH]; intros start c Hfuel; [lia|]. cbn.
  destruct (start 0%nat); [|by eexists..].
  pose proof (ReadMessage_returns c) as Hret.
  destruct (ReadMessage c) as [[m|e| |] c'] eqn:Hr; try done.
  - apply ReadMessage_consumes in Hr. destruct (IH (λ n, start (S n)) c') as [r ->]; [lia|]. by eexists.
  - destruct (is_timeout e) eqn:Ht; [|destruct (is_eof e); by eexists].
    apply ReadMessage_timeout in Hr; [|done]. apply IH. lia.
Qed.

Lemma readLoop_fuel_mono fuel : ∀ start c r fuel',
  readLoop_fuel fuel start c = Ok r → (fuel <= fuel')%nat → readLoop_fuel fuel' start c = Ok r.
Proof.
  induction fuel as [|fuel IH]; intros start c r [|fuel'] H Hle; try lia; [discriminate|done|].
  cbn in *. destruct (start 0%nat); [|done..]. destruct (ReadMessage c) as [[m|e| |] c']; try done.
  - apply res_bind_Ok in H as (r' & Hr' & H). rewrite (IH _ _ _ fuel' Hr') by lia. done.
  - destruct (is_timeout e); [|done]. apply IH; [done|lia].
Qed.

(** ** Streams of frames *)

(** [delivers c ms tail]: [c] is the frames of [ms] in order, with any number of
    idle deadlines between them, then [tail]. *)
Inductive delivers : conn → list Message → conn → Prop :=
| delivers_nil c : delivers c [] c
| delivers_idle c ms tail : delivers c ms tail → delivers (Deadline :: c) ms tail
| delivers_frame m bs c ms tail :
    frame m bs → delivers c ms tail → delivers ((Byte <$> bs) ++ c) (m :: ms) tail.

Lemma ReadMessage_idle c : ReadMessage (Deadline :: c) = (Err (HeaderReadError Timeout), c).
Proof. done. Qed.

Lemma readLoop_fuel_delivers c ms tail : delivers c ms tail → ∀ fuel ms' e,
  (length c < fuel)%nat → readLoop tail = Ok (ms', e) →
  readLoop_fuel fuel (λ _, Reading) c = Ok (ms ++ ms', e).
Proof.
  induction 1 as [c|c ms tail _ IH|m bs c ms tail Hm _ IH]; intros fuel ms' e Hfuel Htail.
  - by eapply readLoop_fuel_mono.
  - cbn in Hfuel. destruct fuel as [|fuel]; [lia|]. cbn [readLoop_fuel].
    rewrite ReadMessage_idle. cbn [is_timeout]. apply IH; [lia|done].
  - destruct Hm as [Hdec Hlen]. rewrite length_app, length_fmap in Hfuel.
    unfold CommonHeaderLength in *. destruct fuel as [|fuel]; [lia|]. cbn [readLoop_fuel].
    rewrite (ReadMessage_frame m bs) by done.
    rewrite (IH fuel ms' e) by (done || lia). done.
Qed.

(** C11: the TCP read loop delivers a stream of frames message by message and in
    order, however long the peer stays silent between two of them, and then
    continues with the rest of the connection. *)
Theorem readLoop_delivers c ms tail ms' e :
  delivers c ms tail → readLoop tail = Ok (ms', e) → readLoop c = Ok (ms ++ ms', e).
Proof. intros Hd Htail. by apply (readLoop_fuel_delivers c ms tail Hd); [lia|]. Qed.

(** C33: the read loop ends on every finite connection, whatever its rounds find,
    delivering what it read: it neither panics nor spins (on deadlines it always makes
    progress). *)
Theorem readLoop_total start c : is_Ok (readLoop_rounds start c).
Proof. apply readLoop_fuel_Ok. lia. Qed.

(** C35: a read deadline that expires inside a message loses the framing: the bytes
    already read are dropped, so a header-only message interrupted anywhere is
    never delivered although all its bytes arrive. *)
Theorem deadline_inside_frame_loses_message m bs k :
  frame m bs → mPayloadLength m = 0 → (0 < k < length bs)%nat →
  readLoop ((Byte <$> take k bs) ++ Deadline :: (Byte <$> drop k bs)) = Ok ([], ConnectionClosed).
Proof.
  intros [_ Hlen] Hpl Hk. rewrite Hpl in Hlen. unfold CommonHeaderLength in Hlen.
  unfold readLoop, readLoop_rounds. set (c := _ ++ _).
  apply (readLoop_fuel_mono 2); [|unfold c; rewrite length_app; cbn; rewrite length_fmap, length_take; lia].
  unfold c. cbn [readLoop_fuel]. unfold ReadMessage at 1, CommonHeaderLength.
  rewrite ReadFull_deadline by (rewrite length_take; lia). cbn [is_timeout].
  unfold ReadMessage, CommonHeaderLength.
  assert (length (drop k bs) = 12 - k)%nat as Hd by (rewrite length_drop; lia).
  rewrite ReadFull_short; [done|lia|]. by destruct (drop k bs); [cbn in Hd; lia|].
Qed.

(** The frame that [Encode] writes. *)
Lemma Encode_frame m xs :
  wf_header m → Forall2 attr_decodes (mAttributes m) xs → Forall tlv_ok xs →
  is_u16 (Z.of_nat (attrs_wire_length (mAttributes m) / 4)) →
  ∃ bs, Encode m = Ok (sized m, bs) ∧ frame (set_Attributes (tlv_parsed <$> xs) (sized m)) bs.
Proof.
  intros Hm Hxs Hok Hlen.
  destruct (Decode_Encode m xs [] Hm Hxs Hok Hlen) as (bs & ? & Hdec & Hbs).
  rewrite app_nil_r in Hdec. exists bs. split; [done|]. by split.
Qed.

(** ** The theorems on two requests for floor 5 *)

Lemma sample_frame : frame (sized sample_message) sample_bytes.
Proof. by split. Qed.

Lemma sample_delivers :
  delivers ((Byte <$> sample_bytes) ++ Deadline :: (Byte <$> sample_bytes) ++ [])
    [sized sample_message; sized sample_message] [].
Proof.
  apply delivers_frame; [exact sample_frame|]. apply delivers_idle.
  apply delivers_frame; [exact sample_frame|]. apply delivers_nil.
Qed.

Lemma readLoop_delivers_witness :
  readLoop ((Byte <$> sample_bytes) ++ Deadline :: (Byte <$> sample_bytes) ++ []) =
  Ok ([sized sample_message; sized sample_message] ++ [], ConnectionClosed).
Proof.
  apply (readLoop_delivers _ _ [] [] ConnectionClosed); [exact sample_delivers|reflexivity].
Defined.

(** A Goodbye has no attributes. *)
Definition sample_goodbye : bytes := [32; 16; 0; 0; 0; 0; 0; 1; 0; 7; 0; 42].

Lemma deadline_inside_frame_witness :
  frame (mkMessage 1 0 PrimitiveGoodbye 0 1 7 42 []) sample_goodbye ∧
  readLoop ((Byte <$> take 3 sample_goodbye) ++ Deadline :: (Byte <$> drop 3 sample_goodbye)) =
    Ok ([], ConnectionClosed).
Proof.
  assert (frame (mkMessage 1 0 PrimitiveGoodbye 0 1 7 42 []) sample_goodbye) as H by (by split).
  split; [exact H|].
  apply (deadline_inside_frame_loses_message _ _ 3 H); [reflexivity|cbn; lia].
Defined.
