(* ===== verification/FloorFSM.v ===== *)
(** * Floors ([state.go]: [FloorStateMachine])

    One floor: its state, its operations (each runs under the floor's mutex, so it
    is atomic) and the errors they return, with the text the server sends to the
    client.  The abstract specification is a lock with a waiting stage
    ([Module Lock]); [floor_refines_lock] shows that every sequence of operations
    on a floor behaves as the lock does. *)

From S2P Require Import Prelude Types.

(** The times are the readings of [time.Now]; the zero time is 0. *)
Abbreviation Time := Z.

Record FloorStateMachine := mkFloor {
  fFloorID : Z;
  fConferenceID : Z;
  fCurrentState : Z;
  fOwnerUserID : Z;
  fFloorRequestID : Z;
  fPriority : Z;
  fCreatedAt : Time;
  fGrantedAt : Time
}.

#[global] Instance FloorStateMachine_eq_dec : EqDecision FloorStateMachine.
Proof. solve_decision. Defined.

Inductive floor_error :=
| FloorInUse (floorID owner : Z)
| InvalidFloorState (state : Z)
| CannotGrant (state : Z)
| CannotDeny (state : Z)
| NotOwner (userID floorID owner : Z)
| NoUserToRevoke.

#[global] Instance floor_error_eq_dec : EqDecision floor_error.
Proof. solve_decision. Defined.

(** [err.Error()] *)
Definition floor_error_text (e : floor_error) : string :=
  match e with
  | FloorInUse f o => "floor " +:+ pretty f +:+ " already in use by user " +:+ pretty o
  | InvalidFloorState s => "invalid floor state: " +:+ RequestStatus_String s
  | CannotGrant s => "cannot grant floor in state " +:+ RequestStatus_String s
  | CannotDeny s => "cannot deny floor in state " +:+ RequestStatus_String s
  | NotOwner u f o =>
      "user " +:+ pretty u +:+ " does not own floor " +:+ pretty f +:+ " (owner: " +:+ pretty o +:+ ")"
  | NoUserToRevoke => "no user to revoke"
  end.

Definition NewFloorStateMachine (floorID conferenceID : Z) (now : Time) : FloorStateMachine :=
  mkFloor floorID conferenceID RequestStatusReleased 0 0 0 now 0.

(** ** Operations *)

Definition Floor_Request (userID requestID priority : Z) (fsm : FloorStateMachine)
    : (Z * option floor_error) * FloorStateMachine :=
  if fCurrentState fsm =? RequestStatusReleased then
    ((RequestStatusPending, None),
     mkFloor (fFloorID fsm) (fConferenceID fsm) RequestStatusPending userID requestID priority
       (fCreatedAt fsm) (fGrantedAt fsm))
  else if (fCurrentState fsm =? RequestStatusPending) || (fCurrentState fsm =? RequestStatusGranted)
  then ((RequestStatusDenied, Some (FloorInUse (fFloorID fsm) (fOwnerUserID fsm))), fsm)
  else ((RequestStatusDenied, Some (InvalidFloorState (fCurrentState fsm))), fsm).

Definition Floor_Grant (now : Time) (fsm : FloorStateMachine)
    : option floor_error * FloorStateMachine :=
  if negb (fCurrentState fsm =? RequestStatusPending) then
    (Some (CannotGrant (fCurrentState fsm)), fsm)
  else
    (None, mkFloor (fFloorID fsm) (fConferenceID fsm) RequestStatusGranted (fOwnerUserID fsm)
             (fFloorRequestID fsm) (fPriority fsm) (fCreatedAt fsm) now).

Definition Floor_Deny (fsm : FloorStateMachine) : option floor_error * FloorStateMachine :=
  if negb (fCurrentState fsm =? RequestStatusPending) then
    (Some (CannotDeny (fCurrentState fsm)), fsm)
  else
    (None, mkFloor (fFloorID fsm) (fConferenceID fsm) RequestStatusDenied 0 0 (fPriority fsm)
             (fCreatedAt fsm) (fGrantedAt fsm)).

Definition Floor_Release (userID : Z) (fsm : FloorStateMachine)
    : option floor_error * FloorStateMachine :=
  if negb (fOwnerUserID fsm =? userID) && negb (userID =? 0) then
    (Some (NotOwner userID (fFloorID fsm) (fOwnerUserID fsm)), fsm)
  else
    (None, mkFloor (fFloorID fsm) (fConferenceID fsm) RequestStatusReleased 0 0 0
             (fCreatedAt fsm) (fGrantedAt fsm)).

Definition Floor_Revoke (fsm : FloorStateMachine) : option floor_error * FloorStateMachine :=
  let prevOwner := fOwnerUserID fsm in
  let fsm' := mkFloor (fFloorID fsm) (fConferenceID fsm) RequestStatusReleased 0 0
                (fPriority fsm) (fCreatedAt fsm) (fGrantedAt fsm) in
  if prevOwner =? 0 then (Some NoUserToRevoke, fsm') else (None, fsm').

Definition Floor_GetState (fsm : FloorStateMachine) : Z := fCurrentState fsm.
Definition Floor_GetOwner (fsm : FloorStateMachine) : Z := fOwnerUserID fsm.
Definition Floor_GetFloorRequestID (fsm : FloorStateMachine) : Z := fFloorRequestID fsm.
Definition Floor_IsAvailable (fsm : FloorStateMachine) : bool :=
  fCurrentState fsm =? RequestStatusReleased.
Definition Floor_IsGranted (fsm : FloorStateMachine) : bool :=
  fCurrentState fsm =? RequestStatusGranted.

(** The call returned a nil error. *)
Definition no_error {E} (e : option E) : bool := match e with None => true | Some _ => false end.

(** ** Sequences of operations *)

Inductive floor_op :=
| OpRequest (userID requestID priority : Z)
| OpGrant (now : Time)
| OpDeny
| OpRelease (userID : Z)
| OpRevoke.

Definition floor_apply (op : floor_op) (fsm : FloorStateMachine)
    : option floor_error * FloorStateMachine :=
  match op with
  | OpRequest u r p => let '((_, e), fsm') := Floor_Request u r p fsm in (e, fsm')
  | OpGrant now => Floor_Grant now fsm
  | OpDeny => Floor_Deny fsm
  | OpRelease u => Floor_Release u fsm
  | OpRevoke => Floor_Revoke fsm
  end.

(** Which operations returned no error, and the floor at the end. *)
Fixpoint floor_run (ops : list floor_op) (fsm : FloorStateMachine)
    : list bool * FloorStateMachine :=
  match ops with
  | [] => ([], fsm)
  | op :: ops =>
      let '(e, fsm) := floor_apply op fsm in
      let '(oks, fsm) := floor_run ops fsm in
      (no_error e :: oks, fsm)
  end.

(** ** The abstract lock *)

Module Lock.
(** A floor is free, waits for the server's decision on a request, is held for a
    request, or is blocked after a refusal. *)
Inductive lock :=
| Free
| Waiting (user request : Z)
| Held (user request : Z)
| Blocked.

(** The user the lock answers to; nobody is user 0. *)
Definition user (l : lock) : Z :=
  match l with Waiting u _ | Held u _ => u | Free | Blocked => 0 end.

Definition apply (op : floor_op) (l : lock) : bool * lock :=
  match op, l with
  | OpRequest u r _, Free => (true, Waiting u r)
  | OpGrant _, Waiting u r => (true, Held u r)
  | OpDeny, Waiting _ _ => (true, Blocked)
  | OpRelease u, _ => if decide (u = 0 ∨ u = user l) then (true, Free) else (false, l)
  | OpRevoke, _ => (if decide (user l = 0) then false else true, Free)
  | _, _ => (false, l)
  end.

Fixpoint run (ops : list floor_op) (l : lock) : list bool * lock :=
  match ops with
  | [] => ([], l)
  | op :: ops => let '(ok, l) := apply op l in
                 let '(oks, l) := run ops l in (ok :: oks, l)
  end.
End Lock.

#[global] Instance lock_eq_dec : EqDecision Lock.lock.
Proof. solve_decision. Defined.

(** A floor answers to a request, or is idle with its owner and request reset. *)
Definition wf_floor (fsm : FloorStateMachine) : Prop :=
  (fCurrentState fsm = RequestStatusPending ∨ fCurrentState fsm = RequestStatusGranted) ∨
  ((fCurrentState fsm = RequestStatusReleased ∨ fCurrentState fsm = RequestStatusDenied) ∧
   fOwnerUserID fsm = 0 ∧ fFloorRequestID fsm = 0).

#[global] Instance wf_floor_dec fsm : Decision (wf_floor fsm).
Proof. unfold wf_floor. apply _. Defined.

(** The lock a floor stands for. *)
Definition lock_of (fsm : FloorStateMachine) : Lock.lock :=
  if fCurrentState fsm =? RequestStatusReleased then Lock.Free
  else if fCurrentState fsm =? RequestStatusPending then
    Lock.Waiting (fOwnerUserID fsm) (fFloorRequestID fsm)
  else if fCurrentState fsm =? RequestStatusGranted then
    Lock.Held (fOwnerUserID fsm) (fFloorRequestID fsm)
  else Lock.Blocked.

(** [floor_cases H] splits on the shape of a well-formed floor, with its fields
    made explicit. *)
Ltac floor_cases H :=
  match type of H with wf_floor ?fsm =>
    let s := fresh "s" in let o := fresh "o" in let r := fresh "r" in
    destruct fsm as [? ? s o r ? ? ?]; unfold wf_floor in H;
    cbn [fFloorID fConferenceID fCurrentState fOwnerUserID
      fFloorRequestID fPriority fCreatedAt fGrantedAt] in *;
    destruct H as [[->| ->]|[[->| ->] [-> ->]]]
  end.

Lemma wf_floor_new floorID conferenceID now : wf_floor (NewFloorStateMachine floorID conferenceID now).
Proof. right. by split; [left|]. Qed.
#[export] Hint Resolve wf_floor_new : bfcp.

(** One operation keeps a floor well formed and is one operation of the lock. *)
Lemma floor_apply_lock op fsm :
  wf_floor fsm →
  let '(e, fsm') := floor_apply op fsm in
  wf_floor fsm' ∧ fFloorID fsm' = fFloorID fsm ∧
  Lock.apply op (lock_of fsm) = (no_error e, lock_of fsm').
Proof.
  intros H. unfold wf_floor, lock_of. floor_cases H; destruct op as [u req p|now| |u|];
    cbn -[decide Z.eqb]; unfold Floor_Request, Floor_Grant, Floor_Deny, Floor_Release, Floor_Revoke;
    cbn -[decide Z.eqb];
    repeat match goal with
    | |- context [?a =? ?b] => destruct (Z.eqb_spec a b); cbn -[decide Z.eqb] in *; try done
    | |- context [decide ?P] => destruct (decide P); cbn -[decide Z.eqb] in *; try done
    end; try lia; split_and!; auto.
Qed.

Lemma floor_apply_wf op fsm : wf_floor fsm → wf_floor (floor_apply op fsm).2.
Proof. intros H. apply (floor_apply_lock op) in H. by destruct (floor_apply op fsm) as [??], H. Qed.
#[export] Hint Resolve floor_apply_wf : bfcp.

Lemma floor_run_lock ops : ∀ fsm,
  wf_floor fsm →
  let '(oks, fsm') := floor_run ops fsm in
  wf_floor fsm' ∧ fFloorID fsm' = fFloorID fsm ∧ Lock.run ops (lock_of fsm) = (oks, lock_of fsm').
Proof.
  induction ops as [|op ops IH]; intros fsm Hwf; cbn; [done|].
  pose proof (floor_apply_lock op fsm Hwf) as Hop. destruct (floor_apply op fsm) as [e fsm1].
  destruct Hop as (Hwf1 & Hid & ->). specialize (IH fsm1 Hwf1).
  destruct (floor_run ops fsm1) as [oks fsm2]. destruct IH as (? & ? & ->).
  split_and!; [done|congruence|done].
Qed.

Lemma floor_run_app ops1 ops2 fsm :
  (floor_run (ops1 ++ ops2) fsm).2 = (floor_run ops2 (floor_run ops1 fsm).2).2.
Proof.
  revert fsm. induction ops1 as [|op ops1 IH]; intros fsm; cbn; [done|].
  destruct (floor_apply op fsm) as [e fsm1]. specialize (IH fsm1).
  destruct (floor_run (ops1 ++ ops2) fsm1), (floor_run ops1 fsm1). exact IH.
Qed.

(** C9: a floor is a lock: for every sequence of operations on a new floor, in any
    order and with any arguments, the operations that succeed are those the abstract
    lock accepts and the floor ends in the state of the lock, with the owner and the
    request of the holder. *)
Theorem floor_refines_lock floorID conferenceID now ops :
  let '(oks, fsm) := floor_run ops (NewFloorStateMachine floorID conferenceID now) in
  Lock.run ops Lock.Free = (oks, lock_of fsm).
Proof.
  pose proof (floor_run_lock ops _ (wf_floor_new floorID conferenceID now)) as H.
  destruct (floor_run ops _) as [oks fsm]. apply H.
Qed.

(** ** Histories *)

(** The lock of a new floor after [ops]. *)
Definition lock_after (ops : list floor_op) : Lock.lock := (Lock.run ops Lock.Free).2.

Lemma lock_run_app ops1 ops2 l :
  (Lock.run (ops1 ++ ops2) l).2 = (Lock.run ops2 (Lock.run ops1 l).2).2.
Proof.
  revert l. induction ops1 as [|op ops1 IH]; intros l; cbn; [done|].
  destruct (Lock.apply op l) as [ok l1]. specialize (IH l1).
  destruct (Lock.run (ops1 ++ ops2) l1), (Lock.run ops1 l1). exact IH.
Qed.

Lemma lock_after_snoc ops op : lock_after (ops ++ [op]) = (Lock.apply op (lock_after ops)).2.
Proof. unfold lock_after. rewrite lock_run_app. cbn. by destruct (Lock.apply _ _). Qed.

Lemma lock_of_run floorID conferenceID now ops :
  lock_of (floor_run ops (NewFloorStateMachine floorID conferenceID now)).2 = lock_after ops.
Proof.
  pose proof (floor_run_lock ops _ (wf_floor_new floorID conferenceID now)) as H.
  unfold lock_after. destruct (floor_run ops _) as [oks fsm]. destruct H as (_ & _ & H).
  change Lock.Free with (lock_of (NewFloorStateMachine floorID conferenceID now)). by rewrite H.
Qed.

(** Along every prefix of [post], starting after [pre], the lock is in state [l]. *)
Definition stays (l : Lock.lock) (pre post : list floor_op) : Prop :=
  ∀ k, lock_after (pre ++ take k post) = l.

Lemma stays_nil l pre : lock_after pre = l → stays l pre [].
Proof. intros H k. by rewrite take_nil, app_nil_r. Qed.

Lemma stays_snoc l pre post op :
  stays l pre post → lock_after (pre ++ post ++ [op]) = l → stays l pre (post ++ [op]).
Proof.
  intros Hs Hop k. destruct (decide (k <= length post)%nat).
  - by rewrite take_app_le.
  - rewrite take_ge; [done|]. rewrite length_app. cbn. lia.
Qed.

Lemma waiting_history u r ops :
  lock_after ops = Lock.Waiting u r →
  ∃ pre p mid, ops = (pre ++ [OpRequest u r p]) ++ mid ∧ lock_after pre = Lock.Free ∧
    stays (Lock.Waiting u r) (pre ++ [OpRequest u r p]) mid.
Proof.
  induction ops as [|op ops IH] using rev_ind; intros Hl; [done|].
  pose proof Hl as Hl'. rewrite lock_after_snoc in Hl'.
  destruct (lock_after ops) as [|u' r'|u' r'|] eqn:Hops, op; cbn -[decide] in Hl';
    try (case_decide; cbn in Hl'); try done.
  - inversion Hl'; subst. exists ops, priority, []. rewrite app_nil_r.
    split_and!; [done|done|by apply stays_nil].
  - inversion Hl'; subst. destruct IH as (pre & p & mid & -> & ? & ?); [done|].
    exists pre, p, (mid ++ [OpRequest userID requestID priority]). rewrite <- app_assoc in *.
    split_and!; [done|done|by apply stays_snoc].
  - inversion Hl'; subst. destruct IH as (pre & p & mid & -> & ? & ?); [done|].
    exists pre, p, (mid ++ [OpRelease userID]). rewrite <- app_assoc in *.
    split_and!; [done|done|by apply stays_snoc].
Qed.

Lemma held_history u r ops :
  lock_after ops = Lock.Held u r →
  ∃ pre now post, ops = (pre ++ [OpGrant now]) ++ post ∧ lock_after pre = Lock.Waiting u r ∧
    stays (Lock.Held u r) (pre ++ [OpGrant now]) post.
Proof.
  induction ops as [|op ops IH] using rev_ind; intros Hl; [done|].
  pose proof Hl as Hl'. rewrite lock_after_snoc in Hl'.
  destruct (lock_after ops) as [|u' r'|u' r'|] eqn:Hops.
  - by destruct op; cbn -[decide] in Hl'; try case_decide.
  - destruct op as [| now | | |]; cbn -[decide] in Hl'; try (case_decide; cbn in Hl'); try done.
    inversion Hl'; subst. exists ops, now, []. rewrite app_nil_r.
    split_and!; [done|done|by apply stays_nil].
  - assert (Lock.Held u' r' = Lock.Held u r) as [= -> ->].
    { destruct op; cbn -[decide] in Hl'; try (case_decide; cbn in Hl'); done. }
    destruct IH as (pre & now & post & -> & ? & ?); [done|].
    exists pre, now, (post ++ [op]). rewrite <- app_assoc in *.
    split_and!; [done|done|by apply stays_snoc].
  - by destruct op; cbn -[decide] in Hl'; try case_decide.
Qed.

Lemma granted_lock fsm :
  Floor_IsGranted fsm = true → lock_of fsm = Lock.Held (fOwnerUserID fsm) (fFloorRequestID fsm).
Proof. unfold Floor_IsGranted. intros Hg%Z.eqb_eq. unfold lock_of. by rewrite Hg. Qed.

Lemma lock_history u r ops :
  lock_after ops = Lock.Held u r →
  ∃ pre p mid granted post,
    ops = ((pre ++ [OpRequest u r p]) ++ mid ++ [OpGrant granted]) ++ post ∧
    lock_after pre = Lock.Free ∧
    stays (Lock.Waiting u r) (pre ++ [OpRequest u r p]) mid ∧
    stays (Lock.Held u r) ((pre ++ [OpRequest u r p]) ++ mid ++ [OpGrant granted]) post.
Proof.
  intros (pre1 & granted & post & -> & Hw & Hpost)%held_history.
  apply waiting_history in Hw as (pre & p & mid & -> & Hfree & Hmid).
  exists pre, p, mid, granted, post. rewrite <- (app_assoc _ mid) in *. done.
Qed.

(** C14: mutual exclusion as a history: a floor is granted to a user only by a
    request of that user accepted while the floor was free, followed by a grant, and
    from that request to now the floor answered to that request alone: pending until
    the grant, granted ever since, whatever other operations were attempted. *)
Theorem granted_history floorID conferenceID now ops :
  let floor ops := (floor_run ops (NewFloorStateMachine floorID conferenceID now)).2 in
  let u := Floor_GetOwner (floor ops) in
  let r := Floor_GetFloorRequestID (floor ops) in
  Floor_IsGranted (floor ops) = true →
  ∃ pre p mid granted post,
    ops = ((pre ++ [OpRequest u r p]) ++ mid ++ [OpGrant granted]) ++ post ∧
    Floor_IsAvailable (floor pre) = true ∧
    (∀ k, lock_of (floor ((pre ++ [OpRequest u r p]) ++ take k mid)) = Lock.Waiting u r) ∧
    (∀ k, lock_of (floor (((pre ++ [OpRequest u r p]) ++ mid ++ [OpGrant granted]) ++ take k post))
          = Lock.Held u r).
Proof.
  intros floor u r Hg%granted_lock. unfold floor in Hg at 1. rewrite lock_of_run in Hg.
  apply lock_history in Hg as (pre & p & mid & granted & post & Hops & Hfree & Hmid & Hpost).
  exists pre, p, mid, granted, post.
  split_and!; [exact Hops| |intros k; unfold floor; by rewrite lock_of_run..].
  rewrite <- (lock_of_run floorID conferenceID now) in Hfree. unfold lock_of in Hfree.
  unfold Floor_IsAvailable, floor. by repeat case_match.
Qed.

(** A refused floor is stuck: once [Deny] has been applied, no request, grant,
    refusal or release by an actual user succeeds or changes anything; only [Revoke]
    or a release in the name of user 0 makes the floor available again. *)
Theorem denied_floor_is_stuck fsm ops :
  wf_floor fsm → fCurrentState fsm = RequestStatusDenied →
  Forall (λ op, op ≠ OpRevoke ∧ op ≠ OpRelease 0) ops →
  floor_run ops fsm = (replicate (length ops) false, fsm).
Proof.
  intros Hwf Hden. induction 1 as [|op ops [Hrev Hrel] _ IH]; cbn; [done|].
  assert (∃ e, floor_apply op fsm = (Some e, fsm)) as [e ->].
  { floor_cases Hwf; try discriminate.
    destruct op as [u r p|now| |u|]; cbn -[Z.eqb]; [by eexists| by eexists|by eexists| |done].
    unfold Floor_Release. cbn -[Z.eqb]. destruct (Z.eqb_spec 0 u), (Z.eqb_spec u 0);
      cbn; try lia; [by subst|by eexists]. }
  by rewrite IH.
Qed.

(** The operations of the server on a floor, branch by branch. *)
Lemma Floor_Request_free u r p fsm :
  fCurrentState fsm = RequestStatusReleased →
  Floor_Request u r p fsm = ((RequestStatusPending, None),
     mkFloor (fFloorID fsm) (fConferenceID fsm) RequestStatusPending u r p
       (fCreatedAt fsm) (fGrantedAt fsm)).
Proof. intros H. unfold Floor_Request. by rewrite H. Qed.

Lemma Floor_Request_busy u r p fsm :
  fCurrentState fsm ≠ RequestStatusReleased →
  ∃ e, Floor_Request u r p fsm = ((RequestStatusDenied, Some e), fsm).
Proof.
  intros H%Z.eqb_neq. unfold Floor_Request. rewrite H. destruct (_ || _); by eexists.
Qed.

(** ** The theorems on user 42, who asks for floor 5 *)

Lemma granted_history_witness :
  let ops := [OpRelease 7; OpRequest 42 1 PriorityNormal; OpRequest 7 2 PriorityHigh; OpGrant 10;
              OpRelease 7] in
  let floor ops := (floor_run ops (NewFloorStateMachine 5 1 0)).2 in
  Floor_IsGranted (floor ops) = true ∧
  ∃ pre p mid granted post,
    ops = ((pre ++ [OpRequest 42 1 p]) ++ mid ++ [OpGrant granted]) ++ post ∧
    Floor_IsAvailable (floor pre) = true ∧
    (∀ k, lock_of (floor ((pre ++ [OpRequest 42 1 p]) ++ take k mid)) = Lock.Waiting 42 1) ∧
    (∀ k, lock_of (floor (((pre ++ [OpRequest 42 1 p]) ++ mid ++ [OpGrant granted]) ++ take k post))
          = Lock.Held 42 1).
Proof.
  intros ops floor. split; [reflexivity|]. exact (granted_history 5 1 0 ops eq_refl).
Defined.

Lemma denied_floor_is_stuck_witness :
  let denied := (floor_run [OpRequest 42 1 PriorityNormal; OpDeny] (NewFloorStateMachine 5 1 0)).2 in
  wf_floor denied ∧
  floor_run [OpRequest 7 2 PriorityNormal; OpGrant 3; OpRelease 42] denied =
    (replicate 3 false, denied).
Proof.
  intros denied.
  assert (wf_floor denied) as H by (right; split; [by right|done]).
  split; [exact H|].
  apply (denied_floor_is_stuck denied [OpRequest 7 2 PriorityNormal; OpGrant 3; OpRelease 42] H);
    [reflexivity|repeat constructor; discriminate].
Defined.
