(* ===== verification/Queue.v ===== *)
(** * The request queue ([state.go]: [FloorRequestQueue])

    The queue of pending requests: [Add] appends and sifts the new request towards
    the head in place.  Its contract is that of a priority queue that is fair among
    equals: [Queue_Add_stable] says that [Add] is a stable insertion,
    [queue_run_sorted] and [PopNext_best] that what is served first is the oldest
    request of the highest priority, for any sequence of operations. *)

From Stdlib Require Import Sorted.
From S2P Require Import Prelude Types FloorFSM.

Record FloorRequest := mkFloorRequest {
  qFloorID : Z;
  qFloorRequestID : Z;
  qUserID : Z;
  qBeneficiaryID : Z;
  qPriority : Z;
  qTimestamp : Time
}.

Abbreviation queue := (list FloorRequest).

Definition NewFloorRequestQueue : queue := [].

(** The swap of one iteration of the loop of [Add]: request [i] overtakes its
    predecessor. *)
Definition overtakes (r prev : FloorRequest) : bool :=
  if qPriority prev <? qPriority r then true
  else (qPriority r =? qPriority prev) && (qTimestamp r <? qTimestamp prev).

Fixpoint sift {E} (i : nat) (q : queue) : res E queue :=
  match i with
  | O => Ok q
  | S j =>
      r ← q⟦i⟧;
      prev ← q⟦j⟧;
      q ← (if overtakes r prev then q ← set_index q i prev; set_index q j r else Ok q);
      sift j q
  end.

Definition stamp (now : Time) (req : FloorRequest) : FloorRequest :=
  mkFloorRequest (qFloorID req) (qFloorRequestID req) (qUserID req) (qBeneficiaryID req)
    (qPriority req) now.

Definition Queue_Add {E} (now : Time) (req : FloorRequest) (q : queue) : res E queue :=
  let q := q ++ [stamp now req] in sift (length q - 1) q.

(** The loop of [Remove]: the first request with the id goes, the rest closes up. *)
Fixpoint Queue_Remove (floorRequestID : Z) (q : queue) : bool * queue :=
  match q with
  | [] => (false, [])
  | req :: q =>
      if qFloorRequestID req =? floorRequestID then (true, q)
      else let '(found, q) := Queue_Remove floorRequestID q in (found, req :: q)
  end.

Definition Queue_GetNext (q : queue) : option FloorRequest := head q.

Definition Queue_PopNext (q : queue) : option FloorRequest * queue :=
  match q with [] => (None, []) | req :: q => (Some req, q) end.

Definition Queue_Size (q : queue) : nat := length q.

Fixpoint position_from (i : nat) (floorRequestID : Z) (q : queue) : nat :=
  match q with
  | [] => 0
  | req :: q =>
      if qFloorRequestID req =? floorRequestID then i + 1 else position_from (i + 1) floorRequestID q
  end.

Definition Queue_GetPosition (floorRequestID : Z) (q : queue) : nat :=
  position_from 0 floorRequestID q.

(** ** The order of service *)

(** [a] is served no later than [b]. *)
Definition before (a b : FloorRequest) : Prop :=
  qPriority b < qPriority a ∨ (qPriority a = qPriority b ∧ qTimestamp a <= qTimestamp b).

Definition sorted (q : queue) : Prop := StronglySorted before q.

#[global] Instance before_dec a b : Decision (before a b).
Proof. unfold before. apply _. Defined.

(** No request carries a time after [now]. *)
Definition no_later (now : Time) (q : queue) : Prop := Forall (λ r, qTimestamp r <= now) q.

(** Stable insertion: behind every request of at least the same priority. *)
Definition insert_stable (r : FloorRequest) (q : queue) : queue :=
  filter (λ x, qPriority r <= qPriority x) q ++ [r] ++ filter (λ x, qPriority x < qPriority r) q.

Lemma overtakes_iff r prev : overtakes r prev = true ↔ ¬ before prev r.
Proof.
  unfold overtakes, before. destruct (Z.ltb_spec (qPriority prev) (qPriority r)); [split; [lia|done]|].
  rewrite andb_true_iff, Z.eqb_eq, Z.ltb_lt. lia.
Qed.

Lemma before_trans a b c : before a b → before b c → before a c.
Proof. unfold before. lia. Qed.

Lemma sorted_app q1 q2 :
  sorted (q1 ++ q2) ↔ sorted q1 ∧ sorted q2 ∧ ∀ a b, a ∈ q1 → b ∈ q2 → before a b.
Proof.
  unfold sorted. induction q1 as [|x q1 IH]; cbn.
  { split; [intros; split_and!; [constructor|done|set_solver]|tauto]. }
  split.
  - intros H. inversion H as [|?? Hs Hf]; subst. apply IH in Hs as (?&?&?).
    rewrite Forall_app in Hf. destruct Hf as [Hf1 Hf2]. rewrite Forall_forall in Hf2.
    split_and!; [by constructor|done|]. intros a b [->|Ha]%elem_of_cons Hb; auto.
  - intros (H1 & H2 & H3). inversion H1; subst. constructor.
    + apply IH. split_and!; [done..|]. intros. apply H3; [by right|done].
    + apply Forall_app. split; [done|]. apply Forall_forall. intros. apply H3; [by left|done].
Qed.

(** Positions and shapes of concatenated queues. *)
Ltac slots := first [by list_simplifier | rewrite ?length_app; cbn [length] in *; lia].

(** The sift leaves a sorted prefix alone. *)
Lemma sift_sorted {E} i q1 q2 :
  sorted q1 → length q1 = S i → sift (E:=E) i (q1 ++ q2) = Ok (q1 ++ q2).
Proof.
  revert q1 q2. induction i as [|i IH]; intros q1 q2 Hs Hl; [done|].
  destruct (exists_last (l:=q1)) as (q & y & ->); [by intros ->|].
  rewrite length_app in Hl. cbn in Hl.
  destruct (exists_last (l:=q)) as (q' & x & ->); [intros ->; cbn in *; lia|].
  rewrite length_app in Hl. cbn in Hl. cbn [sift].
  rewrite (index_eq _ (q' ++ [x]) q2 y (S i)), (index_eq _ q' (y :: q2) x i); [|by slots..].
  cbn [mbind res_bind].
  assert (overtakes y x = false) as ->.
  { apply not_true_iff_false. rewrite overtakes_iff. intros []. rewrite <- app_assoc in Hs.
    apply sorted_app in Hs as (_ & Hs & _). inversion Hs as [|?? _ Hf]; subst.
    by inversion Hf. }
  rewrite <- app_assoc. apply IH; [by apply sorted_app in Hs as [? _]|].
  rewrite length_app. cbn. lia.
Qed.

(** The sift carries a request in front of the requests it overtakes. *)
Lemma sift_moves {E} q2 : ∀ q1 r q3,
  sorted q1 → (∀ a, a ∈ q1 → before a r) → (∀ b, b ∈ q2 → ¬ before b r) →
  sift (E:=E) (length (q1 ++ q2)) (q1 ++ q2 ++ r :: q3) = Ok (q1 ++ r :: q2 ++ q3).
Proof.
  induction q2 as [|x q2 IH] using rev_ind; intros q1 r q3 Hs H1 H2.
  - rewrite app_nil_r. cbn. change (r :: q3) with ([r] ++ q3). rewrite app_assoc.
    apply sift_sorted; [|rewrite length_app; cbn; lia].
    apply sorted_app. split_and!; [done|repeat constructor|]. set_solver.
  - rewrite !length_app. cbn [length]. rewrite Nat.add_assoc, Nat.add_1_r. cbn [sift].
    rewrite (index_eq _ (q1 ++ q2 ++ [x]) q3 r (S _)), (index_eq _ (q1 ++ q2) (r :: q3) x (_ + _)); [|by slots..].
    cbn [mbind res_bind].
    assert (overtakes r x = true) as -> by (apply overtakes_iff, H2; set_solver).
    rewrite (set_index_eq _ (q1 ++ q2 ++ [x]) q3 r x); [|by slots..]. cbn [mbind res_bind].
    rewrite (set_index_eq _ (q1 ++ q2) (x :: q3) x r); [|by slots..]. cbn [mbind res_bind].
    rewrite <- app_assoc, <- length_app, IH; [by rewrite <- app_assoc|done..|set_solver].
Qed.

(** A sorted queue is split at a request no older than its members. *)
Lemma sorted_split now r q :
  sorted q → no_later now q → qTimestamp r = now →
  filter (λ x, qPriority r <= qPriority x) q ++ filter (λ x, qPriority x < qPriority r) q = q.
Proof.
  intros Hs Hn Hr. induction Hs as [|x q Hs IH Hf]; [done|].
  inversion Hn; subst. rewrite !filter_cons. destruct (decide (qPriority r <= qPriority x)).
  - rewrite (decide_False (P:=qPriority x < qPriority r)) by lia. cbn. by rewrite IH.
  - rewrite (decide_True (P:=qPriority x < qPriority r)) by lia.
    rewrite filter_none, filter_all; [done|..];
      (eapply Forall_impl; [exact Hf|]; unfold before; cbn; lia).
Qed.

Lemma Queue_Add_insert {E} now req q :
  sorted q → no_later now q →
  Queue_Add (E:=E) now req q = Ok (insert_stable (stamp now req) q).
Proof.
  intros Hs Hn. set (r := stamp now req). pose proof (sorted_split now r q Hs Hn eq_refl) as Hq.
  unfold Queue_Add, insert_stable. fold r.
  set (q1 := filter (λ x, qPriority r <= qPriority x) q) in *.
  set (q2 := filter (λ x, qPriority x < qPriority r) q) in *.
  rewrite <- Hq. replace (length ((q1 ++ q2) ++ [r]) - 1)%nat with (length (q1 ++ q2))
    by (rewrite !length_app; cbn; lia).
  rewrite <- app_assoc, sift_moves; [by rewrite app_nil_r| | |].
  - rewrite <- Hq in Hs. by apply sorted_app in Hs as [? _].
  - intros a [Ha Haq]%list_elem_of_filter. unfold no_later in Hn. rewrite Forall_forall in Hn.
    specialize (Hn a Haq). assert (qTimestamp r = now) by done. unfold before. cbn in *. lia.
  - intros b [Hb _]%list_elem_of_filter. unfold before. lia.
Qed.

(** ** Sequences of operations *)

Inductive queue_op :=
| QAdd (now : Time) (req : FloorRequest)
| QRemove (floorRequestID : Z)
| QPop.

(** The queue after [ops], and the requests that were served, in order. *)
Fixpoint queue_run (ops : list queue_op) (q : queue)
    : res Empty_set (list FloorRequest * queue) :=
  match ops with
  | [] => Ok ([], q)
  | QAdd now req :: ops => q ← Queue_Add now req q; queue_run ops q
  | QRemove id :: ops => queue_run ops (Queue_Remove id q).2
  | QPop :: ops =>
      let '(r, q) := Queue_PopNext q in
      out ← queue_run ops q;
      Ok (option_list r ++ out.1, out.2)
  end.

(** The times of the additions never decrease, and start at [now]. *)
Fixpoint clocked (now : Time) (ops : list queue_op) : Prop :=
  match ops with
  | [] => True
  | QAdd t _ :: ops => now <= t ∧ clocked t ops
  | _ :: ops => clocked now ops
  end.

Lemma Queue_Remove_sublist id q : (Queue_Remove id q).2 `sublist_of` q.
Proof.
  induction q as [|r q IH]; cbn; [constructor|]. case_match; cbn; [by constructor|].
  destruct (Queue_Remove id q); by constructor.
Qed.

Lemma sorted_sublist q1 q2 : q1 `sublist_of` q2 → sorted q2 → sorted q1.
Proof.
  intros Hsub. unfold sorted. induction Hsub as [|x q1 q2 Hsub IH|x q1 q2 Hsub IH]; intros H;
    [constructor|..]; inversion H as [|?? Hs Hf]; subst; [|by apply IH].
  constructor; [by apply IH|]. by eapply sublist_Forall.
Qed.

Lemma insert_stable_sorted now r q :
  sorted q → no_later now q → qTimestamp r = now →
  sorted (insert_stable r q) ∧ no_later now (insert_stable r q).
Proof.
  intros Hs Hn Hr. pose proof (sorted_split now r q Hs Hn Hr) as Hq. unfold insert_stable.
  rewrite <- Hq in Hs, Hn. apply sorted_app in Hs as (Hs1 & Hs2 & H12).
  apply Forall_app in Hn as [Hn1 Hn2]. split.
  - apply sorted_app. split_and!; [done| |].
    + cbn. constructor; [done|]. apply Forall_forall. intros x [Hx _]%list_elem_of_filter.
      unfold before. lia.
    + intros a b Ha [->|Hb]%elem_of_cons; [|by apply H12].
      pose proof Ha as [Hp _]%list_elem_of_filter. rewrite Forall_forall in Hn1.
      specialize (Hn1 _ Ha). unfold before. cbn in *. lia.
  - apply Forall_app. split; [done|]. constructor; [lia|done].
Qed.

Lemma no_later_mono now now' q : now <= now' → no_later now q → no_later now' q.
Proof. intros ? H. eapply Forall_impl; [exact H|]. cbn. lia. Qed.

Lemma queue_run_invariant ops : ∀ now q,
  clocked now ops → sorted q → no_later now q →
  ∃ served q', queue_run ops q = Ok (served, q') ∧ sorted q'.
Proof.
  induction ops as [|op ops IH]; intros now q Hc Hs Hn; cbn [queue_run]; [by eexists _, _|].
  destruct op as [t req|id|]; cbn in Hc.
  - destruct Hc as [Ht Hc]. rewrite Queue_Add_insert by eauto using no_later_mono.
    cbn [mbind res_bind].
    destruct (insert_stable_sorted t (stamp t req) q) as [? ?]; eauto using no_later_mono.
  - apply (IH now); [done|eapply sorted_sublist; [apply Queue_Remove_sublist|done]|].
    eapply sublist_Forall; [apply Queue_Remove_sublist|done].
  - destruct q as [|r q]; cbn [Queue_PopNext].
    + destruct (IH now [] Hc) as (served & q' & -> & ?); [constructor|constructor|]. cbn. eauto.
    + inversion Hs; inversion Hn; subst.
      destruct (IH now q Hc) as (served & q' & -> & ?); [done|done|]. cbn. eauto.
Qed.

(** C32: [Add] is a stable insertion: in a queue in service order, whose requests are
    not from the future, the new request goes behind every request of at least its
    priority and in front of all others, and nothing else moves. *)
Theorem Queue_Add_stable now req q :
  sorted q → no_later now q →
  Queue_Add (E:=Empty_set) now req q = Ok (insert_stable (stamp now req) q).
Proof. apply Queue_Add_insert. Qed.

(** C31: after any sequence of additions (with a clock that does not run backwards),
    removals and services, none of which panics, the queue serves the oldest of the
    requests of the highest priority: everything left waiting is of a lower priority,
    or of the same and not older. *)
Theorem PopNext_best now ops :
  clocked now ops →
  ∃ served q, queue_run ops NewFloorRequestQueue = Ok (served, q) ∧
    ∀ r q', Queue_PopNext q = (Some r, q') → Forall (before r) q'.
Proof.
  intros Hc. destruct (queue_run_invariant ops now [] Hc) as (served & q & Hrun & Hs);
    [constructor..|]. exists served, q. split; [done|]. intros r q' Hpop.
  destruct q as [|x q]; cbn in Hpop; [discriminate|]. inversion Hpop; subst. by inversion Hs.
Qed.

Lemma Queue_Add_stable_witness :
  let q := [mkFloorRequest 1 11 2 2 PriorityHighest 2; mkFloorRequest 1 10 1 1 PriorityNormal 1] in
  sorted q ∧ no_later 3 q ∧
  Queue_Add (E:=Empty_set) 3 (mkFloorRequest 1 12 3 3 PriorityHigh 0) q =
    Ok [mkFloorRequest 1 11 2 2 PriorityHighest 2; mkFloorRequest 1 12 3 3 PriorityHigh 3;
        mkFloorRequest 1 10 1 1 PriorityNormal 1].
Proof.
  intros q.
  assert (sorted q) as Hs by (repeat constructor; unfold before; cbn; lia).
  assert (no_later 3 q) as Hn by (repeat constructor; cbn; lia).
  split; [done|]. split; [done|].
  rewrite (Queue_Add_stable 3 (mkFloorRequest 1 12 3 3 PriorityHigh 0) q) by done. reflexivity.
Defined.

Lemma PopNext_best_witness :
  let ops := [QAdd 1 (mkFloorRequest 1 10 1 1 PriorityNormal 0);
    QAdd 2 (mkFloorRequest 1 11 2 2 PriorityHighest 0); QPop;
    QAdd 3 (mkFloorRequest 1 12 3 3 PriorityNormal 0)] in
  clocked 0 ops ∧ ∃ served q, queue_run ops NewFloorRequestQueue = Ok (served, q) ∧
    ∀ r q', Queue_PopNext q = (Some r, q') → Forall (before r) q'.
Proof.
  intros ops. assert (clocked 0 ops) as H by (cbn; lia). split; [exact H|].
  exact (PopNext_best 0 ops H).
Defined.
