(* ===== verification/UserIDPool.v ===== *)
(** * User IDs of virtual clients ([virtual/manager.go]: [UserIDPool])

    The pool hands out user IDs of a range.  Its loop variable is a [uint16], so a
    range that ends at 65535 never leaves the loop through its condition: the
    contract is proved for every other range, and what happens at 65535 is stated
    by [Allocate_wraps] and [Allocate_spins]. *)

From S2P Require Import Prelude.

Record UserIDPool := mkPool {
  pStart : Z;
  pEnd : Z;
  pAllocated : gset Z   (* map[uint16]bool, which only ever holds true *)
}.

Inductive pool_error :=
| NoUserIDs
| OutsideRange (id start end_ : Z)
| AlreadyAllocated (id : Z).

Definition NewUserIDPool (start end_ : Z) : UserIDPool := mkPool start end_ ∅.

Definition add_allocated (id : Z) (p : UserIDPool) : UserIDPool :=
  mkPool (pStart p) (pEnd p) ({[id]} ∪ pAllocated p).

(** [for id := p.start; id <= p.end; id++] *)
Fixpoint Allocate_loop (fuel : nat) (p : UserIDPool) (id : Z) : res pool_error (Z * UserIDPool) :=
  match fuel with
  | O => Diverge
  | S fuel =>
      if id <=? pEnd p then
        if decide (id ∈ pAllocated p) then Allocate_loop fuel p (u16 (id + 1))
        else Ok (id, add_allocated id p)
      else Err NoUserIDs
  end.

(** One iteration for each of the 65536 ids is enough: the next one would look at an
    id again, with nothing changed. *)
Definition Allocate (p : UserIDPool) : res pool_error (Z * UserIDPool) :=
  Allocate_loop (Z.to_nat (2 ^ 16)) p (pStart p).

Definition AllocateSpecific (id : Z) (p : UserIDPool) : res pool_error UserIDPool :=
  if (id <? pStart p) || (pEnd p <? id) then Err (OutsideRange id (pStart p) (pEnd p))
  else if decide (id ∈ pAllocated p) then Err (AlreadyAllocated id)
  else Ok (add_allocated id p).

Definition Pool_Release (id : Z) (p : UserIDPool) : UserIDPool :=
  mkPool (pStart p) (pEnd p) (pAllocated p ∖ {[id]}).

(** [int(p.end - p.start + 1)] is computed on [uint16]. *)
Definition Available (p : UserIDPool) : Z :=
  u16 (u16 (pEnd p - pStart p) + 1) - Z.of_nat (size (pAllocated p)).

Definition IsAllocated (id : Z) (p : UserIDPool) : bool := bool_decide (id ∈ pAllocated p).

(** ** The contract *)

Definition in_range (p : UserIDPool) (id : Z) : Prop := pStart p <= id <= pEnd p.

(** The pool has a range of [uint16] ids, with at least one above it, and only hands
    out ids of its range. *)
Record wf_pool (p : UserIDPool) : Prop := {
  wf_pool_range : 0 <= pStart p ∧ pStart p <= pEnd p;
  wf_pool_end : pEnd p < 65535;
  wf_pool_allocated : ∀ id, id ∈ pAllocated p → in_range p id
}.

Lemma Allocate_loop_spec p fuel : ∀ id,
  0 <= id <= pEnd p + 1 → pEnd p < 65535 → pEnd p + 1 - id < Z.of_nat fuel →
  match Allocate_loop fuel p id with
  | Ok (r, p') => id <= r <= pEnd p ∧ (r ∉ pAllocated p) ∧
                  (∀ j, id <= j < r → j ∈ pAllocated p) ∧ p' = add_allocated r p
  | Err e => e = NoUserIDs ∧ ∀ j, id <= j <= pEnd p → j ∈ pAllocated p
  | Panic | Diverge => False
  end.
Proof.
  induction fuel as [|fuel IH]; intros id Hid Hend Hfuel; [lia|]. cbn [Allocate_loop].
  destruct (Z.leb_spec id (pEnd p)); [|split; [done|lia]].
  case_decide as Hin.
  - rewrite u16_small by (width; lia). specialize (IH (id + 1)).
    assert (∀ j r, (∀ k, id + 1 <= k < r → k ∈ pAllocated p) → id <= j < r → j ∈ pAllocated p) as Hext.
    { intros j r Hk Hj. destruct (decide (j = id)) as [->|]; [done|apply Hk; lia]. }
    destruct (Allocate_loop fuel p (id + 1)) as [[r p']|e| |]; try (apply IH; lia).
    + destruct IH as (? & ? & Hj & ?); [lia..|]. split_and!; [lia|lia|done| |done].
      intros j. by apply Hext.
    + destruct IH as [? Hj]; [lia..|]. split; [done|]. intros j Hj'.
      apply (Hext j (pEnd p + 1)); [|lia]. intros k Hk. apply Hj. lia.
  - split_and!; [lia|lia|done|lia|done].
Qed.

Lemma Allocate_spec p :
  wf_pool p →
  match Allocate p with
  | Ok (id, p') => pStart p <= id <= pEnd p ∧ (id ∉ pAllocated p) ∧
                   (∀ j, pStart p <= j < id → j ∈ pAllocated p) ∧ p' = add_allocated id p
  | Err e => e = NoUserIDs ∧ ∀ j, pStart p <= j <= pEnd p → j ∈ pAllocated p
  | Panic | Diverge => False
  end.
Proof. intros [Hr He _]. apply Allocate_loop_spec; lia. Qed.

Lemma Allocate_Ok p u p' :
  wf_pool p → Allocate p = Ok (u, p') → in_range p u ∧ (u ∉ pAllocated p) ∧ p' = add_allocated u p.
Proof. intros Hs%Allocate_spec Ha. rewrite Ha in Hs. by destruct Hs as (? & ? & _ & ?). Qed.

(** The sequence of ids the loop visits when none of them is free. *)
Lemma Allocate_loop_busy p n fuel id :
  (∀ i, 0 <= i < Z.of_nat n → id + i <= pEnd p ∧ id + i < 65536 ∧ id + i ∈ pAllocated p) →
  0 <= id → (n <= fuel)%nat →
  Allocate_loop fuel p (u16 id) = Allocate_loop (fuel - n) p (u16 (id + Z.of_nat n)).
Proof.
  revert fuel id. induction n as [|n IH]; intros fuel id Hbusy Hid Hn.
  - by rewrite Nat.sub_0_r, Z.add_0_r.
  - destruct fuel as [|fuel]; [lia|]. destruct (Hbusy 0) as (? & ? & Hin); [lia|].
    rewrite Z.add_0_r in *. rewrite (u16_small id) by (width; lia). cbn [Allocate_loop].
    destruct (Z.leb_spec id (pEnd p)); [|lia]. rewrite decide_True by done.
    rewrite (IH fuel (id + 1)); [|intros i Hi|lia|lia].
    + cbn. do 2 f_equal. lia.
    + replace (id + 1 + i) with (id + (i + 1)) by lia. apply Hbusy. lia.
Qed.

Lemma add_allocated_wf id p : wf_pool p → in_range p id → wf_pool (add_allocated id p).
Proof. intros [Hr He Ha] Hid. split; cbn; [done|done|]. intros j. unfold in_range in *. cbn. set_solver. Qed.

Lemma Pool_Release_wf id p : wf_pool p → wf_pool (Pool_Release id p).
Proof. intros [Hr He Ha]. split; cbn; [done|done|]. intros j. unfold in_range in *. cbn. set_solver. Qed.

Lemma AllocateSpecific_cases id p :
  match AllocateSpecific id p with
  | Ok p' => in_range p id ∧ (id ∉ pAllocated p) ∧ p' = add_allocated id p
  | Err (AlreadyAllocated i) => i = id ∧ in_range p id ∧ id ∈ pAllocated p
  | Err (OutsideRange i s e) => i = id ∧ s = pStart p ∧ e = pEnd p ∧ ¬ in_range p id
  | _ => False
  end.
Proof.
  unfold AllocateSpecific, in_range.
  destruct (Z.ltb_spec id (pStart p)), (Z.ltb_spec (pEnd p) id); cbn; try (split_and!; done || lia).
  case_decide; cbn; by split_and!.
Qed.

(** ** Sequences of operations *)

Inductive pool_op :=
| PAllocate
| PAllocateSpecific (id : Z)
| PRelease (id : Z).

(** The id an operation hands out, if it does, and the pool after it. *)
Definition pool_apply (op : pool_op) (p : UserIDPool) : res pool_error (option Z * UserIDPool) :=
  match op with
  | PAllocate =>
      match Allocate p with
      | Ok (id, p) => Ok (Some id, p)
      | Err _ => Ok (None, p)
      | Panic => Panic
      | Diverge => Diverge
      end
  | PAllocateSpecific id =>
      match AllocateSpecific id p with
      | Ok p => Ok (Some id, p)
      | Err _ => Ok (None, p)
      | Panic => Panic
      | Diverge => Diverge
      end
  | PRelease id => Ok (None, Pool_Release id p)
  end.

(** Runs the operations; [handed] are the ids handed out and not yet returned. *)
Fixpoint pool_run (ops : list pool_op) (handed : list Z) (p : UserIDPool)
    : res pool_error (list Z * UserIDPool) :=
  match ops with
  | [] => Ok (handed, p)
  | op :: ops =>
      r ← pool_apply op p;
      let handed := match op with PRelease id => filter (λ j, j ≠ id) handed | _ => handed end in
      pool_run ops (option_list r.1 ++ handed) r.2
  end.

(** The ids out are distinct, and they are those the pool has recorded. *)
Definition hands (handed : list Z) (p : UserIDPool) : Prop :=
  NoDup handed ∧ ∀ id, id ∈ handed ↔ id ∈ pAllocated p.

Lemma pool_apply_spec op handed p :
  wf_pool p → hands handed p →
  ∃ r p', pool_apply op p = Ok (r, p') ∧ wf_pool p' ∧ pStart p' = pStart p ∧ pEnd p' = pEnd p ∧
    hands (option_list r ++ match op with PRelease id => filter (λ j, j ≠ id) handed | _ => handed end) p'.
Proof.
  intros Hwf [Hnd Hiff]. pose proof Hwf as [Hr He _].
  assert (∀ id, in_range p id → id ∉ pAllocated p → wf_pool (add_allocated id p) ∧
    hands (id :: handed) (add_allocated id p)) as Hadd.
  { intros id Hid Hfree. split; [by apply add_allocated_wf|]. split.
    - constructor; [by rewrite Hiff|done].
    - intros j. cbn. rewrite elem_of_cons, Hiff. set_solver. }
  destruct op as [|id|id]; cbn.
  - pose proof (Allocate_loop_spec p (Z.to_nat (2 ^ 16)) (pStart p)) as H. unfold Allocate.
    destruct (Allocate_loop _ p (pStart p)) as [[r p']|e| |]; [|by eexists None, p
      |destruct H; lia..].
    destruct H as (Hrange & Hfree & _ & ->); [lia..|].
    destruct (Hadd r) as [? ?]; [done..|]. by eexists (Some r), _.
  - pose proof (AllocateSpecific_cases id p) as H.
    destruct (AllocateSpecific id p) as [p'|e| |]; [|by eexists None, p|done..].
    destruct H as (Hrange & Hfree & ->). destruct (Hadd id) as [? ?]; [done..|].
    by eexists (Some id), _.
  - eexists None, _. split_and!; [done|by apply Pool_Release_wf|done|done|]. split.
    + by apply NoDup_filter.
    + intros j. cbn. rewrite list_elem_of_filter, Hiff. set_solver.
Qed.

Lemma pool_run_spec ops : ∀ handed p,
  wf_pool p → hands handed p →
  ∃ handed' p', pool_run ops handed p = Ok (handed', p') ∧ wf_pool p' ∧
    pStart p' = pStart p ∧ pEnd p' = pEnd p ∧ hands handed' p'.
Proof.
  induction ops as [|op ops IH]; intros handed p Hwf Hh; cbn [pool_run]; [by eexists _, _|].
  destruct (pool_apply_spec op handed p Hwf Hh) as (r & p1 & -> & Hwf1 & Hs & He & Hh1).
  cbn [mbind res_bind fst snd].
  destruct (IH _ p1 Hwf1 Hh1) as (handed' & p' & -> & ? & ? & ? & ?).
  eexists _, _. split_and!; [done|done|congruence|congruence|done].
Qed.

(** [Allocate] hands out the least free id of the range and records it, and
    reports an error exactly when the range is used up; it always comes back. *)
Theorem Allocate_least p :
  wf_pool p →
  match Allocate p with
  | Ok (id, p') => in_range p id ∧ (id ∉ pAllocated p) ∧
                   (∀ j, pStart p <= j < id → j ∈ pAllocated p) ∧ p' = add_allocated id p
  | Err e => e = NoUserIDs ∧ ∀ j, in_range p j → j ∈ pAllocated p
  | Panic | Diverge => False
  end.
Proof. apply Allocate_spec. Qed.

(** In any sequence of allocations,
    specific allocations and releases, the ids handed out and not yet returned are
    distinct ids of the range, and they are the ids the pool says are allocated. *)
Theorem pool_ids_unique start end_ ops :
  0 <= start <= end_ → end_ < 65535 →
  ∃ handed p, pool_run ops [] (NewUserIDPool start end_) = Ok (handed, p) ∧
    NoDup handed ∧ (∀ id, id ∈ handed ↔ IsAllocated id p = true) ∧
    Forall (λ id, start <= id <= end_) handed.
Proof.
  intros Hr He.
  destruct (pool_run_spec ops [] (NewUserIDPool start end_)) as (h & p & -> & Hwf & Hs & Hee & Hnd & Hiff).
  - split; cbn; [lia|done|set_solver].
  - split; [constructor|cbn; set_solver].
  - exists h, p. split_and!; [done|done| |].
    + intros id. unfold IsAllocated. by rewrite bool_decide_eq_true.
    + apply Forall_forall. intros id Hid%Hiff%(wf_pool_allocated _ Hwf). unfold in_range in Hid.
      cbn in *. lia.
Qed.

(** The sequence of ids ends in 65535, and goes on at 0. *)
Lemma Allocate_beyond p :
  0 < pStart p <= 65535 → pEnd p = 65535 →
  (∀ j, in_range p j → j ∈ pAllocated p) → 0 ∉ pAllocated p →
  Allocate p = Ok (0, add_allocated 0 p) ∧ ¬ in_range p 0.
Proof.
  intros Hs He Hall H0. split; [|unfold in_range; lia]. unfold Allocate.
  rewrite <- (u16_small (pStart p)) by (width; lia).
  rewrite (Allocate_loop_busy p (Z.to_nat (65536 - pStart p))); [|intros i Hi|lia|lia].
  - replace (u16 (pStart p + Z.of_nat (Z.to_nat (65536 - pStart p)))) with 0
      by (rewrite Z2Nat.id by lia; replace (pStart p + (65536 - pStart p)) with 65536 by lia; done).
    destruct (Z.to_nat (2 ^ 16) - Z.to_nat (65536 - pStart p))%nat eqn:Hf; [lia|]. cbn [Allocate_loop].
    rewrite He. cbn. by rewrite decide_False.
  - split_and!; [lia|lia|]. apply Hall. unfold in_range. lia.
Qed.

(** When a range that ends at 65535 has handed out all 65536 ids, [Allocate] never
    returns: however long the loop runs, it has not ended. *)
Theorem Allocate_spins p fuel :
  is_u16 (pStart p) → pEnd p = 65535 → (∀ j, is_u16 j → j ∈ pAllocated p) →
  Allocate_loop fuel p (pStart p) = Diverge.
Proof.
  intros Hs He Hall. generalize dependent (pStart p). intros id.
  revert id. induction fuel as [|fuel IH]; intros id Hid; [done|]. cbn [Allocate_loop].
  destruct (Z.leb_spec id (pEnd p)); [|width; lia]. rewrite decide_True by auto.
  apply IH, u16_range.
Qed.

(** C34: with a range that ends at 65535 the loop variable wraps around: when the range
    is used up, [Allocate] does not report an error, but hands out id 0, which is not in
    the range; and when all 65536 ids are taken it never returns, however long it runs. *)
Theorem Allocate_wraps p :
  0 < pStart p <= 65535 → pEnd p = 65535 → (∀ j, in_range p j → j ∈ pAllocated p) →
  (0 ∉ pAllocated p → Allocate p = Ok (0, add_allocated 0 p) ∧ ¬ in_range p 0) ∧
  ((∀ j, is_u16 j → j ∈ pAllocated p) → ∀ fuel, Allocate_loop fuel p (pStart p) = Diverge).
Proof.
  intros Hs He Hall. split; [by apply Allocate_beyond|].
  intros Hfull fuel. apply Allocate_spins; [width; lia|done|done].
Qed.

(** ** The theorems on concrete pools *)

Lemma Allocate_least_witness :
  let p := mkPool 100 102 {[100]} in
  wf_pool p ∧
  match Allocate p with
  | Ok (id, p') => in_range p id ∧ (id ∉ pAllocated p) ∧
                   (∀ j, pStart p <= j < id → j ∈ pAllocated p) ∧ p' = add_allocated id p
  | Err e => e = NoUserIDs ∧ ∀ j, in_range p j → j ∈ pAllocated p
  | Panic | Diverge => False
  end.
Proof.
  intros p. assert (wf_pool p) as H.
  { split; cbn; [lia|lia|]. intros id Hid%elem_of_singleton. unfold in_range. cbn. lia. }
  split; [exact H|]. exact (Allocate_least p H).
Defined.

Lemma pool_ids_unique_witness :
  ∃ handed p,
    pool_run [PAllocate; PAllocateSpecific 101; PRelease 100; PAllocate; PAllocate] []
      (NewUserIDPool 100 102) = Ok (handed, p) ∧
    NoDup handed ∧ (∀ id, id ∈ handed ↔ IsAllocated id p = true) ∧
    Forall (λ id, 100 <= id <= 102) handed.
Proof. apply pool_ids_unique; lia. Defined.

Lemma Allocate_wraps_witness :
  (let p := mkPool 65534 65535 {[65534; 65535]} in
   Allocate p = Ok (0, add_allocated 0 p) ∧ ¬ in_range p 0) ∧
  (let p := mkPool 7 65535 (list_to_set (seqZ 0 65536)) in
   ∀ fuel, Allocate_loop fuel p (pStart p) = Diverge).
Proof.
  split; intros p.
  - apply (Allocate_wraps p); [cbn; lia|reflexivity|..].
    + intros j Hj. unfold in_range in Hj. cbn in *.
      assert (j = 65534 ∨ j = 65535) as [->| ->] by lia; apply (bool_decide_unpack _); exact I.
    + apply (bool_decide_unpack _). exact I.
  - assert (∀ j, is_u16 j → j ∈ pAllocated p) as Hfull
      by (intros j Hj; apply elem_of_list_to_set, elem_of_seqZ; width; lia).
    apply (Allocate_wraps p); [cbn; lia|reflexivity| |exact Hfull].
    intros j Hj. apply Hfull. unfold in_range in Hj. cbn in Hj. width. lia.
Defined.

Lemma Allocate_spins_witness :
  let p := mkPool 7 65535 (list_to_set (seqZ 0 65536)) in
  Allocate_loop (Z.to_nat (2 ^ 16)) p (pStart p) = Diverge.
Proof.
  intros p. apply (Allocate_spins p); [apply (bool_decide_unpack _); exact I|reflexivity|].
  intros j Hj. apply elem_of_list_to_set, elem_of_seqZ. width. lia.
Defined.
