(* ===== verification/Session.v ===== *)
(** * Sessions ([state.go]: [SessionStateMachine]; [server.go]: [Session])

    The session state machine records what a client said; every method runs under
    its mutex, those that stamp the activity take the time they read.  A session
    refers to its transport by its index in the world's heap. *)

From S2P Require Import Prelude Types FloorFSM.

Record SessionStateMachine := mkSSM {
  ssmCurrentState : Z;
  ssmConferenceID : Z;
  ssmUserID : Z;
  ssmRemoteAddr : string;
  ssmClientVersion : Z;
  ssmSupportedPrimitives : list Z;
  ssmSupportedAttributes : list Z;
  ssmCreatedAt : Time;
  ssmLastActivityAt : Time
}.

(** The conference id is passed as a [uint16] and widened again. *)
Definition NewSessionStateMachine (conferenceID userID : Z) (remoteAddr : string) (now : Time)
    : SessionStateMachine :=
  mkSSM StateConnected conferenceID userID remoteAddr 0 [] [] now now.

Definition UpdateActivity (now : Time) (s : SessionStateMachine) : SessionStateMachine :=
  mkSSM (ssmCurrentState s) (ssmConferenceID s) (ssmUserID s) (ssmRemoteAddr s)
    (ssmClientVersion s) (ssmSupportedPrimitives s) (ssmSupportedAttributes s)
    (ssmCreatedAt s) now.

Definition Session_SetState (state : Z) (now : Time) (s : SessionStateMachine)
    : SessionStateMachine :=
  mkSSM state (ssmConferenceID s) (ssmUserID s) (ssmRemoteAddr s)
    (ssmClientVersion s) (ssmSupportedPrimitives s) (ssmSupportedAttributes s)
    (ssmCreatedAt s) now.

Definition Session_GetState (s : SessionStateMachine) : Z := ssmCurrentState s.

Definition SetSupportedPrimitives (primitives : list Z) (s : SessionStateMachine)
    : SessionStateMachine :=
  mkSSM (ssmCurrentState s) (ssmConferenceID s) (ssmUserID s) (ssmRemoteAddr s)
    (ssmClientVersion s) primitives (ssmSupportedAttributes s)
    (ssmCreatedAt s) (ssmLastActivityAt s).

Definition SetSupportedAttributes (attributes : list Z) (s : SessionStateMachine)
    : SessionStateMachine :=
  mkSSM (ssmCurrentState s) (ssmConferenceID s) (ssmUserID s) (ssmRemoteAddr s)
    (ssmClientVersion s) (ssmSupportedPrimitives s) attributes
    (ssmCreatedAt s) (ssmLastActivityAt s).

Definition GetIdleDuration (now : Time) (s : SessionStateMachine) : Z :=
  now - ssmLastActivityAt s.

(** Field assignments of [server.go]. *)
Definition set_ClientVersion (version : Z) (s : SessionStateMachine) : SessionStateMachine :=
  mkSSM (ssmCurrentState s) (ssmConferenceID s) (ssmUserID s) (ssmRemoteAddr s)
    version (ssmSupportedPrimitives s) (ssmSupportedAttributes s)
    (ssmCreatedAt s) (ssmLastActivityAt s).

Definition set_identity (conferenceID userID : Z) (s : SessionStateMachine)
    : SessionStateMachine :=
  mkSSM (ssmCurrentState s) conferenceID userID (ssmRemoteAddr s)
    (ssmClientVersion s) (ssmSupportedPrimitives s) (ssmSupportedAttributes s)
    (ssmCreatedAt s) (ssmLastActivityAt s).

(** ** [Session] *)

Record Session := mkSession {
  sTransport : option nat;      (* *Transport *)
  sUDPTransport : option nat;   (* *UDPTransport *)
  sStateMachine : SessionStateMachine   (* never nil, and owned by the session *)
}.

Definition set_StateMachine (f : SessionStateMachine → SessionStateMachine) (s : Session)
    : Session :=
  mkSession (sTransport s) (sUDPTransport s) (f (sStateMachine s)).

Definition Session_ProtocolVersion (s : Session) : Z :=
  if 0 <? ssmClientVersion (sStateMachine s) then ssmClientVersion (sStateMachine s)
  else match sUDPTransport s with
       | Some _ => ProtocolVersionRFC8855
       | None => ProtocolVersionRFC4582
       end.

(** The two versions a session can have once a decoded message has been handled. *)
Lemma ProtocolVersion_client s v :
  0 < v → Session_ProtocolVersion (set_StateMachine (set_ClientVersion v) s) = v.
Proof.
  intros. unfold Session_ProtocolVersion. cbn. destruct (Z.ltb_spec 0 v); [done|lia].
Qed.
