(* ===== verification/Prog.v ===== *)
(** * Programs over a shared world

    A program is a sequence of atomic steps on a world of type [W]: a step returns the
    rest of the program and the next world, or panics.  The same program is run to its
    end ([run]) and interleaved with others ([Interleave.v]).  The server runs over
    the world of [World.v], the TCP client over that of [Client.v]. *)

From S2P Require Import Prelude.

Inductive gprog (W A : Type) : Type :=
| Ret (a : A)
| Step (f : W → call (gprog W A * W)).
Arguments Ret {W A} a.
Arguments Step {W A} f.

Fixpoint prog_bind_ {W A B} (k : A → gprog W B) (p : gprog W A) : gprog W B :=
  match p with
  | Ret a => k a
  | Step f => Step (λ w, match f w with
                         | Ok (p, w) => Ok (prog_bind_ k p, w)
                         | Err e => Err e
                         | Panic => Panic
                         | Diverge => Diverge
                         end)
  end.

#[global] Instance prog_ret {W} : MRet (gprog W) := λ A a, Ret a.
#[global] Instance prog_bind {W} : MBind (gprog W) := λ A B k p, prog_bind_ k p.

(** The program run alone, to its end. *)
Fixpoint run {W A} (p : gprog W A) (w : W) : call (A * W) :=
  match p with
  | Ret a => Ok (a, w)
  | Step f => match f w with
              | Ok (p, w) => run p w
              | Err e => Err e
              | Panic => Panic
              | Diverge => Diverge
              end
  end.

Definition atomic {W A} (f : W → call (A * W)) : gprog W A :=
  Step (λ w, r ← f w; Ok (Ret r.1, r.2)).

(** A nil pointer is dereferenced when the cell does not exist. *)
Definition deref {W A} (heap : W → list A) (l : nat) : gprog W A :=
  atomic (λ w, match heap w !! l with Some x => Ok (x, w) | None => Panic end).

Definition gets {W A} (f : W → A) : gprog W A := atomic (λ w, Ok (f w, w)).
Definition modify {W} (f : W → W) : gprog W () := atomic (λ w, Ok (tt, f w)).
Definition lift {W A} (r : call A) : gprog W A := atomic (λ w, a ← r; Ok (a, w)).
Definition when {W} (b : bool) (p : gprog W ()) : gprog W () := if b then p else mret tt.

Fixpoint for_each {W A} (l : list A) (body : A → gprog W ()) : gprog W () :=
  match l with
  | [] => mret tt
  | x :: l => body x ;; for_each l body
  end.

(** ** Programs on a part of the world *)

Record lens (W V : Type) := mkLens {
  view : W → V;
  update : V → W → W
}.
Arguments mkLens {W V} _ _.
Arguments view {W V} _ _.
Arguments update {W V} _ _ _.

Class LensLaws {W V} (l : lens W V) : Prop := {
  view_update v w : view l (update l v w) = v;
  update_view w : update l (view l w) w = w;
  update_update v v' w : update l v' (update l v w) = update l v' w
}.

Definition lens_id {W} : lens W W := mkLens id (λ v _, v).
Definition lens_comp {W V U} (l : lens W V) (m : lens V U) : lens W U :=
  mkLens (λ w, view m (view l w)) (λ u w, update l (update m u (view l w)) w).

#[global] Instance lens_id_laws {W} : LensLaws (@lens_id W).
Proof. by split. Qed.

#[global] Instance lens_comp_laws {W V U} (l : lens W V) (m : lens V U) :
  LensLaws l → LensLaws m → LensLaws (lens_comp l m).
Proof.
  intros Hl Hm. split; intros; cbn.
  - by rewrite !view_update.
  - by rewrite !update_view.
  - by rewrite view_update, !update_update.
Qed.

(** The program over the part, as a program over the whole. *)
Fixpoint zoom {W V A} (l : lens W V) (p : gprog V A) : gprog W A :=
  match p with
  | Ret a => Ret a
  | Step f => Step (λ w, match f (view l w) with
                         | Ok (p, v) => Ok (zoom l p, update l v w)
                         | Err e => Err e
                         | Panic => Panic
                         | Diverge => Diverge
                         end)
  end.
