(* ===== verification/World.v ===== *)
(** * The world of the server

    What the server's goroutines share - the heap of floors, sessions and
    transports, the server's maps, the transaction counter, what has been sent and
    the callbacks that have run - and the programs over it.  A program is a
    sequence of atomic steps, one for each critical section or method call under a
    mutex, so that the same definition is run to its end ([run]) and interleaved
    with others ([Interleave.v]). *)

From S2P Require Import Prelude Types Message Grouped Codec FloorFSM Session Prog.

(** ** Transports ([transport.go]) *)

(** A [sync.WaitGroup]: its state, a counter and the number of goroutines that wait, and
    how often the semaphore they sleep on can be taken.  The counter is an [int32] in Go:
    it is taken not to overflow, as every unit is a goroutine that exists. *)
Record WaitGroup := mkWaitGroup {
  wgCounter : nat;
  wgWaiters : nat;
  wgSema : nat
}.

(** A TCP transport.  [tContext] is [None] when the context is the transport's own, which
    [Close] cancels; a context given to [DialContext] says at which ticks it is done.
    [tKeepalive] is what the keepalive sender closes over: the conference and user of the
    Hello messages. *)
Record Transport := mkTransport {
  tRemote : string;
  tRole : Z;
  tContext : option (nat → bool);
  tClosed : bool;
  tKeepaliveInterval : Z;
  tKeepalive : option (Z * Z);
  tKeepaliveWg : WaitGroup
}.

Definition close_tcp (tr : Transport) : Transport :=
  mkTransport (tRemote tr) (tRole tr) (tContext tr) true (tKeepaliveInterval tr) (tKeepalive tr)
    (tKeepaliveWg tr).
Definition with_keepalive (interval : Z) (sender : Z * Z) (tr : Transport) : Transport :=
  mkTransport (tRemote tr) (tRole tr) (tContext tr) (tClosed tr) interval (Some sender)
    (tKeepaliveWg tr).
Definition with_wg (g : WaitGroup) (tr : Transport) : Transport :=
  mkTransport (tRemote tr) (tRole tr) (tContext tr) (tClosed tr) (tKeepaliveInterval tr)
    (tKeepalive tr) g.

Definition with_context (ctx : option (nat → bool)) (tr : Transport) : Transport :=
  mkTransport (tRemote tr) (tRole tr) ctx (tClosed tr) (tKeepaliveInterval tr) (tKeepalive tr)
    (tKeepaliveWg tr).

(** One goroutine more. *)
Definition wg_more (g : WaitGroup) : WaitGroup :=
  mkWaitGroup (S (wgCounter g)) (wgWaiters g) (wgSema g).

(** A UDP transport; its remote address can be nil. *)
Record UDPTransport := mkUDPTransport {
  uRemote : option string;
  uClosed : bool
}.

(** ** The client role ([udpclient.go]; [client.go]: [ActiveFloorRequest])

    [ucPending] maps a transaction to the channel its caller waits on, [ucActive] a
    floor to the request for it; [ucDone]: the channel [done] is closed. *)

Record ActiveFloorRequest := mkActive {
  aFloorID : Z;
  aFloorRequestID : Z;
  aBeneficiaryID : Z;
  aPriority : Z;
  aStatus : Z;
  aRequestedAt : Time;
  aGrantedAt : Time
}.

(** Which callbacks of a client are set. *)
Record ClientHooks := mkClientHooks {
  ucOnFloorGranted : bool;
  ucOnFloorDenied : bool;
  ucOnFloorReleased : bool;
  ucOnFloorStatus : bool;
  ucOnError : bool
}.

Record UDPClient := mkUDPClient {
  ucConferenceID : Z;
  ucUserID : Z;
  ucVersion : Z;
  ucT1 : Z;
  ucMaxRetries : Z;
  ucTransport : nat;
  ucRemote : string;
  ucNextTxID : Z;
  ucClosed : bool;
  ucDone : bool;
  ucPending : gmap Z nat;
  ucActive : gmap Z ActiveFloorRequest;
  ucHooks : ClientHooks
}.

(** A channel of capacity 1 that waits for a response; [chTx], the transaction it was
    made for, is not in the code. *)
Record Chan := mkChan {
  chTx : Z;
  chBuf : option Message
}.

(** ** Configuration and callbacks ([server.go]) *)

Inductive TransportType := TransportTCP | TransportUDP.

Record ServerConfig := mkServerConfig {
  Address : string;
  PortMin : Z;
  PortMax : Z;
  cConferenceID : Z;
  AutoGrant : bool;
  MaxFloors : Z;
  SessionTimeout : Z;
  cTransport : TransportType
}.

Definition DefaultServerConfig (address : string) (conferenceID : Z) : ServerConfig :=
  mkServerConfig address 0 0 conferenceID true 10 300 TransportTCP.

(** The application's callbacks: whether each one is set and, for
    [OnFloorRequest], what it decides. *)
Record Hooks := mkHooks {
  OnFloorRequest : option (Z → Z → Z → bool);
  OnFloorGranted : bool;
  OnFloorReleased : bool;
  OnFloorDenied : bool;
  OnClientConnect : bool;
  OnClientDisconnect : bool;
  OnMessageIn : bool;
  OnMessageOut : bool
}.

Inductive client_callback :=
| CbFloorGranted (floorID requestID : Z)
| CbFloorDenied (floorID requestID : Z)
| CbFloorReleased (floorID : Z)
| CbFloorStatus (floorID beneficiaryID status : Z)
| CbError (code : Z) (info : bytes).

Inductive event :=
| Packet (remote : string) (data : bytes)
| AskedFloorRequest (floorID userID requestID : Z)
| FloorGranted (floorID userID requestID : Z)
| FloorReleased (floorID userID : Z)
| FloorDenied (floorID userID requestID : Z)
| ClientConnect (remoteAddr : string) (userID : Z)
| ClientDisconnect (remoteAddr : string) (userID : Z)
| MessageIn (remote primitive : string) (version transactionID conferenceID userID floorID : Z)
| MessageOut (remote primitive : string) (version transactionID conferenceID userID floorID : Z)
| ClientCallback (remote : string) (cb : client_callback).

(** What the code does not determine: the clock, the outcome of a socket write, the
    order in which Go ranges over a map, the resolution of an address, the case a
    [select] takes of those that are ready; each is read at the current tick of the
    world. *)
Class Env := {
  config : ServerConfig;
  hooks : Hooks;
  now : nat → Time;
  write_ok : nat → bool;
  range_order : nat → ∀ {A}, list A → list A;
  range_perm : ∀ t A (l : list A), range_order t l ≡ₚ l;
  resolve : string → option string;
  chance : nat → nat
}.

(** ** The world *)

Record World := mkWorld {
  w_floor_heap : list FloorStateMachine;
  w_floors : gmap Z nat;
  w_session_heap : list Session;
  w_sessions : gmap string nat;
  w_transports : list Transport;
  w_udp_transports : list UDPTransport;
  w_udp_sessions : gmap string nat;
  w_udp_clients : gmap string nat;
  w_client_heap : list UDPClient;
  w_channels : list Chan;
  w_nextTxID : Z;
  w_trace : list event;
  w_history : list (nat * floor_op);
  w_tick : nat
}.

Definition set_floor_heap (f : list FloorStateMachine → list FloorStateMachine) (w : World) : World :=
  mkWorld (f (w_floor_heap w)) (w_floors w) (w_session_heap w) (w_sessions w)
    (w_transports w) (w_udp_transports w) (w_udp_sessions w) (w_udp_clients w)
    (w_client_heap w) (w_channels w) (w_nextTxID w) (w_trace w) (w_history w) (w_tick w).
Definition set_floors (f : gmap Z nat → gmap Z nat) (w : World) : World :=
  mkWorld (w_floor_heap w) (f (w_floors w)) (w_session_heap w) (w_sessions w)
    (w_transports w) (w_udp_transports w) (w_udp_sessions w) (w_udp_clients w)
    (w_client_heap w) (w_channels w) (w_nextTxID w) (w_trace w) (w_history w) (w_tick w).
Definition set_session_heap (f : list Session → list Session) (w : World) : World :=
  mkWorld (w_floor_heap w) (w_floors w) (f (w_session_heap w)) (w_sessions w)
    (w_transports w) (w_udp_transports w) (w_udp_sessions w) (w_udp_clients w)
    (w_client_heap w) (w_channels w) (w_nextTxID w) (w_trace w) (w_history w) (w_tick w).
Definition set_sessions (f : gmap string nat → gmap string nat) (w : World) : World :=
  mkWorld (w_floor_heap w) (w_floors w) (w_session_heap w) (f (w_sessions w))
    (w_transports w) (w_udp_transports w) (w_udp_sessions w) (w_udp_clients w)
    (w_client_heap w) (w_channels w) (w_nextTxID w) (w_trace w) (w_history w) (w_tick w).
Definition set_transports (f : list Transport → list Transport) (w : World) : World :=
  mkWorld (w_floor_heap w) (w_floors w) (w_session_heap w) (w_sessions w)
    (f (w_transports w)) (w_udp_transports w) (w_udp_sessions w) (w_udp_clients w)
    (w_client_heap w) (w_channels w) (w_nextTxID w) (w_trace w) (w_history w) (w_tick w).
Definition set_udp_transports (f : list UDPTransport → list UDPTransport) (w : World) : World :=
  mkWorld (w_floor_heap w) (w_floors w) (w_session_heap w) (w_sessions w) (w_transports w)
    (f (w_udp_transports w)) (w_udp_sessions w) (w_udp_clients w) (w_client_heap w)
    (w_channels w) (w_nextTxID w) (w_trace w) (w_history w) (w_tick w).
Definition set_udp_sessions (f : gmap string nat → gmap string nat) (w : World) : World :=
  mkWorld (w_floor_heap w) (w_floors w) (w_session_heap w) (w_sessions w) (w_transports w)
    (w_udp_transports w) (f (w_udp_sessions w)) (w_udp_clients w) (w_client_heap w)
    (w_channels w) (w_nextTxID w) (w_trace w) (w_history w) (w_tick w).
Definition set_udp_clients (f : gmap string nat → gmap string nat) (w : World) : World :=
  mkWorld (w_floor_heap w) (w_floors w) (w_session_heap w) (w_sessions w) (w_transports w)
    (w_udp_transports w) (w_udp_sessions w) (f (w_udp_clients w)) (w_client_heap w)
    (w_channels w) (w_nextTxID w) (w_trace w) (w_history w) (w_tick w).
Definition set_client_heap (f : list UDPClient → list UDPClient) (w : World) : World :=
  mkWorld (w_floor_heap w) (w_floors w) (w_session_heap w) (w_sessions w) (w_transports w)
    (w_udp_transports w) (w_udp_sessions w) (w_udp_clients w) (f (w_client_heap w))
    (w_channels w) (w_nextTxID w) (w_trace w) (w_history w) (w_tick w).
Definition set_channels (f : list Chan → list Chan) (w : World) : World :=
  mkWorld (w_floor_heap w) (w_floors w) (w_session_heap w) (w_sessions w) (w_transports w)
    (w_udp_transports w) (w_udp_sessions w) (w_udp_clients w) (w_client_heap w)
    (f (w_channels w)) (w_nextTxID w) (w_trace w) (w_history w) (w_tick w).
Definition set_nextTxID (f : Z → Z) (w : World) : World :=
  mkWorld (w_floor_heap w) (w_floors w) (w_session_heap w) (w_sessions w) (w_transports w)
    (w_udp_transports w) (w_udp_sessions w) (w_udp_clients w) (w_client_heap w)
    (w_channels w) (f (w_nextTxID w)) (w_trace w) (w_history w) (w_tick w).
Definition log_events (evs : list event) (w : World) : World :=
  mkWorld (w_floor_heap w) (w_floors w) (w_session_heap w) (w_sessions w) (w_transports w)
    (w_udp_transports w) (w_udp_sessions w) (w_udp_clients w) (w_client_heap w)
    (w_channels w) (w_nextTxID w) (w_trace w ++ evs) (w_history w) (w_tick w).
Definition log_floor_op (l : nat) (op : floor_op) (w : World) : World :=
  mkWorld (w_floor_heap w) (w_floors w) (w_session_heap w) (w_sessions w) (w_transports w)
    (w_udp_transports w) (w_udp_sessions w) (w_udp_clients w) (w_client_heap w)
    (w_channels w) (w_nextTxID w) (w_trace w) (w_history w ++ [(l, op)]) (w_tick w).
Definition tick (w : World) : World :=
  mkWorld (w_floor_heap w) (w_floors w) (w_session_heap w) (w_sessions w) (w_transports w)
    (w_udp_transports w) (w_udp_sessions w) (w_udp_clients w) (w_client_heap w)
    (w_channels w) (w_nextTxID w) (w_trace w) (w_history w) (S (w_tick w)).

(** ** The server's programs *)

Abbreviation prog := (gprog World).

Definition emit (e : event) : prog () := modify (log_events [e]).
