(* ===== verification/Transport.v ===== *)
(** * Transports ([transport.go])

    Roles, new transports and the operations of [Transport], [UDPTransport] and
    [UDPListener] on the shared world; the goroutine of the keepalive is in [Server.v],
    with the messages that it sends.  Each runs under the transport's mutex, so it is one
    atomic step; the outcome of the socket write (and of setting its deadline) is the
    environment's. *)

From S2P Require Import Prelude Types Message Grouped Codec FloorFSM Session Prog World.

(** ** Connection roles and new transports *)

Definition RoleActive : Z := 0.
Definition RolePassive : Z := 1.
Definition RoleActpass : Z := 2.

Definition ConnectionRole_String (r : Z) : string :=
  if r =? RoleActive then "active"
  else if r =? RolePassive then "passive"
  else if r =? RoleActpass then "actpass"
  else "unknown(" +:+ pretty r +:+ ")".

Definition NewTransport (remote : string) (role : Z) : Transport :=
  mkTransport remote role None false 0 None (mkWaitGroup 0 0 0).
Definition NewUDPTransport (remoteAddr : option string) : UDPTransport :=
  mkUDPTransport remoteAddr false.

Inductive send_error :=
| TransportIsClosed
| NoRemoteAddress
| MessageEncodeFailed (e : encode_error)
| SocketWriteFailed.

(** A method call that panics or loops does so in its caller. *)
Definition encode_or {A} (msg : Message) (fail : encode_error → call A)
    (ok : Message → bytes → call A) : call A :=
  match Encode msg with
  | Ok (msg, data) => ok msg data
  | Err e => fail e
  | Panic => Panic
  | Diverge => Diverge
  end.

Section Transport.
Context {env : Env}.

(** [conn.Write] or [conn.WriteToUDP]: the data is sent or the write fails. *)
Definition socket_write (remote : string) (data : bytes) (w : World)
    : option send_error * World :=
  if write_ok (w_tick w) then (None, tick (log_events [Packet remote data] w))
  else (Some SocketWriteFailed, tick w).

(** ** [UDPTransport] *)

Definition UDPTransport_SendMessage (t : nat) (msg : Message)
    : prog (option send_error * Message) :=
  atomic (λ w,
    match w_udp_transports w !! t with
    | None => Panic
    | Some (mkUDPTransport remote closed) =>
        if closed then Ok ((Some TransportIsClosed, msg), w)
        else match remote with
        | None => Ok ((Some NoRemoteAddress, msg), w)
        | Some remote =>
            encode_or msg
              (λ e, Ok ((Some (MessageEncodeFailed e), msg), w))
              (λ msg data, let '(e, w) := socket_write remote data w in Ok ((e, msg), w))
        end
    end).

Definition UDPTransport_SendRawData (t : nat) (data : bytes) : prog (option send_error) :=
  atomic (λ w,
    match w_udp_transports w !! t with
    | None => Panic
    | Some (mkUDPTransport remote closed) =>
        if closed then Ok (Some TransportIsClosed, w)
        else match remote with
        | None => Ok (Some NoRemoteAddress, w)
        | Some remote => Ok (socket_write remote data w)
        end
    end).

(** [RemoteAddr().String()]: a nil address has no [String]. *)
Definition UDPTransport_RemoteAddr (t : nat) : prog string :=
  atomic (λ w,
    match w_udp_transports w !! t with
    | Some (mkUDPTransport (Some remote) _) => Ok (remote, w)
    | _ => Panic
    end).

Definition UDPTransport_SetRemoteAddr (t : nat) (addr : option string) : prog () :=
  atomic (λ w,
    match w_udp_transports w !! t with
    | None => Panic
    | Some tr => Ok (tt, set_udp_transports <[t := mkUDPTransport addr (uClosed tr)]> w)
    end).

Definition close_udp (tr : UDPTransport) : UDPTransport := mkUDPTransport (uRemote tr) true.

Definition UDPTransport_Close (t : nat) : prog () :=
  atomic (λ w,
    match w_udp_transports w !! t with
    | None => Panic
    | Some tr => Ok (tt, set_udp_transports <[t := close_udp tr]> w)
    end).

Definition UDPTransport_IsClosed (t : nat) : prog bool :=
  atomic (λ w,
    match w_udp_transports w !! t with Some tr => Ok (uClosed tr, w) | None => Panic end).

(** ** [UDPListener]: the transports by remote address *)

Definition getOrCreateTransport (key : string) : prog nat :=
  atomic (λ w,
    match w_udp_sessions w !! key with
    | Some t => Ok (t, w)
    | None =>
        let t := length (w_udp_transports w) in
        Ok (t, set_udp_sessions <[key := t]>
                 (set_udp_transports (λ l, l ++ [NewUDPTransport (Some key)]) w))
    end).

Definition GetTransport (remoteAddr : string) : prog (option nat) :=
  gets (λ w, w_udp_sessions w !! remoteAddr).

Definition RemoveTransport (remoteAddr : string) : prog () :=
  modify (set_udp_sessions (delete remoteAddr)).

(** ** [Transport] *)

Definition Transport_SendMessage (t : nat) (msg : Message) : prog (option send_error * Message) :=
  atomic (λ w,
    match w_transports w !! t with
    | None => Panic
    | Some tr =>
        if tClosed tr then Ok ((Some TransportIsClosed, msg), w)
        else
          encode_or msg
            (λ e, Ok ((Some (MessageEncodeFailed e), msg), w))
            (λ msg data, let '(e, w) := socket_write (tRemote tr) data w in Ok ((e, msg), w))
    end).

Definition Transport_SendRawData (t : nat) (data : bytes) : prog (option send_error) :=
  atomic (λ w,
    match w_transports w !! t with
    | None => Panic
    | Some tr =>
        if tClosed tr then Ok (Some TransportIsClosed, w)
        else Ok (socket_write (tRemote tr) data w)
    end).

Definition Transport_RemoteAddr (t : nat) : prog string :=
  atomic (λ w,
    match w_transports w !! t with Some tr => Ok (tRemote tr, w) | None => Panic end).

Definition Transport_IsClosed (t : nat) : prog bool :=
  atomic (λ w,
    match w_transports w !! t with Some tr => Ok (tClosed tr, w) | None => Panic end).

(** The part under the mutex.  The wait for the keepalive goroutines that follows is
    [wg_Wait], which the programs of the server leave out; [Keepalive.v] has both. *)
Definition Transport_Close (t : nat) : prog () :=
  atomic (λ w,
    match w_transports w !! t with
    | None => Panic
    | Some tr => Ok (tt, set_transports <[t := close_tcp tr]> w)
    end).

Definition EnableKeepalive (t : nat) (interval : Z) (sender : Z * Z) : prog () :=
  atomic (λ w,
    match w_transports w !! t with
    | None => Panic
    | Some tr => Ok (tt, set_transports <[t := with_keepalive interval sender tr]> w)
    end).

(** *** The wait group of the keepalive ([keepaliveWg])

    The methods of [sync.WaitGroup] (Go 1.24), one step for each access to its state. *)

Definition wg_call {A} (t : nat) (f : WaitGroup → call (A * WaitGroup)) : prog A :=
  atomic (λ w,
    match w_transports w !! t with
    | None => Panic
    | Some tr =>
        '(a, g) ← f (tKeepaliveWg tr);
        Ok (a, set_transports <[t := with_wg g tr]> w)
    end).

(** [Add(1)] panics when it brings the counter from zero while somebody waits. *)
Definition wg_add (g : WaitGroup) : call (() * WaitGroup) :=
  if (wgCounter g =? 0)%nat && negb (wgWaiters g =? 0)%nat then Panic else Ok (tt, wg_more g).

(** [Add(-1)]: the new counter must not be negative; the goroutine that brings it to zero
    while others wait has to wake them. *)
Definition wg_sub (g : WaitGroup) : call (nat * WaitGroup) :=
  match wgCounter g with
  | O => Panic
  | S n => Ok (if (n =? 0)%nat then wgWaiters g else 0%nat, mkWaitGroup n (wgWaiters g) (wgSema g))
  end.

(** Nobody may have changed the state in the meantime; then it is reset. *)
Definition wg_check (waiters : nat) (g : WaitGroup) : call (() * WaitGroup) :=
  if (wgCounter g =? 0)%nat && (wgWaiters g =? waiters)%nat then Ok (tt, g) else Panic.
Definition wg_release (waiters : nat) (g : WaitGroup) : call (() * WaitGroup) :=
  Ok (tt, mkWaitGroup 0 0 (wgSema g + waiters)).

Definition wg_Done (t : nat) : prog () :=
  waiters ← wg_call t wg_sub;
  if (waiters =? 0)%nat then mret tt
  else wg_call t (wg_check waiters) ;; wg_call t (wg_release waiters).

(** [Wait]: whether it can return at once; otherwise it sleeps on the semaphore - a step
    that cannot be taken until it is woken - and panics when the group is in use again. *)
Definition wg_enter (g : WaitGroup) : call (bool * WaitGroup) :=
  if (wgCounter g =? 0)%nat then Ok (true, g)
  else Ok (false, mkWaitGroup (wgCounter g) (S (wgWaiters g)) (wgSema g)).
Definition wg_acquire (g : WaitGroup) : call (() * WaitGroup) :=
  match wgSema g with
  | O => Diverge
  | S n => Ok (tt, mkWaitGroup (wgCounter g) (wgWaiters g) n)
  end.

Definition wg_Wait (t : nat) : prog () :=
  zero ← wg_call t wg_enter;
  if zero : bool then mret tt else wg_call t wg_acquire ;; wg_call t (wg_check 0).

(** The goroutine is started whether or not one runs already. *)
Definition StartKeepalive (t : nat) : prog () :=
  tr ← deref w_transports t;
  match tKeepalive tr with
  | Some _ => if 0 <? tKeepaliveInterval tr then wg_call t wg_add else mret tt
  | None => mret tt
  end.

(** It starts the goroutines of the transport: the one that reads ([connection_loop],
    [client_reader]) and, when it is enabled, the one of the keepalive. *)
Definition Transport_Start (t : nat) : prog () := StartKeepalive t.

Definition Transport_Role (t : nat) : prog Z := tr ← deref w_transports t; mret (tRole tr).

(** [<-t.ctx.Done()] is ready. *)
Definition context_done (tick : nat) (tr : Transport) : bool :=
  default (λ _, tClosed tr) (tContext tr) tick.

(** [keepaliveWg.Done()] *)
Definition keepalive_end (t : nat) : prog () := wg_Done t.
End Transport.
