(* ===== verification/UDPClient.v ===== *)
(** * The client role on the server's socket ([udpclient.go])

    The handling of what the remote floor control server sends: a response to a
    pending transaction goes to the channel of its caller, a notification updates
    the requests of the client or is reported, and is acknowledged.  And its calls:
    a transaction sends its request, waits, and sends it again when the time is up. *)

From S2P Require Import Prelude Types Message Grouped Codec FloorFSM Session Prog World Transport.

Definition with_nextTxID (v : Z) (c : UDPClient) : UDPClient :=
  mkUDPClient (ucConferenceID c) (ucUserID c) (ucVersion c) (ucT1 c) (ucMaxRetries c)
    (ucTransport c) (ucRemote c) v (ucClosed c) (ucDone c) (ucPending c) (ucActive c) (ucHooks c).
Definition with_closed (v : bool) (c : UDPClient) : UDPClient :=
  mkUDPClient (ucConferenceID c) (ucUserID c) (ucVersion c) (ucT1 c) (ucMaxRetries c)
    (ucTransport c) (ucRemote c) (ucNextTxID c) v (ucDone c) (ucPending c) (ucActive c) (ucHooks c).
Definition with_done (v : bool) (c : UDPClient) : UDPClient :=
  mkUDPClient (ucConferenceID c) (ucUserID c) (ucVersion c) (ucT1 c) (ucMaxRetries c)
    (ucTransport c) (ucRemote c) (ucNextTxID c) (ucClosed c) v (ucPending c) (ucActive c) (ucHooks c).
Definition with_pending (f : gmap Z nat → gmap Z nat) (c : UDPClient) : UDPClient :=
  mkUDPClient (ucConferenceID c) (ucUserID c) (ucVersion c) (ucT1 c) (ucMaxRetries c)
    (ucTransport c) (ucRemote c) (ucNextTxID c) (ucClosed c) (ucDone c) (f (ucPending c))
    (ucActive c) (ucHooks c).
Definition with_active (f : gmap Z ActiveFloorRequest → gmap Z ActiveFloorRequest)
    (c : UDPClient) : UDPClient :=
  mkUDPClient (ucConferenceID c) (ucUserID c) (ucVersion c) (ucT1 c) (ucMaxRetries c)
    (ucTransport c) (ucRemote c) (ucNextTxID c) (ucClosed c) (ucDone c) (ucPending c)
    (f (ucActive c)) (ucHooks c).
Definition with_hooks (h : ClientHooks) (c : UDPClient) : UDPClient :=
  mkUDPClient (ucConferenceID c) (ucUserID c) (ucVersion c) (ucT1 c) (ucMaxRetries c)
    (ucTransport c) (ucRemote c) (ucNextTxID c) (ucClosed c) (ucDone c) (ucPending c) (ucActive c) h.

Definition with_status (status : Z) (grantedAt : Time) (r : ActiveFloorRequest)
    : ActiveFloorRequest :=
  mkActive (aFloorID r) (aFloorRequestID r) (aBeneficiaryID r) (aPriority r) status
    (aRequestedAt r) grantedAt.

Record UDPClientConfig := mkUDPClientConfig {
  ccRemoteAddr : string;
  ccConferenceID : Z;
  ccUserID : Z;
  ccVersion : Z;
  ccT1 : Z;
  ccMaxRetries : Z
}.

(** 500 milliseconds *)
Definition udpClientT1 : Z := 500 * 1000000.
Definition udpClientMaxRetries : Z := 4.

Inductive client_error :=
| ClientNoUDPListener
| ClientResolveFailed (remoteAddr : string)
| ClientClosed
| ClosedWhileWaiting (primitive : Z)
| ClientSendFailed (primitive : Z)
| NoResponse (primitive : Z) (remote : string) (attempts : Z)
| ErrorResponse (code : Z) (info : bytes)
| UnexpectedPrimitive (expected got : Z)
| MissingFloorRequestID
| MissingRequestStatus
| NoActiveRequest (floorID : Z).

(** The code and the text that [responseError] formats. *)
Definition responseError (msg : Message) : Z * bytes :=
  (default 0 (GetErrorCode msg), default [] (GetErrorInfo msg)).

Section UDPClient.
Context {env : Env}.

(** [OnMessageOut] of the server, with the floor the message is about. *)
Definition message_out (remote : string) (msg : Message) : prog () :=
  when (OnMessageOut hooks) (
    floorID ← lift (GetFloorID msg);
    emit (MessageOut remote (Primitive_String (mPrimitive msg)) (mVersion msg)
            (mTransactionID msg) (mConferenceID msg) (mUserID msg) (default 0 floorID))).

Definition message_in (remote : string) (msg : Message) : prog () :=
  when (OnMessageIn hooks) (
    floorID ← lift (GetFloorID msg);
    emit (MessageIn remote (Primitive_String (mPrimitive msg)) (mVersion msg)
            (mTransactionID msg) (mConferenceID msg) (mUserID msg) (default 0 floorID))).

(** Whether the send succeeded. *)
Definition UDPClient_send (c : nat) (msg : Message) : prog bool :=
  cl ← deref w_client_heap c;
  let msg := set_Version (ucVersion cl) msg in
  '(e, msg) ← UDPTransport_SendMessage (ucTransport cl) msg;
  match e with
  | Some _ => mret false
  | None => message_out (ucRemote cl) msg ;; mret true
  end.

Definition ack (c : nat) (msg : Message) (primitive : Z) : prog () :=
  cl ← deref w_client_heap c;
  let ack := NewMessage primitive (mConferenceID msg) (mTransactionID msg) (ucUserID cl) in
  let ack := SetResponse true ack in
  UDPClient_send c ack ;; mret tt.

(** [nextTxID.Add(1)] is atomic; 0 is skipped by a second one. *)
Definition next_client_tx (c : nat) : prog Z :=
  atomic (λ w,
    match w_client_heap w !! c with
    | None => Panic
    | Some cl => let v := u32 (ucNextTxID cl + 1) in
                 Ok (u16 v, set_client_heap <[c := with_nextTxID v cl]> w)
    end).

Definition nextTransactionID (c : nat) : prog Z :=
  id ← next_client_tx c;
  if id =? 0 then next_client_tx c else mret id.

Definition ownRequest (c : nat) (floorID requestID beneficiaryID : Z) : prog bool :=
  cl ← deref w_client_heap c;
  mret (match ucActive cl !! floorID with
        | Some req => (aFloorRequestID req =? requestID) ||
                      (negb (beneficiaryID =? 0) && (beneficiaryID =? ucUserID cl))
        | None => negb (beneficiaryID =? 0) && (beneficiaryID =? ucUserID cl)
        end).

(** The statuses that end a request. *)
Definition final_status (status : Z) : bool :=
  (status =? RequestStatusReleased) || (status =? RequestStatusRevoked) ||
  (status =? RequestStatusDenied) || (status =? RequestStatusCancelled).

(** The update of [activeRequests], under [requestsMu]. *)
Definition apply_status (floorID status : Z) (t : Time)
    (active : gmap Z ActiveFloorRequest) : gmap Z ActiveFloorRequest :=
  match active !! floorID with
  | None => active
  | Some req =>
      let granted := if (status =? RequestStatusGranted) && (aGrantedAt req =? 0) then t
                     else aGrantedAt req in
      if final_status status then delete floorID active
      else <[floorID := with_status status granted req]> active
  end.

Definition client_event (c : nat) (cb : client_callback) : prog () :=
  cl ← deref w_client_heap c;
  let set := match cb with
             | CbFloorGranted _ _ => ucOnFloorGranted (ucHooks cl)
             | CbFloorDenied _ _ => ucOnFloorDenied (ucHooks cl)
             | CbFloorReleased _ => ucOnFloorReleased (ucHooks cl)
             | CbFloorStatus _ _ _ => ucOnFloorStatus (ucHooks cl)
             | CbError _ _ => ucOnError (ucHooks cl)
             end in
  when set (emit (ClientCallback (ucRemote cl) cb)).

Definition applyOwnStatus (c : nat) (floorID requestID status : Z) : prog () :=
  atomic (λ w,
    match w_client_heap w !! c with
    | None => Panic
    | Some cl =>
        Ok (tt, tick (set_client_heap
                        <[c := with_active (apply_status floorID status (now (w_tick w))) cl]> w))
    end) ;;
  if status =? RequestStatusGranted then client_event c (CbFloorGranted floorID requestID)
  else if status =? RequestStatusDenied then client_event c (CbFloorDenied floorID requestID)
  else if (status =? RequestStatusReleased) || (status =? RequestStatusRevoked) ||
          (status =? RequestStatusCancelled) then client_event c (CbFloorReleased floorID)
  else mret tt.

Definition notify_floor (c : nat) (info : FloorRequestInfo) (beneficiaryID status : Z)
    (fl : FloorRequestStatusInfo) : prog () :=
  own ← ownRequest c (fsFloorID fl) (fiFloorRequestID info) beneficiaryID;
  if own : bool then applyOwnStatus c (fsFloorID fl) (fiFloorRequestID info) status
  else client_event c (CbFloorStatus (fsFloorID fl) beneficiaryID status).

Definition notify_info (c : nat) (info : FloorRequestInfo) : prog () :=
  match FloorRequestInfo_Status info with
  | None => mret tt
  | Some status =>
      let beneficiaryID :=
        if negb (fiHasBeneficiary info) && fiHasRequestedBy info then fiRequestedByID info
        else fiBeneficiaryID info in
      for_each (fiFloors info) (notify_floor c info beneficiaryID status)
  end.

Definition handleNotification (c : nat) (msg : Message) : prog () :=
  infos ← lift (FloorRequestInfos msg);
  match infos with
  | [] =>
      if mPrimitive msg =? PrimitiveFloorStatus then
        floorID ← lift (GetFloorID msg);
        match floorID with
        | Some floorID => client_event c (CbFloorStatus floorID 0 RequestStatusReleased)
        | None => mret tt
        end
      else mret tt
  | _ => for_each infos (notify_info c)
  end.

(** [select { case respCh <- msg: default: }] on a channel of capacity 1. *)
Definition try_send (ch : nat) (msg : Message) : prog () :=
  atomic (λ w,
    match w_channels w !! ch with
    | None => Panic
    | Some (mkChan tx None) => Ok (tt, set_channels <[ch := mkChan tx (Some msg)]> w)
    | Some _ => Ok (tt, w)
    end).

Definition UDPClient_handleMessage (c : nat) (msg : Message) : prog () :=
  cl ← deref w_client_heap c;
  match ucPending cl !! mTransactionID msg with
  | Some ch => try_send ch msg
  | None =>
      if mPrimitive msg =? PrimitiveFloorRequestStatus then
        handleNotification c msg ;; ack c msg PrimitiveFloorRequestStatusAck
      else if mPrimitive msg =? PrimitiveFloorStatus then
        handleNotification c msg ;; ack c msg PrimitiveFloorStatusAck
      else if mPrimitive msg =? PrimitiveGoodbye then ack c msg PrimitiveGoodbyeAck
      else if mPrimitive msg =? PrimitiveError then
        let '(code, info) := responseError msg in client_event c (CbError code info)
      else mret tt
  end.

Definition HasFloor (c : nat) (floorID : Z) : prog bool :=
  cl ← deref w_client_heap c;
  mret (match ucActive cl !! floorID with
        | Some req => aStatus req =? RequestStatusGranted
        | None => false
        end).

(** A step on the client. *)
Definition upd_client {X} (c : nat) (f : UDPClient → X * UDPClient) : prog X :=
  atomic (λ w,
    match w_client_heap w !! c with
    | None => Panic
    | Some cl => let '(x, cl) := f cl in Ok (x, set_client_heap <[c := cl]> w)
    end).

(** [close(c.done)] panics when the channel is closed already. *)
Definition close_done (c : nat) : prog () :=
  atomic (λ w,
    match w_client_heap w !! c with
    | None => Panic
    | Some cl => if ucDone cl then Panic
                 else Ok (tt, set_client_heap <[c := with_done true cl]> w)
    end).

(** [Close] is idempotent: [closed.Swap(true)] lets one call through. *)
Definition UDPClient_Close (c : nat) : prog () :=
  '(was_closed, remote) ← upd_client c (λ cl, ((ucClosed cl, ucRemote cl), with_closed true cl));
  if was_closed : bool then mret tt
  else
    close_done c ;;
    modify (set_udp_clients (delete remote)).

Definition UDPClient_RemoteAddr (c : nat) : prog string :=
  cl ← deref w_client_heap c; mret (ucRemote cl).

(** ** Calls *)

Definition new_client (config : UDPClientConfig) (transport : nat) (remote : string) : UDPClient :=
  mkUDPClient (ccConferenceID config) (ccUserID config)
    (if ccVersion config =? 0 then ProtocolVersionRFC8855 else ccVersion config)
    (if ccT1 config <=? 0 then udpClientT1 else ccT1 config)
    (if ccMaxRetries config <=? 0 then udpClientMaxRetries else ccMaxRetries config)
    transport remote 0 false false ∅ ∅ (mkClientHooks false false false false false).

(** [listening]: the server has a UDP listener. *)
Definition NewUDPClient (listening : bool) (config : UDPClientConfig)
    : prog (nat + client_error) :=
  if negb listening then mret (inr ClientNoUDPListener)
  else match resolve (ccRemoteAddr config) with
  | None => mret (inr (ClientResolveFailed (ccRemoteAddr config)))
  | Some key =>
      transport ← getOrCreateTransport key;
      c ← atomic (λ w, Ok (length (w_client_heap w),
                           set_client_heap (λ l, l ++ [new_client config transport key]) w));
      modify (set_udp_clients <[key := c]>) ;;
      mret (inl c)
  end.

(** The application sets the callbacks of a client. *)
Definition set_client_hooks (c : nat) (h : ClientHooks) : prog () :=
  upd_client c (λ cl, (tt, with_hooks h cl)).

(** A new channel, registered for the transaction. *)
Definition open_pending (c : nat) (tx : Z) : prog nat :=
  atomic (λ w,
    match w_client_heap w !! c with
    | None => Panic
    | Some cl =>
        let ch := length (w_channels w) in
        Ok (ch, set_client_heap <[c := with_pending <[tx := ch]> cl]>
                  (set_channels (λ l, l ++ [mkChan tx None]) w))
    end).

Inductive wakeup := Response (msg : Message) | Done | TimeUp.

(** [select] on the response channel, on [done] and on the timer, which can always have
    expired: one of the cases that are ready. *)
Definition await (c ch : nat) : prog wakeup :=
  atomic (λ w,
    match w_client_heap w !! c, w_channels w !! ch with
    | Some cl, Some (mkChan tx buf) =>
        let ready := (match buf with Some msg => [Response msg] | None => [] end) ++
                     (if ucDone cl then [Done] else []) ++ [TimeUp] in
        let taken := default TimeUp (ready !! (chance (w_tick w) mod length ready)%nat) in
        Ok (taken, match taken with
                   | Response _ => tick (set_channels <[ch := mkChan tx None]> w)
                   | _ => tick w
                   end)
    | _, _ => Panic
    end).

(** The attempts that are left. *)
Fixpoint transact_loop (c ch : nat) (msg : Message) (attempts : nat)
    : prog (Message + client_error) :=
  match attempts with
  | O => cl ← deref w_client_heap c;
         mret (inr (NoResponse (mPrimitive msg) (ucRemote cl) (ucMaxRetries cl)))
  | S attempts =>
      sent ← UDPClient_send c msg;
      if negb sent then mret (inr (ClientSendFailed (mPrimitive msg)))
      else
        woken ← await c ch;
        match woken with
        | Response response => mret (inl response)
        | Done => mret (inr (ClosedWhileWaiting (mPrimitive msg)))
        | TimeUp => transact_loop c ch msg attempts
        end
  end.

Definition transact (c : nat) (msg : Message) : prog (Message + client_error) :=
  cl ← deref w_client_heap c;
  if ucClosed cl then mret (inr ClientClosed)
  else
    ch ← open_pending c (mTransactionID msg);
    result ← transact_loop c ch msg (Z.to_nat (ucMaxRetries cl));
    upd_client c (λ cl, (tt, with_pending (delete (mTransactionID msg)) cl)) ;;
    mret result.

Definition client_message (c : nat) (primitive : Z) : prog Message :=
  cl ← deref w_client_heap c;
  tx ← nextTransactionID c;
  mret (NewMessage primitive (ucConferenceID cl) tx (ucUserID cl)).

Definition client_hello_primitives : list Z :=
  [PrimitiveFloorRequest; PrimitiveFloorRelease; PrimitiveFloorRequestQuery;
   PrimitiveFloorRequestStatus; PrimitiveFloorQuery; PrimitiveFloorStatus; PrimitiveHello;
   PrimitiveHelloAck; PrimitiveError; PrimitiveFloorRequestStatusAck; PrimitiveFloorStatusAck;
   PrimitiveGoodbye; PrimitiveGoodbyeAck].

Definition client_hello_attributes : list Z :=
  [AttrBeneficiaryID; AttrFloorID; AttrFloorRequestID; AttrPriority; AttrRequestStatus;
   AttrErrorCode; AttrErrorInfo; AttrSupportedAttributes; AttrSupportedPrimitives;
   AttrBeneficiaryInfo; AttrFloorRequestInfo; AttrRequestedByInfo; AttrFloorRequestStatus;
   AttrOverallRequestStatus].

Definition error_response (msg : Message) : client_error :=
  let '(code, info) := responseError msg in ErrorResponse code info.

(** The results are nil or the error. *)
Definition UDPClient_Hello (c : nat) : prog (option client_error) :=
  msg ← client_message c PrimitiveHello;
  response ← transact c (AddSupportedAttributes client_hello_attributes
                           (AddSupportedPrimitives client_hello_primitives msg));
  mret match response with
       | inr e => Some e
       | inl response =>
           if mPrimitive response =? PrimitiveError then Some (error_response response)
           else if negb (mPrimitive response =? PrimitiveHelloAck) then
             Some (UnexpectedPrimitive PrimitiveHelloAck (mPrimitive response))
           else None
       end.

(** What a floor request does with the result of its transaction. *)
Definition finish_request (c : nat) (floorID : Z) (response : Message + client_error)
    : prog (Z + client_error) :=
  match response with
  | inr e => mret (inr e)
  | inl response =>
      if mPrimitive response =? PrimitiveError then mret (inr (error_response response))
      else if negb (mPrimitive response =? PrimitiveFloorRequestStatus) then
        mret (inr (UnexpectedPrimitive PrimitiveFloorRequestStatus (mPrimitive response)))
      else
        requestID ← lift (GetFloorRequestID response);
        match requestID with
        | None => mret (inr MissingFloorRequestID)
        | Some requestID =>
            status ← lift (GetRequestStatus response);
            match status with
            | None => mret (inr MissingRequestStatus)
            | Some (status, _) =>
                atomic (λ w,
                  match w_client_heap w !! c with
                  | None => Panic
                  | Some cl =>
                      let req := mkActive floorID requestID (ucUserID cl) 0 status
                                   (now (w_tick w)) 0 in
                      Ok (tt, tick (set_client_heap <[c := with_active <[floorID := req]> cl]> w))
                  end) ;;
                applyOwnStatus c floorID requestID status ;;
                mret (inl requestID)
            end
        end
  end.

Definition UDPClient_RequestFloor (c : nat) (floorID : Z) : prog (Z + client_error) :=
  msg ← client_message c PrimitiveFloorRequest;
  response ← transact c (AddFloorID floorID msg);
  finish_request c floorID response.

Definition UDPClient_ReleaseFloor (c : nat) (floorID : Z) : prog (option client_error) :=
  cl ← deref w_client_heap c;
  match ucActive cl !! floorID with
  | None => mret (Some (NoActiveRequest floorID))
  | Some req =>
      msg ← client_message c PrimitiveFloorRelease;
      response ← transact c (AddFloorRequestID (aFloorRequestID req) msg);
      match response with
      | inr e => mret (Some e)
      | inl response =>
          if mPrimitive response =? PrimitiveError then mret (Some (error_response response))
          else
            upd_client c (λ cl, (tt, with_active (delete floorID) cl)) ;;
            client_event c (CbFloorReleased floorID) ;;
            mret None
      end
  end.

(** A missing acknowledgement is not an error. *)
Definition UDPClient_Goodbye (c : nat) : prog (option client_error) :=
  msg ← client_message c PrimitiveGoodbye;
  transact c msg ;;
  mret None.

End UDPClient.
