(* ===== verification/Client.v ===== *)
(** * The TCP client ([client.go])

    Clients, the channels their calls wait on, and the programs of the calls and of the
    read loop.  The programs run over any world that contains a [ClientWorld], since the
    callbacks of a client are programs of its application ([Callbacks]): the virtual
    clients of [Virtual.v] are one. *)

From S2P Require Import Prelude Types Message Grouped Codec Framing FloorFSM Session Prog World Transport UDPClient.

(** ** State *)

(** [OnX != nil] and what it does. *)
Record Callbacks (W : Type) := mkCallbacks {
  OnConnected : option (gprog W ());
  OnDisconnected : option (gprog W ());
  OnGranted : option (Z → Z → gprog W ());
  OnDenied : option (Z → Z → Z → gprog W ());
  OnReleased : option (Z → gprog W ());
  OnRevoked : option (Z → gprog W ());
  OnStatus : option (Z → Z → gprog W ());
  OnErr : option (message_error + Z * bytes → gprog W ())
}.
Arguments mkCallbacks {W} _ _ _ _ _ _ _ _.
Arguments OnConnected {W} _.
Arguments OnDisconnected {W} _.
Arguments OnGranted {W} _.
Arguments OnDenied {W} _.
Arguments OnReleased {W} _.
Arguments OnRevoked {W} _.
Arguments OnStatus {W} _.
Arguments OnErr {W} _.

Record ClientConfig := mkClientConfig {
  ServerAddress : string;
  kConferenceID : Z;
  kUserID : Z;
  ConnectTimeout : Z;
  ConnectionRole : string
}.

(** 10 seconds *)
Definition DefaultClientConfig (serverAddr : string) (conferenceID userID : Z) : ClientConfig :=
  mkClientConfig serverAddr conferenceID userID (10 * 1000000000) "".

Record Client := mkClient {
  kConfig : ClientConfig;
  kTransport : option nat;
  kState : Z;
  kConnected : bool;
  kNextTxID : Z;
  kActive : gmap Z ActiveFloorRequest;
  kPending : gmap Z nat
}.

Definition new_tcp_client (config : option ClientConfig) : Client :=
  mkClient (default (DefaultClientConfig "localhost:5070" 1 1) config) None StateDisconnected
    false 0 ∅ ∅.

Definition with_ktransport (t : option nat) (k : Client) : Client :=
  mkClient (kConfig k) t (kState k) (kConnected k) (kNextTxID k) (kActive k) (kPending k).
Definition with_kstate (s : Z) (k : Client) : Client :=
  mkClient (kConfig k) (kTransport k) s (kConnected k) (kNextTxID k) (kActive k) (kPending k).
Definition with_connected (b : bool) (k : Client) : Client :=
  mkClient (kConfig k) (kTransport k) (kState k) b (kNextTxID k) (kActive k) (kPending k).
Definition with_knextTxID (v : Z) (k : Client) : Client :=
  mkClient (kConfig k) (kTransport k) (kState k) (kConnected k) v (kActive k) (kPending k).
Definition with_kactive (f : gmap Z ActiveFloorRequest → gmap Z ActiveFloorRequest) (k : Client)
    : Client :=
  mkClient (kConfig k) (kTransport k) (kState k) (kConnected k) (kNextTxID k) (f (kActive k))
    (kPending k).
Definition with_kpending (f : gmap Z nat → gmap Z nat) (k : Client) : Client :=
  mkClient (kConfig k) (kTransport k) (kState k) (kConnected k) (kNextTxID k) (kActive k)
    (f (kPending k)).

(** A channel of capacity 1; sending on a closed one panics. *)
Record RespChan := mkRespChan {
  rcBuf : option Message;
  rcClosed : bool
}.

(** The network with its clock, the clients and their channels. *)
Record ClientWorld := mkClientWorld {
  cNet : World;
  cClients : list Client;
  cChans : list RespChan
}.

Definition net : lens ClientWorld World :=
  mkLens cNet (λ n w, mkClientWorld n (cClients w) (cChans w)).
#[global] Instance net_laws : LensLaws net.
Proof. split; [done|by intros []|done]. Qed.

Definition set_clients (f : list Client → list Client) (w : ClientWorld) : ClientWorld :=
  mkClientWorld (cNet w) (f (cClients w)) (cChans w).
Definition set_chans (f : list RespChan → list RespChan) (w : ClientWorld) : ClientWorld :=
  mkClientWorld (cNet w) (cClients w) (f (cChans w)).

Inductive call_error :=
| AlreadyConnected
| DialFailed (address : string)
| NotConnected
| TransportNotInitialized
| SendFailed (e : send_error)
| ResponseTimeout (primitive : Z)
| WrongPrimitive (expected got : Z)
| RequestFailed (code : Z) (info : bytes)
| NoFloorRequestID
| NoRequestStatus
| NoRequestForFloor (floorID : Z).

(** [net.DialTimeout] at a tick of the clock: the remote address of the connection. *)
Class Dialer := { dial : nat → string → option string }.

(** ** Programs *)

Section Client.
Context {W : Type} (L : lens W ClientWorld) (app : nat → Callbacks W) {env : Env} {dialer : Dialer}.

Definition here {A} (p : gprog ClientWorld A) : gprog W A := zoom L p.
Definition on_net {A} (p : prog A) : gprog W A := zoom (lens_comp L net) p.

(** A step on client [c]. *)
Definition on_client {A} (c : nat) (f : Client → A * Client) : gprog W A :=
  here (atomic (λ w,
    match cClients w !! c with
    | None => Panic
    | Some k => let '(a, k) := f k in Ok (a, set_clients <[c := k]> w)
    end)).
Definition of_client {A} (c : nat) (f : Client → A) : gprog W A :=
  k ← here (deref cClients c); mret (f k).
(** And with the time at which it is taken. *)
Definition on_client_now (c : nat) (f : Time → Client → Client) : gprog W () :=
  here (atomic (λ w,
    match cClients w !! c with
    | None => Panic
    | Some k => Ok (tt, update net (tick (cNet w))
                          (set_clients <[c := f (now (w_tick (cNet w))) k]> w))
    end)).

Definition call_back {A} (f : option A) (k : A → gprog W ()) : gprog W () :=
  match f with Some f => k f | None => mret tt end.

Definition setState (c : nat) (state : Z) : gprog W () :=
  on_client c (λ k, (tt, with_kstate state k)).
Definition Client_GetState (c : nat) : gprog W Z := of_client c kState.
Definition IsConnected (c : nat) : gprog W bool := of_client c kConnected.
Definition GetActiveRequests (c : nat) : gprog W (gmap Z ActiveFloorRequest) := of_client c kActive.

Definition Client_nextTransactionID (c : nat) : gprog W Z :=
  on_client c (λ k, let v := u32 (kNextTxID k + 1) in (u16 v, with_knextTxID v k)).

Definition NewClient (config : option ClientConfig) : gprog W nat :=
  here (atomic (λ w, Ok (length (cClients w),
                         set_clients (λ l, l ++ [new_tcp_client config]) w))).

Definition Client_send (c : nat) (msg : Message) : gprog W (option call_error) :=
  transport ← of_client c kTransport;
  match transport with
  | None => mret (Some TransportNotInitialized)
  | Some t =>
      '(e, _) ← on_net (Transport_SendMessage t msg);
      mret (SendFailed <$> e)
  end.

(** *** Waiting for a response *)

Definition make_pending (c : nat) (tx : Z) : gprog W nat :=
  here (atomic (λ w,
    match cClients w !! c with
    | None => Panic
    | Some k =>
        let ch := length (cChans w) in
        Ok (ch, set_clients <[c := with_kpending <[tx := ch]> k]>
                  (set_chans (λ l, l ++ [mkRespChan None false]) w))
    end)).

(** [select] on the channel and on a timer that can always have expired. *)
Definition receive (ch : nat) : gprog W (option Message) :=
  here (atomic (λ w,
    match cChans w !! ch with
    | None => Panic
    | Some (mkRespChan buf closed) =>
        let ready := (match buf with Some msg => [Some msg] | None => [] end) ++ [None] in
        let taken := default None (ready !! (chance (w_tick (cNet w)) mod length ready)%nat) in
        let w := update net (tick (cNet w)) w in
        Ok (taken, match taken with
                   | Some _ => set_chans <[ch := mkRespChan None closed]> w
                   | None => w
                   end)
    end)).

Definition close_chan (ch : nat) : gprog W () :=
  here (atomic (λ w,
    match cChans w !! ch with
    | Some (mkRespChan buf false) => Ok (tt, set_chans <[ch := mkRespChan buf true]> w)
    | _ => Panic
    end)).

(** The deferred function of [sendAndWait]. *)
Definition forget (c ch : nat) (tx : Z) : gprog W () :=
  on_client c (λ k, (tt, with_kpending (delete tx) k)) ;;
  close_chan ch.

Definition sendAndWait (c : nat) (msg : Message) : gprog W (Message + call_error) :=
  ch ← make_pending c (mTransactionID msg);
  sent ← Client_send c msg;
  result ← (match sent with
            | Some e => mret (inr e)
            | None =>
                response ← receive ch;
                mret (match response with
                      | Some response => inl response
                      | None => inr (ResponseTimeout (mPrimitive msg))
                      end)
            end);
  forget c ch (mTransactionID msg) ;;
  mret result.

(** [select { case respChan <- msg: return; default: }]: whether it was sent. *)
Definition offer (ch : nat) (msg : Message) : gprog W bool :=
  here (atomic (λ w,
    match cChans w !! ch with
    | Some (mkRespChan buf false) =>
        match buf with
        | None => Ok (true, set_chans <[ch := mkRespChan (Some msg) false]> w)
        | Some _ => Ok (false, w)
        end
    | _ => Panic
    end)).

(** *** Received messages *)

Definition update_status (status : Z) (t : Time) (req : ActiveFloorRequest) : ActiveFloorRequest :=
  with_status status
    (if (status =? RequestStatusGranted) && (aGrantedAt req =? 0) then t else aGrantedAt req) req.

Definition handleFloorRequestStatus (c : nat) (msg : Message) : gprog W () :=
  floorID ← lift (GetFloorID msg);
  match floorID with
  | None => mret tt
  | Some floorID =>
      requestID ← lift (GetFloorRequestID msg);
      let requestID := default 0 requestID in
      status ← lift (GetRequestStatus msg);
      match status with
      | None => mret tt
      | Some (status, _) =>
          on_client_now c (λ t, with_kactive (alter (update_status status t) floorID)) ;;
          if status =? RequestStatusGranted then
            setState c StateFloorGranted ;;
            call_back (OnGranted (app c)) (λ f, f floorID requestID)
          else if status =? RequestStatusDenied then
            setState c StateFloorDenied ;;
            call_back (OnDenied (app c)) (λ f, f floorID requestID 0)
          else if status =? RequestStatusReleased then
            setState c StateFloorReleased ;;
            call_back (OnReleased (app c)) (λ f, f floorID)
          else if status =? RequestStatusRevoked then
            setState c StateFloorReleased ;;
            call_back (OnRevoked (app c)) (λ f, f floorID)
          else mret tt
      end
  end.

Definition handleFloorStatus (c : nat) (msg : Message) : gprog W () :=
  floorID ← lift (GetFloorID msg);
  match floorID with
  | None => mret tt
  | Some floorID =>
      status ← lift (GetRequestStatus msg);
      match status with
      | None => mret tt
      | Some (status, _) => call_back (OnStatus (app c)) (λ f, f floorID status)
      end
  end.

Definition handleError (c : nat) (msg : Message) : gprog W () :=
  call_back (OnErr (app c)) (λ f, f (inr (responseError msg))).

Definition Client_dispatch (c : nat) (msg : Message) : gprog W () :=
  if mPrimitive msg =? PrimitiveFloorRequestStatus then handleFloorRequestStatus c msg
  else if mPrimitive msg =? PrimitiveFloorStatus then handleFloorStatus c msg
  else if mPrimitive msg =? PrimitiveError then handleError c msg
  else mret tt.

Definition Client_handleMessage (c : nat) (msg : Message) : gprog W () :=
  pending ← of_client c kPending;
  match pending !! mTransactionID msg with
  | Some ch =>
      sent ← offer ch msg;
      if sent : bool then mret tt else Client_dispatch c msg
  | None => Client_dispatch c msg
  end.

(** *** Calls *)

Definition Client_message (c : nat) (primitive tx : Z) : gprog W Message :=
  config ← of_client c kConfig;
  mret (NewMessage primitive (kConferenceID config) tx (kUserID config)).

Definition tcp_hello_primitives : list Z :=
  [PrimitiveFloorRequest; PrimitiveFloorRelease; PrimitiveFloorRequestQuery;
   PrimitiveFloorRequestStatus; PrimitiveFloorStatus; PrimitiveHello; PrimitiveHelloAck;
   PrimitiveError; PrimitiveGoodbye; PrimitiveGoodbyeAck].

Definition tcp_hello_attributes : list Z :=
  [AttrBeneficiaryID; AttrFloorID; AttrFloorRequestID; AttrPriority; AttrRequestStatus;
   AttrErrorCode; AttrErrorInfo; AttrSupportedAttributes; AttrSupportedPrimitives].

(** [if !c.connected.Load() { return ... }] *)
Definition if_connected {A} (c : nat) (p : gprog W (A + call_error)) : gprog W (A + call_error) :=
  connected ← IsConnected c;
  if connected : bool then p else mret (inr NotConnected).

Definition Client_Hello (c : nat) : gprog W (() + call_error) :=
  if_connected c (
    tx ← Client_nextTransactionID c;
    msg ← Client_message c PrimitiveHello tx;
    response ← sendAndWait c (AddSupportedAttributes tcp_hello_attributes
                                (AddSupportedPrimitives tcp_hello_primitives msg));
    match response with
    | inr e => mret (inr e)
    | inl response =>
        if negb (mPrimitive response =? PrimitiveHelloAck) then
          mret (inr (WrongPrimitive PrimitiveHelloAck (mPrimitive response)))
        else
          setState c StateWaitFloorRequest ;;
          mret (inl tt)
    end).

(** What the response to a floor request says. *)
Definition read_response (response : Message) : call ((Z * Z) + call_error) :=
  if mPrimitive response =? PrimitiveError then
    let '(code, info) := responseError response in Ok (inr (RequestFailed code info))
  else if negb (mPrimitive response =? PrimitiveFloorRequestStatus) then
    Ok (inr (WrongPrimitive PrimitiveFloorRequestStatus (mPrimitive response)))
  else
    requestID ← GetFloorRequestID response;
    match requestID with
    | None => Ok (inr NoFloorRequestID)
    | Some requestID =>
        status ← GetRequestStatus response;
        match status with
        | None => Ok (inr NoRequestStatus)
        | Some (status, _) => Ok (inl (requestID, status))
        end
    end.

Definition granted_at (t : Time) (req : ActiveFloorRequest) : ActiveFloorRequest :=
  with_status (aStatus req) t req.

(** The request is recorded, and reported when it is granted already. *)
Definition record_request (c : nat) (floorID beneficiaryID priority requestID status : Z)
    : gprog W () :=
  on_client_now c (λ t, with_kactive <[floorID := mkActive floorID requestID beneficiaryID
                                                    priority status t 0]>) ;;
  if status =? RequestStatusGranted then
    setState c StateFloorGranted ;;
    on_client_now c (λ t, with_kactive (alter (granted_at t) floorID)) ;;
    call_back (OnGranted (app c)) (λ f, f floorID requestID)
  else if (status =? RequestStatusPending) || (status =? RequestStatusAccepted) then
    setState c StateFloorRequested
  else mret tt.

Definition floor_request (floorID beneficiaryID priority : Z) (msg : Message) : Message :=
  let msg := AddFloorID floorID msg in
  let msg := if 0 <? beneficiaryID then AddBeneficiaryID beneficiaryID msg else msg in
  if 0 <? priority then AddPriority priority msg else msg.

Definition Client_RequestFloor (c : nat) (floorID beneficiaryID priority : Z)
    : gprog W (Z + call_error) :=
  if_connected c (
    tx ← Client_nextTransactionID c;
    msg ← Client_message c PrimitiveFloorRequest tx;
    response ← sendAndWait c (floor_request floorID beneficiaryID priority msg);
    match response with
    | inr e => mret (inr e)
    | inl response =>
        outcome ← lift (read_response response);
        match outcome with
        | inr e => mret (inr e)
        | inl (requestID, status) =>
            record_request c floorID beneficiaryID priority requestID status ;;
            mret (inl requestID)
        end
    end).

Definition Client_ReleaseFloor (c : nat) (floorID : Z) : gprog W (() + call_error) :=
  if_connected c (
    active ← of_client c kActive;
    match active !! floorID with
    | None => mret (inr (NoRequestForFloor floorID))
    | Some req =>
        tx ← Client_nextTransactionID c;
        msg ← Client_message c PrimitiveFloorRelease tx;
        response ← sendAndWait c (AddFloorRequestID (aFloorRequestID req) (AddFloorID floorID msg));
        match response with
        | inr e => mret (inr e)
        | inl response =>
            if mPrimitive response =? PrimitiveError then
              let '(code, info) := responseError response in mret (inr (RequestFailed code info))
            else
              on_client c (λ k, (tt, with_kactive (delete floorID) k)) ;;
              setState c StateFloorReleased ;;
              call_back (OnReleased (app c)) (λ f, f floorID) ;;
              mret (inl tt)
        end
    end).

Definition QueryFloor (c : nat) (floorID : Z) : gprog W (Message + call_error) :=
  if_connected c (
    tx ← Client_nextTransactionID c;
    msg ← Client_message c PrimitiveFloorQuery tx;
    sendAndWait c (AddFloorID floorID msg)).

Definition Client_Goodbye (c : nat) : gprog W (() + call_error) :=
  if_connected c (
    tx ← Client_nextTransactionID c;
    msg ← Client_message c PrimitiveGoodbye tx;
    e ← Client_send c msg;
    mret (match e with Some e => inr e | None => inl tt end)).

(** Closing the socket itself is taken to succeed. *)
Definition Disconnect (c : nat) : gprog W () :=
  connected ← IsConnected c;
  when connected (
    Client_Goodbye c ;;
    transport ← of_client c kTransport;
    match transport with
    | Some t => on_net (Transport_Close t)
    | None => mret tt
    end).

(** *** The connection *)

(** A new connection to the address, with its [Transport]; there is none when a context
    that is given is done. *)
Definition open_connection (ctx : option (nat → bool)) (address : string) : gprog W (option nat) :=
  on_net (atomic (λ w,
    Ok (if default (λ _, false) ctx (w_tick w) then (None, tick w)
        else match dial (w_tick w) address with
        | None => (None, tick w)
        | Some remote =>
            (Some (length (w_transports w)),
             tick (set_transports (λ l, l ++ [with_context ctx (NewTransport remote RoleActive)]) w))
        end))).

Definition Dial (address : string) : gprog W (option nat) := open_connection None address.
Definition DialWithLogger (address : string) : gprog W (option nat) := open_connection None address.
Definition DialContext (ctx : nat → bool) (address : string) : gprog W (option nat) :=
  open_connection (Some ctx) address.

(** [connected] is set once the read loop has been started. *)
Definition Client_Connect (c : nat) : gprog W (() + call_error) :=
  connected ← IsConnected c;
  if connected : bool then mret (inr AlreadyConnected)
  else
    config ← of_client c kConfig;
    transport ← DialWithLogger (ServerAddress config);
    match transport with
    | None => mret (inr (DialFailed (ServerAddress config)))
    | Some t =>
        on_client c (λ k, (tt, with_ktransport (Some t) k)) ;;
        setState c StateConnected ;;
        on_net (Transport_Start t) ;;
        on_client c (λ k, (tt, with_connected true k)) ;;
        call_back (OnConnected (app c)) id ;;
        mret (inl tt)
    end.

(** [OnClose] of the transport of client [c]. *)
Definition closed_connection (c : nat) : gprog W () :=
  on_client c (λ k, (tt, with_connected false k)) ;;
  setState c StateDisconnected ;;
  call_back (OnDisconnected (app c)) id.

(** The messages of the read loop, up to the closing of the transport. *)
Fixpoint client_messages (c t : nat) (msgs : list Message) : gprog W () :=
  match msgs with
  | [] => mret tt
  | msg :: msgs =>
      closed ← on_net (Transport_IsClosed t);
      if closed : bool then mret tt
      else Client_handleMessage c msg ;; client_messages c t msgs
  end.

(** The read loop of transport [t] of client [c] on its connection; what cancels the
    context in between is looked at before every message. *)
Definition client_reader (c t : nat) (start : nat → round_start) (connection : conn) : gprog W () :=
  '(msgs, reason) ← lift (readLoop_rounds start connection);
  client_messages c t msgs ;;
  match reason with
  | Cancelled | ConnectionClosed => mret tt
  | DeadlineFailed => call_back (OnErr (app c)) (λ f, f (inl DeadlineError))
  | ReadFailed e =>
      closed ← on_net (Transport_IsClosed t);
      if closed : bool then mret tt
      else call_back (OnErr (app c)) (λ f, f (inl e))
  end ;;
  on_net (Transport_Close t) ;;
  closed_connection c.
End Client.
