(* ===== verification/Virtual.v ===== *)
(** * Virtual clients ([virtual/client.go], [virtual/callbacks.go])

    A virtual client owns a TCP client, gives it callbacks, and keeps its own account of
    requests and held floors under a mutex.  [RequestFloor] and [Connect] hold the mutex
    while they call the TCP client; the callbacks take it too. *)

From S2P Require Import Prelude Types Message Grouped Codec Framing FloorFSM Session Prog World Transport UDPClient Client.

(** ** State *)

Record FloorRequest := mkFloorRequest {
  vrRequestID : Z;
  vrFloorID : Z;
  vrStatus : Z;
  vrPriority : Z;
  vrQueuePosition : Z;
  vrRequestedAt : Time;
  vrInformation : string;
  vrBeneficiaryID : Z
}.

(** [vMu]: the mutex is held by a call that goes on. *)
Record VClient := mkVClient {
  vID : string;
  vUserID : Z;
  vConferenceID : Z;
  vServerAddr : string;
  vClient : option nat;
  vActive : gmap Z FloorRequest;
  vHeld : gmap Z Z;
  vRequestTimeout : Z;
  vClosed : bool;
  vConnected : bool;
  vMu : bool
}.

Definition with_vclient (k : option nat) (v : VClient) : VClient :=
  mkVClient (vID v) (vUserID v) (vConferenceID v) (vServerAddr v) k (vActive v) (vHeld v)
    (vRequestTimeout v) (vClosed v) (vConnected v) (vMu v).
Definition with_vactive (f : gmap Z FloorRequest → gmap Z FloorRequest) (v : VClient) : VClient :=
  mkVClient (vID v) (vUserID v) (vConferenceID v) (vServerAddr v) (vClient v) (f (vActive v))
    (vHeld v) (vRequestTimeout v) (vClosed v) (vConnected v) (vMu v).
Definition with_vheld (f : gmap Z Z → gmap Z Z) (v : VClient) : VClient :=
  mkVClient (vID v) (vUserID v) (vConferenceID v) (vServerAddr v) (vClient v) (vActive v)
    (f (vHeld v)) (vRequestTimeout v) (vClosed v) (vConnected v) (vMu v).
Definition with_vclosed (b : bool) (v : VClient) : VClient :=
  mkVClient (vID v) (vUserID v) (vConferenceID v) (vServerAddr v) (vClient v) (vActive v)
    (vHeld v) (vRequestTimeout v) b (vConnected v) (vMu v).
Definition with_vconnected (b : bool) (v : VClient) : VClient :=
  mkVClient (vID v) (vUserID v) (vConferenceID v) (vServerAddr v) (vClient v) (vActive v)
    (vHeld v) (vRequestTimeout v) (vClosed v) b (vMu v).
Definition with_vmu (b : bool) (v : VClient) : VClient :=
  mkVClient (vID v) (vUserID v) (vConferenceID v) (vServerAddr v) (vClient v) (vActive v)
    (vHeld v) (vRequestTimeout v) (vClosed v) (vConnected v) b.

(** The TCP clients and their network, the virtual clients, and for each TCP client the
    virtual client that its callbacks close over. *)
Record VWorld := mkVWorld {
  vwClients : ClientWorld;
  vwVirtual : list VClient;
  vwOwner : gmap nat nat
}.

Definition below : lens VWorld ClientWorld :=
  mkLens vwClients (λ w v, mkVWorld w (vwVirtual v) (vwOwner v)).
#[global] Instance below_laws : LensLaws below.
Proof. split; [done|by intros []|done]. Qed.

Definition set_virtual (f : list VClient → list VClient) (w : VWorld) : VWorld :=
  mkVWorld (vwClients w) (f (vwVirtual w)) (vwOwner w).
Definition set_owner (f : gmap nat nat → gmap nat nat) (w : VWorld) : VWorld :=
  mkVWorld (vwClients w) (vwVirtual w) (f (vwOwner w)).

(** The application's callbacks; [NoOpCallbacks] does nothing. *)
Record VCallbacks := mkVCallbacks {
  onFloorGranted : Z → Z → gprog VWorld ();
  onFloorDenied : Z → Z → Z → string → gprog VWorld ();
  onFloorRevoked : Z → Z → gprog VWorld ();
  onFloorReleased : Z → Z → gprog VWorld ();
  onQueuePositionChanged : Z → Z → Z → gprog VWorld ();
  onFloorStatusChanged : Z → Z → Z → gprog VWorld ();
  onConnected : gprog VWorld ();
  onDisconnected : gprog VWorld ();
  onReconnecting : Z → gprog VWorld ();
  onError : message_error + Z * bytes → gprog VWorld ()
}.

Definition NoOpCallbacks : VCallbacks :=
  let nop := mret tt in
  mkVCallbacks (λ _ _, nop) (λ _ _ _ _, nop) (λ _ _, nop) (λ _ _, nop) (λ _ _ _, nop)
    (λ _ _ _, nop) nop nop (λ _, nop) (λ _, nop).

Inductive virtual_error :=
| EmptyClientID
| EmptyServerAddr
| ErrClientNotConnected
| ErrClientClosed
| ErrInvalidFloorID
| ErrInvalidRequestID
| RequestNotFound
| FailedToConnect (e : call_error)
| FailedHandshake (e : call_error)
| FailedRequest (e : call_error)
| FailedRelease (e : call_error)
| ClientError (e : call_error).

(** [New]; the callbacks of the application are not part of the record. *)
Definition New (id serverAddr : string) (conferenceID userID timeout : Z)
    : VClient + virtual_error :=
  if decide (id = "") then inr EmptyClientID
  else if decide (serverAddr = "") then inr EmptyServerAddr
  else inl (mkVClient id userID conferenceID serverAddr None ∅ ∅
              (if timeout =? 0 then 30 * 1000000000 else timeout) false false false).

Definition V_ID (x : VClient) : string := vID x.
Definition V_UserID (x : VClient) : Z := vUserID x.
Definition V_ConferenceID (x : VClient) : Z := vConferenceID x.

(** The options of a request. *)
Record floorRequestOptions := mkOptions {
  optPriority : Z;
  optInformation : string;
  optBeneficiaryID : Z
}.
Inductive RequestOption :=
| WithPriority (p : Z)
| WithInformation (info : string)
| WithBeneficiary (userID : Z).
Definition apply_option (o : floorRequestOptions) (opt : RequestOption) : floorRequestOptions :=
  match opt with
  | WithPriority p => mkOptions p (optInformation o) (optBeneficiaryID o)
  | WithInformation info => mkOptions (optPriority o) info (optBeneficiaryID o)
  | WithBeneficiary userID => mkOptions (optPriority o) (optInformation o) userID
  end.
Definition request_options (opts : list RequestOption) : floorRequestOptions :=
  foldl apply_option (mkOptions PriorityNormal "" 0) opts.

Record ClientStatus := mkClientStatus {
  csID : string;
  csUserID : Z;
  csConnected : bool;
  csActiveFloors : list Z;
  csPendingRequests : list Z;
  csLastActivity : Time
}.

(** ** Programs *)

Section Virtual.
Context {env : Env} {dialer : Dialer} (vapp : nat → VCallbacks).

(** A step on virtual client [v]. *)
Definition on_virtual {A} (v : nat) (f : VClient → A * VClient) : gprog VWorld A :=
  atomic (λ w,
    match vwVirtual w !! v with
    | None => Panic
    | Some x => let '(a, x) := f x in Ok (a, set_virtual <[v := x]> w)
    end).

(** A critical section of its mutex.  While another call holds it the step cannot be
    taken: [Diverge]. *)
Definition under_mu {A} (v : nat) (f : VClient → A * VClient) : gprog VWorld A :=
  atomic (λ w,
    match vwVirtual w !! v with
    | None => Panic
    | Some x =>
        if vMu x then Diverge
        else let '(a, x) := f x in Ok (a, set_virtual <[v := x]> w)
    end).

(** And one that ranges over a map of the client, in some order. *)
Definition ranging {A} (v : nat) (f : (∀ {B}, list B → list B) → VClient → A) : gprog VWorld A :=
  atomic (λ w,
    match vwVirtual w !! v with
    | None => Panic
    | Some x =>
        if vMu x then Diverge
        else
          let n := cNet (vwClients w) in
          Ok (f (@range_order env (w_tick n)) x, update (lens_comp below net) (tick n) w)
    end).

Definition lock_mu (v : nat) : gprog VWorld () := under_mu v (λ x, (tt, with_vmu true x)).
Definition unlock_mu (v : nat) : gprog VWorld () := on_virtual v (λ x, (tt, with_vmu false x)).

(** *** The callbacks given to the TCP client *)

Definition set_granted (r : FloorRequest) : FloorRequest :=
  mkFloorRequest (vrRequestID r) (vrFloorID r) RequestStatusGranted (vrPriority r) 0
    (vrRequestedAt r) (vrInformation r) (vrBeneficiaryID r).

Definition on_connected (v : nat) : gprog VWorld () :=
  on_virtual v (λ x, (tt, with_vconnected true x)) ;;
  onConnected (vapp v).

Definition on_disconnected (v : nat) : gprog VWorld () :=
  wasConnected ← on_virtual v (λ x, (vConnected x, with_vconnected false x));
  when wasConnected (onDisconnected (vapp v)).

Definition on_granted (v : nat) (floorID requestID : Z) : gprog VWorld () :=
  under_mu v (λ x, (tt, with_vactive (alter set_granted requestID)
                          (with_vheld <[floorID := requestID]> x))) ;;
  onFloorGranted (vapp v) floorID requestID.

Definition on_denied (v : nat) (floorID requestID errorCode : Z) : gprog VWorld () :=
  under_mu v (λ x, (tt, with_vactive (delete requestID) x)) ;;
  onFloorDenied (vapp v) floorID requestID errorCode (ErrorCode_String errorCode).

(** The floor is not held any more, and neither is its request active: the request, if
    the floor was held. *)
Definition drop_held (v : nat) (floorID : Z) : gprog VWorld (option Z) :=
  under_mu v (λ x,
    match vHeld x !! floorID with
    | None => (None, x)
    | Some requestID =>
        (Some requestID, with_vactive (delete requestID) (with_vheld (delete floorID) x))
    end).

Definition on_revoked (v : nat) (floorID : Z) : gprog VWorld () :=
  held ← drop_held v floorID;
  match held with
  | Some requestID => onFloorRevoked (vapp v) floorID requestID
  | None => mret tt
  end.

Definition on_released (v : nat) (floorID : Z) : gprog VWorld () :=
  held ← drop_held v floorID;
  match held with
  | Some requestID => onFloorReleased (vapp v) floorID requestID
  | None => mret tt
  end.

(** The first request for the floor that the loop meets, 0 without one. *)
Definition on_status (v : nat) (floorID status : Z) : gprog VWorld () :=
  requestID ← ranging v (λ range x,
    default 0 (fst <$> head (filter (λ e, vrFloorID e.2 = floorID)
                              (range _ (map_to_list (vActive x))))));
  when (negb (requestID =? 0)) (onFloorStatusChanged (vapp v) floorID requestID status).

Definition on_error (v : nat) (e : message_error + Z * bytes) : gprog VWorld () :=
  onError (vapp v) e.

(** The virtual client that the callbacks of TCP client [k] close over. *)
Definition owner_of (k : nat) : gprog VWorld nat :=
  atomic (λ w, match vwOwner w !! k with Some v => Ok (v, w) | None => Panic end).

Definition virtual_callbacks (k : nat) : Callbacks VWorld :=
  mkCallbacks
    (Some (v ← owner_of k; on_connected v))
    (Some (v ← owner_of k; on_disconnected v))
    (Some (λ f r, v ← owner_of k; on_granted v f r))
    (Some (λ f r e, v ← owner_of k; on_denied v f r e))
    (Some (λ f, v ← owner_of k; on_released v f))
    (Some (λ f, v ← owner_of k; on_revoked v f))
    (Some (λ f s, v ← owner_of k; on_status v f s))
    (Some (λ e, v ← owner_of k; on_error v e)).

(** *** Calls *)

Definition V_Connect (v : nat) : gprog VWorld (option virtual_error) :=
  closed ← on_virtual v (λ x, (vClosed x, x));
  if closed : bool then mret (Some ErrClientClosed)
  else
    lock_mu v ;;
    config ← on_virtual v (λ x,
      (DefaultClientConfig (vServerAddr x) (vConferenceID x) (vUserID x), x));
    client ← NewClient below (Some config);
    modify (set_owner <[client := v]>) ;;
    on_virtual v (λ x, (tt, with_vclient (Some client) x)) ;;
    result ← (r ← Client_Connect below virtual_callbacks client;
              match r with
              | inr e => mret (Some (FailedToConnect e))
              | inl _ =>
                  r ← Client_Hello below client;
                  match r with
                  | inr e => Disconnect below client ;; mret (Some (FailedHandshake e))
                  | inl _ => mret None
                  end
              end);
    unlock_mu v ;;
    mret result.

Definition V_IsConnected (v : nat) : gprog VWorld bool := on_virtual v (λ x, (vConnected x, x)).

(** [c.client], dereferenced. *)
Definition the_client (v : nat) : gprog VWorld nat :=
  client ← on_virtual v (λ x, (vClient x, x));
  match client with Some k => mret k | None => lift Panic end.

(** The checks that every operation on floors starts with. *)
Definition if_usable {A} (v : nat) (p : gprog VWorld (A + virtual_error))
    : gprog VWorld (A + virtual_error) :=
  closed ← on_virtual v (λ x, (vClosed x, x));
  if closed : bool then mret (inr ErrClientClosed)
  else
    connected ← V_IsConnected v;
    if connected : bool then p else mret (inr ErrClientNotConnected).

Definition V_RequestFloor (v : nat) (floorID : Z) (opts : list RequestOption)
    : gprog VWorld (Z + virtual_error) :=
  if_usable v (
    if floorID =? 0 then mret (inr ErrInvalidFloorID)
    else
      let options := request_options opts in
      lock_mu v ;;
      client ← the_client v;
      r ← Client_RequestFloor below virtual_callbacks client floorID (optBeneficiaryID options)
            (optPriority options);
      result ← (match r with
                | inr e => mret (inr (FailedRequest e))
                | inl requestID =>
                    t ← gets (λ w, now (w_tick (cNet (vwClients w))));
                    on_virtual v (λ x, (tt, with_vactive
                      <[requestID := mkFloorRequest requestID floorID RequestStatusPending
                          (optPriority options) 0 t (optInformation options)
                          (optBeneficiaryID options)]> x)) ;;
                    mret (inl requestID)
                end);
      unlock_mu v ;;
      mret result).

Definition V_ReleaseFloor (v : nat) (requestID : Z) : gprog VWorld (() + virtual_error) :=
  if_usable v (
    if requestID =? 0 then mret (inr ErrInvalidRequestID)
    else
      req ← under_mu v (λ x, (vActive x !! requestID, x));
      match req with
      | None => mret (inr RequestNotFound)
      | Some req =>
          client ← the_client v;
          r ← Client_ReleaseFloor below virtual_callbacks client (vrFloorID req);
          mret (match r with inr e => inr (FailedRelease e) | inl _ => inl tt end)
      end).

(** The floors one after the other; the last error. *)
Fixpoint release_each (client : nat) (floorIDs : list Z) (lastErr : option call_error)
    : gprog VWorld (option call_error) :=
  match floorIDs with
  | [] => mret lastErr
  | floorID :: floorIDs =>
      r ← Client_ReleaseFloor below virtual_callbacks client floorID;
      release_each client floorIDs (match r with inr e => Some e | inl _ => lastErr end)
  end.

Definition ReleaseAllFloors (v : nat) : gprog VWorld (() + virtual_error) :=
  if_usable v (
    floorIDs ← ranging v (λ range x, range _ (map_to_list (vHeld x)).*1);
    match floorIDs with
    | [] => mret (inl tt)
    | _ =>
        client ← the_client v;
        lastErr ← release_each client floorIDs None;
        mret (match lastErr with Some e => inr (ClientError e) | None => inl tt end)
    end).

Definition GetStatus (v : nat) : gprog VWorld ClientStatus :=
  t ← gets (λ w, now (w_tick (cNet (vwClients w))));
  ranging v (λ range x,
    mkClientStatus (vID x) (vUserID x) (vConnected x)
      (range _ (map_to_list (vHeld x)).*1)
      (filter (λ e : Z * FloorRequest,
                 vrStatus e.2 = RequestStatusPending ∨ vrStatus e.2 = RequestStatusAccepted)
         (range _ (map_to_list (vActive x)))).*1 t).

(** The swap of [closed] lets one call through. *)
Definition V_Close (v : nat) : gprog VWorld () :=
  first ← on_virtual v (λ x, (negb (vClosed x), with_vclosed true x));
  when first (
    client ← under_mu v (λ x, (vClient x, x));
    match client with
    | None => mret tt
    | Some k =>
        ReleaseAllFloors v ;;
        Disconnect below k
    end).
End Virtual.
