(* ===== verification/Manager.v ===== *)
(** * The manager of virtual clients ([virtual/manager.go])

    The virtual clients of a conference by their ids, and the pool of their user ids.
    Every method is a few critical sections of the manager's mutex; [RemoveClient] and
    [RemoveAll] close clients, and return user ids to the pool, outside of it. *)

From S2P Require Import Prelude Types Message Codec Session Prog World Transport UDPClient Client Virtual UserIDPool.

Record Config := mkConfig {
  UserIDRangeStart : Z;
  UserIDRangeEnd : Z;
  ReconnectDelay : Z;
  RequestTimeout : Z;
  EnableMetrics : bool
}.

Definition second : Z := 1000000000.

Definition DefaultConfig : Config := mkConfig 100 1000 (5 * second) (30 * second) false.

(** [mReaders]: the calls that hold the mutex for reading and go on. *)
Record Manager := mkManager {
  mServerAddr : string;
  mConferenceID : Z;
  mClients : gmap string nat;
  mUserIDPool : UserIDPool;
  mConfig : Config;
  mReaders : nat
}.

Definition with_mclients (f : gmap string nat → gmap string nat) (m : Manager) : Manager :=
  mkManager (mServerAddr m) (mConferenceID m) (f (mClients m)) (mUserIDPool m) (mConfig m)
    (mReaders m).
Definition with_pool (f : UserIDPool → UserIDPool) (m : Manager) : Manager :=
  mkManager (mServerAddr m) (mConferenceID m) (mClients m) (f (mUserIDPool m)) (mConfig m)
    (mReaders m).
Definition with_readers (f : nat → nat) (m : Manager) : Manager :=
  mkManager (mServerAddr m) (mConferenceID m) (mClients m) (mUserIDPool m) (mConfig m)
    (f (mReaders m)).

(** The defaults that [NewManager] applies. *)
Definition checked_config (c : Config) : Config :=
  let start := if UserIDRangeStart c =? 0 then 100 else UserIDRangeStart c in
  let end_ := if UserIDRangeEnd c =? 0 then 1000 else UserIDRangeEnd c in
  let '(start, end_) := if end_ <? start then (100, 1000) else (start, end_) in
  mkConfig start end_ (ReconnectDelay c)
    (if RequestTimeout c =? 0 then 30 * second else RequestTimeout c) (EnableMetrics c).

Definition NewManager (serverAddr : string) (conferenceID : Z) (config : Config) : Manager :=
  let config := checked_config config in
  mkManager serverAddr conferenceID ∅
    (NewUserIDPool (UserIDRangeStart config) (UserIDRangeEnd config)) config 0.

Definition ServerAddr (m : Manager) : string := mServerAddr m.
Definition ConferenceID (m : Manager) : Z := mConferenceID m.

Record ClientInfo := mkClientInfo {
  ciID : string;
  ciUserID : Z;
  ciConnected : bool;
  ciActiveFloors : list Z
}.

Inductive manager_error :=
| EmptyID
| ErrClientAlreadyExists
| AllocateFailed (e : pool_error)
| OutsideConfiguredRange (userID start end_ : Z)
| UserIDInUse (userID : Z)
| CreateFailed (e : virtual_error)
| ClientNotFound (id : string).

(** An error of the pool as one of the manager. *)
Definition map_err {A} (f : pool_error → manager_error) (r : res pool_error A) : res manager_error A :=
  match r with Ok a => Ok a | Err e => Err (f e) | Panic => Panic | Diverge => Diverge end.

(** The manager, its clients and what is below them. *)
Record MWorld := mkMWorld {
  mwVirtual : VWorld;
  mwManager : Manager
}.

Definition virtuals : lens MWorld VWorld :=
  mkLens mwVirtual (λ v w, mkMWorld v (mwManager w)).
#[global] Instance virtuals_laws : LensLaws virtuals.
Proof. split; [done|by intros []|done]. Qed.

Definition set_manager (f : Manager → Manager) (w : MWorld) : MWorld :=
  mkMWorld (mwVirtual w) (f (mwManager w)).

Section Manager.
Context {env : Env} {dialer : Dialer} (vapp : nat → VCallbacks).

(** A critical section for writing.  It is not entered while there are readers, and does
    not end ([Diverge]) when a call in it does not. *)
Definition locked {A} (f : MWorld → call (A * MWorld)) : gprog MWorld A :=
  atomic (λ w, if decide (mReaders (mwManager w) = 0%nat) then f w else Diverge).

(** The clients, in the order of a [range]. *)
Definition ranged (w : MWorld) : list nat :=
  let n := cNet (vwClients (mwVirtual w)) in
  @range_order env (w_tick n) _ (map_to_list (mClients (mwManager w))).*2.
Definition ticked (w : MWorld) : MWorld :=
  update (lens_comp virtuals (lens_comp below net))
    (tick (cNet (vwClients (mwVirtual w)))) w.

(** A new client under the id, with the user id that [allocate] gives. *)
Definition create (id : string) (allocate : UserIDPool → res manager_error (Z * UserIDPool))
    : gprog MWorld (nat + manager_error) :=
  locked (λ w,
    let m := mwManager w in
    match mClients m !! id with
    | Some _ => Ok (inr ErrClientAlreadyExists, w)
    | None =>
        match allocate (mUserIDPool m) with
        | Ok (userID, pool) =>
            match New id (mServerAddr m) (mConferenceID m) userID (RequestTimeout (mConfig m)) with
            | inr e =>
                Ok (inr (CreateFailed e), set_manager (with_pool (λ _, Pool_Release userID pool)) w)
            | inl x =>
                let v := length (vwVirtual (mwVirtual w)) in
                Ok (inl v, update virtuals (set_virtual (λ l, l ++ [x]) (mwVirtual w))
                             (set_manager (λ m, with_mclients <[id := v]> (with_pool (λ _, pool) m)) w))
            end
        | Err e => Ok (inr e, w)
        | Panic => Panic
        | Diverge => Diverge
        end
    end).

Definition CreateClient (id : string) : gprog MWorld (nat + manager_error) :=
  if decide (id = "") then mret (inr EmptyID)
  else create id (λ pool, map_err AllocateFailed (Allocate pool)).

Definition CreateClientWithUserID (id : string) (userID : Z) : gprog MWorld (nat + manager_error) :=
  if decide (id = "") then mret (inr EmptyID)
  else
    config ← gets (λ w, mConfig (mwManager w));
    if (userID <? UserIDRangeStart config) || (UserIDRangeEnd config <? userID) then
      mret (inr (OutsideConfiguredRange userID (UserIDRangeStart config) (UserIDRangeEnd config)))
    else create id (λ pool, map_err (λ _, UserIDInUse userID)
                              (pool ← AllocateSpecific userID pool; Ok (userID, pool))).

Definition GetClient (id : string) : gprog MWorld (option nat) :=
  gets (λ w, mClients (mwManager w) !! id).

(** The client's user id goes back to the pool. *)
Definition return_id (v : nat) : gprog MWorld () :=
  userID ← zoom virtuals (on_virtual v (λ x, (V_UserID x, x)));
  modify (set_manager (with_pool (Pool_Release userID))).

Definition RemoveClient (id : string) : gprog MWorld (option manager_error) :=
  removed ← locked (λ w,
    match mClients (mwManager w) !! id with
    | None => Ok (None, w)
    | Some v => Ok (Some v, set_manager (with_mclients (delete id)) w)
    end);
  match removed with
  | None => mret (Some (ClientNotFound id))
  | Some v =>
      zoom virtuals (V_Close vapp v) ;;
      return_id v ;;
      mret None
  end.

Definition RemoveAll : gprog MWorld () :=
  clients ← locked (λ w, Ok (ranged w, set_manager (with_mclients (λ _, ∅)) (ticked w)));
  for_each clients (λ v,
    zoom virtuals (V_Close vapp v) ;;
    return_id v).

Fixpoint client_infos (clients : list nat) : gprog MWorld (list ClientInfo) :=
  match clients with
  | [] => mret []
  | v :: clients =>
      status ← zoom virtuals (GetStatus v);
      infos ← client_infos clients;
      mret (mkClientInfo (csID status) (csUserID status) (csConnected status) (csActiveFloors status)
              :: infos)
  end.

(** The mutex is held for reading, and each client's in turn. *)
Definition ListClients : gprog MWorld (list ClientInfo) :=
  clients ← atomic (λ w, Ok (ranged w, set_manager (with_readers S) (ticked w)));
  infos ← client_infos clients;
  modify (set_manager (with_readers pred)) ;;
  mret infos.

Definition Count : gprog MWorld nat := gets (λ w, size (mClients (mwManager w))).
Definition AvailableUserIDs : gprog MWorld Z := gets (λ w, Available (mUserIDPool (mwManager w))).
End Manager.
