(* ===== verification/Server.v ===== *)
(** * The server ([server.go])

    The server's floors and sessions and the whole of its message handlers, for
    sessions over UDP and over TCP, as programs over the shared world.  The order of
    the steps is the order of the code: every method call under a mutex, every
    atomic counter, every send and every callback is one step. *)

From S2P Require Import Prelude Types Message Grouped Codec FloorFSM Session Prog World Transport UDPClient.

Section Server.
Context {env : Env}.

(** ** Steps on the shared objects *)

(** A method call on a floor, recorded in the history. *)
Definition floor_call {X} (l : nat) (op : Time → floor_op)
    (f : Time → FloorStateMachine → X * FloorStateMachine) : prog X :=
  atomic (λ w,
    match w_floor_heap w !! l with
    | None => Panic
    | Some fsm =>
        let t := now (w_tick w) in
        let '(x, fsm) := f t fsm in
        Ok (x, tick (log_floor_op l (op t) (set_floor_heap <[l := fsm]> w)))
    end).

Definition floor_Request (l : nat) (userID requestID priority : Z) : prog (Z * option floor_error) :=
  floor_call l (λ _, OpRequest userID requestID priority)
    (λ _, Floor_Request userID requestID priority).
Definition floor_Grant (l : nat) : prog (option floor_error) := floor_call l OpGrant Floor_Grant.
Definition floor_Deny (l : nat) : prog (option floor_error) :=
  floor_call l (λ _, OpDeny) (λ _, Floor_Deny).
Definition floor_Release (l : nat) (userID : Z) : prog (option floor_error) :=
  floor_call l (λ _, OpRelease userID) (λ _, Floor_Release userID).

(** A getter of a floor. *)
Definition floor_get {X} (l : nat) (f : FloorStateMachine → X) : prog X :=
  fsm ← deref w_floor_heap l; mret (f fsm).

Definition upd_session (sess : nat) (f : Time → SessionStateMachine → SessionStateMachine)
    : prog () :=
  atomic (λ w,
    match w_session_heap w !! sess with
    | None => Panic
    | Some s =>
        Ok (tt, tick (set_session_heap <[sess := set_StateMachine (f (now (w_tick w))) s]> w))
    end).

Definition session_SetState (sess : nat) (state : Z) : prog () :=
  upd_session sess (Session_SetState state).

(** [s.nextTxID.Add(1)], truncated by the callers. *)
Definition nextTxID_Add : prog Z :=
  atomic (λ w, let v := u32 (w_nextTxID w + 1) in Ok (v, set_nextTxID (λ _, v) w)).

(** A map copied into a slice under the read lock, in the order of [range]. *)
Definition range_of `{Countable K} (m : World → gmap K nat) : prog (list nat) :=
  atomic (λ w, Ok (range_order (w_tick w) (snd <$> map_to_list (m w)), tick w)).

(** ** Floors *)

Definition CreateFloor (floorID : Z) : prog nat :=
  atomic (λ w,
    match w_floors w !! floorID with
    | Some l => Ok (l, w)
    | None =>
        let l := length (w_floor_heap w) in
        let fsm := NewFloorStateMachine floorID (cConferenceID config) (now (w_tick w)) in
        Ok (l, tick (set_floors <[floorID := l]> (set_floor_heap (λ h, h ++ [fsm]) w)))
    end).

Definition GetFloor (floorID : Z) : prog (option nat) := gets (λ w, w_floors w !! floorID).

(** The read lock only keeps floors from being added or removed meanwhile: the
    floors are looked at one after the other. *)
Fixpoint find_floor (test : nat → prog bool) (ls : list nat) : prog (option nat) :=
  match ls with
  | [] => mret None
  | l :: ls => b ← test l; if b : bool then mret (Some l) else find_floor test ls
  end.

Definition GetFloorByRequestID (requestID : Z) : prog (option nat) :=
  ls ← range_of w_floors;
  find_floor (λ l, id ← floor_get l Floor_GetFloorRequestID; mret (id =? requestID)) ls.

Definition floorOwnedBy (userID : Z) : prog (option nat) :=
  ls ← range_of w_floors;
  find_floor (λ l,
    available ← floor_get l Floor_IsAvailable;
    if available : bool then mret false
    else owner ← floor_get l Floor_GetOwner; mret (owner =? userID)) ls.

Definition ListFloors : prog (list nat) := range_of w_floors.

Definition ReleaseFloor (floorID : Z) : prog () := modify (set_floors (delete floorID)).

Inductive server_error :=
| FloorDoesNotExist (floorID : Z)
| FloorError (e : floor_error)
| NoUDPListener
| ResolveFailed (remoteAddr : string).

Definition GrantFloor (floorID userID : Z) : prog (option server_error) :=
  floor ← GetFloor floorID;
  match floor with
  | None => mret (Some (FloorDoesNotExist floorID))
  | Some l => e ← floor_Grant l; mret (FloorError <$> e)
  end.

(** ** Sending *)

Definition sendUDP (sess : nat) (msg : Message) : prog () :=
  s ← deref w_session_heap sess;
  match sUDPTransport s with
  | None => mret tt
  | Some t =>
      let msg := set_Version (Session_ProtocolVersion s) msg in
      let msg := if negb (mVersion msg =? ProtocolVersionRFC8855) then SetResponse false msg
                 else msg in
      '(e, msg) ← UDPTransport_SendMessage t msg;
      match e with
      | Some _ => UDPTransport_RemoteAddr t ;; mret tt
      | None =>
          when (OnMessageOut hooks) (
            remote ← UDPTransport_RemoteAddr t; message_out remote msg)
      end
  end.

Definition send (sess : nat) (msg : Message) : prog () :=
  s ← deref w_session_heap sess;
  match sUDPTransport s, sTransport s with
  | Some _, _ => sendUDP sess msg
  | None, None => mret tt
  | None, Some t =>
      let msg := set_Version (Session_ProtocolVersion s) msg in
      '(e, msg) ← Transport_SendMessage t msg;
      remote ← Transport_RemoteAddr t;
      match e with
      | Some _ => mret tt
      | None => message_out remote msg
      end
  end.

Definition sendUDPRaw (sess : nat) (data : bytes) : prog () :=
  s ← deref w_session_heap sess;
  match sUDPTransport s with
  | None => mret tt
  | Some t =>
      e ← UDPTransport_SendRawData t data;
      match e with
      | Some _ => UDPTransport_RemoteAddr t ;; mret tt
      | None => mret tt
      end
  end.

Definition sendRaw (sess : nat) (data : bytes) : prog () :=
  s ← deref w_session_heap sess;
  match sUDPTransport s, sTransport s with
  | Some t, _ =>
      e ← UDPTransport_SendRawData t data;
      match e with
      | Some _ =>
          closed ← UDPTransport_IsClosed t;
          if closed : bool then mret tt else UDPTransport_RemoteAddr t ;; mret tt
      | None => mret tt
      end
  | None, Some t =>
      e ← Transport_SendRawData t data;
      match e with
      | Some _ =>
          closed ← Transport_IsClosed t;
          if closed : bool then mret tt else Transport_RemoteAddr t ;; mret tt
      | None => mret tt
      end
  | None, None => mret tt
  end.

(** The address of the session's UDP transport, as the log calls read it. *)
Definition udp_remote (sess : nat) : prog string :=
  s ← deref w_session_heap sess;
  match sUDPTransport s with Some t => UDPTransport_RemoteAddr t | None => lift Panic end.
Definition tcp_remote (sess : nat) : prog string :=
  s ← deref w_session_heap sess;
  match sTransport s with Some t => Transport_RemoteAddr t | None => lift Panic end.

Definition status_response (req : Message) (floorID requestID status : Z) : Message :=
  AddFloorRequestInformationRFC4582 requestID status floorID
    (NewMessage PrimitiveFloorRequestStatus (mConferenceID req) (mTransactionID req) (mUserID req)).

Definition sendUDPFloorStatusResponse (sess : nat) (req : Message) (floorID requestID status : Z)
    : prog () :=
  let response :=
    NewMessage PrimitiveFloorRequestStatus (mConferenceID req) (mTransactionID req) (mUserID req) in
  let response := SetResponse true response in
  sendUDP sess (AddFloorRequestInformationRFC4582 requestID status floorID response).

Definition sendFloorStatus (sess : nat) (req : Message) (floorID requestID status : Z) : prog () :=
  send sess (status_response req floorID requestID status).

Definition add_error (errorCode : Z) (errorInfo : string) (response : Message) : Message :=
  let response := AddErrorCode errorCode response in
  if decide (errorInfo = "") then response else AddErrorInfo errorInfo response.

Definition sendUDPError (sess : nat) (req : Message) (errorCode : Z) (errorInfo : string)
    : prog () :=
  let response := NewMessage PrimitiveError (mConferenceID req) (mTransactionID req) (mUserID req) in
  sendUDP sess (add_error errorCode errorInfo (SetResponse true response)) ;;
  udp_remote sess ;; mret tt.

Definition sendError (sess : nat) (req : Message) (errorCode : Z) (errorInfo : string) : prog () :=
  let response := NewMessage PrimitiveError (mConferenceID req) (mTransactionID req) (mUserID req) in
  send sess (add_error errorCode errorInfo response) ;;
  tcp_remote sess ;; mret tt.

(** ** Broadcasts *)

Definition broadcastFloorStatusUDP (except : option nat) (userID floorID requestID status : Z)
    : prog () :=
  sessions ← range_of w_sessions;
  for_each sessions (λ session,
    s ← deref w_session_heap session;
    if bool_decide (Some session = except) || negb (bool_decide (is_Some (sUDPTransport s)))
    then mret tt
    else
      txID ← nextTxID_Add;
      let msg := NewMessage PrimitiveFloorRequestStatus (cConferenceID config) (u16 txID) userID in
      sendUDP session (AddFloorRequestInformationRFC4582 requestID status floorID msg)).

Definition broadcastFloorStatus (except : option nat) (userID floorID requestID status : Z)
    : prog () :=
  sessions ← range_of w_sessions;
  for_each sessions (λ session,
    if bool_decide (Some session = except) then mret tt
    else
      txID ← nextTxID_Add;
      let msg := NewMessage PrimitiveFloorRequestStatus (cConferenceID config) (u16 txID) userID in
      send session (AddFloorRequestInformationRFC4582 requestID status floorID msg)).

Definition BroadcastFloorStatus (userID floorID requestID status queuePos : Z) : prog () :=
  broadcastFloorStatus None userID floorID requestID status.

Definition sendFloorState (session : nat) (floorID status : Z) : prog () :=
  s ← deref w_session_heap session;
  txID ← (match sUDPTransport s with
          | Some _ => mret 0
          | None => v ← nextTxID_Add; mret (u16 v)
          end);
  let requestID := 1 in
  s ← deref w_session_heap session;
  let clientVersion := Session_ProtocolVersion s in
  sendRaw session
    (BuildFloorStatusMessage clientVersion (cConferenceID config) txID
       (ssmUserID (sStateMachine s)) floorID requestID status) ;;
  when (OnMessageOut hooks) (
    s ← deref w_session_heap session;
    remote ← (match sUDPTransport s, sTransport s with
              | Some t, _ => UDPTransport_RemoteAddr t
              | None, Some t => Transport_RemoteAddr t
              | None, None => mret ""
              end);
    emit (MessageOut remote (Primitive_String PrimitiveFloorStatus) clientVersion txID
            (cConferenceID config) (ssmUserID (sStateMachine s)) floorID)).

Definition broadcastFloorState (floorID beneficiaryID status : Z) : prog () :=
  sessions ← range_of w_sessions;
  for_each sessions (λ session, sendFloorState session floorID status).

(** The exported name. *)
Definition BroadcastFloorState (floorID beneficiaryID status : Z) : prog () :=
  broadcastFloorState floorID beneficiaryID status.

(** ** Hello *)

Definition hello_primitives : list Z :=
  [PrimitiveFloorRequest; PrimitiveFloorRelease; PrimitiveFloorRequestStatus;
   PrimitiveFloorStatus; PrimitiveHello; PrimitiveHelloAck; PrimitiveError; PrimitiveGoodbye;
   PrimitiveGoodbyeAck].

Definition hello_attributes : list Z :=
  [AttrBeneficiaryID; AttrFloorID; AttrFloorRequestID; AttrPriority; AttrRequestStatus;
   AttrErrorCode; AttrErrorInfo; AttrSupportedAttributes; AttrSupportedPrimitives;
   AttrUserDisplayName; AttrUserURI; AttrBeneficiaryInfo; AttrFloorRequestInfo;
   AttrRequestedByInfo; AttrFloorRequestStatus; AttrOverallRequestStatus;
   AttrParticipantProvidedInfo; AttrStatusInfo].

(** The client's supported primitives and attributes, where it sent them. *)
Definition store_supported (sess : nat) (msg : Message) : prog () :=
  match GetAttribute AttrSupportedPrimitives msg with
  | Some attr => upd_session sess (λ _, SetSupportedPrimitives (aValue attr))
  | None => mret tt
  end ;;
  match GetAttribute AttrSupportedAttributes msg with
  | Some attr => upd_session sess (λ _, SetSupportedAttributes (aValue attr))
  | None => mret tt
  end.

Definition hello_ack (msg : Message) : Message :=
  NewMessage PrimitiveHelloAck (mConferenceID msg) (mTransactionID msg) (mUserID msg).

Definition add_supported (response : Message) : Message :=
  AddSupportedAttributes hello_attributes (AddSupportedPrimitives hello_primitives response).

(** Whether the address was registered before. *)
Definition register_session (remoteAddr : string) (sess : nat) : prog bool :=
  atomic (λ w, Ok (bool_decide (is_Some (w_sessions w !! remoteAddr)),
                   set_sessions <[remoteAddr := sess]> w)).

Definition handleUDPHello (sess : nat) (msg : Message) : prog () :=
  upd_session sess (λ _, set_identity (mConferenceID msg) (mUserID msg)) ;;
  remoteAddr ← udp_remote sess;
  alreadyRegistered ← register_session remoteAddr sess;
  store_supported sess msg ;;
  sendUDP sess (add_supported (SetResponse true (hello_ack msg))) ;;
  session_SetState sess StateWaitFloorRequest ;;
  when (negb alreadyRegistered && OnClientConnect hooks)
    (emit (ClientConnect remoteAddr (mUserID msg))).

(** 30 seconds *)
Definition keepalive_interval : Z := 30 * 1000000000.

Definition handleHello (sess : nat) (msg : Message) : prog () :=
  upd_session sess (λ _, set_identity (mConferenceID msg) (mUserID msg)) ;;
  remoteAddr ← tcp_remote sess;
  register_session remoteAddr sess ;;
  store_supported sess msg ;;
  send sess (add_supported (hello_ack msg)) ;;
  session_SetState sess StateWaitFloorRequest ;;
  s ← deref w_session_heap sess;
  match sTransport s with
  | None => lift Panic
  | Some t =>
      EnableKeepalive t keepalive_interval (mConferenceID msg, mUserID msg) ;;
      StartKeepalive t ;;
      when (OnClientConnect hooks)
        (remote ← Transport_RemoteAddr t; emit (ClientConnect remote (mUserID msg)))
  end.

(** The sender that the handler gives to the transport, on its conference and user. *)
Definition keepalive_sender (t : nat) (sender : Z * Z) : prog () :=
  txID ← nextTxID_Add;
  Transport_SendMessage t (NewMessage PrimitiveHello sender.1 (u16 txID) sender.2) ;;
  mret tt.

(** The [select] of the keepalive goroutine: whether it ends because the context is done,
    which it may leave for later when its ticker has fired as well. *)
Definition keepalive_cancelled (t : nat) (ticked : bool) : prog bool :=
  atomic (λ w,
    match w_transports w !! t with
    | None => Panic
    | Some tr => Ok (context_done (w_tick w) tr && (negb ticked || (chance (w_tick w) =? 0)%nat),
                     tick w)
    end).

(** The sender that the transport has: calling a nil function panics. *)
Definition keepalive_send (t : nat) : prog () :=
  tr ← deref w_transports t;
  match tKeepalive tr with
  | None => lift Panic
  | Some sender => keepalive_sender t sender
  end.

(** The goroutine, each time that it wakes up: whether its ticker has fired. *)
Fixpoint keepalive_wakes (t : nat) (wakes : list bool) : prog () :=
  match wakes with
  | [] => mret tt
  | ticked :: wakes =>
      cancelled ← keepalive_cancelled t ticked;
      if cancelled : bool then keepalive_end t
      else if ticked then
        closed ← Transport_IsClosed t;
        if closed : bool then keepalive_end t
        else keepalive_send t ;; keepalive_wakes t wakes
      else keepalive_wakes t wakes
  end.

(** A ticker needs a positive interval. *)
Definition keepaliveLoop (t : nat) (wakes : list bool) : prog () :=
  tr ← deref w_transports t;
  if tKeepaliveInterval tr <=? 0 then lift Panic else keepalive_wakes t wakes.

(** ** FloorRequest *)

Definition request_priority (msg : Message) : Z :=
  match attr_value2 AttrPriority msg with
  | Some (hi :: lo :: _) => Z.lor (Z.shiftl hi 8) lo
  | _ => PriorityNormal
  end.

(** The floor of a request, created when it does not exist. *)
Definition request_floor (floorID : Z) : prog nat :=
  floor ← GetFloor floorID;
  match floor with Some l => mret l | None => CreateFloor floorID end.

(** [shouldGrant]: the callback decides where it is set. *)
Definition ask_grant (floorID userID requestID : Z) : prog bool :=
  match OnFloorRequest hooks with
  | Some decide_request =>
      emit (AskedFloorRequest floorID userID requestID) ;;
      mret (decide_request floorID userID requestID)
  | None => mret (AutoGrant config)
  end.

Definition handleUDPFloorRequest (sess : nat) (msg : Message) : prog () :=
  floorID ← lift (GetFloorID msg);
  match floorID with
  | None => sendUDPError sess msg ErrorInvalidFloorID "No floor ID in request"
  | Some floorID =>
      floor ← request_floor floorID;
      txID ← nextTxID_Add;
      let requestID := u16 txID in
      let user := mUserID msg in
      shouldGrant ← ask_grant floorID user requestID;
      '(status, err) ← floor_Request floor user requestID (request_priority msg);
      match err with
      | Some e =>
          sendUDPError sess msg ErrorUnauthorizedOperation (floor_error_text e) ;;
          when (OnFloorDenied hooks) (emit (FloorDenied floorID user requestID))
      | None =>
          granted ← (if shouldGrant && (status =? RequestStatusPending) then
                       e ← floor_Grant floor; mret (no_error e)
                     else mret false);
          if granted : bool then
            sendUDPFloorStatusResponse sess msg floorID requestID RequestStatusGranted ;;
            session_SetState sess StateFloorGranted ;;
            when (OnFloorGranted hooks) (emit (FloorGranted floorID user requestID))
          else
            denied ← (if negb shouldGrant && (status =? RequestStatusPending) then
                        e ← floor_Deny floor; mret (no_error e)
                      else mret false);
            if denied : bool then
              sendUDPFloorStatusResponse sess msg floorID requestID RequestStatusDenied ;;
              session_SetState sess StateFloorDenied ;;
              when (OnFloorDenied hooks) (emit (FloorDenied floorID user requestID))
            else
              sendUDPFloorStatusResponse sess msg floorID requestID status ;;
              session_SetState sess StateFloorRequested
      end
  end.

(** [time.Sleep]: other goroutines run. *)
Definition sleep : prog () := gets (λ _, tt).

Definition handleFloorRequest (sess : nat) (msg : Message) : prog () :=
  floorID ← lift (GetFloorID msg);
  match floorID with
  | None => sendError sess msg ErrorInvalidFloorID "No floor ID in request"
  | Some floorID =>
      floor ← request_floor floorID;
      txID ← nextTxID_Add;
      let requestID := u16 txID in
      let user := mUserID msg in
      shouldGrant ← ask_grant floorID user requestID;
      '(status, err) ← floor_Request floor user requestID (request_priority msg);
      match err with
      | Some e =>
          sendError sess msg ErrorUnauthorizedOperation (floor_error_text e) ;;
          when (OnFloorDenied hooks) (emit (FloorDenied floorID user requestID))
      | None =>
          sendFloorStatus sess msg floorID requestID status ;;
          if shouldGrant && (status =? RequestStatusPending) then
            sleep ;;
            e ← floor_Grant floor;
            when (no_error e) (
              sendFloorStatus sess msg floorID requestID RequestStatusGranted ;;
              session_SetState sess StateFloorGranted ;;
              when (OnFloorGranted hooks) (emit (FloorGranted floorID user requestID)))
          else if negb shouldGrant && (status =? RequestStatusPending) then
            e ← floor_Deny floor;
            when (no_error e) (
              sendFloorStatus sess msg floorID requestID RequestStatusDenied ;;
              session_SetState sess StateFloorDenied ;;
              when (OnFloorDenied hooks) (emit (FloorDenied floorID user requestID)))
          else session_SetState sess StateFloorRequested
      end
  end.

(** ** FloorRelease *)

(** What the floor lookup of a release finds. *)
Inductive release_target :=
| ReleaseOf (floor : nat) (floorID : Z)
| ReleaseError (code : Z) (info : string).

Definition floor_missing (floorID : Z) : string := "Floor " +:+ pretty floorID +:+ " does not exist".

Definition release_lookup (msg : Message) : prog release_target :=
  fid ← lift (GetFloorID msg);
  match fid with
  | Some floorID =>
      f ← GetFloor floorID;
      match f with
      | None => mret (ReleaseError ErrorInvalidFloorID (floor_missing floorID))
      | Some l => mret (ReleaseOf l floorID)
      end
  | None =>
      rid ← lift (GetFloorRequestID msg);
      match rid with
      | None =>
          mret (ReleaseError ErrorUnknownMandatoryAttribute "Missing FLOOR-REQUEST-ID attribute")
      | Some reqID =>
          f ← GetFloorByRequestID reqID;
          match f with
          | Some l => id ← floor_get l fFloorID; mret (ReleaseOf l id)
          | None =>
              f ← floorOwnedBy (mUserID msg);
              match f with
              | None =>
                  mret (ReleaseError ErrorFloorRequestIDDoesNotExist
                          ("FloorRequestID " +:+ pretty reqID +:+ " does not exist"))
              | Some l =>
                  floor_get l Floor_GetFloorRequestID ;;
                  id ← floor_get l fFloorID; mret (ReleaseOf l id)
              end
          end
      end
  end.

Definition handleUDPFloorRelease (sess : nat) (msg : Message) : prog () :=
  target ← release_lookup msg;
  match target with
  | ReleaseError code info => sendUDPError sess msg code info
  | ReleaseOf floor floorID =>
      rid ← lift (GetFloorRequestID msg);
      let requestID := default 0 rid in
      err ← floor_Release floor (mUserID msg);
      match err with
      | Some e => sendUDPError sess msg ErrorFloorReleaseDenied (floor_error_text e)
      | None =>
          sendUDPFloorStatusResponse sess msg floorID requestID RequestStatusReleased ;;
          session_SetState sess StateFloorReleased ;;
          when (OnFloorReleased hooks) (emit (FloorReleased floorID (mUserID msg))) ;;
          broadcastFloorStatusUDP (Some sess) (mUserID msg) floorID requestID RequestStatusReleased
      end
  end.

Definition handleFloorRelease (sess : nat) (msg : Message) : prog () :=
  target ← release_lookup msg;
  match target with
  | ReleaseError code info => sendError sess msg code info
  | ReleaseOf floor floorID =>
      rid ← lift (GetFloorRequestID msg);
      let requestID := default 0 rid in
      err ← floor_Release floor (mUserID msg);
      match err with
      | Some e => sendError sess msg ErrorFloorReleaseDenied (floor_error_text e)
      | None =>
          sendFloorStatus sess msg floorID requestID RequestStatusReleased ;;
          session_SetState sess StateFloorReleased ;;
          when (OnFloorReleased hooks) (emit (FloorReleased floorID (mUserID msg))) ;;
          broadcastFloorStatus (Some sess) (mUserID msg) floorID requestID RequestStatusReleased
      end
  end.

(** ** FloorQuery *)

Definition query_response (msg : Message) : Message :=
  NewMessage PrimitiveFloorStatus (mConferenceID msg) (mTransactionID msg) (mUserID msg).

Definition add_floor_state (floorID : Z) (floor : nat) (response : Message) : prog Message :=
  let response := AddFloorID floorID response in
  requestID ← floor_get floor Floor_GetFloorRequestID;
  let response := AddFloorRequestID requestID response in
  state ← floor_get floor Floor_GetState;
  mret (AddRequestStatus state 0 response).

Definition handleUDPFloorQuery (sess : nat) (msg : Message) : prog () :=
  fid ← lift (GetFloorID msg);
  match fid with
  | None => sendUDPError sess msg ErrorUnknownMandatoryAttribute "Missing FLOOR-ID attribute"
  | Some floorID =>
      floor ← GetFloor floorID;
      match floor with
      | None => sendUDPError sess msg ErrorInvalidFloorID (floor_missing floorID)
      | Some l =>
          response ← add_floor_state floorID l (SetResponse true (query_response msg));
          sendUDP sess response
      end
  end.

Definition handleFloorQuery (sess : nat) (msg : Message) : prog () :=
  fid ← lift (GetFloorID msg);
  match fid with
  | None => sendError sess msg ErrorUnknownMandatoryAttribute "Missing FLOOR-ID attribute"
  | Some floorID =>
      floor ← GetFloor floorID;
      match floor with
      | None => sendError sess msg ErrorInvalidFloorID (floor_missing floorID)
      | Some l =>
          response ← add_floor_state floorID l (query_response msg);
          send sess response
      end
  end.

(** ** Goodbye *)

(** The floors owned by the user, collected under the read lock. *)
Fixpoint floors_owned (userID : Z) (ls : list nat) : prog (list nat) :=
  match ls with
  | [] => mret []
  | l :: ls =>
      owner ← floor_get l Floor_GetOwner;
      rest ← floors_owned userID ls;
      mret (if owner =? userID then l :: rest else rest)
  end.

(** The loop that releases them; the request id is read after the release. *)
Definition release_owned (broadcast : Z → Z → prog ()) (userID : Z) (floor : nat) : prog () :=
  err ← floor_Release floor userID;
  match err with
  | Some _ => mret tt
  | None =>
      requestID ← floor_get floor Floor_GetFloorRequestID;
      floorID ← floor_get floor fFloorID;
      broadcast floorID requestID ;;
      when (OnFloorReleased hooks) (emit (FloorReleased floorID userID))
  end.

Definition handleUDPGoodbye (sess : nat) (msg : Message) : prog () :=
  ls ← range_of w_floors;
  floors ← floors_owned (mUserID msg) ls;
  for_each floors
    (release_owned
       (λ floorID requestID,
          broadcastFloorStatusUDP (Some sess) (mUserID msg) floorID requestID RequestStatusReleased)
       (mUserID msg)) ;;
  udp_remote sess ;; mret tt.

Definition handleGoodbye (sess : nat) (msg : Message) : prog () :=
  ls ← range_of w_floors;
  floors ← floors_owned (mUserID msg) ls;
  for_each floors
    (release_owned
       (λ floorID requestID,
          broadcastFloorStatus (Some sess) (mUserID msg) floorID requestID RequestStatusReleased)
       (mUserID msg)) ;;
  send sess (NewMessage PrimitiveGoodbyeAck (mConferenceID msg) (mTransactionID msg) (mUserID msg)) ;;
  session_SetState sess StateDisconnected ;;
  s ← deref w_session_heap sess;
  match sTransport s with Some t => Transport_Close t | None => lift Panic end.

(** ** Dispatch *)

(** The two switches on the primitive; the acknowledgements, errors and unknown
    primitives at their end are only logged. *)
Definition udp_dispatch (sess : nat) (msg : Message) : prog () :=
  if mPrimitive msg =? PrimitiveHello then handleUDPHello sess msg
  else if mPrimitive msg =? PrimitiveFloorRequest then handleUDPFloorRequest sess msg
  else if mPrimitive msg =? PrimitiveFloorRelease then handleUDPFloorRelease sess msg
  else if mPrimitive msg =? PrimitiveFloorQuery then handleUDPFloorQuery sess msg
  else if mPrimitive msg =? PrimitiveGoodbye then handleUDPGoodbye sess msg
  else mret tt.

Definition tcp_dispatch (sess : nat) (msg : Message) : prog () :=
  if mPrimitive msg =? PrimitiveHello then handleHello sess msg
  else if mPrimitive msg =? PrimitiveFloorRequest then handleFloorRequest sess msg
  else if mPrimitive msg =? PrimitiveFloorRelease then handleFloorRelease sess msg
  else if mPrimitive msg =? PrimitiveFloorQuery then handleFloorQuery sess msg
  else if mPrimitive msg =? PrimitiveGoodbye then handleGoodbye sess msg
  else mret tt.

Definition Session_handleUDPMessage (sess : nat) (msg : Message) : prog () :=
  upd_session sess UpdateActivity ;;
  upd_session sess (λ _, set_ClientVersion (mVersion msg)) ;;
  s ← deref w_session_heap sess;
  remoteAddr ← (match sUDPTransport s with
                | Some t => UDPTransport_RemoteAddr t
                | None => mret ""
                end);
  message_in remoteAddr msg ;;
  udp_dispatch sess msg.

Definition handleMessage (sess : nat) (msg : Message) : prog () :=
  upd_session sess UpdateActivity ;;
  upd_session sess (λ _, set_ClientVersion (mVersion msg)) ;;
  remoteAddr ← tcp_remote sess;
  message_in remoteAddr msg ;;
  tcp_dispatch sess msg.

(** ** Entry points *)

(** A new session, not registered in [s.sessions]. *)
Definition alloc_session (tcp udp : option nat) (userID : Z) (remoteAddr : string) : prog nat :=
  atomic (λ w,
    let ssm := NewSessionStateMachine (u16 (cConferenceID config)) userID remoteAddr
                 (now (w_tick w)) in
    Ok (length (w_session_heap w),
        tick (set_session_heap (λ l, l ++ [mkSession tcp udp ssm]) w))).

(** A datagram from [transport], decoded by the listener. *)
Definition handleUDPMessage (transport : nat) (msg : Message) : prog () :=
  remoteAddr ← UDPTransport_RemoteAddr transport;
  client ← gets (λ w, w_udp_clients w !! remoteAddr);
  match client with
  | Some c => message_in remoteAddr msg ;; UDPClient_handleMessage c msg
  | None =>
      found ← gets (λ w, w_sessions w !! remoteAddr);
      session ← (match found with
                 | Some session => mret session
                 | None => alloc_session None (Some transport) 0 remoteAddr
                 end);
      Session_handleUDPMessage session msg
  end.

(** What the UDP listener does with one datagram. *)
Definition udp_datagram (remoteAddr : string) (data : bytes) : prog () :=
  match Decode data with
  | Ok msg => transport ← getOrCreateTransport remoteAddr; handleUDPMessage transport msg
  | Err _ => mret tt
  | Panic => lift Panic
  | Diverge => lift Diverge
  end.

(** A session for a new TCP connection; the transport's callbacks refer to it. *)
Definition handleConnection (transport : nat) : prog nat :=
  remoteAddr ← Transport_RemoteAddr transport;
  alloc_session (Some transport) None 0 remoteAddr.

(** [OnClose] of a TCP transport. *)
Definition on_close (sess : nat) (remoteAddr : string) : prog () :=
  modify (set_sessions (delete remoteAddr)) ;;
  s ← deref w_session_heap sess;
  when (OnClientDisconnect hooks) (emit (ClientDisconnect remoteAddr (ssmUserID (sStateMachine s)))).

(** The read loop of a TCP transport on the messages it reads: the context is
    cancelled when the transport is closed, and is looked at before every read. *)
Fixpoint connection_loop (sess transport : nat) (msgs : list Message) : prog () :=
  match msgs with
  | [] => mret tt
  | msg :: msgs =>
      closed ← Transport_IsClosed transport;
      if closed : bool then mret tt
      else handleMessage sess msg ;; connection_loop sess transport msgs
  end.

Definition serve_connection (transport : nat) (msgs : list Message) : prog () :=
  sess ← handleConnection transport;
  remoteAddr ← Transport_RemoteAddr transport;
  Transport_Start transport ;;
  connection_loop sess transport msgs ;;
  Transport_Close transport ;;
  on_close sess remoteAddr.

(** The session of [RegisterClient], which keeps the one that exists. *)
Definition register_client_session (key : string) (transport : nat) (userID version : Z)
    : prog nat :=
  atomic (λ w,
    match w_sessions w !! key with
    | Some session => Ok (session, w)
    | None =>
        let ssm := set_ClientVersion version
                     (NewSessionStateMachine (u16 (cConferenceID config)) userID key (now (w_tick w))) in
        let session := length (w_session_heap w) in
        Ok (session, tick (set_sessions <[key := session]>
                             (set_session_heap (λ l, l ++ [mkSession None (Some transport) ssm]) w)))
    end).

(** [listening]: the server has a UDP listener. *)
Definition RegisterClient (listening : bool) (remoteAddr : string) (userID floorID version : Z)
    : prog (option server_error) :=
  if negb listening then mret (Some NoUDPListener)
  else match resolve remoteAddr with
  | None => mret (Some (ResolveFailed remoteAddr))
  | Some key =>
      transport ← getOrCreateTransport key;
      session ← register_client_session key transport userID version;
      floor ← GetFloor floorID;
      status ← (match floor with
                | Some l => floor_get l Floor_GetState
                | None => mret RequestStatusReleased
                end);
      sendFloorState session floorID status ;;
      mret None
  end.

(** The TCP transports of the registered sessions are closed. *)
Definition close_sessions : prog () :=
  sessions ← range_of w_sessions;
  for_each sessions (λ session,
    s ← deref w_session_heap session;
    match sTransport s with Some t => Transport_Close t | None => mret tt end).
End Server.
