(* ===== verification/Listener.v ===== *)
(** * Listeners ([transport.go]: [Listener], [UDPListener]; [server.go]: [Listen] to [Addr])

    Binding an address or the first port of a range that can be bound, the loops that
    accept connections and read datagrams, and closing the server.  What the sockets do
    is the environment's: [bind], and the events that a loop observes. *)

From S2P Require Import Prelude Types Message Codec Session Prog World Transport UDPClient Server.

(** ** State *)

(** [liContext]: as in [Transport]; a context can be given to [ListenContext]. *)
Record Listener := mkListener {
  liAddr : string;
  liContext : option (nat → bool);
  liClosed : bool
}.
Definition close_listener (l : Listener) : Listener := mkListener (liAddr l) (liContext l) true.

(** Its transports by remote address are in the world of the server. *)
Record UDPListener := mkUDPListener { ulAddr : string; ulClosed : bool }.

(** The server with its listeners, and the transports for which [OnConnection] was
    started, in order. *)
Record ServerWorld := mkServerWorld {
  swServer : World;
  swListener : option Listener;
  swUDPListener : option UDPListener;
  swAccepted : list nat
}.

Definition server : lens ServerWorld World :=
  mkLens swServer (λ n w, mkServerWorld n (swListener w) (swUDPListener w) (swAccepted w)).
#[global] Instance server_laws : LensLaws server.
Proof. split; [done|by intros []|done]. Qed.

Definition set_listener (f : option Listener → option Listener) (w : ServerWorld) : ServerWorld :=
  mkServerWorld (swServer w) (f (swListener w)) (swUDPListener w) (swAccepted w).
Definition set_udp_listener (f : option UDPListener → option UDPListener) (w : ServerWorld)
    : ServerWorld :=
  mkServerWorld (swServer w) (swListener w) (f (swUDPListener w)) (swAccepted w).
Definition set_accepted (f : list nat → list nat) (w : ServerWorld) : ServerWorld :=
  mkServerWorld (swServer w) (swListener w) (swUDPListener w) (f (swAccepted w)).

Inductive listen_error :=
| ResolveAddressFailed (address : string)
| ListenFailed (address : string)
| NoAvailablePort (network : TransportType) (portMin portMax : Z) (last : option listen_error).

(** [net.Listen] and [net.ListenUDP] at a tick of the clock: the bound address. *)
Class Binder := { bind : nat → TransportType → string → option string }.

(** ** Binding *)

Section Listening.
Context {env : Env} {binder : Binder}.

Definition on_server {A} (p : prog A) : gprog ServerWorld A := zoom server p.

(** What comes of listening on an address: a UDP address is resolved first. *)
Definition opened (t : nat) (network : TransportType) (address : string) : string + listen_error :=
  match network with
  | TransportTCP =>
      match bind t network address with Some a => inl a | None => inr (ListenFailed address) end
  | TransportUDP =>
      match resolve address with
      | None => inr (ResolveAddressFailed address)
      | Some addr =>
          match bind t network addr with Some a => inl a | None => inr (ListenFailed address) end
      end
  end.

Definition net_listen (network : TransportType) (address : string)
    : gprog ServerWorld (string + listen_error) :=
  atomic (λ w, let n := swServer w in
               Ok (opened (w_tick n) network address, update server (tick n) w)).

Definition Listen (address : string) : gprog ServerWorld (Listener + listen_error) :=
  r ← net_listen TransportTCP address;
  mret (match r with inl a => inl (mkListener a None false) | inr e => inr e end).

(** The context is the caller's: closing the listener does not cancel it. *)
Definition ListenContext (ctx : nat → bool) (address : string)
    : gprog ServerWorld (Listener + listen_error) :=
  r ← net_listen TransportTCP address;
  mret (match r with inl a => inl (mkListener a (Some ctx) false) | inr e => inr e end).

Definition ListenUDP (address : string) : gprog ServerWorld (UDPListener + listen_error) :=
  r ← net_listen TransportUDP address;
  mret (match r with inl a => inl (mkUDPListener a false) | inr e => inr e end).

(** [fmt.Sprintf("%s:%d", ip, port)] *)
Definition host_port (ip : string) (port : Z) : string := ip +:+ ":" +:+ pretty port.

(** [for port := portMin; port < portMax; port++], with the error of the last port. *)
Fixpoint first_port {A} (listen : string → gprog ServerWorld (A + listen_error)) (ports : nat)
    (ip : string) (port : Z) (lastErr : option listen_error)
    : gprog ServerWorld (A + option listen_error) :=
  match ports with
  | O => mret (inr lastErr)
  | S ports =>
      r ← listen (host_port ip port);
      match r with
      | inl l => mret (inl l)
      | inr e => first_port listen ports ip (port + 1) (Some e)
      end
  end.

Definition port_range {A} (network : TransportType)
    (listen : string → gprog ServerWorld (A + listen_error)) (ip : string) (portMin portMax : Z)
    : gprog ServerWorld (A + listen_error) :=
  r ← first_port listen (Z.to_nat (portMax - portMin)) ip portMin None;
  mret (match r with inl l => inl l | inr e => inr (NoAvailablePort network portMin portMax e) end).

Definition ListenPortRange (ip : string) (portMin portMax : Z)
    : gprog ServerWorld (Listener + listen_error) := port_range TransportTCP Listen ip portMin portMax.
Definition ListenUDPPortRange (ip : string) (portMin portMax : Z)
    : gprog ServerWorld (UDPListener + listen_error) :=
  port_range TransportUDP ListenUDP ip portMin portMax.

(** [strings.HasSuffix] with what [strings.TrimSuffix] leaves. *)
Definition trim_suffix (suffix s : string) : option string :=
  let n := (String.length s - String.length suffix)%nat in
  if (String.length suffix <=? String.length s)%nat
     && bool_decide (String.substring n (String.length suffix) s = suffix)
  then Some (String.substring 0 n s) else None.

(** The host of an address that leaves the port to a configured range. *)
Definition range_host : option string :=
  if (0 <? PortMin config) && (0 <? PortMax config) then trim_suffix ":0" (Address config) else None.

Definition listenTCP : gprog ServerWorld (option listen_error) :=
  r ← (match range_host with
       | Some ip => ListenPortRange ip (PortMin config) (PortMax config)
       | None => Listen (Address config)
       end);
  match r with
  | inr e => mret (Some e)
  | inl l => modify (set_listener (λ _, Some l)) ;; mret None
  end.

Definition listenUDP : gprog ServerWorld (option listen_error) :=
  r ← (match range_host with
       | Some ip => ListenUDPPortRange ip (PortMin config) (PortMax config)
       | None => ListenUDP (Address config)
       end);
  match r with
  | inr e => mret (Some e)
  | inl l => modify (set_udp_listener (λ _, Some l)) ;; mret None
  end.

Definition Server_Listen : gprog ServerWorld (option listen_error) :=
  match cTransport config with TransportUDP => listenUDP | TransportTCP => listenTCP end.

Definition Listener_Addr (l : Listener) : string := liAddr l.
Definition UDPListener_Addr (l : UDPListener) : string := ulAddr l.

Definition Server_Addr : gprog ServerWorld (option string) :=
  gets (λ w, match swListener w, swUDPListener w with
             | Some l, _ => Some (Listener_Addr l)
             | None, Some l => Some (UDPListener_Addr l)
             | None, None => None
             end).

(** ** Accepting connections and reading datagrams *)

Definition Listener_IsClosed : gprog ServerWorld bool :=
  atomic (λ w, match swListener w with Some l => Ok (liClosed l, w) | None => Panic end).
Definition UDPListener_IsClosed : gprog ServerWorld bool :=
  atomic (λ w, match swUDPListener w with Some l => Ok (ulClosed l, w) | None => Panic end).

Inductive accept_event :=
| Accepted (remote : string)
| AcceptTimeout
| AcceptFailed.

(** A passive transport on the connection, and [OnConnection] in a goroutine. *)
Definition start_connection (remote : string) : gprog ServerWorld () :=
  modify (λ w,
    let n := swServer w in
    set_accepted (λ l, l ++ [length (w_transports n)])
      (update server (set_transports (λ l, l ++ [NewTransport remote RolePassive]) n) w)).

(** [<-l.ctx.Done()] is ready: the listener's own context is cancelled by [Close]. *)
Definition listener_done : gprog ServerWorld bool :=
  atomic (λ w, match swListener w with
               | Some l => Ok (default (λ _, liClosed l) (liContext l) (w_tick (swServer w)), w)
               | None => Panic
               end).

(** The result: an error was reported. *)
Fixpoint acceptLoop (events : list accept_event) : gprog ServerWorld bool :=
  match events with
  | [] => mret false
  | e :: events =>
      done ← listener_done;
      if done : bool then mret false
      else match e with
      | Accepted remote => start_connection remote ;; acceptLoop events
      | AcceptTimeout => acceptLoop events
      | AcceptFailed => closed ← Listener_IsClosed; mret (negb closed)
      end
  end.

(** The goroutine of the [n]-th accepted connection. *)
Definition connection (n : nat) (msgs : list Message) : gprog ServerWorld () :=
  t ← atomic (λ w, match swAccepted w !! n with Some t => Ok (t, w) | None => Diverge end);
  on_server (serve_connection t msgs).

Inductive read_event :=
| Datagram (remote : string) (data : bytes)
| ReadTimeout
| ReadFailed
| DeadlineFailed.

Fixpoint UDPListener_readLoop (events : list read_event) : gprog ServerWorld bool :=
  match events with
  | [] => mret false
  | e :: events =>
      done ← UDPListener_IsClosed;
      if done : bool then mret false
      else match e with
      | Datagram remote data => on_server (udp_datagram remote data) ;; UDPListener_readLoop events
      | ReadTimeout => UDPListener_readLoop events
      | ReadFailed => closed ← UDPListener_IsClosed; mret (negb closed)
      | DeadlineFailed => mret true
      end
  end.

(** The goroutines that are started. *)
Definition Listener_Start (accepts : list accept_event) : list (gprog ServerWorld bool) :=
  [acceptLoop accepts].
Definition UDPListener_Start (reads : list read_event) : list (gprog ServerWorld bool) :=
  [UDPListener_readLoop reads].

Definition Serve (w : ServerWorld) (accepts : list accept_event) (reads : list read_event)
    : list (gprog ServerWorld bool) :=
  (if swListener w then Listener_Start accepts else []) ++
  (if swUDPListener w then UDPListener_Start reads else []).

(** It returns when listening fails, and otherwise blocks for ever beside the goroutines
    it has started. *)
Definition ListenAndServe (accepts : list accept_event) (reads : list read_event)
    : gprog ServerWorld (list (gprog ServerWorld bool) + listen_error) :=
  err ← Server_Listen;
  match err with
  | Some e => mret (inr e)
  | None => w ← gets id; mret (inl (Serve w accepts reads))
  end.

(** ** Closing *)

Definition Listener_Close : gprog ServerWorld () :=
  modify (set_listener (fmap close_listener)).

(** The map is emptied under the mutex of the listener, which every other access to it
    takes; the transports have mutexes of their own. *)
Definition UDPListener_Close : gprog ServerWorld () :=
  transports ← atomic (λ w,
    match swUDPListener w with
    | None => Panic
    | Some l =>
        if ulClosed l then Ok ([], w)
        else
          let n := swServer w in
          Ok (range_order (w_tick n) (map_to_list (w_udp_sessions n)).*2,
              update server (set_udp_sessions (λ _, ∅) (tick n))
                (set_udp_listener (λ _, Some (mkUDPListener (ulAddr l) true)) w))
    end);
  for_each transports (λ t, on_server (UDPTransport_Close t)).

Definition Server_Close : gprog ServerWorld () :=
  on_server close_sessions ;;
  listener ← gets swListener;
  match listener with
  | Some _ => Listener_Close
  | None =>
      udp ← gets swUDPListener;
      match udp with Some _ => UDPListener_Close | None => mret tt end
  end.
End Listening.
