(* ===== verification/Examples.v ===== *)
(** * The sample programs ([examples/])

    A server with two floors, a client with a command line and a conference of virtual
    clients: programs that call the library as an application does.  A program runs on a
    world of the library with a terminal; what it prints is a list of lines, each a value
    with the arguments of its [Printf]. *)

From S2P Require Import Prelude Types Message Text Grouped Codec Framing FloorFSM Session UserIDPool Prog World Transport UDPClient Client Virtual Manager Server Listener.

Record Terminal (W L : Type) := mkTerminal {
  tmWorld : W;
  tmOutput : list L
}.
Arguments mkTerminal {W L} _ _.
Arguments tmWorld {W L} _.
Arguments tmOutput {W L} _.

Definition beneath {W L} : lens (Terminal W L) W :=
  mkLens tmWorld (λ w t, mkTerminal w (tmOutput t)).
#[global] Instance beneath_laws {W L} : LensLaws (@beneath W L).
Proof. split; [done|by intros []|done]. Qed.

(** [log.Printf] *)
Definition say {W L} (l : L) : gprog (Terminal W L) () :=
  modify (λ t, mkTerminal (tmWorld t) (tmOutput t ++ [l])).

(** [time.Sleep]: the other goroutines run. *)
Definition Sleep {W L} : gprog (Terminal W L) () := gets (λ _, tt).

(** ** The server ([server_example.go]) *)

Module SampleServer.

Definition sample_server_config : ServerConfig :=
  let config := DefaultServerConfig ":5070" 1 in
  mkServerConfig (Address config) (PortMin config) (PortMax config) (cConferenceID config) true 5
    (SessionTimeout config) (cTransport config).

Inductive server_line :=
| RequestReceived (floorID userID requestID : Z)
| AutoGranting (floorID userID : Z)
| FloorBusy (floorID userID : Z)
| Granting (floorID userID : Z)
| ShuttingDown
| Starting (address : string) (conferenceID : Z)
| ServerError (e : listen_error).

Section Server.
Context {env : Env} {binder : Binder}.

Abbreviation sample := (gprog (Terminal ServerWorld server_line)).
Definition serverCall {A} (p : prog A) : sample A := zoom beneath (on_server p).

(** Its callback [OnFloorRequest]. *)
Definition sample_OnFloorRequest (floorID userID requestID : Z) : sample bool :=
  say (RequestReceived floorID userID requestID) ;;
  if floorID =? 1 then
    say (AutoGranting floorID userID) ;;
    mret true
  else
    floor ← serverCall (GetFloor floorID);
    available ← (match floor with
                 | Some l => serverCall (floor_get l Floor_IsAvailable)
                 | None => mret false
                 end);
    if negb available then
      say (FloorBusy floorID userID) ;;
      mret false
    else
      say (Granting floorID userID) ;;
      mret true.

(** The goroutine that waits for a signal; the program then exits. *)
Definition server_shutdown : sample () :=
  say ShuttingDown ;;
  zoom beneath Server_Close.

Definition server_example (accepts : list accept_event) (reads : list read_event)
    : sample (list (gprog ServerWorld bool)) :=
  serverCall (CreateFloor 1) ;;
  serverCall (CreateFloor 2) ;;
  say (Starting (Address World.config) (cConferenceID World.config)) ;;
  r ← zoom beneath (ListenAndServe accepts reads);
  match r with
  | inl threads => mret threads
  | inr e => say (ServerError e) ;; mret []
  end.
End Server.
End SampleServer.

(** ** The client ([client_example.go]) *)

Module SampleClient.

Inductive client_line :=
| Connected
| Disconnected
| FloorGranted (floorID requestID : Z)
| FloorDenied (floorID requestID errorCode : Z)
| FloorReleased (floorID : Z)
| FloorRevoked (floorID : Z)
| FloorStatus (floorID status : Z)
| ClientError (e : message_error + Z * bytes)
| Connecting (address : string) (conferenceID userID : Z)
| ConnectFailed (e : call_error)
| SendingHello
| HelloFailed (e : call_error)
| Ready
| Prompt
| Usage (cmd : string)
| InvalidFloorID (e : parse_error)
| Requesting (floorID : Z)
| RequestError (e : call_error)
| Submitted (requestID : Z)
| Releasing (floorID : Z)
| ReleaseError (e : call_error)
| Released (floorID : Z)
| Querying (floorID : Z)
| QueryError (e : call_error)
| FloorInfo (floorID status requestID : Z)
| NoActiveRequests
| ActiveRequests
| ActiveRequest (floorID requestID status priority : Z) (grantedAt : option Time)
| Disconnecting
| Goodbye
| UnknownCommand (cmd : bytes)
| ScannerError.

Section Client.
Context {env : Env} {dialer : Dialer}.

Abbreviation sample := (gprog (Terminal ClientWorld client_line)).

Definition sample_callbacks : Callbacks (Terminal ClientWorld client_line) :=
  mkCallbacks
    (Some (say Connected))
    (Some (say Disconnected))
    (Some (λ floorID requestID, say (FloorGranted floorID requestID)))
    (Some (λ floorID requestID errorCode, say (FloorDenied floorID requestID errorCode)))
    (Some (λ floorID, say (FloorReleased floorID)))
    (Some (λ floorID, say (FloorRevoked floorID)))
    (Some (λ floorID status, say (FloorStatus floorID status)))
    (Some (λ e, say (ClientError e))).

Definition sample_app (_ : nat) : Callbacks (Terminal ClientWorld client_line) := sample_callbacks.

(** The floor of a command, its one argument. *)
Definition with_floor (cmd : string) (args : list bytes) (body : Z → sample ()) : sample () :=
  match args with
  | [] => say (Usage cmd)
  | arg :: _ =>
      match ParseUint arg with
      | inr e => say (InvalidFloorID e)
      | inl floorID => body floorID
      end
  end.

Definition do_request (c : nat) (floorID : Z) : sample () :=
  say (Requesting floorID) ;;
  r ← Client_RequestFloor beneath sample_app c floorID 0 PriorityNormal;
  match r with
  | inr e => say (RequestError e)
  | inl requestID => say (Submitted requestID)
  end.

Definition do_release (c : nat) (floorID : Z) : sample () :=
  say (Releasing floorID) ;;
  r ← Client_ReleaseFloor beneath sample_app c floorID;
  match r with
  | inr e => say (ReleaseError e)
  | inl _ => say (Released floorID)
  end.

(** What the answer does not say is printed as zero. *)
Definition do_query (c : nat) (floorID : Z) : sample () :=
  say (Querying floorID) ;;
  r ← QueryFloor beneath c floorID;
  match r with
  | inr e => say (QueryError e)
  | inl response =>
      status ← lift (GetRequestStatus response);
      reqID ← lift (GetFloorRequestID response);
      say (FloorInfo floorID (default 0 (fst <$> status)) (default 0 reqID))
  end.

(** The order of the requests is that of a [range]. *)
Definition do_status (c : nat) : sample () :=
  activeReqs ← GetActiveRequests beneath c;
  if decide (activeReqs = ∅) then say NoActiveRequests
  else
    say ActiveRequests ;;
    tick ← gets (λ t, w_tick (cNet (tmWorld t)));
    for_each (range_order tick (map_to_list activeReqs)) (λ '(floorID, req),
      say (ActiveRequest floorID (aFloorRequestID req) (aStatus req) (aPriority req)
             (if aGrantedAt req =? 0 then None else Some (aGrantedAt req)))).

(** One line of input: whether the loop goes on. *)
Definition command (c : nat) (text : bytes) : sample bool :=
  let line := TrimSpace text in
  if decide (line = []) then mret true
  else match Fields line with
  | [] => lift Panic
  | cmd :: args =>
      if decide (cmd = string_bytes "request") then
        with_floor "request" args (do_request c) ;; mret true
      else if decide (cmd = string_bytes "release") then
        with_floor "release" args (do_release c) ;; mret true
      else if decide (cmd = string_bytes "query") then
        with_floor "query" args (do_query c) ;; mret true
      else if decide (cmd = string_bytes "status") then
        do_status c ;; mret true
      else if bool_decide (cmd = string_bytes "quit") || bool_decide (cmd = string_bytes "exit") then
        say Disconnecting ;;
        Disconnect beneath c ;;
        say Goodbye ;;
        mret false
      else say (UnknownCommand cmd) ;; mret true
  end.

(** The lines of the standard input, and whether reading them failed in the end. *)
Fixpoint command_loop (c : nat) (input : list bytes) (failed : bool) : sample () :=
  say Prompt ;;
  match input with
  | [] => when failed (say ScannerError)
  | text :: input =>
      go ← command c text;
      when go (command_loop c input failed)
  end.

Definition sample_client_config : ClientConfig := DefaultClientConfig "localhost:5070" 1 100.

Definition client_example (input : list bytes) (failed : bool) : sample () :=
  c ← NewClient beneath (Some sample_client_config);
  say (Connecting (ServerAddress sample_client_config) (kConferenceID sample_client_config)
         (kUserID sample_client_config)) ;;
  r ← Client_Connect beneath sample_app c;
  match r with
  | inr e => say (ConnectFailed e)
  | inl _ =>
      Sleep ;;
      say SendingHello ;;
      r ← Client_Hello beneath c;
      match r with
      | inr e => say (HelloFailed e)
      | inl _ => say Ready ;; command_loop c input failed
      end
  end.
End Client.
End SampleClient.

(** ** The virtual clients ([virtual_client/main.go])

    Its callbacks only log, as do those of [NoOpCallbacks]; between the calls the program
    sleeps, and the read loops of its clients run. *)

Module SampleConference.

Definition conference_config : Config :=
  let config := DefaultConfig in
  mkConfig 100 200 (ReconnectDelay config) (30 * second) (EnableMetrics config).

Inductive conference_line :=
| CreatedManager (conferenceID : Z) (serverAddr : string)
| UserIDs (first last available : Z)
| CreateFailed (e : manager_error)
| Created (id : string) (userID : Z)
| ConnectFailed (e : virtual_error)
| RequestingFloor
| RequestFailed (e : virtual_error)
| RequestSent (requestID : Z)
| Status (connected : bool) (activeFloors pendingRequests : list Z)
| Holding
| ReleasingFloor
| ReleaseFailed (e : virtual_error)
| RequestingSameFloor
| RequestIDs (alice bob : Z)
| Client (info : ClientInfo)
| TotalClients (n : nat)
| AvailableIDs (n : Z)
| ReleasingAll
| Removing
| RemoveFailed (e : manager_error)
| RemainingClients (n : nat)
| Running
| ShuttingDown
| CleanedUp.

Section Conference.
Context {env : Env} {dialer : Dialer}.

Abbreviation sample := (gprog (Terminal MWorld conference_line)).
Definition managerCall {A} (p : gprog MWorld A) : sample A := zoom beneath p.
Definition virtualCall {A} (p : gprog VWorld A) : sample A := managerCall (zoom virtuals p).
Definition my_callbacks (_ : nat) : VCallbacks := NoOpCallbacks.

(** [id] and [userID] of a client. *)
Definition report_client (v : nat) : sample () :=
  '(id, userID) ← virtualCall (on_virtual v (λ x, ((V_ID x, V_UserID x), x)));
  say (Created id userID).

(** What is left of the program when a call ends it ([log.Fatalf]). *)
Definition or_fatal {A E} (p : sample (A + E)) (report : E → conference_line) (body : A → sample ()) : sample () :=
  r ← p;
  match r with
  | inl a => body a
  | inr e => say (report e)
  end.
Definition connects (v : nat) : sample (() + virtual_error) :=
  r ← virtualCall (V_Connect my_callbacks v);
  mret (match r with None => inl tt | Some e => inr e end).

Definition report_status (v : nat) : sample () :=
  status ← virtualCall (GetStatus v);
  say (Status (csConnected status) (csActiveFloors status) (csPendingRequests status)).

(** A request id, zero when the request failed. *)
Definition request_id (r : Z + virtual_error) : Z := match r with inl id => id | inr _ => 0 end.

(** Example 2, on the client of example 1. *)
Definition second_client (client1 : nat) (rest : nat → sample ()) : sample () :=
  or_fatal (managerCall (CreateClient "webrtc-user-bob")) CreateFailed (λ client2,
  report_client client2 ;;
  or_fatal (connects client2) ConnectFailed (λ _,
  Sleep ;;
  say RequestingSameFloor ;;
  req1 ← virtualCall (V_RequestFloor my_callbacks client1 1 [WithInformation "Alice's second request"]);
  req2 ← virtualCall (V_RequestFloor my_callbacks client2 1 [WithInformation "Bob's request"]);
  say (RequestIDs (request_id req1) (request_id req2)) ;;
  Sleep ;;
  infos ← managerCall ListClients;
  for_each infos (λ info, say (Client info)) ;;
  n ← managerCall Count;
  say (TotalClients n) ;;
  available ← managerCall AvailableUserIDs;
  say (AvailableIDs available) ;;
  say ReleasingAll ;;
  virtualCall (ReleaseAllFloors my_callbacks client1) ;;
  virtualCall (ReleaseAllFloors my_callbacks client2) ;;
  Sleep ;;
  rest client2)).

(** Example 3. *)
Definition clean_up (client1 : nat) : sample () :=
  say Removing ;;
  id ← virtualCall (on_virtual client1 (λ x, (V_ID x, x)));
  e ← managerCall (RemoveClient my_callbacks id);
  match e with Some e => say (RemoveFailed e) | None => mret tt end ;;
  n ← managerCall Count;
  say (RemainingClients n) ;;
  say Running ;;
  Sleep ;;
  say ShuttingDown ;;
  managerCall (RemoveAll my_callbacks) ;;
  say CleanedUp.

Definition virtual_client_example : sample () :=
  let serverAddr := "localhost:5070" in
  let conferenceID := 1 in
  managerCall (modify (set_manager (λ _, NewManager serverAddr conferenceID conference_config))) ;;
  say (CreatedManager conferenceID serverAddr) ;;
  available ← managerCall AvailableUserIDs;
  say (UserIDs (UserIDRangeStart conference_config) (UserIDRangeEnd conference_config) available) ;;
  or_fatal (managerCall (CreateClient "webrtc-user-alice")) CreateFailed (λ client1,
  report_client client1 ;;
  or_fatal (connects client1) ConnectFailed (λ _,
  Sleep ;;
  say RequestingFloor ;;
  or_fatal (virtualCall (V_RequestFloor my_callbacks client1 1
              [WithPriority PriorityNormal; WithInformation "Alice's Screen Share"]))
    RequestFailed (λ requestID,
  say (RequestSent requestID) ;;
  Sleep ;;
  report_status client1 ;;
  say Holding ;;
  Sleep ;;
  say ReleasingFloor ;;
  r ← virtualCall (V_ReleaseFloor my_callbacks client1 requestID);
  match r with inr e => say (ReleaseFailed e) | inl _ => mret tt end ;;
  Sleep ;;
  second_client client1 (λ _, clean_up client1)))).
End Conference.
End SampleConference.
