(* ===== verification/Scenario.v ===== *)
(** * A concrete server

    A configuration, an environment in which every write succeeds, messages and a
    world with two clients, for the theorems that are applied to concrete inputs and
    for the runs that are computed. *)

From S2P Require Import Prelude Types Message Grouped Codec FloorFSM Session Prog World Transport UDPClient Server.

Definition demo_config (transport : TransportType) : ServerConfig :=
  mkServerConfig "0.0.0.0:5070" 0 0 1 true 10 300 transport.

Definition demo_hooks : Hooks := mkHooks None true true true true true false false.

(** The clock is the tick, maps are ranged over in the order of their entries. *)
Definition demo_env (transport : TransportType) : Env := {|
  config := demo_config transport;
  hooks := demo_hooks;
  now := λ t, Z.of_nat t;
  write_ok := λ _, true;
  range_order := λ _ A l, l;
  range_perm := λ _ A l, Permutation_refl l;
  resolve := λ a, Some a;
  chance := λ _, 0%nat
|}.

(** Messages of a user, without the R flag. *)
Definition demo_message (version primitive tx user : Z) : Message :=
  set_Version version (NewMessage primitive 1 tx user).
Definition demo_request (version tx user floorID : Z) : Message :=
  AddFloorID floorID (demo_message version PrimitiveFloorRequest tx user).
Definition demo_release (version tx user floorID : Z) : Message :=
  AddFloorID floorID (demo_message version PrimitiveFloorRelease tx user).
Definition demo_query (version tx user floorID : Z) : Message :=
  AddFloorID floorID (demo_message version PrimitiveFloorQuery tx user).

(** The datagram of a message. *)
Definition datagram (msg : Message) : bytes :=
  match Encode msg with Ok (_, bs) => bs | _ => [] end.

(** User 7 at "a" in version 2 and user 8 at "b" in version 1, registered; floor 1 is
    held by user 7 under request 3. *)
Definition demo_ssm (user version : Z) (remote : string) : SessionStateMachine :=
  mkSSM StateWaitFloorRequest 1 user remote version [] [] 0 0.

Definition demo_floor : FloorStateMachine := mkFloor 1 1 RequestStatusGranted 7 3 0 0 1.

Definition demo_world (tcp udp : nat → option nat) : World :=
  mkWorld [demo_floor] {[ 1 := 0%nat ]}
    [mkSession (tcp 0%nat) (udp 0%nat) (demo_ssm 7 2 "a");
     mkSession (tcp 1%nat) (udp 1%nat) (demo_ssm 8 1 "b")]
    {[ "a" := 0%nat; "b" := 1%nat ]}
    [NewTransport "a" RolePassive; NewTransport "b" RolePassive]
    [mkUDPTransport (Some "a") false; mkUDPTransport (Some "b") false]
    {[ "a" := 0%nat; "b" := 1%nat ]} ∅ [] [] 5 []
    [(0%nat, OpRequest 7 3 0); (0%nat, OpGrant 1)] 10.

Definition demo_udp : World := demo_world (λ _, None) Some.
Definition demo_tcp : World := demo_world Some (λ _, None).
