(* ===== verification/Interleave.v ===== *)
(** * Interleaved programs

    Goroutines as programs that take turns, one atomic step at a time, and a small
    program logic for them: [safe] says that a program, whatever the others do
    between its steps as long as they keep an invariant and only extend the world,
    never panics and keeps the invariant itself.  The invariant and the extension
    order are the parameters of the section. *)

From S2P Require Import Prelude Prog.

(** ** Equations of programs *)

(** Induction on a program: a step is followed by the programs it can return. *)
Definition prog_steps_ind {W A} (P : gprog W A → Prop)
    (HRet : ∀ a, P (Ret a))
    (HStep : ∀ f, (∀ w p w', f w = Ok (p, w') → P p) → P (Step f)) : ∀ p, P p :=
  fix ind (p : gprog W A) : P p :=
    match p with
    | Ret a => HRet a
    | Step f => HStep f (λ w,
        match f w as r return (∀ p' w', r = Ok (p', w') → P p') with
        | Ok (p1, w1) => λ p' w' (e : Ok (p1, w1) = Ok (p', w')),
            eq_ind p1 P (ind p1) p' (f_equal (λ r, match r with Ok (q, _) => q | _ => p1 end) e)
        | Err e => λ _ _ h, match e with end
        | Panic => λ p' w' h, False_ind _ (eq_ind Panic (λ r, match r with Panic => True | _ => False end) I _ h)
        | Diverge => λ p' w' h, False_ind _ (eq_ind Diverge (λ r, match r with Diverge => True | _ => False end) I _ h)
        end)
    end.

Lemma run_bind {W A B} (p : gprog W A) (k : A → gprog W B) w :
  run (p ≫= k) w = r ← run p w; run (k r.1) r.2.
Proof.
  revert w. induction p as [a|f IH] using prog_steps_ind; intros w; [done|]. cbn.
  destruct (f w) as [[p w']|[]| |] eqn:Hf; [|done..]. by eapply IH.
Qed.

Lemma run_bind_Ok {W A B} (p : gprog W A) (k : A → gprog W B) w a w' :
  run p w = Ok (a, w') → run (p ≫= k) w = run (k a) w'.
Proof. intros H. by rewrite run_bind, H. Qed.

Lemma run_atomic {W A} (f : W → call (A * W)) w : run (atomic f) w = f w.
Proof. cbn. by destruct (f w) as [[a w']|[]| |]. Qed.

Lemma run_deref {W A} (heap : W → list A) l x w :
  heap w !! l = Some x → run (deref heap l) w = Ok (x, w).
Proof. intros Hl. unfold deref. by rewrite run_atomic, Hl. Qed.

Lemma run_gets {W A} (f : W → A) w : run (gets f) w = Ok (f w, w).
Proof. unfold gets. by rewrite run_atomic. Qed.

Lemma run_lift {W A} (r : call A) a (w : W) : r = Ok a → run (lift r) w = Ok (a, w).
Proof. intros ->. unfold lift. by rewrite run_atomic. Qed.

Lemma run_modify {W} (f : W → W) w : run (modify f) w = Ok (tt, f w).
Proof. unfold modify. by rewrite run_atomic. Qed.

(** A program on a part of the world changes that part. *)
Lemma run_zoom {W V A} (l : lens W V) {laws : LensLaws l} (p : gprog V A) w :
  run (zoom l p) w = r ← run p (view l w); Ok (r.1, update l r.2 w).
Proof.
  revert w. induction p as [a|f IH] using prog_steps_ind; intros w.
  - cbn. by rewrite update_view.
  - cbn. destruct (f (view l w)) as [[p v]|[]| |] eqn:Hf; [|done..]. cbn.
    rewrite (IH _ _ _ Hf), view_update. destruct (run p v) as [[a v']|[]| |]; [|done..]. cbn.
    by rewrite update_update.
Qed.

Lemma run_zoom_Ok {W V A} (l : lens W V) {laws : LensLaws l} (p : gprog V A) w a v :
  run p (view l w) = Ok (a, v) → run (zoom l p) w = Ok (a, update l v w).
Proof. intros H. by rewrite run_zoom, H. Qed.

(** ** Pools of programs *)

(** One step of the [i]-th program; a program that has ended stays as it is. *)
Definition pool_step {W} (i : nat) (ps : list (gprog W ())) (w : W)
    : call (list (gprog W ()) * W) :=
  match ps !! i with
  | Some (Step f) => r ← f w; Ok (<[i := r.1]> ps, r.2)
  | _ => Ok (ps, w)
  end.

(** The steps in the order of a schedule. *)
Fixpoint pool_run {W} (sched : list nat) (ps : list (gprog W ())) (w : W)
    : call (list (gprog W ()) * W) :=
  match sched with
  | [] => Ok (ps, w)
  | i :: sched => r ← pool_step i ps w; pool_run sched r.1 r.2
  end.

(** ** Partial runs *)

(** [p] in [w] comes, in some steps of its own, to [p'] in [w']. *)
Inductive steps {W A} : gprog W A → W → gprog W A → W → Prop :=
| steps_refl p w : steps p w p w
| steps_step f w p1 w1 p w' : f w = Ok (p1, w1) → steps p1 w1 p w' → steps (Step f) w p w'.

Lemma steps_trans {W A} (p1 p2 p3 : gprog W A) w1 w2 w3 :
  steps p1 w1 p2 w2 → steps p2 w2 p3 w3 → steps p1 w1 p3 w3.
Proof. induction 1; [done|]. intros. econstructor; eauto. Qed.

Lemma steps_bind {W A B} (p p' : gprog W A) (k : A → gprog W B) w w' :
  steps p w p' w' → steps (p ≫= k) w (p' ≫= k) w'.
Proof.
  induction 1 as [|f w p1 w1 p w' Hf Hs IH]; [constructor|].
  eapply steps_step; [|exact IH]. by rewrite Hf.
Qed.

Lemma steps_of_run {W A} (p : gprog W A) w a w' : run p w = Ok (a, w') → steps p w (Ret a) w'.
Proof.
  revert w. induction p as [b|f IH] using prog_steps_ind; intros w Hrun; cbn in Hrun.
  - simplify_eq. constructor.
  - destruct (f w) as [[p1 w1]|[]| |] eqn:Hf; [|done..]. econstructor; [exact Hf|]. by eapply IH.
Qed.

(** The first statement has been run. *)
Lemma steps_run_bind {W A B} (p : gprog W A) (k : A → gprog W B) w a w' q w2 :
  run p w = Ok (a, w') → steps (k a) w' q w2 → steps (p ≫= k) w q w2.
Proof.
  intros Hrun Hs. eapply steps_trans; [by apply steps_bind, steps_of_run|exact Hs].
Qed.

(** A partial run is a run of the pool in which the program takes its turns. *)
Lemma steps_pool {W} (p p' : gprog W ()) w w' :
  steps p w p' w' → ∀ i ps, ps !! i = Some p →
  ∃ n, pool_run (replicate n i) ps w = Ok (<[i := p']> ps, w').
Proof.
  induction 1 as [p w|f w p1 w1 p w' Hf Hs IH]; intros i ps Hi.
  - exists 0%nat. by rewrite list_insert_id.
  - destruct (IH i (<[i := p1]> ps)) as [n Hn];
      [by apply list_lookup_insert_eq; eapply lookup_lt_Some|].
    exists (S n). cbn. unfold pool_step. rewrite Hi, Hf. cbn. rewrite Hn.
    by rewrite list_insert_insert_eq.
Qed.

Lemma pool_run_app {W} s1 s2 (ps : list (gprog W ())) w ps' w' :
  pool_run s1 ps w = Ok (ps', w') → pool_run (s1 ++ s2) ps w = pool_run s2 ps' w'.
Proof.
  revert ps w. induction s1 as [|i s1 IH]; intros ps w H; cbn in *; [by simplify_eq|].
  destruct (pool_step i ps w) as [[ps1 w1]|[]| |]; [|done..]. cbn in *. by apply IH.
Qed.

(** A program that panics when it runs alone panics in the pool. *)
Lemma pool_panics {W} (p : gprog W ()) : ∀ i ps w,
  run p w = Panic → ps !! i = Some p → ∃ n, pool_run (replicate n i) ps w = Panic.
Proof.
  induction p as [a|f IH] using prog_steps_ind; intros i ps w Hp Hi; [done|]. cbn in Hp.
  destruct (f w) as [[p1 w1]|[]| |] eqn:Hf; [|by exists 1%nat; cbn; unfold pool_step; rewrite Hi, Hf|done].
  destruct (IH _ _ _ Hf i (<[i := p1]> ps) w1 Hp) as [n Hn];
    [by apply list_lookup_insert_eq; eapply lookup_lt_Some|].
  exists (S n). cbn. unfold pool_step. by rewrite Hi, Hf.
Qed.

Lemma pool_run_length {W} s (ps ps' : list (gprog W ())) w w' :
  pool_run s ps w = Ok (ps', w') → length ps' = length ps.
Proof.
  revert ps w. induction s as [|i s IH]; intros ps w H; cbn in H; [by simplify_eq|].
  unfold pool_step in H. destruct (ps !! i) as [[a|f]|]; [by apply IH in H| |by apply IH in H].
  destruct (f w) as [[p1 w1]|[]| |]; [|done..]. cbn in H. apply IH in H. by rewrite length_insert in H.
Qed.

(** ** The logic *)

Section Safe.
Context {W : Type} (Inv : W → Prop) (ext : W → W → Prop) {ext_order : PreOrder ext}.
#[local] Set Default Proof Using "Inv ext ext_order".

Inductive safe {A} (Q : A → W → Prop) : W → gprog W A → Prop :=
| safe_Ret w a : Q a w → safe Q w (Ret a)
| safe_Step w f :
    (∀ w1, Inv w1 → ext w w1 →
       ∃ p w2, f w1 = Ok (p, w2) ∧ Inv w2 ∧ ext w1 w2 ∧ safe Q w2 p) →
    safe Q w (Step f).

Lemma safe_bind {A B} (Q : A → W → Prop) (R : B → W → Prop) (p : gprog W A)
    (k : A → gprog W B) w :
  safe Q w p → (∀ a w', ext w w' → Q a w' → safe R w' (k a)) → safe R w (p ≫= k).
Proof.
  revert w. induction p as [a|f IH] using prog_steps_ind; intros w Hp Hk;
    inversion Hp as [? ? Hq|? ? Hs]; subst; [by apply Hk|].
  constructor. intros w1 H1 E1. destruct (Hs w1 H1 E1) as (p & w2 & Hf & H2 & E2 & Hp2).
  exists (p ≫= k), w2. rewrite Hf. split_and!; [done..|].
  apply (IH _ _ _ Hf); [done|]. intros a w' E. apply Hk. by do 2 etrans.
Qed.

Lemma safe_mono {A} (Q R : A → W → Prop) (p : gprog W A) w :
  safe Q w p → (∀ a w', ext w w' → Q a w' → R a w') → safe R w p.
Proof.
  revert w. induction p as [a|f IH] using prog_steps_ind; intros w Hp Hk;
    inversion Hp as [? ? Hq|? ? Hs]; subst; [constructor; by apply Hk|].
  constructor. intros w1 H1 E1. destruct (Hs w1 H1 E1) as (p & w2 & Hf & H2 & E2 & Hp2).
  exists p, w2. split_and!; [done..|]. apply (IH _ _ _ Hf); [done|].
  intros a w' E. apply Hk. by do 2 etrans.
Qed.

(** An atomic step. *)
Lemma safe_atomic {A} (Q : A → W → Prop) (f : W → call (A * W)) w :
  (∀ w1, Inv w1 → ext w w1 → ∃ a w2, f w1 = Ok (a, w2) ∧ Inv w2 ∧ ext w1 w2 ∧ Q a w2) →
  safe Q w (atomic f).
Proof.
  intros Hf. constructor. intros w1 H1 E1. destruct (Hf w1 H1 E1) as (a & w2 & -> & H2 & E2 & HQ).
  exists (Ret a), w2. split_and!; [done..|]. by constructor.
Qed.

Lemma safe_for_each {A} (l : list A) (body : A → gprog W ()) w :
  (∀ x w', x ∈ l → ext w w' → safe (λ _ _, True) w' (body x)) →
  safe (λ _ _, True) w (for_each l body).
Proof.
  revert w. induction l as [|x l IH]; intros w Hl; cbn; [by constructor|].
  eapply safe_bind; [apply Hl; [by left|done]|]. intros [] w' E _. apply IH.
  intros y w'' Hy E'. apply Hl; [by right|]. by etrans.
Qed.

Lemma safe_when b (p : gprog W ()) w :
  (b = true → safe (λ _ _, True) w p) → safe (λ _ _, True) w (when b p).
Proof. intros H. destruct b; cbn; [by apply H|by constructor]. Qed.

(** A safe program that runs alone ends. *)
Lemma safe_run {A} (Q : A → W → Prop) (p : gprog W A) w :
  safe Q w p → Inv w → ∃ a w', run p w = Ok (a, w') ∧ Inv w' ∧ ext w w' ∧ Q a w'.
Proof.
  revert w. induction p as [a|f IH] using prog_steps_ind; intros w Hp HI;
    inversion Hp as [? ? Hq|? ? Hs]; subst; [by exists a, w|].
  destruct (Hs w HI) as (p & w2 & Hf & H2 & E2 & Hp2); [done|]. cbn. rewrite Hf.
  destruct (IH _ _ _ Hf w2 Hp2 H2) as (a & w' & -> & ? & ? & ?). exists a, w'.
  split_and!; [done..|by etrans|done].
Qed.

(** The others may move. *)
Lemma safe_later {A} (p : gprog W A) w w' :
  safe (λ _ _, True) w p → ext w w' → safe (λ _ _, True) w' p.
Proof.
  intros Hp E. inversion Hp as [? ? Hq|? ? Hs]; subst; constructor; [done|].
  intros w1 H1 E1. apply Hs; [done|]. by etrans.
Qed.

(** Safe programs keep the invariant and never panic, in every interleaving. *)
Lemma pool_run_safe sched : ∀ ps w,
  Inv w → Forall (safe (λ _ _, True) w) ps →
  ∃ ps' w', pool_run sched ps w = Ok (ps', w') ∧ Inv w' ∧ ext w w' ∧
    Forall (safe (λ _ _, True) w') ps'.
Proof.
  induction sched as [|i sched IH]; intros ps w HI Hps; cbn; [by exists ps, w|].
  unfold pool_step. destruct (ps !! i) as [[a|f]|] eqn:Hi; cbn [mbind res_bind fst snd];
    [by apply IH| |by apply IH].
  pose proof (Forall_lookup_1 _ _ _ _ Hps Hi) as Hp. inversion Hp as [|? ? Hs]; subst.
  destruct (Hs w HI) as (p & w2 & Hf & H2 & E2 & Hp2); [done|].
  assert (Forall (safe (λ _ _, True) w2) (<[i := p]> ps)) as Hps2.
  { apply Forall_insert; [|done]. eapply Forall_impl; [exact Hps|].
    intros q Hq. by eapply safe_later. }
  destruct (IH _ w2 H2 Hps2) as (ps' & w' & Hrun & ? & ? & ?).
  exists ps', w'. rewrite Hf. cbn [mbind res_bind fst snd]. split_and!; [done|done|by etrans|done].
Qed.
End Safe.

(** ** What a program keeps

    [keeps R]: every step that the program can take in a world that is related to itself
    ends in one that the first is related to.  [always P] is a property, [same g] a part
    of the world. *)

Definition always {W} (P : W → Prop) (w w' : W) : Prop := P w'.
Definition same {W B} (g : W → B) (w w' : W) : Prop := g w' = g w.

Inductive keeps {W A} (R : W → W → Prop) : gprog W A → Prop :=
| keeps_Ret a : keeps R (Ret a)
| keeps_Step f :
    (∀ w p w', R w w → f w = Ok (p, w') → R w w' ∧ keeps R p) → keeps R (Step f).

Section Keeps.
Context {W : Type} (R : W → W → Prop).

Lemma keeps_bind {A B} (p : gprog W A) (k : A → gprog W B) :
  keeps R p → (∀ a, keeps R (k a)) → keeps R (p ≫= k).
Proof.
  induction p as [a|f IH] using prog_steps_ind; intros Hp Hk; [apply Hk|].
  inversion Hp as [|? Hf]; subst. constructor. intros w q w' HR Hq.
  destruct (f w) as [[p1 w1]|[]| |] eqn:H1; [|done..]. injection Hq as <- <-.
  destruct (Hf w p1 w1 HR H1) as [HR1 Hp1]. split; [done|]. by apply (IH _ _ _ H1).
Qed.

Lemma keeps_atomic {A} (f : W → call (A * W)) :
  (∀ w a w', R w w → f w = Ok (a, w') → R w w') → keeps R (atomic f).
Proof.
  intros Hf. constructor. intros w p w' HR Hp. destruct (f w) as [[a w1]|[]| |] eqn:H1; [|done..].
  injection Hp as <- <-. split; [by eapply Hf|constructor].
Qed.

Lemma keeps_for_each {A} (l : list A) (body : A → gprog W ()) :
  (∀ x, keeps R (body x)) → keeps R (for_each l body).
Proof.
  intros Hb. induction l as [|x l IH]; cbn [for_each]; [constructor|]. by apply keeps_bind.
Qed.

Lemma keeps_when b (p : gprog W ()) : keeps R p → keeps R (when b p).
Proof. intros Hp. destruct b; [done|constructor]. Qed.

(** From the start to the end of a run of a pool. *)
Lemma pool_keeps {HR : PreOrder R} sched : ∀ (ps ps' : list (gprog W ())) w w',
  Forall (keeps R) ps → pool_run sched ps w = Ok (ps', w') → R w w'.
Proof.
  induction sched as [|i sched IH]; intros ps ps' w w' Hps H; cbn in H; [by simplify_eq|].
  unfold pool_step in H. destruct (ps !! i) as [[[]|f]|] eqn:Hi; [by eapply IH| |by eapply IH].
  destruct (f w) as [[p w1]|[]| |] eqn:Hf; [|done..]. cbn in H.
  pose proof (Forall_lookup_1 _ _ _ _ Hps Hi) as Hk. inversion Hk as [|? Hs]; subst.
  destruct (Hs w p w1 ltac:(done) Hf) as [H1 Hp]. etrans; [exact H1|].
  eapply IH; [|exact H]. by apply Forall_insert.
Qed.

(** From the start to the end of a run. *)
Lemma keeps_run {HR : PreOrder R} {A} (p : gprog W A) w a w' :
  keeps R p → run p w = Ok (a, w') → R w w'.
Proof.
  revert w. induction p as [b|f IH] using prog_steps_ind; intros w Hp Hrun; cbn in Hrun.
  - by injection Hrun as <- <-.
  - destruct (f w) as [[p1 w1]|[]| |] eqn:Hf; [|done..]. inversion Hp as [|? Hs]; subst.
    destruct (Hs w p1 w1 ltac:(done) Hf) as [H1 Hp1]. etrans; [exact H1|]. by eapply IH.
Qed.

Lemma keeps_steps {HR : PreOrder R} {A} (p q : gprog W A) w w' :
  steps p w q w' → keeps R p → R w w'.
Proof.
  induction 1 as [p w|f w p1 w1 p w' Hf _ IH]; intros Hk; [done|].
  inversion Hk as [|? Hs]; subst. destruct (Hs w p1 w1 ltac:(done) Hf) as [H1 Hp1].
  etrans; [exact H1|by apply IH].
Qed.

Lemma keeps_zoom {V A} (l : lens W V) (p : gprog V A) :
  (∀ v w, R w w → R w (update l v w)) → keeps R (zoom l p).
Proof.
  intros Hl. induction p as [a|f IH] using prog_steps_ind; constructor.
  intros w q w' HR Hq. destruct (f (view l w)) as [[p1 v]|[]| |] eqn:H1; [|done..].
  injection Hq as <- <-. split; [by apply Hl|]. by apply (IH _ _ _ H1).
Qed.

(** What a program keeps of the part of the world that it works on. *)
Lemma keeps_zoom_part {V A} (l : lens W V) (S : V → V → Prop) (p : gprog V A) :
  (∀ w, R w w → S (view l w) (view l w)) → (∀ v w, S (view l w) v → R w (update l v w)) →
  keeps S p → keeps R (zoom l p).
Proof.
  intros H1 H2. induction p as [a|f IH] using prog_steps_ind; intros Hp; constructor.
  intros w q w' HR Hq. destruct (f (view l w)) as [[p1 v]|[]| |] eqn:Hf; [|done..].
  injection Hq as <- <-. inversion Hp as [|? Hs]; subst.
  destruct (Hs _ _ _ (H1 w HR) Hf) as [HS Hp1]. split; [by apply H2|]. by apply (IH _ _ _ Hf).
Qed.
End Keeps.

(** *** Waiting for ever

    A step that is [Diverge] in a world cannot be taken there.  [blocked]: the program
    cannot take its next step as long as [P] holds. *)

Definition blocked {W A} (P : W → Prop) (p : gprog W A) : Prop :=
  match p with Ret _ => False | Step f => ∀ w, P w → f w = Diverge end.

Section Blocked.
Context {W : Type} (P : W → Prop).

(** What follows a blocked program is not reached. *)
Lemma keeps_blocked {A} (p : gprog W A) : blocked P p → keeps (always P) p.
Proof. destruct p as [|f]; [done|]. intros Hb. constructor. intros w q w' HP Hq. by rewrite Hb in Hq. Qed.

Lemma blocked_bind {A B} (p : gprog W A) (k : A → gprog W B) : blocked P p → blocked P (p ≫= k).
Proof. destruct p as [|f]; [done|]. intros Hb w HP. cbn in *. by rewrite Hb. Qed.

Lemma blocked_atomic {A} (f : W → call (A * W)) :
  (∀ w, P w → f w = Diverge) → blocked P (atomic f).
Proof. intros Hf w HP. by rewrite Hf. Qed.

(** In every interleaving with programs that keep [P], a blocked program stays where it
    is. *)
Lemma pool_stuck sched : ∀ (p : gprog W ()) ps w ps' w',
  blocked P p → P w → Forall (keeps (always P)) ps → pool_run sched (p :: ps) w = Ok (ps', w') →
  ps' !! 0%nat = Some p ∧ P w'.
Proof.
  induction sched as [|i sched IH]; intros p ps w ps' w' Hb HP Hps H; cbn in H; [by simplify_eq|].
  unfold pool_step in H. destruct i as [|i]; cbn in H.
  { destruct p as [|f]; [done|]. by rewrite Hb in H. }
  destruct (ps !! i) as [[[]|f]|] eqn:Hi; [by eapply (IH p ps)| |by eapply (IH p ps)].
  destruct (f w) as [[q w1]|[]| |] eqn:Hf; [|done..]. cbn in H.
  pose proof (Forall_lookup_1 _ _ _ _ Hps Hi) as Hk. inversion Hk as [|? Hstep]; subst.
  destruct (Hstep w q w1 HP Hf) as [HP1 Hq]. eapply (IH p (<[i := q]> ps)); [done|done| |done].
  by apply Forall_insert.
Qed.
End Blocked.

(** ** Programs that own something

    [I l w]: the invariant of [w] when the programs own the things in [l] between them.
    [owns Q us p]: with the things [us], and whatever the others own, [p] keeps the
    invariant by every step, and ends with what [Q] says. *)

Section Owns.
Context {W T : Type} (I : list T → W → Prop).
Context (I_perm : ∀ l l' w, l ≡ₚ l' → I l w → I l' w).
#[local] Set Default Proof Using "I_perm".

Inductive owns {A} (Q : A → list T → Prop) : list T → gprog W A → Prop :=
| owns_Ret us a : Q a us → owns Q us (Ret a)
| owns_Step us f :
    (∀ rest w p w', I (us ++ rest) w → f w = Ok (p, w') →
       ∃ us', I (us' ++ rest) w' ∧ owns Q us' p) →
    owns Q us (Step f).

Lemma owns_bind {A B} (R : A → list T → Prop) (Q : B → list T → Prop) us (p : gprog W A)
    (k : A → gprog W B) :
  owns R us p → (∀ a us', R a us' → owns Q us' (k a)) → owns Q us (p ≫= k).
Proof using.
  revert us. induction p as [a|f IH] using prog_steps_ind; intros us Hp Hk;
    inversion Hp as [? ? Hr|? ? Hf]; subst; [by apply Hk|].
  constructor. intros rest w q w' HI Hq.
  destruct (f w) as [[p1 w1]|[]| |] eqn:H1; [|done..]. injection Hq as <- <-.
  destruct (Hf rest w p1 w1 HI H1) as (us' & HI' & Hp1). exists us'. split; [done|].
  by apply (IH _ _ _ H1).
Qed.

Lemma owns_atomic {A} (Q : A → list T → Prop) us (f : W → call (A * W)) :
  (∀ rest w a w', I (us ++ rest) w → f w = Ok (a, w') → ∃ us', I (us' ++ rest) w' ∧ Q a us') →
  owns Q us (atomic f).
Proof using.
  intros Hf. constructor. intros rest w p w' HI Hp.
  destruct (f w) as [[a w1]|[]| |] eqn:H1; [|done..]. injection Hp as <- <-.
  destruct (Hf rest w a w1 HI H1) as (us' & HI' & HQ). exists us'. split; [done|by constructor].
Qed.

(** A program that does not touch what the invariant is about. *)
Lemma owns_same {A B} (g : W → B) us (p : gprog W A) :
  (∀ l w w', g w' = g w → I l w → I l w') → keeps (same g) p → owns (λ _ us', us' = us) us p.
Proof using.
  intros Hg. induction p as [a|f IH] using prog_steps_ind; intros Hp; constructor; [done|].
  intros rest w q w' HI Hq. inversion Hp as [|? Hs]; subst.
  destruct (Hs w q w' eq_refl Hq) as [HR Hp']. exists us. split; [by eapply Hg|]. by eapply IH.
Qed.

(** It leaves alone what else its owner has. *)
Lemma owns_frame {A} (Q : A → list T → Prop) us fr (p : gprog W A) :
  owns Q us p → owns (λ a us', ∃ vs, us' = vs ++ fr ∧ Q a vs) (us ++ fr) p.
Proof using.
  revert us. induction p as [a|f IH] using prog_steps_ind; intros us Hp;
    inversion Hp as [? ? Hq|? ? Hf]; subst; constructor; [eauto|].
  intros rest w q w' HI Hq. rewrite <- app_assoc in HI.
  destruct (Hf (fr ++ rest) w q w' HI Hq) as (us' & HI' & Hq'). exists (us' ++ fr).
  split; [by rewrite <- app_assoc|]. by eapply IH.
Qed.

(** A loop over what is owned, which each round gives away. *)
Lemma owns_for_each {B} (l : list B) (thing : B → T) (body : B → gprog W ()) :
  (∀ x, owns (λ _ us, us = []) [thing x] (body x)) →
  owns (λ _ us, us = []) (thing <$> l) (for_each l body).
Proof using.
  intros Hbody. induction l as [|x l IH]; cbn [for_each fmap list_fmap]; [by constructor|].
  eapply owns_bind; [exact (owns_frame _ [thing x] (thing <$> l) _ (Hbody x))|].
  intros _ us' (vs & -> & ->). exact IH.
Qed.

(** The programs of a pool own things of their own; those that have ended own nothing. *)
Lemma pool_owns sched : ∀ ps owned w ps' w',
  Forall2 (owns (λ _ us, us = [])) owned ps → I (concat owned) w →
  pool_run sched ps w = Ok (ps', w') →
  ∃ owned', Forall2 (owns (λ _ us, us = [])) owned' ps' ∧ I (concat owned') w'.
Proof.
  induction sched as [|i sched IH]; intros ps owned w ps' w' Hps HI H; cbn in H; [simplify_eq; eauto|].
  unfold pool_step in H. destruct (ps !! i) as [[[]|f]|] eqn:Hi; [by eapply IH| |by eapply IH].
  destruct (f w) as [[q w1]|[]| |] eqn:Hf; [|done..]. cbn in H.
  destruct (Forall2_lookup_r _ _ _ _ _ Hps Hi) as (us & Hus & Hp).
  inversion Hp as [|? ? Hs]; subst.
  assert (concat owned ≡ₚ us ++ concat (delete i owned)) as Hperm.
  { rewrite <- (take_drop_middle owned i us Hus) at 1. rewrite delete_take_drop, !concat_app. cbn.
    solve_Permutation. }
  destruct (Hs (concat (delete i owned)) w q w1) as (us' & HI' & Hq); [by eapply I_perm|done|].
  eapply (IH (<[i := q]> ps) (<[i := us']> owned)); [by apply Forall2_insert| |done].
  eapply I_perm; [|exact HI']. rewrite insert_take_drop by (by eapply lookup_lt_Some).
  rewrite delete_take_drop, !concat_app. cbn. solve_Permutation.
Qed.
End Owns.

(** ** Safe programs that own something

    [Tok l w]: the world has what the things in [l] stand for.  [guarded Q us w p] is
    [safe] for a program that owns the things [us], while the others own theirs. *)

Section Guarded.
Context {W T : Type} (Inv : W → Prop) (ext : W → W → Prop) {ext_order : PreOrder ext}.
Context (Tok : list T → W → Prop) (Tok_perm : ∀ l l' w, l ≡ₚ l' → Tok l w → Tok l' w).
#[local] Set Default Proof Using "Inv ext ext_order Tok".

Inductive guarded {A} (Q : A → list T → W → Prop) : list T → W → gprog W A → Prop :=
| guarded_Ret us w a : Q a us w → guarded Q us w (Ret a)
| guarded_Step us w f :
    (∀ rest w1, Inv w1 → Tok (us ++ rest) w1 → ext w w1 →
       ∃ p w2 us', f w1 = Ok (p, w2) ∧ Inv w2 ∧ Tok (us' ++ rest) w2 ∧ ext w1 w2 ∧
         guarded Q us' w2 p) →
    guarded Q us w (Step f).

Lemma guarded_bind {A B} (Q : A → list T → W → Prop) (R : B → list T → W → Prop) us
    (p : gprog W A) (k : A → gprog W B) w :
  guarded Q us w p → (∀ a us' w', ext w w' → Q a us' w' → guarded R us' w' (k a)) →
  guarded R us w (p ≫= k).
Proof.
  revert us w. induction p as [a|f IH] using prog_steps_ind; intros us w Hp Hk;
    inversion Hp as [? ? ? Hq|? ? ? Hs]; subst; [by apply Hk|].
  constructor. intros rest w1 H1 T1 E1. destruct (Hs rest w1 H1 T1 E1) as (p & w2 & us' & Hf & H2 & T2 & E2 & Hp2).
  exists (p ≫= k), w2, us'. rewrite Hf. split_and!; [done..|].
  apply (IH _ _ _ Hf); [done|]. intros a us2 w' E. apply Hk. by do 2 etrans.
Qed.

Lemma guarded_atomic {A} (Q : A → list T → W → Prop) us (f : W → call (A * W)) w :
  (∀ rest w1, Inv w1 → Tok (us ++ rest) w1 → ext w w1 →
     ∃ a w2 us', f w1 = Ok (a, w2) ∧ Inv w2 ∧ Tok (us' ++ rest) w2 ∧ ext w1 w2 ∧ Q a us' w2) →
  guarded Q us w (atomic f).
Proof.
  intros Hf. constructor. intros rest w1 H1 T1 E1.
  destruct (Hf rest w1 H1 T1 E1) as (a & w2 & us' & -> & H2 & T2 & E2 & HQ).
  exists (Ret a), w2, us'. split_and!; [done..|]. by constructor.
Qed.

(** A safe program that takes nothing away owns what it likes. *)
Lemma guarded_of_safe {A} (R : W → W → Prop) {HR : PreOrder R} (Q : A → W → Prop) us
    (p : gprog W A) w :
  (∀ l w w', R w w' → Tok l w → Tok l w') → safe Inv ext Q w p → keeps R p →
  guarded (λ a us' w', us' = us ∧ Q a w') us w p.
Proof.
  intros HT. revert w. induction p as [a|f IH] using prog_steps_ind; intros w Hp Hk;
    inversion Hp as [? ? Hq|? ? Hs]; subst; constructor; [done|].
  intros rest w1 H1 T1 E1. destruct (Hs w1 H1 E1) as (p & w2 & Hf & H2 & E2 & Hp2).
  inversion Hk as [|? Hstep]; subst. destruct (Hstep w1 p w2 ltac:(done) Hf) as [HR' Hp'].
  exists p, w2, us. split_and!; [done|done|by eapply HT|done|]. by apply (IH _ _ _ Hf).
Qed.

Lemma guarded_mono {A} (Q R : A → list T → W → Prop) us (p : gprog W A) w :
  guarded Q us w p → (∀ a us' w', Q a us' w' → R a us' w') → guarded R us w p.
Proof.
  revert us w. induction p as [a|f IH] using prog_steps_ind; intros us w Hp Hk;
    inversion Hp as [? ? ? Hq|? ? ? Hs]; subst; constructor; [by apply Hk|].
  intros rest w1 H1 T1 E1. destruct (Hs rest w1 H1 T1 E1) as (p & w2 & us' & Hf & H2 & T2 & E2 & Hp2).
  exists p, w2, us'. split_and!; [done..|]. by apply (IH _ _ _ Hf).
Qed.

Lemma guarded_later {A} us (p : gprog W A) w w' :
  guarded (λ _ _ _, True) us w p → ext w w' → guarded (λ _ _ _, True) us w' p.
Proof.
  intros Hp E. inversion Hp as [? ? ? Hq|? ? ? Hs]; subst; constructor; [done|].
  intros rest w1 H1 T1 E1. apply Hs; [done|done|]. by etrans.
Qed.

(** Guarded programs that own what they need keep the invariant and never panic, in every
    interleaving. *)
Lemma pool_run_guarded sched : ∀ ps owned w,
  Inv w → Tok (concat owned) w → Forall2 (λ us, guarded (λ _ _ _, True) us w) owned ps →
  ∃ ps' w', pool_run sched ps w = Ok (ps', w') ∧ Inv w' ∧ ext w w'.
Proof using Inv ext ext_order Tok Tok_perm.
  induction sched as [|i sched IH]; intros ps owned w HI HT Hps; cbn; [by exists ps, w|].
  unfold pool_step. destruct (ps !! i) as [[a|f]|] eqn:Hi; cbn [mbind res_bind fst snd];
    [by eapply IH| |by eapply IH].
  destruct (Forall2_lookup_r _ _ _ _ _ Hps Hi) as (us & Hus & Hp).
  inversion Hp as [|? ? ? Hs]; subst.
  assert (concat owned ≡ₚ us ++ concat (delete i owned)) as Hperm.
  { rewrite <- (take_drop_middle owned i us Hus) at 1. rewrite delete_take_drop, !concat_app. cbn.
    solve_Permutation. }
  destruct (Hs (concat (delete i owned)) w) as (p & w2 & us' & Hf & H2 & T2 & E2 & Hp2);
    [done|by eapply Tok_perm|done|].
  destruct (IH (<[i := p]> ps) (<[i := us']> owned) w2) as (ps' & w' & Hrun & ? & ?); [done| | |].
  - eapply Tok_perm; [|exact T2]. rewrite insert_take_drop by (by eapply lookup_lt_Some).
    rewrite delete_take_drop, !concat_app. cbn. solve_Permutation.
  - apply Forall2_insert; [|done]. eapply Forall2_impl; [exact Hps|].
    intros vs q Hq. exact (guarded_later _ _ _ _ Hq E2).
  - exists ps', w'. rewrite Hf. cbn [mbind res_bind fst snd]. split_and!; [done|done|by etrans].
Qed.
End Guarded.

Lemma steps_run {W A} (p p' : gprog W A) w w' : steps p w p' w' → run p w = run p' w'.
Proof. induction 1 as [|f w p1 w1 p w' Hf Hs IH]; [done|]. cbn. by rewrite Hf. Qed.
