(* ===== verification/Threads.v ===== *)
(** * The goroutines of a server

    The entry points of the server and of the client role as threads: what the
    listeners start for a datagram or a connection, the keepalives, and the calls that
    the application makes. *)

From S2P Require Import Prelude Types Message Grouped Codec FloorFSM Session Prog World Transport UDPClient Server.

Inductive thread :=
| TDatagram (remoteAddr : string) (data : bytes)
| TConnection (remoteAddr : string) (msgs : list Message)
| TKeepalive (transport : nat) (wakes : list bool)
| TCreateFloor (floorID : Z)
| TReleaseFloor (floorID : Z)
| TGrantFloor (floorID userID : Z)
| TBroadcastFloorStatus (userID floorID requestID status queuePos : Z)
| TBroadcastFloorState (floorID beneficiaryID status : Z)
| TRegisterClient (remoteAddr : string) (userID floorID version : Z)
| TCloseSessions
| TNewUDPClient (config : UDPClientConfig)
| TSetClientHooks (client : nat) (h : ClientHooks)
| TClientHello (client : nat)
| TClientRequestFloor (client : nat) (floorID : Z)
| TClientReleaseFloor (client : nat) (floorID : Z)
| TClientGoodbye (client : nat)
| TCloseClient (client : nat).

Section Threads.
Context {env : Env}.

(** A connection accepted by the listener. *)
Definition accept_connection (remoteAddr : string) (msgs : list Message) : prog () :=
  transport ← atomic (λ w,
    Ok (length (w_transports w),
        set_transports (λ l, l ++ [NewTransport remoteAddr RolePassive]) w));
  serve_connection transport msgs.

Definition ignore {A} (p : prog A) : prog () := p ;; mret tt.

Definition thread_prog (t : thread) : prog () :=
  match t with
  | TDatagram remote data => udp_datagram remote data
  | TConnection remote msgs => accept_connection remote msgs
  | TKeepalive t wakes => keepaliveLoop t wakes
  | TCreateFloor f => ignore (CreateFloor f)
  | TReleaseFloor f => ReleaseFloor f
  | TGrantFloor f u => ignore (GrantFloor f u)
  | TBroadcastFloorStatus u f r st q => BroadcastFloorStatus u f r st q
  | TBroadcastFloorState f b st => BroadcastFloorState f b st
  | TRegisterClient remote u f v => ignore (RegisterClient true remote u f v)
  | TCloseSessions => close_sessions
  | TNewUDPClient cfg => ignore (NewUDPClient true cfg)
  | TSetClientHooks c h => set_client_hooks c h
  | TClientHello c => ignore (UDPClient_Hello c)
  | TClientRequestFloor c f => ignore (UDPClient_RequestFloor c f)
  | TClientReleaseFloor c f => ignore (UDPClient_ReleaseFloor c f)
  | TClientGoodbye c => ignore (UDPClient_Goodbye c)
  | TCloseClient c => UDPClient_Close c
  end.
End Threads.

(** A server that has just been made. *)
Definition NewServer : World := mkWorld [] ∅ [] ∅ [] [] ∅ ∅ [] [] 0 [] [] 0.
