(* ===== verification/Frame.v ===== *)
(** * Frames of the server's threads

    [Frame R]: a relation between worlds that the threads of the server respect by every
    step they take, so long as no floor is released, no keepalive ends and no client is
    closed.  The interface states what [R] has to allow, world by world; every program
    of [Threads.v] is then shown to keep [R], statement by statement, from what it
    requires of its releases and closings ([respects]). *)

From S2P Require Import Prelude Types Message Grouped Codec FloorFSM Session Prog World Transport UDPClient Server Threads Interleave.

(** An operation that does not take a floor from its holder. *)
Definition keeps_holder (op : floor_op) : bool :=
  match op with OpRequest _ _ _ | OpGrant _ | OpDeny => true | OpRelease _ | OpRevoke => false end.

(** The keepalive goroutines of a transport that have not said that they are done. *)
Definition keepalives (tr : Transport) : nat := wgCounter (tKeepaliveWg tr).

Class Frame (R : World → World → Prop) := {
  #[global] frame_order :: PreOrder R;
  frame_same w w' :
    w_floors w' = w_floors w → w_floor_heap w' = w_floor_heap w →
    w_transports w' = w_transports w → w_client_heap w' = w_client_heap w → R w w';
  frame_floor_op w l op fsm :
    keeps_holder op = true → w_floor_heap w !! l = Some fsm →
    R w (set_floor_heap <[l := (floor_apply op fsm).2]> w);
  frame_new_floor w id fsm :
    w_floors w !! id = None →
    R w (set_floors <[id := length (w_floor_heap w)]> (set_floor_heap (λ h, h ++ [fsm]) w));
  frame_transport w t tr tr' :
    w_transports w !! t = Some tr → (keepalives tr <= keepalives tr')%nat →
    R w (set_transports <[t := tr']> w);
  frame_new_transport w tr : R w (set_transports (λ l, l ++ [tr]) w);
  frame_client w c cl cl' :
    w_client_heap w !! c = Some cl → ucClosed cl' = ucClosed cl → ucDone cl' = ucDone cl →
    R w (set_client_heap <[c := cl']> w);
  frame_new_client w cl :
    ucClosed cl = false → ucDone cl = false → R w (set_client_heap (λ l, l ++ [cl]) w)
}.

(** [framed] proves that a program keeps [R]: statement by statement. *)
Create HintDb frame.
Ltac frame_step :=
  first
    [ apply keeps_Ret
    | solve [auto with frame nocore]
    | apply keeps_when
    | apply keeps_for_each; intros
    | apply keeps_bind; [|intros]
    | match goal with
      | |- keeps _ (if ?b then _ else _) => destruct b
      | |- keeps _ (match ?x with _ => _ end) => destruct x
      end ].
Ltac framed := repeat frame_step.
(** A step of a program: the world it ends in. *)
Ltac frame_atomic := apply keeps_atomic; intros w a w' _ H; cbv beta zeta in H.
Ltac frame_leaf := simplify_eq/=; first [reflexivity | by apply frame_same].

(** ** Steps *)

Section Steps.
Context {env : Env} (R : World → World → Prop) {frame : Frame R}.
#[local] Set Default Proof Using "Type*".

Lemma frame_deref {A} (heap : World → list A) l : keeps R (deref heap l).
Proof. frame_atomic. case_match; frame_leaf. Qed.
Lemma frame_gets {A} (f : World → A) : keeps R (gets f).
Proof. frame_atomic. frame_leaf. Qed.
Lemma frame_lift {A} (r : call A) : keeps R (lift r).
Proof. frame_atomic. destruct r; frame_leaf. Qed.
Lemma frame_emit e : keeps R (emit e).
Proof. frame_atomic. frame_leaf. Qed.
Lemma frame_range `{Countable K} (m : World → gmap K nat) : keeps R (range_of m).
Proof. apply keeps_atomic. intros w a w' _ Hr. cbv beta zeta in Hr. frame_leaf. Qed.
Lemma frame_nextTxID : keeps R nextTxID_Add.
Proof. frame_atomic. frame_leaf. Qed.
Lemma frame_unregister k : keeps R (modify (set_sessions (delete k))).
Proof. frame_atomic. frame_leaf. Qed.

Lemma frame_floor_call {X} l op (f : Time → FloorStateMachine → X * FloorStateMachine) :
  (∀ t, keeps_holder (op t) = true) → (∀ t fsm, (f t fsm).2 = (floor_apply (op t) fsm).2) →
  keeps R (floor_call l op f).
Proof.
  intros Hop Hf. frame_atomic. destruct (w_floor_heap w !! l) as [fsm|] eqn:Hl; [|done].
  specialize (Hf (now (w_tick w)) fsm). destruct (f _ fsm) as [x fsm']. cbn in Hf. simplify_eq.
  etrans; [by apply (frame_floor_op w l (op (now (w_tick w))))|by apply frame_same].
Qed.
Lemma frame_Request l u r p : keeps R (floor_Request l u r p).
Proof. apply frame_floor_call; [done|]. intros t fsm. cbn. by destruct (Floor_Request u r p fsm) as [[??]?]. Qed.
Lemma frame_Grant l : keeps R (floor_Grant l).
Proof. by apply frame_floor_call. Qed.
Lemma frame_Deny l : keeps R (floor_Deny l).
Proof. by apply frame_floor_call. Qed.

Lemma frame_CreateFloor id : keeps R (CreateFloor id).
Proof.
  frame_atomic. destruct (w_floors w !! id) eqn:Hid; simplify_eq; [reflexivity|].
  etrans; [by apply frame_new_floor|by apply frame_same].
Qed.

Lemma frame_upd_session i f : keeps R (upd_session i f).
Proof. frame_atomic. case_match; frame_leaf. Qed.
Lemma frame_SetState i st : keeps R (session_SetState i st).
Proof. apply frame_upd_session. Qed.
Lemma frame_alloc_session tcp udp u r : keeps R (alloc_session tcp udp u r).
Proof. frame_atomic. frame_leaf. Qed.
Lemma frame_register_session k i : keeps R (register_session k i).
Proof. frame_atomic. frame_leaf. Qed.
Lemma frame_register_client key t u v : keeps R (register_client_session key t u v).
Proof. frame_atomic. case_match; frame_leaf. Qed.

(** *** Transports *)

Lemma frame_socket_write r data w : R w (socket_write r data w).2.
Proof. unfold socket_write. case_match; frame_leaf. Qed.

Lemma frame_encode msg (w : World) {A} (fail : encode_error → A) r (x : A * World) (g : option send_error → Message → A) :
  encode_or msg (λ e, Ok (fail e, w))
    (λ msg data, let '(e, w) := socket_write r data w in Ok (g e msg, w)) = Ok x → R w x.2.
Proof.
  unfold encode_or. destruct (Encode msg) as [[m data]| | |]; [|intros; frame_leaf|done..].
  pose proof (frame_socket_write r data w). destruct (socket_write r data w). by intros [= <-].
Qed.

Lemma frame_UDP_send t msg : keeps R (UDPTransport_SendMessage t msg).
Proof.
  frame_atomic. destruct (w_udp_transports w !! t) as [[[r|] []]|]; try frame_leaf.
  exact (frame_encode msg w _ r _ (λ e m, (e, m)) H).
Qed.
Lemma frame_TCP_send t msg : keeps R (Transport_SendMessage t msg).
Proof.
  frame_atomic. destruct (w_transports w !! t) as [tr|]; [|done]. destruct (tClosed tr); [frame_leaf|].
  exact (frame_encode msg w _ (tRemote tr) _ (λ e m, (e, m)) H).
Qed.
Lemma frame_UDP_raw t data : keeps R (UDPTransport_SendRawData t data).
Proof.
  frame_atomic. destruct (w_udp_transports w !! t) as [[[r|] []]|]; try frame_leaf.
  injection H as H. pose proof (frame_socket_write r data w) as Hw. by rewrite H in Hw.
Qed.
Lemma frame_TCP_raw t data : keeps R (Transport_SendRawData t data).
Proof.
  frame_atomic. destruct (w_transports w !! t) as [tr|]; [|done]. destruct (tClosed tr); [frame_leaf|].
  injection H as H. pose proof (frame_socket_write (tRemote tr) data w) as Hw. by rewrite H in Hw.
Qed.
Lemma frame_UDP_remote t : keeps R (UDPTransport_RemoteAddr t).
Proof. frame_atomic. repeat case_match; frame_leaf. Qed.
Lemma frame_TCP_remote t : keeps R (Transport_RemoteAddr t).
Proof. frame_atomic. repeat case_match; frame_leaf. Qed.
Lemma frame_UDP_closed t : keeps R (UDPTransport_IsClosed t).
Proof. frame_atomic. repeat case_match; frame_leaf. Qed.
Lemma frame_TCP_closed t : keeps R (Transport_IsClosed t).
Proof. frame_atomic. repeat case_match; frame_leaf. Qed.
Lemma frame_getOrCreate key : keeps R (getOrCreateTransport key).
Proof. frame_atomic. repeat case_match; frame_leaf. Qed.

(** No step but that of [Done] makes the keepalives fewer. *)
Lemma frame_set_transport t (f : Transport → Transport) :
  (∀ tr, keepalives (f tr) = keepalives tr) →
  keeps R (atomic (λ w,
    match w_transports w !! t with
    | None => Panic
    | Some tr => Ok (tt, set_transports <[t := f tr]> w)
    end)).
Proof.
  intros Hf. frame_atomic. destruct (w_transports w !! t) as [tr|] eqn:Ht; simplify_eq.
  apply (frame_transport w t tr); [done|]. by rewrite Hf.
Qed.
Lemma frame_Close t : keeps R (Transport_Close t).
Proof. by apply (frame_set_transport t close_tcp). Qed.
Lemma frame_EnableKeepalive t n s : keeps R (EnableKeepalive t n s).
Proof. by apply (frame_set_transport t (with_keepalive n s)). Qed.
Lemma frame_wg_add t : keeps R (wg_call t wg_add).
Proof.
  frame_atomic. destruct (w_transports w !! t) as [tr|] eqn:Ht; [|done].
  unfold wg_add in H. destruct (_ && _); [done|]. cbn in H. simplify_eq.
  apply (frame_transport w t tr); [done|]. cbn. unfold keepalives. lia.
Qed.
Lemma frame_accept tr :
  keeps R (atomic (λ w, Ok (length (w_transports w), set_transports (λ l, l ++ [tr]) w))).
Proof. frame_atomic. simplify_eq. apply frame_new_transport. Qed.
Lemma frame_cancelled t b : keeps R (keepalive_cancelled t b).
Proof. frame_atomic. case_match; frame_leaf. Qed.

(** *** Clients *)

Lemma frame_upd_client {X} c (f : UDPClient → X * UDPClient) :
  (∀ cl, ucClosed (f cl).2 = ucClosed cl) → (∀ cl, ucDone (f cl).2 = ucDone cl) →
  keeps R (upd_client c f).
Proof.
  intros Hc Hd. frame_atomic. destruct (w_client_heap w !! c) as [cl|] eqn:Hcl; [|done].
  specialize (Hc cl). specialize (Hd cl). destruct (f cl) as [x cl']. simplify_eq/=.
  by apply (frame_client w c cl).
Qed.
Lemma frame_client_update {X} c (f : World → UDPClient → UDPClient) (r : World → UDPClient → X)
    (g : World → World) :
  (∀ w cl, ucClosed (f w cl) = ucClosed cl) → (∀ w cl, ucDone (f w cl) = ucDone cl) →
  (∀ w, R w (g w)) →
  keeps R (atomic (λ w,
    match w_client_heap w !! c with
    | None => Panic
    | Some cl => Ok (r w cl, g (set_client_heap <[c := f w cl]> w))
    end)).
Proof.
  intros Hc Hd Hg. frame_atomic. destruct (w_client_heap w !! c) as [cl|] eqn:Hcl; simplify_eq.
  etrans; [|apply Hg]. by apply (frame_client w c cl).
Qed.
Lemma frame_tick w : R w (tick w).
Proof. by apply frame_same. Qed.
Lemma frame_try_send ch msg : keeps R (try_send ch msg).
Proof. frame_atomic. repeat case_match; frame_leaf. Qed.
Lemma frame_open_pending c tx : keeps R (open_pending c tx).
Proof.
  frame_atomic. destruct (w_client_heap w !! c) as [cl|] eqn:Hcl; simplify_eq.
  etrans; [|by apply (frame_client _ c cl)]. by apply frame_same.
Qed.
Lemma frame_await c ch : keeps R (await c ch).
Proof. frame_atomic. repeat case_match; frame_leaf. Qed.
Lemma frame_next_client_tx c : keeps R (next_client_tx c).
Proof.
  by apply (frame_client_update c (λ _ cl, with_nextTxID (u32 (ucNextTxID cl + 1)) cl)
    (λ _ cl, u16 (u32 (ucNextTxID cl + 1))) id).
Qed.
Lemma frame_alloc_client cfg t key :
  keeps R (atomic (λ w, Ok (length (w_client_heap w),
                            set_client_heap (λ l, l ++ [new_client cfg t key]) w))).
Proof. frame_atomic. simplify_eq. by apply frame_new_client. Qed.
Lemma frame_register_udp_client key c : keeps R (modify (set_udp_clients <[key := c]>)).
Proof. frame_atomic. frame_leaf. Qed.
End Steps.

#[export] Hint Resolve frame_deref frame_gets frame_lift frame_emit frame_range frame_nextTxID
  frame_unregister frame_Request frame_Grant frame_Deny frame_CreateFloor frame_upd_session
  frame_SetState frame_alloc_session frame_register_session frame_register_client frame_UDP_send
  frame_TCP_send frame_UDP_raw frame_TCP_raw frame_UDP_remote frame_TCP_remote frame_UDP_closed
  frame_TCP_closed frame_getOrCreate frame_Close frame_EnableKeepalive frame_wg_add frame_accept
  frame_cancelled frame_try_send frame_open_pending frame_await frame_next_client_tx
  frame_alloc_client frame_register_udp_client : frame.
#[export] Hint Extern 1 (keeps _ (upd_client _ _)) => by apply frame_upd_client : frame.

(** ** Programs *)

Section Programs.
Context {env : Env} (R : World → World → Prop) {frame : Frame R}.
#[local] Set Default Proof Using "Type*".

Lemma frame_floor_get {X} l (f : FloorStateMachine → X) : keeps R (floor_get l f).
Proof. unfold floor_get. framed. Qed.
Lemma frame_GetFloor id : keeps R (GetFloor id).
Proof. unfold GetFloor. framed. Qed.
Lemma frame_message_out r msg : keeps R (message_out r msg).
Proof. unfold message_out. framed. Qed.
Lemma frame_message_in r msg : keeps R (message_in r msg).
Proof. unfold message_in. framed. Qed.
Hint Resolve frame_floor_get frame_GetFloor frame_message_out frame_message_in : frame.

Lemma frame_sendUDP i msg : keeps R (sendUDP i msg).
Proof. unfold sendUDP. framed. Qed.
Hint Resolve frame_sendUDP : frame.
Lemma frame_send i msg : keeps R (send i msg).
Proof. unfold send. framed. Qed.
Lemma frame_sendRaw i data : keeps R (sendRaw i data).
Proof. unfold sendRaw. framed. Qed.
Lemma frame_udp_remote i : keeps R (udp_remote i).
Proof. unfold udp_remote. framed. Qed.
Lemma frame_tcp_remote i : keeps R (tcp_remote i).
Proof. unfold tcp_remote. framed. Qed.
Hint Resolve frame_send frame_sendRaw frame_udp_remote frame_tcp_remote : frame.

Lemma frame_sendUDPError i req code info : keeps R (sendUDPError i req code info).
Proof. unfold sendUDPError. framed. Qed.
Lemma frame_sendError i req code info : keeps R (sendError i req code info).
Proof. unfold sendError. framed. Qed.
Lemma frame_broadcastUDP x u f r st : keeps R (broadcastFloorStatusUDP x u f r st).
Proof. unfold broadcastFloorStatusUDP. framed. Qed.
Lemma frame_broadcast x u f r st : keeps R (broadcastFloorStatus x u f r st).
Proof. unfold broadcastFloorStatus. framed. Qed.
Lemma frame_sendFloorState i f st : keeps R (sendFloorState i f st).
Proof. unfold sendFloorState. framed. Qed.
Hint Resolve frame_sendUDPError frame_sendError frame_broadcastUDP frame_broadcast
  frame_sendFloorState : frame.

Lemma frame_find_floor test ls : (∀ l, keeps R (test l)) → keeps R (find_floor test ls).
Proof. intros Ht. induction ls as [|l ls IH]; cbn [find_floor]; framed. Qed.
Lemma frame_GetFloorByRequestID r : keeps R (GetFloorByRequestID r).
Proof. unfold GetFloorByRequestID. framed. apply frame_find_floor. intros. framed. Qed.
Lemma frame_floorOwnedBy u : keeps R (floorOwnedBy u).
Proof. unfold floorOwnedBy. framed. apply frame_find_floor. intros. framed. Qed.
Lemma frame_floors_owned u ls : keeps R (floors_owned u ls).
Proof. induction ls as [|l ls IH]; cbn [floors_owned]; framed. Qed.
Hint Resolve frame_GetFloorByRequestID frame_floorOwnedBy frame_floors_owned : frame.

(** *** Handlers *)

Lemma frame_StartKeepalive t : keeps R (StartKeepalive t).
Proof. unfold StartKeepalive. framed. Qed.
Hint Resolve frame_StartKeepalive : frame.

(** The messages by which a user gives up floors. *)
Definition gives_up (msg : Message) : Prop :=
  mPrimitive msg = PrimitiveFloorRelease ∨ mPrimitive msg = PrimitiveGoodbye.

(** What a message has to allow: releases of the user it comes from. *)
Definition respects (msg : Message) : Prop :=
  gives_up msg → ∀ l, keeps R (floor_Release l (mUserID msg)).

Lemma frame_udp_dispatch i msg : respects msg → keeps R (udp_dispatch i msg).
Proof.
  intros Hrel. unfold udp_dispatch.
  destruct (mPrimitive msg =? PrimitiveHello).
  { unfold handleUDPHello, store_supported. framed. }
  destruct (mPrimitive msg =? PrimitiveFloorRequest).
  { unfold handleUDPFloorRequest, sendUDPFloorStatusResponse, request_floor, ask_grant. framed. }
  destruct (mPrimitive msg =? PrimitiveFloorRelease) eqn:H1.
  { assert (∀ l, keeps R (floor_Release l (mUserID msg))) by (apply Hrel; left; lia).
    unfold handleUDPFloorRelease, sendUDPFloorStatusResponse, release_lookup. framed. }
  destruct (mPrimitive msg =? PrimitiveFloorQuery).
  { unfold handleUDPFloorQuery, add_floor_state. framed. }
  destruct (mPrimitive msg =? PrimitiveGoodbye) eqn:H2; [|framed].
  assert (∀ l, keeps R (floor_Release l (mUserID msg))) by (apply Hrel; right; lia).
  unfold handleUDPGoodbye, release_owned. framed.
Qed.

Lemma frame_tcp_dispatch i msg : respects msg → keeps R (tcp_dispatch i msg).
Proof.
  intros Hrel. unfold tcp_dispatch.
  destruct (mPrimitive msg =? PrimitiveHello).
  { unfold handleHello, store_supported. framed. }
  destruct (mPrimitive msg =? PrimitiveFloorRequest).
  { unfold handleFloorRequest, sendFloorStatus, request_floor, ask_grant, sleep. framed. }
  destruct (mPrimitive msg =? PrimitiveFloorRelease) eqn:H1.
  { assert (∀ l, keeps R (floor_Release l (mUserID msg))) by (apply Hrel; left; lia).
    unfold handleFloorRelease, sendFloorStatus, release_lookup. framed. }
  destruct (mPrimitive msg =? PrimitiveFloorQuery).
  { unfold handleFloorQuery, add_floor_state. framed. }
  destruct (mPrimitive msg =? PrimitiveGoodbye) eqn:H2; [|framed].
  assert (∀ l, keeps R (floor_Release l (mUserID msg))) by (apply Hrel; right; lia).
  unfold handleGoodbye, release_owned. framed.
Qed.

(** *** The client role *)

Lemma frame_client_event c cb : keeps R (client_event c cb).
Proof. unfold client_event. framed. Qed.
Lemma frame_UDPClient_send c msg : keeps R (UDPClient_send c msg).
Proof. unfold UDPClient_send. framed. Qed.
Hint Resolve frame_client_event frame_UDPClient_send : frame.
Lemma frame_ack c msg p : keeps R (ack c msg p).
Proof. unfold ack. framed. Qed.
Lemma frame_applyOwnStatus c f r st : keeps R (applyOwnStatus c f r st).
Proof.
  unfold applyOwnStatus. apply keeps_bind; [|intros; framed].
  apply (frame_client_update R c (λ w, with_active (apply_status f st (now (w_tick w)))) (λ _ _, tt) tick);
    [done..|by intros; apply frame_same].
Qed.
Hint Resolve frame_ack frame_applyOwnStatus : frame.
Lemma frame_handleNotification c msg : keeps R (handleNotification c msg).
Proof. unfold handleNotification, notify_info, notify_floor, ownRequest. framed. Qed.
Hint Resolve frame_handleNotification : frame.
Lemma frame_UDPClient_handleMessage c msg : keeps R (UDPClient_handleMessage c msg).
Proof. unfold UDPClient_handleMessage. framed. Qed.

Lemma frame_transact_loop c ch msg n : keeps R (transact_loop c ch msg n).
Proof. induction n as [|n IH]; cbn [transact_loop]; framed. Qed.
Hint Resolve frame_transact_loop : frame.
Lemma frame_transact c msg : keeps R (transact c msg).
Proof. unfold transact. framed. Qed.
Lemma frame_client_message c p : keeps R (client_message c p).
Proof. unfold client_message, nextTransactionID. framed. Qed.
Hint Resolve frame_transact frame_client_message : frame.
Lemma frame_record_request c f rid st :
  keeps R (atomic (λ w,
    match w_client_heap w !! c with
    | None => Panic
    | Some cl =>
        let req := mkActive f rid (ucUserID cl) 0 st (now (w_tick w)) 0 in
        Ok (tt, tick (set_client_heap <[c := with_active <[f := req]> cl]> w))
    end)).
Proof.
  apply (frame_client_update R c
    (λ w cl, with_active <[f := mkActive f rid (ucUserID cl) 0 st (now (w_tick w)) 0]> cl) (λ _ _, tt) tick);
    [done..|by intros; apply frame_same].
Qed.
Hint Resolve frame_record_request : frame.
Lemma frame_finish_request c f r : keeps R (finish_request c f r).
Proof. unfold finish_request. framed. Qed.
Hint Resolve frame_finish_request : frame.

(** *** Entry points *)

Lemma frame_handleUDPMessage t msg : respects msg → keeps R (handleUDPMessage t msg).
Proof.
  intros Hrel. pose proof (λ i, frame_udp_dispatch i msg Hrel).
  pose proof (λ c, frame_UDPClient_handleMessage c msg).
  unfold handleUDPMessage, Session_handleUDPMessage. framed.
Qed.

Lemma frame_serve_connection t msgs : Forall respects msgs → keeps R (serve_connection t msgs).
Proof.
  intros Hmsgs. assert (∀ i, keeps R (connection_loop i t msgs)).
  { intros i. induction Hmsgs as [|msg msgs Hmsg _ IH]; cbn [connection_loop]; [framed|].
    pose proof (frame_tcp_dispatch i msg Hmsg). unfold handleMessage. framed. }
  unfold serve_connection, handleConnection, Transport_Start, on_close. framed.
Qed.

Lemma frame_keepaliveLoop t wakes : keeps R (keepalive_end t) → keeps R (keepaliveLoop t wakes).
Proof.
  intros Hend. assert (keeps R (keepalive_wakes t wakes)).
  { induction wakes as [|ticked wakes IH]; cbn [keepalive_wakes]; [framed|].
    unfold keepalive_send, keepalive_sender. framed. }
  unfold keepaliveLoop. framed.
Qed.

(** What a thread has to allow: the releases of floors and closings it can come to. *)
Definition thread_respects (t : thread) : Prop :=
  match t with
  | TDatagram _ data => ∀ msg, Decode data = Ok msg → respects msg
  | TConnection _ msgs => Forall respects msgs
  | TKeepalive t _ => keeps R (keepalive_end t)
  | TReleaseFloor f => keeps R (ReleaseFloor f)
  | TCloseClient c => keeps R (UDPClient_Close c)
  | _ => True
  end.

Theorem frame_thread t : thread_respects t → keeps R (thread_prog t).
Proof.
  destruct t; cbn [thread_prog thread_respects]; intros Ht; unfold ignore; try done;
    try solve [framed].
  - unfold udp_datagram. destruct (Decode data) as [msg| | |]; [|framed..].
    pose proof (λ t, frame_handleUDPMessage t msg (Ht msg eq_refl)). framed.
  - unfold accept_connection. pose proof (λ t, frame_serve_connection t msgs Ht). framed.
  - by apply frame_keepaliveLoop.
  - unfold RegisterClient. framed.
  - unfold NewUDPClient. framed.
  - by apply frame_upd_client.
Qed.
End Programs.
