(* ===== verification/ServerSafe.v ===== *)
(** * The server's invariant, and its safety under interleaving

    [wf_world] is the invariant of the shared world and [extends] the order in
    which it grows; every handler and every entry point keeps the one and follows
    the other, whatever the other goroutines do between its steps.  In particular
    no nil pointer is ever dereferenced and every call returns. *)

From S2P Require Import Prelude Types Message Grouped Codec FloorFSM Session Prog World Transport UDPClient Server Interleave.

(** ** Heaps that grow *)

(** Every cell of [l] is in [l'], related by [R]. *)
Definition heap_ext {A} (R : A → A → Prop) (l l' : list A) : Prop :=
  ∀ i x, l !! i = Some x → ∃ x', l' !! i = Some x' ∧ R x x'.

#[global] Instance heap_ext_preorder {A} (R : A → A → Prop) `{!PreOrder R} : PreOrder (heap_ext R).
Proof.
  split; [intros l i x H; by exists x|]. intros l1 l2 l3 H12 H23 i x H.
  destruct (H12 i x H) as (y & Hy & Hxy). destruct (H23 i y Hy) as (z & Hz & Hyz).
  exists z. split; [done|]. by etrans.
Qed.

Lemma heap_ext_insert {A} (R : A → A → Prop) `{!PreOrder R} l i x y :
  l !! i = Some x → R x y → heap_ext R l (<[i := y]> l).
Proof.
  intros Hi Hxy j z Hj. destruct (decide (i = j)) as [<-|].
  - exists y. rewrite list_lookup_insert_eq by (by eapply lookup_lt_Some). by simplify_eq.
  - exists z. by rewrite list_lookup_insert_ne.
Qed.

Lemma heap_ext_snoc {A} (R : A → A → Prop) `{!PreOrder R} l x : heap_ext R l (l ++ [x]).
Proof. intros i y Hi. exists y. split; [by apply lookup_app_l_Some|done]. Qed.

(** Equality of what never changes in a cell. *)
#[global] Instance same_preorder {A B} (f : A → B) : PreOrder (same f).
Proof. split; unfold same; [done|]. intros x y z. congruence. Qed.

(** ** The order *)

(** A keepalive, once it is enabled, can be sent ever after. *)
Definition keepalive_on (tr : Transport) : Prop :=
  is_Some (tKeepalive tr) ∧ 0 < tKeepaliveInterval tr.

Definition transport_ext (tr tr' : Transport) : Prop :=
  same tRemote tr tr' ∧ (keepalive_on tr → keepalive_on tr').

#[global] Instance transport_ext_preorder : PreOrder transport_ext.
Proof. split; unfold transport_ext, same; [done|]. intros ??? [] []. split; [congruence|auto]. Qed.

Record extends (w w' : World) : Prop := {
  ext_floors : heap_ext (same fFloorID) (w_floor_heap w) (w_floor_heap w');
  ext_sessions : heap_ext (same (λ s, (sTransport s, sUDPTransport s)))
                   (w_session_heap w) (w_session_heap w');
  ext_udp : heap_ext (same uRemote) (w_udp_transports w) (w_udp_transports w');
  ext_tcp : heap_ext transport_ext (w_transports w) (w_transports w');
  ext_clients : heap_ext (same ucTransport) (w_client_heap w) (w_client_heap w');
  ext_channels : heap_ext (same chTx) (w_channels w) (w_channels w');
  ext_trace : w_trace w `prefix_of` w_trace w';
  ext_history : w_history w `prefix_of` w_history w'
}.

#[global] Instance extends_preorder : PreOrder extends.
Proof.
  split.
  - intros w. by split.
  - intros w1 w2 w3 [] []. split; by etrans.
Qed.

(** ** The invariant *)

(** The operations applied to floor [l]. *)
Definition ops_of (l : nat) (h : list (nat * floor_op)) : list floor_op :=
  snd <$> filter (λ x, x.1 = l) h.

Definition floor_at (w : World) (l : nat) : Prop := is_Some (w_floor_heap w !! l).
Definition udp_at (w : World) (t : nat) : Prop :=
  ∃ tr r, w_udp_transports w !! t = Some tr ∧ uRemote tr = Some r.
Definition tcp_at (w : World) (t : nat) : Prop := is_Some (w_transports w !! t).
Definition keepalive_at (w : World) (t : nat) : Prop :=
  ∃ tr, w_transports w !! t = Some tr ∧ keepalive_on tr.
Definition session_at (w : World) (i : nat) : Prop := is_Some (w_session_heap w !! i).
Definition client_at (w : World) (c : nat) : Prop := is_Some (w_client_heap w !! c).
(** A channel made for transaction [tx]. *)
Definition channel_at (w : World) (ch : nat) (tx : Z) : Prop :=
  ∃ buf, w_channels w !! ch = Some (mkChan tx buf).

(** A session has one transport, of the kind the server listens on. *)
Definition session_ok {env : Env} (w : World) (s : Session) : Prop :=
  match cTransport config, sTransport s, sUDPTransport s with
  | TransportUDP, None, Some t => udp_at w t
  | TransportTCP, Some t, None => tcp_at w t
  | _, _, _ => False
  end.

Definition client_ok (w : World) (c : UDPClient) : Prop :=
  udp_at w (ucTransport c) ∧ ∀ tx ch, ucPending c !! tx = Some ch → channel_at w ch tx.

(** A floor is what the operations recorded for it made of a new floor. *)
Definition floor_traced (h : list (nat * floor_op)) (l : nat) (f : FloorStateMachine) : Prop :=
  ∃ id conf t, f = (floor_run (ops_of l h) (NewFloorStateMachine id conf t)).2.

Record wf_world {env : Env} (w : World) : Prop := {
  wf_floors : ∀ id l, w_floors w !! id = Some l →
    ∃ f, w_floor_heap w !! l = Some f ∧ fFloorID f = id;
  wf_traced : ∀ l f, w_floor_heap w !! l = Some f → floor_traced (w_history w) l f;
  wf_untouched : ∀ l op, (l, op) ∈ w_history w → floor_at w l;
  wf_sessions : ∀ k i, w_sessions w !! k = Some i → session_at w i;
  wf_session_heap : ∀ i s, w_session_heap w !! i = Some s → session_ok w s;
  wf_udp_sessions : ∀ k t, w_udp_sessions w !! k = Some t → udp_at w t;
  wf_clients : ∀ k c, w_udp_clients w !! k = Some c → client_at w c;
  wf_client_heap : ∀ c cl, w_client_heap w !! c = Some cl → client_ok w cl;
  wf_channels : ∀ ch x m, w_channels w !! ch = Some x → chBuf x = Some m →
    mTransactionID m = chTx x;
  wf_waiters : ∀ t tr, w_transports w !! t = Some tr → wgWaiters (tKeepaliveWg tr) = 0%nat
}.

(** ** Facts that last *)

Section Lasting.
Context {env : Env} {w w' : World} (E : extends w w').

Lemma heap_ext_is_Some {A} (R : A → A → Prop) l l' i :
  heap_ext R l l' → is_Some (l !! i) → is_Some (l' !! i).
Proof. intros H [x Hx]. destruct (H i x Hx) as (y & -> & _). by eexists. Qed.

Lemma floor_at_ext l : floor_at w l → floor_at w' l.
Proof using E. apply heap_ext_is_Some with (same fFloorID), E. Qed.
Lemma floors_at_ext ls : Forall (floor_at w) ls → Forall (floor_at w') ls.
Proof using E. intros H. eapply Forall_impl; [exact H|]. apply floor_at_ext. Qed.
Lemma tcp_at_ext l : tcp_at w l → tcp_at w' l.
Proof using E. apply heap_ext_is_Some with transport_ext, E. Qed.
Lemma keepalive_at_ext t : keepalive_at w t → keepalive_at w' t.
Proof using E.
  intros (tr & Ht & Hon). destruct (ext_tcp _ _ E t tr Ht) as (tr' & Ht' & _ & Hk).
  exists tr'. auto.
Qed.
Lemma session_at_ext l : session_at w l → session_at w' l.
Proof using E. apply (heap_ext_is_Some _ _ _ _ (ext_sessions _ _ E)). Qed.
Lemma client_at_ext l : client_at w l → client_at w' l.
Proof using E. apply (heap_ext_is_Some _ _ _ _ (ext_clients _ _ E)). Qed.
Lemma channel_at_ext ch tx : channel_at w ch tx → channel_at w' ch tx.
Proof using E.
  intros [buf Hb]. destruct (ext_channels _ _ E ch _ Hb) as ([tx' buf'] & Hb' & Hs).
  unfold same in Hs. cbn in Hs. subst tx'. by exists buf'.
Qed.
Lemma udp_at_ext t : udp_at w t → udp_at w' t.
Proof using E.
  intros (tr & r & Ht & Hr). destruct (ext_udp _ _ E t tr Ht) as (tr' & Ht' & Hs).
  exists tr', r. split; [done|]. by rewrite Hs.
Qed.
Lemma session_ok_ext s : session_ok w s → session_ok w' s.
Proof using E. unfold session_ok. repeat case_match; auto using udp_at_ext, tcp_at_ext. Qed.
Lemma client_ok_ext c : client_ok w c → client_ok w' c.
Proof using E. intros [Hu Hp]. split; eauto using udp_at_ext, channel_at_ext. Qed.
End Lasting.

(** A session over UDP, and one over TCP. *)
Definition udp_session (w : World) (i : nat) : Prop :=
  ∃ s t, w_session_heap w !! i = Some s ∧ sUDPTransport s = Some t.
Definition tcp_session (w : World) (i : nat) : Prop :=
  ∃ s t, w_session_heap w !! i = Some s ∧ sTransport s = Some t.

Lemma udp_session_ext w w' i : extends w w' → udp_session w i → udp_session w' i.
Proof.
  intros E (s & t & Hi & Ht). destruct (ext_sessions _ _ E i s Hi) as (s' & Hi' & Hs).
  unfold same in Hs. simplify_eq. exists s', t. split; [done|congruence].
Qed.
Lemma tcp_session_ext w w' i : extends w w' → tcp_session w i → tcp_session w' i.
Proof.
  intros E (s & t & Hi & Ht). destruct (ext_sessions _ _ E i s Hi) as (s' & Hi' & Hs).
  unfold same in Hs. simplify_eq. exists s', t. split; [done|congruence].
Qed.
Lemma udp_session_at w i : udp_session w i → session_at w i.
Proof. intros (s & t & Hs & _). by exists s. Qed.
Lemma tcp_session_at w i : tcp_session w i → session_at w i.
Proof. intros (s & t & Hs & _). by exists s. Qed.

#[export] Hint Resolve floor_at_ext tcp_at_ext session_at_ext client_at_ext channel_at_ext
  udp_at_ext session_ok_ext client_ok_ext udp_session_ext tcp_session_ext udp_session_at
  tcp_session_at : bfcp.

(** ** Safety of the steps *)

Abbreviation sf := (safe wf_world extends).

Lemma wf_tick {env : Env} w : wf_world w → wf_world (tick w).
Proof. by intros []; split. Qed.
Lemma ext_tick w : extends w (tick w).
Proof. by split. Qed.
Lemma wf_log_events {env : Env} evs w : wf_world w → wf_world (log_events evs w).
Proof. by intros []; split. Qed.
Lemma ext_log_events evs w : extends w (log_events evs w).
Proof. split; try done. by exists evs. Qed.
Lemma wf_set_nextTxID {env : Env} f w : wf_world w → wf_world (set_nextTxID f w).
Proof. by intros []; split. Qed.
Lemma ext_set_nextTxID f w : extends w (set_nextTxID f w).
Proof. by split. Qed.
#[export] Hint Resolve wf_tick wf_log_events wf_set_nextTxID ext_tick ext_log_events
  ext_set_nextTxID : bfcp.

Lemma wf_unregister_session {env : Env} k w : wf_world w → wf_world (set_sessions (delete k) w).
Proof. intros []; split; try done. cbn. intros k' i [_ Hk]%lookup_delete_Some. by apply wf_sessions0 in Hk. Qed.
Lemma wf_unregister_client {env : Env} k w : wf_world w → wf_world (set_udp_clients (delete k) w).
Proof. intros []; split; try done. cbn. intros k' i [_ Hk]%lookup_delete_Some. by apply wf_clients0 in Hk. Qed.
Lemma wf_unregister_floor {env : Env} k w : wf_world w → wf_world (set_floors (delete k) w).
Proof. intros []; split; try done. cbn. intros k' i [_ Hk]%lookup_delete_Some. by apply wf_floors0 in Hk. Qed.
Lemma wf_register_session {env : Env} k i w :
  wf_world w → session_at w i → wf_world (set_sessions <[k := i]> w).
Proof.
  intros [] Hi; split; try done. cbn. intros k' j [[_ <-]|[_ Hk]]%lookup_insert_Some; [done|].
  by apply wf_sessions0 in Hk.
Qed.

(** A cell of a heap is replaced by one with the same fixed part. *)
Lemma set_session_heap_ok {env : Env} i s s' w :
  wf_world w → w_session_heap w !! i = Some s →
  (sTransport s', sUDPTransport s') = (sTransport s, sUDPTransport s) →
  wf_world (set_session_heap <[i := s']> w) ∧ extends w (set_session_heap <[i := s']> w).
Proof.
  intros [] Hi Hs. assert (extends w (set_session_heap <[i := s']> w)) as E.
  { split; try done. eapply heap_ext_insert; [apply _|done|done]. }
  split; [|done]. split; try done; cbn.
  - intros k j Hk. apply (session_at_ext E). eauto.
  - intros j x Hj. apply (session_ok_ext E). apply list_lookup_insert_Some in Hj
      as [(<- & <- & _)|[_ Hj]]; [|by eapply wf_session_heap0].
    specialize (wf_session_heap0 i s Hi). injection Hs as Ht Hu. unfold session_ok in *.
    by rewrite Ht, Hu.
Qed.

Lemma set_transports_ok {env : Env} t tr tr' w :
  wf_world w → w_transports w !! t = Some tr → transport_ext tr tr' →
  wgWaiters (tKeepaliveWg tr') = wgWaiters (tKeepaliveWg tr) →
  wf_world (set_transports <[t := tr']> w) ∧ extends w (set_transports <[t := tr']> w).
Proof.
  intros [] Ht Hs Hw. assert (extends w (set_transports <[t := tr']> w)) as E.
  { split; try done. eapply heap_ext_insert; [apply _|done|done]. }
  split; [|done]. split; try done; cbn.
  - intros i s Hi. apply (session_ok_ext E). eauto.
  - intros t' x [(<- & <- & _)|[_ Hx]]%list_lookup_insert_Some; [rewrite Hw|]; eauto.
Qed.

Lemma set_client_heap_ok {env : Env} c cl cl' w :
  wf_world w → w_client_heap w !! c = Some cl →
  ucTransport cl' = ucTransport cl →
  (∀ tx ch, ucPending cl' !! tx = Some ch → channel_at w ch tx) →
  wf_world (set_client_heap <[c := cl']> w) ∧ extends w (set_client_heap <[c := cl']> w).
Proof.
  intros [] Hc Ht Hp. assert (extends w (set_client_heap <[c := cl']> w)) as E.
  { split; try done. eapply heap_ext_insert; [apply _|done|done]. }
  split; [|done]. split; try done; cbn.
  - intros k j Hk. apply (client_at_ext E). eauto.
  - intros j x Hj. apply (client_ok_ext E). apply list_lookup_insert_Some in Hj
      as [(<- & <- & _)|[_ Hj]]; [|by eapply wf_client_heap0].
    specialize (wf_client_heap0 c cl Hc). unfold client_ok in *. rewrite Ht. by split; [apply wf_client_heap0|].
Qed.

Lemma set_channels_ok {env : Env} ch x x' w :
  wf_world w → w_channels w !! ch = Some x → chTx x' = chTx x →
  (∀ m, chBuf x' = Some m → mTransactionID m = chTx x') →
  wf_world (set_channels <[ch := x']> w) ∧ extends w (set_channels <[ch := x']> w).
Proof.
  intros [] Hc Ht Hb. assert (extends w (set_channels <[ch := x']> w)) as E.
  { split; try done. eapply heap_ext_insert; [apply _|done|done]. }
  split; [|done]. split; try done; cbn.
  - intros c cl Hcl. apply (client_ok_ext E). eauto.
  - intros j y m Hj. apply list_lookup_insert_Some in Hj as [(<- & <- & _)|[_ Hj]]; eauto.
Qed.

Lemma new_channel_ok {env : Env} tx w :
  wf_world w →
  let w' := set_channels (λ l, l ++ [mkChan tx None]) w in
  wf_world w' ∧ extends w w' ∧ channel_at w' (length (w_channels w)) tx.
Proof.
  intros [] w'. assert (extends w w') as E by (split; try done; by apply heap_ext_snoc, _).
  split_and!; [|done|by exists None; apply list_lookup_middle]. split; try done; cbn.
  - intros c cl Hcl. apply (client_ok_ext E). eauto.
  - intros j y m [Hj|[_ [_ <-]%list_lookup_singleton_Some]]%lookup_app_Some; [eauto|done].
Qed.

Lemma new_client_ok {env : Env} cl w :
  wf_world w → client_ok w cl →
  let w' := set_client_heap (λ l, l ++ [cl]) w in
  wf_world w' ∧ extends w w' ∧ client_at w' (length (w_client_heap w)).
Proof.
  intros [] Hcl w'. assert (extends w w') as E by (split; try done; by apply heap_ext_snoc, _).
  split_and!; [|done|by eexists; apply list_lookup_middle]. split; try done; cbn.
  - intros k c Hk. apply (client_at_ext E). eauto.
  - intros c x Hx. apply (client_ok_ext E).
    apply lookup_app_Some in Hx as [Hx|[_ [_ <-]%list_lookup_singleton_Some]]; [eauto|done].
Qed.

Lemma wf_register_client {env : Env} k c w :
  wf_world w → client_at w c → wf_world (set_udp_clients <[k := c]> w).
Proof.
  intros [] Hc; split; try done. cbn. intros k' j [[_ <-]|[_ Hk]]%lookup_insert_Some; [done|].
  by apply wf_clients0 in Hk.
Qed.

(** ** Floors *)

Lemma floor_apply_id op fsm : fFloorID (floor_apply op fsm).2 = fFloorID fsm.
Proof.
  destruct op; cbn; unfold Floor_Request, Floor_Grant, Floor_Deny, Floor_Release, Floor_Revoke;
    repeat case_match; by simplify_eq/=.
Qed.

Lemma ops_of_app l h1 h2 : ops_of l (h1 ++ h2) = ops_of l h1 ++ ops_of l h2.
Proof. unfold ops_of. by rewrite filter_app, fmap_app. Qed.

Lemma ops_of_one l l' op : ops_of l [(l', op)] = if decide (l' = l) then [op] else [].
Proof. unfold ops_of. rewrite filter_cons. cbn. by case_decide. Qed.

Lemma floor_run_snoc ops op fsm :
  (floor_run (ops ++ [op]) fsm).2 = (floor_apply op (floor_run ops fsm).2).2.
Proof. rewrite floor_run_app. cbn. by destruct (floor_apply op _). Qed.

(** The world after an operation on a floor. *)
Definition apply_floor_op (l : nat) (op : floor_op) (w : World) : World :=
  tick (log_floor_op l op (set_floor_heap (alter (λ f, (floor_apply op f).2) l) w)).

Lemma apply_floor_op_ok {env : Env} l op w :
  wf_world w → floor_at w l →
  wf_world (apply_floor_op l op w) ∧ extends w (apply_floor_op l op w).
Proof.
  intros [] [f Hl].
  assert (extends w (apply_floor_op l op w)) as E.
  { split; try done; cbn; [|by exists [(l, op)]].
    intros i x Hi. destruct (decide (i = l)) as [->|].
    - exists (floor_apply op x).2. split; [|apply floor_apply_id].
      by rewrite list_lookup_alter_eq, Hi.
    - exists x. split; [|done]. by rewrite list_lookup_alter_ne. }
  split; [|done]. split; try done; cbn.
  - intros id l' Hid. destruct (wf_floors0 id l' Hid) as (f' & Hf' & <-).
    apply (ext_floors _ _ E) in Hf' as (f'' & ? & ?). by exists f''.
  - intros l' f' Hf'. unfold floor_traced. rewrite ops_of_app, ops_of_one. case_decide as Heq.
    + subst l'. rewrite list_lookup_alter_eq, Hl in Hf'. cbn in Hf'. simplify_eq.
      destruct (wf_traced0 l f Hl) as (id & conf & t & Hf). exists id, conf, t.
      by rewrite floor_run_snoc, <- Hf.
    + rewrite app_nil_r. rewrite list_lookup_alter_ne in Hf' by done. by apply wf_traced0.
  - intros l' op' [Hin|Hin]%elem_of_app; apply (floor_at_ext E); [by eapply wf_untouched0|].
    apply list_elem_of_singleton in Hin. simplify_eq. by eexists.
Qed.

Lemma ops_of_fresh {env : Env} w : wf_world w → ops_of (length (w_floor_heap w)) (w_history w) = [].
Proof.
  intros Hwf. unfold ops_of. rewrite filter_none; [done|]. apply Forall_forall.
  intros [l op] Hin Heq. cbn in Heq. subst l.
  apply (wf_untouched _ Hwf) in Hin as [f Hf]. apply lookup_lt_Some in Hf. lia.
Qed.

(** The world after a floor has been created. *)
Definition create_floor (fsm : FloorStateMachine) (w : World) : World :=
  tick (set_floors <[fFloorID fsm := length (w_floor_heap w)]> (set_floor_heap (λ h, h ++ [fsm]) w)).

Lemma create_floor_ok {env : Env} id conf t w :
  wf_world w →
  wf_world (create_floor (NewFloorStateMachine id conf t) w) ∧
  extends w (create_floor (NewFloorStateMachine id conf t) w) ∧
  floor_at (create_floor (NewFloorStateMachine id conf t) w) (length (w_floor_heap w)).
Proof.
  intros Hwf. set (w' := create_floor _ w).
  assert (extends w w') as E by (split; try done; by apply heap_ext_snoc, _).
  assert (w_floor_heap w' !! length (w_floor_heap w) = Some (NewFloorStateMachine id conf t)) as Hnew
    by (apply list_lookup_middle; done).
  split_and!; [|done|by eexists]. pose proof (ops_of_fresh w Hwf) as Hfresh. destruct Hwf.
  split; try done; cbn.
  - intros id' l [[<- <-]|[_ Hl]]%lookup_insert_Some; [by eexists|].
    destruct (wf_floors0 id' l Hl) as (f & Hf & <-).
    apply (ext_floors _ _ E) in Hf as (f'' & ? & ?). by exists f''.
  - intros l f [Hf|[Hlt Hf]]%lookup_app_Some; [by apply wf_traced0|].
    apply list_lookup_singleton_Some in Hf as [Hz <-].
    replace l with (length (w_floor_heap w)) by lia. exists id, conf, t. by rewrite Hfresh.
  - intros l op Hin. apply (floor_at_ext E). by eapply wf_untouched0.
Qed.

(** ** New sessions and transports *)

Lemma new_session_ok {env : Env} s w :
  wf_world w → session_ok w s →
  wf_world (set_session_heap (λ l, l ++ [s]) w) ∧ extends w (set_session_heap (λ l, l ++ [s]) w) ∧
  w_session_heap (set_session_heap (λ l, l ++ [s]) w) !! length (w_session_heap w) = Some s.
Proof.
  intros [] Hs. set (w' := set_session_heap _ w).
  assert (extends w w') as E by (split; try done; by apply heap_ext_snoc, _).
  split_and!; [|done|by apply list_lookup_middle]. split; try done; cbn.
  - intros k i Hk. apply (session_at_ext E). eauto.
  - intros i x [Hx|[_ Hx]]%lookup_app_Some; apply (session_ok_ext E); [eauto|].
    by apply list_lookup_singleton_Some in Hx as [_ <-].
Qed.

Lemma new_udp_transport_ok {env : Env} key w :
  wf_world w →
  let w' := set_udp_transports (λ l, l ++ [mkUDPTransport (Some key) false]) w in
  let w'' := set_udp_sessions <[key := length (w_udp_transports w)]> w' in
  wf_world w'' ∧ extends w w'' ∧ udp_at w'' (length (w_udp_transports w)).
Proof.
  intros [] w' w''.
  assert (extends w w'') as E by (split; try done; by apply heap_ext_snoc, _).
  assert (udp_at w'' (length (w_udp_transports w))) as Hnew
    by (exists (mkUDPTransport (Some key) false), key; split; [by apply list_lookup_middle|done]).
  split_and!; [|done|done]. split; try done; cbn.
  - intros i s Hi. apply (session_ok_ext E). eauto.
  - intros k t [[_ <-]|[_ Hk]]%lookup_insert_Some; [done|]. apply (udp_at_ext E). eauto.
  - intros c cl Hc. apply (client_ok_ext E). eauto.
Qed.

Lemma new_transport_ok {env : Env} tr w :
  wf_world w → wgWaiters (tKeepaliveWg tr) = 0%nat →
  wf_world (set_transports (λ l, l ++ [tr]) w) ∧ extends w (set_transports (λ l, l ++ [tr]) w) ∧
  tcp_at (set_transports (λ l, l ++ [tr]) w) (length (w_transports w)).
Proof.
  intros [] Hw. set (w' := set_transports _ w).
  assert (extends w w') as E by (split; try done; by apply heap_ext_snoc, _).
  split_and!; [|done|by eexists; apply list_lookup_middle]. split; try done; cbn.
  - intros i s Hi. apply (session_ok_ext E). eauto.
  - intros t x [Hx|[_ [_ <-]%list_lookup_singleton_Some]]%lookup_app_Some; eauto.
Qed.

(** ** Safety of the steps of a program *)

Lemma sf_deref {env : Env} {A} (heap : World → list A) l w :
  (∀ w', wf_world w' → extends w w' → is_Some (heap w' !! l)) →
  sf (λ x w', heap w' !! l = Some x ∧ wf_world w') w (deref heap l).
Proof.
  intros Hl. apply safe_atomic; [apply _|]. intros w1 H1 E1.
  destruct (Hl w1 H1 E1) as [x Hx]. exists x, w1. by rewrite Hx.
Qed.

Lemma sf_gets {env : Env} {A} (f : World → A) w : sf (λ x w', x = f w' ∧ wf_world w') w (gets f).
Proof. apply safe_atomic; [apply _|]. intros w1 H1 E1. by exists (f w1), w1. Qed.

Lemma sf_modify {env : Env} (f : World → World) w :
  (∀ w', wf_world w' → extends w w' → wf_world (f w') ∧ extends w' (f w')) →
  sf (λ _ _, True) w (modify f).
Proof.
  intros Hf. apply safe_atomic; [apply _|]. intros w1 H1 E1. destruct (Hf w1 H1 E1).
  by exists tt, (f w1).
Qed.

Lemma sf_emit {env : Env} e w : sf (λ _ _, True) w (emit e).
Proof. apply sf_modify. auto with bfcp. Qed.

Lemma sf_lift {env : Env} {A} (r : call A) w : is_Ok r → sf (λ _ _, True) w (lift r).
Proof. intros [a ->]. apply safe_atomic; [apply _|]. intros w1 H1 E1. by exists a, w1. Qed.

Section Steps.
Context {env : Env}.

Lemma sf_floor_call {X} l op (f : Time → FloorStateMachine → X * FloorStateMachine) w :
  (∀ t fsm, (f t fsm).2 = (floor_apply (op t) fsm).2) → floor_at w l →
  sf (λ _ _, True) w (floor_call l op f).
Proof.
  intros Hf Hl. apply safe_atomic; [apply _|]. intros w1 H1 E1.
  apply (floor_at_ext E1) in Hl. pose proof Hl as [fsm Hfsm]. rewrite Hfsm. cbn zeta.
  specialize (Hf (now (w_tick w1)) fsm). destruct (f _ fsm) as [x fsm'] eqn:Hx. cbn in Hf. subst fsm'.
  destruct (apply_floor_op_ok l (op (now (w_tick w1))) w1 H1 Hl) as [H2 E2].
  assert (set_floor_heap <[l := (floor_apply (op (now (w_tick w1))) fsm).2]> w1 =
          set_floor_heap (alter (λ f, (floor_apply (op (now (w_tick w1))) f).2) l) w1) as Heq.
  { unfold set_floor_heap. f_equal. symmetry. by apply (alter_insert (λ f, (floor_apply (op (now (w_tick w1))) f).2)). }
  eexists x, _. split; [done|]. by rewrite Heq.
Qed.

Lemma sf_floor_Request l u r p w : floor_at w l → sf (λ _ _, True) w (floor_Request l u r p).
Proof. apply sf_floor_call. intros _ fsm. cbn. by destruct (Floor_Request u r p fsm) as [[??]?]. Qed.
Lemma sf_floor_Grant l w : floor_at w l → sf (λ _ _, True) w (floor_Grant l).
Proof. by apply sf_floor_call. Qed.
Lemma sf_floor_Deny l w : floor_at w l → sf (λ _ _, True) w (floor_Deny l).
Proof. by apply sf_floor_call. Qed.
Lemma sf_floor_Release l u w : floor_at w l → sf (λ _ _, True) w (floor_Release l u).
Proof. by apply sf_floor_call. Qed.

Lemma sf_floor_get {X} l (f : FloorStateMachine → X) w :
  floor_at w l → sf (λ _ _, True) w (floor_get l f).
Proof.
  intros Hl. eapply safe_bind; [apply _|apply sf_deref; intros w' _ E; apply (floor_at_ext E _ Hl)|].
  intros fsm w' E _. by constructor.
Qed.

Lemma sf_upd_session i f w : session_at w i → sf (λ _ _, True) w (upd_session i f).
Proof.
  intros Hi. apply safe_atomic; [apply _|]. intros w1 H1 E1.
  pose proof (session_at_ext E1 _ Hi) as [s Hs]. rewrite Hs.
  destruct (set_session_heap_ok i s (set_StateMachine (f (now (w_tick w1))) s) w1) as [H2 E2]; [done..|].
  eexists tt, _. split_and!; [done|by apply wf_tick| |done]. etrans; [exact E2|apply ext_tick].
Qed.

Lemma sf_nextTxID_Add w : sf (λ _ _, True) w nextTxID_Add.
Proof. apply safe_atomic; [apply _|]. intros w1 H1 E1. eexists _, _. split_and!; [done|..]; auto with bfcp. Qed.

Lemma sf_range_of `{Countable K} (m : World → gmap K nat) (P : World → nat → Prop) w :
  (∀ w', wf_world w' → map_Forall (λ _ l, P w' l) (m w')) →
  (∀ w', P w' = P (tick w')) →
  sf (λ ls w', Forall (P w') ls) w (range_of m).
Proof.
  intros HP Ht. apply safe_atomic; [apply _|]. intros w1 H1 E1.
  eexists _, _. split_and!; [done|by apply wf_tick|apply ext_tick|].
  rewrite <- Ht, range_perm. apply Forall_fmap, Forall_forall. intros [k l] Hin.
  apply elem_of_map_to_list in Hin. cbn. by apply (HP w1 H1 k).
Qed.

Lemma sf_range_floors w : sf (λ ls w', Forall (floor_at w') ls) w (range_of w_floors).
Proof.
  apply sf_range_of; [|done]. intros w' [] id l Hl. destruct (wf_floors0 id l Hl) as (f & Hf & _).
  by exists f.
Qed.
Lemma sf_range_sessions w : sf (λ ls w', Forall (session_at w') ls) w (range_of w_sessions).
Proof. apply sf_range_of; [|done]. intros w' [] k i Hi. eauto. Qed.

Lemma sf_GetFloor id w :
  sf (λ r w', match r with Some l => floor_at w' l | None => True end) w (GetFloor id).
Proof.
  eapply safe_mono; [apply _|apply sf_gets|]. intros r w' _ [-> Hwf].
  destruct (w_floors w' !! id) as [l|] eqn:Hl; [|done].
  destruct (wf_floors _ Hwf id l Hl) as (f & Hf & _). by exists f.
Qed.

Lemma sf_CreateFloor id w : sf (λ l w', floor_at w' l) w (CreateFloor id).
Proof.
  apply safe_atomic; [apply _|]. intros w1 H1 E1. destruct (w_floors w1 !! id) as [l|] eqn:Hl.
  - destruct (wf_floors _ H1 id l Hl) as (f & Hf & _). exists l, w1. split_and!; [done..|by exists f].
  - destruct (create_floor_ok id (cConferenceID config) (now (w_tick w1)) w1 H1) as (? & ? & ?).
    by eexists _, _.
Qed.

Lemma sf_alloc_session tcp udp u r w :
  session_ok w (mkSession tcp udp (NewSessionStateMachine 0 0 "" 0)) →
  sf (λ i w', ∃ s, w_session_heap w' !! i = Some s ∧ sTransport s = tcp ∧ sUDPTransport s = udp)
    w (alloc_session tcp udp u r).
Proof.
  intros Hs. apply safe_atomic; [apply _|]. intros w1 H1 E1. apply (session_ok_ext E1) in Hs.
  set (s := mkSession tcp udp (NewSessionStateMachine (u16 (cConferenceID config)) u r (now (w_tick w1)))).
  destruct (new_session_ok s w1 H1) as (H2 & E2 & Hi); [exact Hs|].
  eexists _, _. split_and!; [done|by apply wf_tick|etrans; [exact E2|apply ext_tick]|by exists s].
Qed.

Lemma sf_getOrCreateTransport key w : sf (λ t w', udp_at w' t) w (getOrCreateTransport key).
Proof.
  apply safe_atomic; [apply _|]. intros w1 H1 E1. destruct (w_udp_sessions w1 !! key) as [t|] eqn:Ht.
  - exists t, w1. split_and!; [done..|by eapply wf_udp_sessions].
  - destruct (new_udp_transport_ok key w1 H1) as (? & ? & ?). by eexists _, _.
Qed.

Lemma sf_register_session k i w : session_at w i → sf (λ _ _, True) w (register_session k i).
Proof.
  intros Hi. apply safe_atomic; [apply _|]. intros w1 H1 E1.
  eexists _, _. split_and!; [done|apply wf_register_session; [done|apply (session_at_ext E1 _ Hi)]| |done].
  by split.
Qed.

(** ** Transports *)

Lemma socket_write_ok remote data w :
  wf_world w → wf_world (socket_write remote data w).2 ∧ extends w (socket_write remote data w).2.
Proof.
  intros Hw. unfold socket_write. destruct (write_ok _); cbn; auto with bfcp.
  split; [auto with bfcp|]. etrans; [apply ext_log_events|apply ext_tick].
Qed.

(** The step of a send: [Encode] returns, then the data is written. *)
Lemma send_step remote msg w :
  wf_world w →
  ∃ r w', encode_or msg
      (λ e, Ok ((Some (MessageEncodeFailed e), msg), w))
      (λ msg data, let '(e, w) := socket_write remote data w in Ok ((e, msg), w)) = Ok (r, w') ∧
    wf_world w' ∧ extends w w'.
Proof.
  intros Hw. unfold encode_or. pose proof (Encode_returns msg) as Hr.
  destruct (Encode msg) as [[msg' data]|e| |]; [|by eexists _, _|done..].
  destruct (socket_write_ok remote data w Hw) as [H2 E2].
  destruct (socket_write remote data w) as [e w2]. by eexists _, _.
Qed.

Lemma sf_UDP_SendMessage t msg w : udp_at w t → sf (λ _ _, True) w (UDPTransport_SendMessage t msg).
Proof.
  intros Ht. apply safe_atomic; [apply _|]. intros w1 H1 E1.
  pose proof (udp_at_ext E1 _ Ht) as ([remote closed] & r & -> & Hr). cbn in Hr. subst remote.
  destruct closed; [by eexists _, _|]. destruct (send_step r msg w1 H1) as (x & w2 & -> & ? & ?).
  by eexists _, _.
Qed.

Lemma sf_UDP_SendRawData t data w : udp_at w t → sf (λ _ _, True) w (UDPTransport_SendRawData t data).
Proof.
  intros Ht. apply safe_atomic; [apply _|]. intros w1 H1 E1.
  pose proof (udp_at_ext E1 _ Ht) as ([remote closed] & r & -> & Hr). cbn in Hr. subst remote.
  destruct closed; [by eexists _, _|]. destruct (socket_write_ok r data w1 H1) as [? ?].
  eexists _, _. split; [by rewrite <- surjective_pairing|done].
Qed.

Lemma sf_UDP_RemoteAddr t w : udp_at w t → sf (λ _ _, True) w (UDPTransport_RemoteAddr t).
Proof.
  intros Ht. apply safe_atomic; [apply _|]. intros w1 H1 E1.
  pose proof (udp_at_ext E1 _ Ht) as ([remote closed] & r & -> & Hr). cbn in Hr. subst remote.
  by eexists _, _.
Qed.

Lemma sf_UDP_IsClosed t w : udp_at w t → sf (λ _ _, True) w (UDPTransport_IsClosed t).
Proof.
  intros Ht. apply safe_atomic; [apply _|]. intros w1 H1 E1.
  pose proof (udp_at_ext E1 _ Ht) as (tr & r & -> & Hr). by eexists _, _.
Qed.

Lemma sf_TCP_SendMessage t msg w : tcp_at w t → sf (λ _ _, True) w (Transport_SendMessage t msg).
Proof.
  intros Ht. apply safe_atomic; [apply _|]. intros w1 H1 E1. pose proof (tcp_at_ext E1 _ Ht) as [tr ->].
  destruct (tClosed tr); [by eexists _, _|].
  destruct (send_step (tRemote tr) msg w1 H1) as (x & w2 & -> & ? & ?). by eexists _, _.
Qed.

Lemma sf_TCP_SendRawData t data w : tcp_at w t → sf (λ _ _, True) w (Transport_SendRawData t data).
Proof.
  intros Ht. apply safe_atomic; [apply _|]. intros w1 H1 E1. pose proof (tcp_at_ext E1 _ Ht) as [tr ->].
  destruct (tClosed tr); [by eexists _, _|]. destruct (socket_write_ok (tRemote tr) data w1 H1) as [? ?].
  eexists _, _. split; [by rewrite <- surjective_pairing|done].
Qed.

Lemma sf_TCP_RemoteAddr t w : tcp_at w t → sf (λ _ _, True) w (Transport_RemoteAddr t).
Proof.
  intros Ht. apply safe_atomic; [apply _|]. intros w1 H1 E1. pose proof (tcp_at_ext E1 _ Ht) as [tr ->].
  by eexists _, _.
Qed.

Lemma sf_TCP_IsClosed t w : tcp_at w t → sf (λ _ _, True) w (Transport_IsClosed t).
Proof.
  intros Ht. apply safe_atomic; [apply _|]. intros w1 H1 E1. pose proof (tcp_at_ext E1 _ Ht) as [tr ->].
  by eexists _, _.
Qed.

Lemma keepalive_tcp w t : keepalive_at w t → tcp_at w t.
Proof. intros (tr & Ht & _). by exists tr. Qed.

Lemma sf_deref_keepalive t w :
  keepalive_at w t → sf (λ tr _, keepalive_on tr) w (deref w_transports t).
Proof.
  intros Ht. apply safe_atomic; [apply _|]. intros w1 H1 E1.
  destruct (keepalive_at_ext E1 _ Ht) as (tr & -> & Hon). by eexists _, _.
Qed.

(** A change of a TCP transport that leaves its address and its keepalive. *)
Lemma sf_TCP_update t (f : Transport → Transport) w (p : prog ()) :
  tcp_at w t → (∀ tr, transport_ext tr (f tr)) →
  (∀ tr, wgWaiters (tKeepaliveWg (f tr)) = wgWaiters (tKeepaliveWg tr)) →
  (∀ w1 tr, w_transports w1 !! t = Some tr →
     run p w1 = Ok (tt, set_transports <[t := f tr]> w1)) →
  (∃ g, p = atomic g) → sf (λ _ _, True) w p.
Proof.
  intros Ht Hf Hw Hrun [g ->]. apply safe_atomic; [apply _|]. intros w1 H1 E1.
  pose proof (tcp_at_ext E1 _ Ht) as [tr Htr]. specialize (Hrun w1 tr Htr). rewrite run_atomic in Hrun.
  eexists _, _. split; [exact Hrun|]. by destruct (set_transports_ok t tr (f tr) w1).
Qed.

Lemma sf_Transport_Close t w : tcp_at w t → sf (λ _ _, True) w (Transport_Close t).
Proof.
  intros Ht. apply (sf_TCP_update t close_tcp); [done|done|done| |by eexists].
  intros w1 tr Htr. unfold Transport_Close. by rewrite run_atomic, Htr.
Qed.

Lemma sf_EnableKeepalive t i s w :
  0 < i → tcp_at w t → sf (λ _ _, True) w (EnableKeepalive t i s).
Proof.
  intros Hi Ht. apply (sf_TCP_update t (with_keepalive i s)); [done| |done| |by eexists].
  { intros tr. split; [done|]. intros _. by split; [eexists|]. }
  intros w1 tr Htr. unfold EnableKeepalive. by rewrite run_atomic, Htr.
Qed.

Lemma sf_StartKeepalive t w : tcp_at w t → sf (λ _ _, True) w (StartKeepalive t).
Proof.
  intros Ht. unfold StartKeepalive. eapply safe_bind with (Q := λ _ w', tcp_at w' t); [exact _| |].
  { apply safe_atomic; [apply _|]. intros w1 H1 E1. pose proof (tcp_at_ext E1 _ Ht) as [tr Htr].
    rewrite Htr. eexists _, _. by split_and!; [..|by eexists]. }
  intros tr0 wa _ Hta. destruct (tKeepalive tr0); [|by constructor]. destruct (0 <? _); [|by constructor].
  apply safe_atomic; [apply _|]. intros w1 H1 E1. pose proof (tcp_at_ext E1 _ Hta) as [tr Htr].
  rewrite Htr. cbn. unfold wg_add. rewrite (wf_waiters _ H1 t tr Htr), andb_false_r.
  eexists _, _. split; [done|].
  by destruct (set_transports_ok t tr (with_wg (wg_more (tKeepaliveWg tr)) tr) w1).
Qed.
End Steps.

(** ** Safety of the handlers *)

(** Facts move to the next world. *)
Ltac advance E :=
  match type of E with extends ?w ?w' =>
    repeat match goal with
    | H : floor_at w _ |- _ => apply (floor_at_ext E) in H
    | H : udp_at w _ |- _ => apply (udp_at_ext E) in H
    | H : tcp_at w _ |- _ => apply (tcp_at_ext E) in H
    | H : keepalive_at w _ |- _ => apply (keepalive_at_ext E) in H
    | H : session_at w _ |- _ => apply (session_at_ext E) in H
    | H : client_at w _ |- _ => apply (client_at_ext E) in H
    | H : channel_at w _ _ |- _ => apply (channel_at_ext E) in H
    | H : udp_session w _ |- _ => apply (udp_session_ext _ _ _ E) in H
    | H : tcp_session w _ |- _ => apply (tcp_session_ext _ _ _ E) in H
    | H : Forall (floor_at w) _ |- _ => apply (floors_at_ext E) in H
    end; try clear E
  end.

(** [sfstep lem]: the next statement of a program is safe by [lem]; its result and
    the world after it are introduced. *)
Tactic Notation "sfstep" uconstr(lem) "as" simple_intropattern(x) simple_intropattern(q) :=
  eapply safe_bind; [exact _|eapply lem; eauto with bfcp|];
  let w' := fresh "w" in let E := fresh "E" in
  intros x w' E; cbn beta iota; intros q; advance E.
Tactic Notation "sfstep" uconstr(lem) := sfstep lem as ? ?.
Tactic Notation "sflast" uconstr(lem) := eapply safe_mono; [exact _|eapply lem; eauto with bfcp|done].

Lemma sf_ret {env : Env} {A} (Q : A → World → Prop) a w : Q a w → sf Q w (mret a).
Proof. by constructor. Qed.
#[export] Hint Resolve sf_ret : bfcp.

Section Handlers.
Context {env : Env}.

Lemma sf_deref_session i w :
  session_at w i →
  sf (λ s w', w_session_heap w' !! i = Some s ∧ session_ok w' s) w (deref w_session_heap i).
Proof.
  intros Hi. eapply safe_mono; [exact _|apply sf_deref; intros w' _ E; exact (session_at_ext E _ Hi)|].
  intros s w' _ [Hs Hwf]. split; [done|]. by eapply wf_session_heap.
Qed.

Lemma session_ok_udp w s t : session_ok w s → sUDPTransport s = Some t → udp_at w t.
Proof. unfold session_ok. intros Hs Ht. rewrite Ht in Hs. by repeat case_match. Qed.
Lemma session_ok_tcp w s t : session_ok w s → sTransport s = Some t → tcp_at w t.
Proof. unfold session_ok. intros Hs Ht. rewrite Ht in Hs. by repeat case_match. Qed.
Hint Resolve session_ok_udp session_ok_tcp : bfcp.

Lemma sf_message_out remote msg w : sf (λ _ _, True) w (message_out remote msg).
Proof.
  apply safe_when; [exact _|]. intros _. sfstep sf_lift. apply sf_emit.
Qed.
Lemma sf_message_in remote msg w : sf (λ _ _, True) w (message_in remote msg).
Proof.
  apply safe_when; [exact _|]. intros _. sfstep sf_lift. apply sf_emit.
Qed.

Lemma sf_sendUDP i msg w : session_at w i → sf (λ _ _, True) w (sendUDP i msg).
Proof.
  intros Hi. unfold sendUDP. sfstep sf_deref_session as s [_ Hs].
  destruct (sUDPTransport s) as [t|] eqn:Ht; [|by constructor].
  apply (session_ok_udp _ _ _ Hs) in Ht. sfstep sf_UDP_SendMessage as [[e|] msg'] _.
  - sfstep sf_UDP_RemoteAddr. by constructor.
  - apply safe_when; [exact _|]. intros _. sfstep sf_UDP_RemoteAddr. apply sf_message_out.
Qed.

Lemma sf_send i msg w : session_at w i → sf (λ _ _, True) w (send i msg).
Proof.
  intros Hi. unfold send. sfstep sf_deref_session as s [_ Hs].
  destruct (sUDPTransport s) as [t|] eqn:Hu; [by apply sf_sendUDP|].
  destruct (sTransport s) as [t|] eqn:Ht; [|by constructor].
  apply (session_ok_tcp _ _ _ Hs) in Ht. sfstep sf_TCP_SendMessage as [[e|] msg'] _;
    sfstep sf_TCP_RemoteAddr; [by constructor|apply sf_message_out].
Qed.

Lemma sf_sendRaw i data w : session_at w i → sf (λ _ _, True) w (sendRaw i data).
Proof.
  intros Hi. unfold sendRaw. sfstep sf_deref_session as s [_ Hs].
  destruct (sUDPTransport s) as [t|] eqn:Hu.
  - apply (session_ok_udp _ _ _ Hs) in Hu. sfstep sf_UDP_SendRawData as [e|] _; [|by constructor].
    sfstep sf_UDP_IsClosed as [|] _; [by constructor|]. sfstep sf_UDP_RemoteAddr. by constructor.
  - destruct (sTransport s) as [t|] eqn:Ht; [|by constructor].
    apply (session_ok_tcp _ _ _ Hs) in Ht. sfstep sf_TCP_SendRawData as [e|] _; [|by constructor].
    sfstep sf_TCP_IsClosed as [|] _; [by constructor|]. sfstep sf_TCP_RemoteAddr. by constructor.
Qed.

Lemma sf_udp_remote i w : udp_session w i → sf (λ _ _, True) w (udp_remote i).
Proof.
  intros Hi. unfold udp_remote. eapply safe_bind; [exact _|apply sf_deref_session; eauto with bfcp|].
  intros s w' E [Hs Hok]. apply (udp_session_ext _ _ _ E) in Hi as (s' & t & Hs' & Ht).
  simplify_eq. rewrite Ht. apply sf_UDP_RemoteAddr. eauto with bfcp.
Qed.
Lemma sf_tcp_remote i w : tcp_session w i → sf (λ _ _, True) w (tcp_remote i).
Proof.
  intros Hi. unfold tcp_remote. eapply safe_bind; [exact _|apply sf_deref_session; eauto with bfcp|].
  intros s w' E [Hs Hok]. apply (tcp_session_ext _ _ _ E) in Hi as (s' & t & Hs' & Ht).
  simplify_eq. rewrite Ht. apply sf_TCP_RemoteAddr. eauto with bfcp.
Qed.

Lemma sf_sendUDPError i req code info w :
  udp_session w i → sf (λ _ _, True) w (sendUDPError i req code info).
Proof.
  intros Hi. unfold sendUDPError. sfstep sf_sendUDP. sfstep sf_udp_remote. by constructor.
Qed.
Lemma sf_sendError i req code info w :
  tcp_session w i → sf (λ _ _, True) w (sendError i req code info).
Proof.
  intros Hi. unfold sendError. sfstep sf_send. sfstep sf_tcp_remote. by constructor.
Qed.

Lemma sf_broadcastFloorStatusUDP except u f r st w :
  sf (λ _ _, True) w (broadcastFloorStatusUDP except u f r st).
Proof.
  unfold broadcastFloorStatusUDP. eapply safe_bind; [exact _|apply sf_range_sessions|].
  intros ls w1 _ Hls. apply safe_for_each; [exact _|]. intros i w2 Hi E.
  rewrite Forall_forall in Hls. apply Hls, (session_at_ext E) in Hi.
  sfstep sf_deref_session as s [_ Hs]. case_match; [by constructor|].
  sfstep sf_nextTxID_Add. by apply sf_sendUDP.
Qed.

Lemma sf_broadcastFloorStatus except u f r st w :
  sf (λ _ _, True) w (broadcastFloorStatus except u f r st).
Proof.
  unfold broadcastFloorStatus. eapply safe_bind; [exact _|apply sf_range_sessions|].
  intros ls w1 _ Hls. apply safe_for_each; [exact _|]. intros i w2 Hi E.
  rewrite Forall_forall in Hls. apply Hls, (session_at_ext E) in Hi.
  case_match; [by constructor|]. sfstep sf_nextTxID_Add. by apply sf_send.
Qed.

Lemma sf_sendFloorState i f st w : session_at w i → sf (λ _ _, True) w (sendFloorState i f st).
Proof.
  intros Hi. unfold sendFloorState. sfstep sf_deref_session as s [_ Hs].
  eapply safe_bind with (Q := λ _ _, True); [exact _| |].
  { destruct (sUDPTransport s); [by constructor|]. sfstep sf_nextTxID_Add. by constructor. }
  intros tx w1 E1 _. advance E1. sfstep sf_deref_session as s2 _. sfstep sf_sendRaw.
  apply safe_when; [exact _|]. intros _. sfstep sf_deref_session as s3 [_ Hs3].
  eapply safe_bind with (Q := λ _ _, True); [exact _| |intros; apply sf_emit].
  destruct (sUDPTransport s3) as [t|] eqn:Hu; [apply sf_UDP_RemoteAddr; eauto with bfcp|].
  destruct (sTransport s3) as [t|] eqn:Ht; [apply sf_TCP_RemoteAddr; eauto with bfcp|by constructor].
Qed.

Lemma sf_broadcastFloorState f b st w : sf (λ _ _, True) w (broadcastFloorState f b st).
Proof.
  unfold broadcastFloorState. eapply safe_bind; [exact _|apply sf_range_sessions|].
  intros ls w1 _ Hls. apply safe_for_each; [exact _|]. intros i w2 Hi E.
  rewrite Forall_forall in Hls. by apply sf_sendFloorState, (session_at_ext E), Hls.
Qed.
End Handlers.
