(* ===== verification/Safety.v ===== *)
(** * Safety of the whole server

    Every handler and every entry point is safe ([ServerSafe.v] has the steps and
    the sends), so that any number of goroutines, serving datagrams, connections,
    keepalives and calls of the application in any interleaving, keep the server's
    invariant and never panic: no nil is dereferenced, and what each of them owns - the
    unit of a keepalive in its wait group, the right to close the channel of a client - is
    there when it is used. *)

From S2P Require Import Prelude Types Message Grouped Codec FloorFSM Session Prog World Transport UDPClient Server Threads Interleave Frame ServerSafe Scenario.

Section Handlers.
Context {env : Env}.

Hint Resolve sf_emit sf_sendUDP sf_send sf_sendUDPError sf_sendError sf_upd_session sf_nextTxID_Add
  sf_broadcastFloorStatusUDP sf_broadcastFloorStatus sf_message_out sf_message_in
  sf_floor_Request sf_floor_Grant sf_floor_Deny sf_floor_Release sf_floor_get : bfcp.
Lemma sf_session_SetState i st w : session_at w i → sf (λ _ _, True) w (session_SetState i st).
Proof. apply sf_upd_session. Qed.
Hint Resolve sf_session_SetState : bfcp.
Hint Extern 1 (sf _ _ (when _ _)) => (apply safe_when; [exact _|]) : bfcp.

(** ** Lookups *)

Lemma sf_find_floor test ls w :
  Forall (floor_at w) ls → (∀ l w', floor_at w' l → sf (λ _ _, True) w' (test l)) →
  sf (λ r w', match r with Some l => floor_at w' l | None => True end) w (find_floor test ls).
Proof.
  intros Hls Ht. revert w Hls. induction ls as [|l ls IH]; intros w Hls; cbn [find_floor]; [by constructor|].
  apply Forall_cons_1 in Hls as [Hl Hrest].
  eapply safe_bind; [exact _|by apply Ht|]. intros [|] w' E _; advance E; [by constructor|by apply IH].
Qed.

Lemma sf_GetFloorByRequestID id w :
  sf (λ r w', match r with Some l => floor_at w' l | None => True end) w (GetFloorByRequestID id).
Proof.
  eapply safe_bind; [exact _|apply sf_range_floors|]. intros ls w' _ Hls.
  apply sf_find_floor; [done|]. intros l wb Hl. sfstep sf_floor_get. by constructor.
Qed.

Lemma sf_floorOwnedBy u w :
  sf (λ r w', match r with Some l => floor_at w' l | None => True end) w (floorOwnedBy u).
Proof.
  eapply safe_bind; [exact _|apply sf_range_floors|]. intros ls w' _ Hls.
  apply sf_find_floor; [done|]. intros l wb Hl. sfstep sf_floor_get as [|] _; [by constructor|].
  sfstep sf_floor_get. by constructor.
Qed.

Lemma sf_request_floor id w : sf (λ l w', floor_at w' l) w (request_floor id).
Proof.
  eapply safe_bind; [exact _|apply sf_GetFloor|]. intros [l|] w' E Hl; [by constructor|].
  apply sf_CreateFloor.
Qed.

Lemma sf_ask_grant f u r w : sf (λ _ _, True) w (ask_grant f u r).
Proof.
  unfold ask_grant. destruct (OnFloorRequest hooks); [|by constructor].
  sfstep sf_emit. by constructor.
Qed.

Lemma sf_release_lookup msg w :
  sf (λ t w', match t with ReleaseOf l _ => floor_at w' l | ReleaseError _ _ => True end) w
    (release_lookup msg).
Proof.
  unfold release_lookup. sfstep sf_lift as [floorID|] _.
  - eapply safe_bind; [exact _|apply sf_GetFloor|]. intros [l|] w' E Hl; by constructor.
  - sfstep sf_lift as [reqID|] _; [|by constructor].
    eapply safe_bind; [exact _|apply sf_GetFloorByRequestID|]. intros [l|] w' E Hl.
    + eapply safe_bind; [exact _|by apply sf_floor_get|]. intros id wb Eb _. advance Eb.
      by constructor.
    + eapply safe_bind; [exact _|apply sf_floorOwnedBy|]. intros [l|] wb Eb Hl2; [|by constructor].
      sfstep sf_floor_get. sfstep sf_floor_get. by constructor.
Qed.

(** ** Hello *)

Lemma sf_store_supported i msg w : session_at w i → sf (λ _ _, True) w (store_supported i msg).
Proof.
  intros Hi. unfold store_supported. eapply safe_bind with (Q := λ _ _, True); [exact _| |].
  - destruct (GetAttribute AttrSupportedPrimitives msg); eauto with bfcp.
  - intros _ w' E _. advance E. destruct (GetAttribute AttrSupportedAttributes msg); eauto with bfcp.
Qed.

Lemma sf_handleUDPHello i msg w : udp_session w i → sf (λ _ _, True) w (handleUDPHello i msg).
Proof.
  intros Hi. unfold handleUDPHello. sfstep sf_upd_session. sfstep sf_udp_remote.
  sfstep sf_register_session. sfstep sf_store_supported. sfstep sf_sendUDP.
  sfstep sf_upd_session. auto with bfcp.
Qed.

Lemma sf_handleHello i msg w : tcp_session w i → sf (λ _ _, True) w (handleHello i msg).
Proof.
  intros Hi. unfold handleHello. sfstep sf_upd_session. sfstep sf_tcp_remote.
  sfstep sf_register_session. sfstep sf_store_supported. sfstep sf_send.
  sfstep sf_upd_session. eapply safe_bind; [exact _|apply sf_deref_session; eauto with bfcp|].
  intros s wa Es [Hs Hok]. apply (tcp_session_ext _ _ _ Es) in Hi as (s' & t & Hs' & Ht).
  simplify_eq. rewrite Ht. pose proof (session_ok_tcp _ _ _ Hok Ht) as Hat.
  eapply safe_bind; [exact _|by apply sf_EnableKeepalive|]. intros _ wb Eb _. advance Eb.
  sfstep sf_StartKeepalive.
  apply safe_when; [exact _|]. intros _. sfstep sf_TCP_RemoteAddr. apply sf_emit.
Qed.

Lemma sf_keepalive_cancelled t b w :
  keepalive_at w t → sf (λ _ _, True) w (keepalive_cancelled t b).
Proof.
  intros Ht. apply safe_atomic; [apply _|]. intros w1 H1 E1.
  destruct (keepalive_at_ext E1 _ Ht) as (tr & -> & _).
  eexists _, _. split_and!; [done|by apply wf_tick|by split|done].
Qed.

Lemma sf_keepalive_send t w : keepalive_at w t → sf (λ _ _, True) w (keepalive_send t).
Proof.
  intros Ht. unfold keepalive_send. eapply safe_bind; [exact _|by apply sf_deref_keepalive|].
  intros tr wa Ea [[s ->] _]. advance Ea. apply keepalive_tcp in Ht. unfold keepalive_sender.
  sfstep sf_nextTxID_Add. sfstep sf_TCP_SendMessage. by constructor.
Qed.

(** ** FloorRequest *)

Lemma sf_handleUDPFloorRequest i msg w :
  udp_session w i → sf (λ _ _, True) w (handleUDPFloorRequest i msg).
Proof.
  intros Hi. unfold handleUDPFloorRequest. sfstep sf_lift as [floorID|] _; [|eauto with bfcp].
  sfstep sf_request_floor as l Hl. sfstep sf_nextTxID_Add as txID _. sfstep sf_ask_grant as b _.
  sfstep sf_floor_Request as [status [e|]] _; [sfstep sf_sendUDPError; auto with bfcp|].
  eapply safe_bind with (Q := λ _ _, True); [exact _| |].
  { destruct (b && _); [|by constructor]. sfstep sf_floor_Grant. by constructor. }
  intros [|] wa Ea _; advance Ea.
  { sfstep sf_sendUDP. sfstep sf_upd_session. auto with bfcp. }
  eapply safe_bind with (Q := λ _ _, True); [exact _| |].
  { destruct (negb b && _); [|by constructor]. sfstep sf_floor_Deny. by constructor. }
  intros [|] wb Eb _; advance Eb; sfstep sf_sendUDP; [|eauto with bfcp].
  sfstep sf_upd_session. auto with bfcp.
Qed.

Lemma sf_handleFloorRequest i msg w :
  tcp_session w i → sf (λ _ _, True) w (handleFloorRequest i msg).
Proof.
  intros Hi. unfold handleFloorRequest. sfstep sf_lift as [floorID|] _; [|eauto with bfcp].
  sfstep sf_request_floor as l Hl. sfstep sf_nextTxID_Add as txID _. sfstep sf_ask_grant as b _.
  sfstep sf_floor_Request as [status [e|]] _; [sfstep sf_sendError; auto with bfcp|].
  sfstep sf_send. destruct (b && _).
  { sfstep sf_gets. sfstep sf_floor_Grant. apply safe_when; [exact _|]. intros _.
    sfstep sf_send. sfstep sf_upd_session. auto with bfcp. }
  destruct (negb b && _); [|eauto with bfcp].
  sfstep sf_floor_Deny. apply safe_when; [exact _|]. intros _.
  sfstep sf_send. sfstep sf_upd_session. auto with bfcp.
Qed.

(** ** FloorRelease, FloorQuery, Goodbye *)

Lemma sf_handleUDPFloorRelease i msg w :
  udp_session w i → sf (λ _ _, True) w (handleUDPFloorRelease i msg).
Proof.
  intros Hi. unfold handleUDPFloorRelease. sfstep sf_release_lookup as [l id|code info] Hl;
    [|eauto with bfcp]. sfstep sf_lift. sfstep sf_floor_Release as [e|] _; [eauto with bfcp|].
  sfstep sf_sendUDP. sfstep sf_upd_session.
  eapply safe_bind with (Q := λ _ _, True); [exact _|auto with bfcp|auto with bfcp].
Qed.

Lemma sf_handleFloorRelease i msg w :
  tcp_session w i → sf (λ _ _, True) w (handleFloorRelease i msg).
Proof.
  intros Hi. unfold handleFloorRelease. sfstep sf_release_lookup as [l id|code info] Hl;
    [|eauto with bfcp]. sfstep sf_lift. sfstep sf_floor_Release as [e|] _; [eauto with bfcp|].
  sfstep sf_send. sfstep sf_upd_session.
  eapply safe_bind with (Q := λ _ _, True); [exact _|auto with bfcp|auto with bfcp].
Qed.

Lemma sf_add_floor_state id l r w : floor_at w l → sf (λ _ _, True) w (add_floor_state id l r).
Proof. intros Hl. unfold add_floor_state. sfstep sf_floor_get. sfstep sf_floor_get. by constructor. Qed.

Lemma sf_handleUDPFloorQuery i msg w :
  udp_session w i → sf (λ _ _, True) w (handleUDPFloorQuery i msg).
Proof.
  intros Hi. unfold handleUDPFloorQuery. sfstep sf_lift as [floorID|] _; [|eauto with bfcp].
  sfstep sf_GetFloor as [l|] Hl; [|eauto with bfcp]. sfstep sf_add_floor_state. eauto with bfcp.
Qed.

Lemma sf_handleFloorQuery i msg w :
  tcp_session w i → sf (λ _ _, True) w (handleFloorQuery i msg).
Proof.
  intros Hi. unfold handleFloorQuery. sfstep sf_lift as [floorID|] _; [|eauto with bfcp].
  sfstep sf_GetFloor as [l|] Hl; [|eauto with bfcp]. sfstep sf_add_floor_state. eauto with bfcp.
Qed.

Lemma sf_floors_owned u ls w :
  Forall (floor_at w) ls → sf (λ r w', Forall (floor_at w') r) w (floors_owned u ls).
Proof.
  revert w. induction ls as [|l ls IH]; intros w Hls; cbn [floors_owned]; [by constructor|].
  pose proof (Forall_cons_1 _ _ _ Hls) as [Hl Hrest].
  sfstep sf_floor_get as owner _. eapply safe_bind; [exact _|by apply IH|].
  intros rest w' E Hr. advance E. constructor. case_match; [by constructor|done].
Qed.

Lemma sf_release_owned bc u l w :
  (∀ f r w', sf (λ _ _, True) w' (bc f r)) → floor_at w l →
  sf (λ _ _, True) w (release_owned bc u l).
Proof.
  intros Hbc Hl. unfold release_owned. sfstep sf_floor_Release as [e|] _; [by constructor|].
  sfstep sf_floor_get. sfstep sf_floor_get. sfstep Hbc. auto with bfcp.
Qed.

Lemma sf_handleUDPGoodbye i msg w : udp_session w i → sf (λ _ _, True) w (handleUDPGoodbye i msg).
Proof.
  intros Hi. unfold handleUDPGoodbye. sfstep sf_range_floors as ls Hls.
  sfstep sf_floors_owned as fls Hfls. eapply safe_bind with (Q := λ _ _, True); [exact _| |].
  - apply safe_for_each; [exact _|]. intros l w' Hl E. apply sf_release_owned; [auto with bfcp|].
    apply (floor_at_ext E). rewrite Forall_forall in Hfls. by apply Hfls.
  - intros _ w' E _. advance E. sfstep sf_udp_remote. by constructor.
Qed.

Lemma sf_handleGoodbye i msg w : tcp_session w i → sf (λ _ _, True) w (handleGoodbye i msg).
Proof.
  intros Hi. unfold handleGoodbye. sfstep sf_range_floors as ls Hls.
  sfstep sf_floors_owned as fls Hfls. eapply safe_bind with (Q := λ _ _, True); [exact _| |].
  - apply safe_for_each; [exact _|]. intros l w' Hl E. apply sf_release_owned; [auto with bfcp|].
    apply (floor_at_ext E). rewrite Forall_forall in Hfls. by apply Hfls.
  - intros _ wa Ea _. advance Ea. sfstep sf_send. sfstep sf_upd_session.
    eapply safe_bind; [exact _|apply sf_deref_session; eauto with bfcp|].
    intros s wb Es [Hs Hok]. apply (tcp_session_ext _ _ _ Es) in Hi as (s' & t & Hs' & Ht).
    simplify_eq. rewrite Ht. apply sf_Transport_Close. by eapply session_ok_tcp.
Qed.

Lemma sf_Session_handleUDPMessage i msg w :
  udp_session w i → sf (λ _ _, True) w (Session_handleUDPMessage i msg).
Proof.
  intros Hi. unfold Session_handleUDPMessage. sfstep sf_upd_session. sfstep sf_upd_session.
  sfstep sf_deref_session as s [_ Hs]. eapply safe_bind with (Q := λ _ _, True); [exact _| |].
  { destruct (sUDPTransport s) eqn:Ht; [|by constructor]. apply sf_UDP_RemoteAddr.
    by eapply session_ok_udp. }
  intros remote wa Ea _. advance Ea. sfstep sf_message_in. unfold udp_dispatch.
  repeat case_match; auto using sf_handleUDPHello, sf_handleUDPFloorRequest,
    sf_handleUDPFloorRelease, sf_handleUDPFloorQuery, sf_handleUDPGoodbye with bfcp.
Qed.

Lemma sf_handleMessage i msg w : tcp_session w i → sf (λ _ _, True) w (handleMessage i msg).
Proof.
  intros Hi. unfold handleMessage. sfstep sf_upd_session. sfstep sf_upd_session.
  sfstep sf_tcp_remote. sfstep sf_message_in. unfold tcp_dispatch.
  repeat case_match; auto using sf_handleHello, sf_handleFloorRequest,
    sf_handleFloorRelease, sf_handleFloorQuery, sf_handleGoodbye with bfcp.
Qed.
End Handlers.

(** ** The client role *)

Section Client.
Context {env : Env}.

Lemma sf_deref_client c w :
  client_at w c →
  sf (λ cl w', w_client_heap w' !! c = Some cl ∧ client_ok w' cl) w (deref w_client_heap c).
Proof.
  intros Hc. eapply safe_mono; [exact _|apply sf_deref; intros w' _ E; exact (client_at_ext E _ Hc)|].
  intros cl w' _ [Hs Hwf]. split; [done|]. by eapply wf_client_heap.
Qed.

Lemma sf_client_event c cb w : client_at w c → sf (λ _ _, True) w (client_event c cb).
Proof.
  intros Hc. unfold client_event. sfstep sf_deref_client as cl _.
  apply safe_when; [exact _|]. intros _. apply sf_emit.
Qed.

Lemma sf_UDPClient_send c msg w : client_at w c → sf (λ _ _, True) w (UDPClient_send c msg).
Proof.
  intros Hc. unfold UDPClient_send. sfstep sf_deref_client as cl [_ [Hu _]].
  sfstep sf_UDP_SendMessage as [[e|] msg'] _; [by constructor|].
  sfstep sf_message_out. by constructor.
Qed.

Lemma sf_ack c msg p w : client_at w c → sf (λ _ _, True) w (ack c msg p).
Proof.
  intros Hc. unfold ack. sfstep sf_deref_client as cl _. sfstep sf_UDPClient_send. by constructor.
Qed.

(** A step on a client that leaves its transport and adds no pending transaction. *)
Definition keeps_pending (cl cl' : UDPClient) : Prop :=
  ucTransport cl' = ucTransport cl ∧
  ∀ tx ch, ucPending cl' !! tx = Some ch → ucPending cl !! tx = Some ch.

Lemma keeps_pending_ok c cl cl' w :
  wf_world w → w_client_heap w !! c = Some cl → keeps_pending cl cl' →
  wf_world (set_client_heap <[c := cl']> w) ∧ extends w (set_client_heap <[c := cl']> w).
Proof.
  intros Hw Hc [Ht Hp]. apply (set_client_heap_ok c cl cl' w Hw Hc Ht).
  intros tx ch Hch. apply (wf_client_heap w Hw c cl Hc). by apply Hp.
Qed.

Lemma sf_client_update {X} c (f : World → UDPClient → UDPClient) (r : World → UDPClient → X) (g : World → World) w :
  client_at w c →
  (∀ w1 cl, keeps_pending cl (f w1 cl)) →
  (∀ w1, wf_world w1 → wf_world (g w1) ∧ extends w1 (g w1)) →
  sf (λ _ _, True) w (atomic (λ w,
    match w_client_heap w !! c with
    | None => Panic
    | Some cl => Ok (r w cl, g (set_client_heap <[c := f w cl]> w))
    end)).
Proof.
  intros Hc Hf Hg. apply safe_atomic; [exact _|]. intros w1 H1 E1.
  pose proof (client_at_ext E1 _ Hc) as [cl Hcl]. rewrite Hcl.
  destruct (keeps_pending_ok c cl (f w1 cl) w1 H1 Hcl (Hf w1 cl)) as [H2 E2].
  destruct (Hg _ H2) as [H3 E3]. eexists _, _. split_and!; [done|done|by etrans|done].
Qed.

Lemma sf_applyOwnStatus c f r st w : client_at w c → sf (λ _ _, True) w (applyOwnStatus c f r st).
Proof.
  intros Hc. unfold applyOwnStatus. eapply safe_bind with (Q := λ _ _, True); [exact _| |].
  - eapply (sf_client_update c (λ w, with_active (apply_status f st (now (w_tick w))))
      (λ _ _, tt) tick); [done|done|auto with bfcp].
  - intros [] w' E _. advance E. repeat case_match; auto using sf_client_event with bfcp.
Qed.

Lemma sf_notify_info c info w : client_at w c → sf (λ _ _, True) w (notify_info c info).
Proof.
  intros Hc. unfold notify_info. destruct (FloorRequestInfo_Status info) as [st|]; [|by constructor].
  apply safe_for_each; [exact _|]. intros fl w' _ E. advance E. unfold notify_floor.
  eapply safe_bind with (Q := λ _ _, True); [exact _| |].
  - unfold ownRequest. sfstep sf_deref_client as cl _. by constructor.
  - intros [|] wb Eb _; advance Eb; [by apply sf_applyOwnStatus|by apply sf_client_event].
Qed.

Lemma sf_handleNotification c msg w : client_at w c → sf (λ _ _, True) w (handleNotification c msg).
Proof.
  intros Hc. unfold handleNotification. sfstep sf_lift as infos _.
  destruct infos as [|info infos].
  - destruct (_ =? _); [|by constructor].
    sfstep sf_lift as [f|] _; [by apply sf_client_event|by constructor].
  - apply safe_for_each; [exact _|]. intros x w' _ E. advance E. by apply sf_notify_info.
Qed.

Lemma sf_try_send ch msg w :
  channel_at w ch (mTransactionID msg) → sf (λ _ _, True) w (try_send ch msg).
Proof.
  intros Hc. apply safe_atomic; [exact _|]. intros w1 H1 E1.
  pose proof (channel_at_ext E1 _ _ Hc) as [[m|] Hx]; rewrite Hx; [by eexists _, _|].
  destruct (set_channels_ok ch _ (mkChan (mTransactionID msg) (Some msg)) w1 H1 Hx) as [? ?];
    [done|by intros m [= <-]|]. by eexists _, _.
Qed.

Lemma sf_UDPClient_handleMessage c msg w :
  client_at w c → sf (λ _ _, True) w (UDPClient_handleMessage c msg).
Proof.
  intros Hc. unfold UDPClient_handleMessage. sfstep sf_deref_client as cl [_ [_ Hp]].
  destruct (ucPending cl !! mTransactionID msg) as [ch|] eqn:Htx.
  { apply sf_try_send. by eapply Hp. }
  destruct (_ =? _); [sfstep sf_handleNotification; by apply sf_ack|].
  destruct (_ =? _); [sfstep sf_handleNotification; by apply sf_ack|].
  destruct (_ =? _); [by apply sf_ack|]. destruct (_ =? _); [by apply sf_client_event|by constructor].
Qed.

Lemma sf_upd_client {X} c (f : UDPClient → X * UDPClient) w :
  client_at w c → (∀ cl, keeps_pending cl (f cl).2) → sf (λ _ _, True) w (upd_client c f).
Proof.
  intros Hc Hf. apply safe_atomic; [exact _|]. intros w1 H1 E1.
  pose proof (client_at_ext E1 _ Hc) as [cl Hcl]. rewrite Hcl.
  destruct (keeps_pending_ok c cl (f cl).2 w1 H1 Hcl (Hf cl)) as [H2 E2].
  destruct (f cl) as [x cl']. by eexists _, _.
Qed.

Lemma keeps_pending_refl cl cl' :
  ucTransport cl' = ucTransport cl → ucPending cl' = ucPending cl → keeps_pending cl cl'.
Proof. intros Ht Hp. split; [done|]. by rewrite Hp. Qed.

Lemma keeps_pending_delete tx cl : keeps_pending cl (with_pending (delete tx) cl).
Proof. split; [done|]. intros tx' ch Hd. cbn in Hd. by apply lookup_delete_Some in Hd as [_ ?]. Qed.

Hint Extern 1 (∀ _, keeps_pending _ _) => by intros; apply keeps_pending_refl : bfcp.
Hint Extern 1 (∀ _, keeps_pending _ _) => by intros; apply keeps_pending_delete : bfcp.

(** *** Calls *)

Lemma sf_nextTransactionID c w : client_at w c → sf (λ _ _, True) w (nextTransactionID c).
Proof.
  intros Hc. assert (∀ w, client_at w c → sf (λ _ _, True) w (next_client_tx c)) as Hn.
  { intros w1 H1. apply (sf_upd_client c (λ cl, let v := u32 (ucNextTxID cl + 1) in
      (u16 v, with_nextTxID v cl))); [done|]. by intros; apply keeps_pending_refl. }
  unfold nextTransactionID. sfstep Hn as id _. destruct (_ =? _); [by apply Hn|by constructor].
Qed.

Lemma sf_open_pending c tx w :
  client_at w c → sf (λ ch w', channel_at w' ch tx) w (open_pending c tx).
Proof.
  intros Hc. apply safe_atomic; [exact _|]. intros w1 H1 E1.
  pose proof (client_at_ext E1 _ Hc) as [cl Hcl]. rewrite Hcl.
  destruct (new_channel_ok tx w1 H1) as (H2 & E2 & Hch).
  destruct (set_client_heap_ok c cl (with_pending <[tx := length (w_channels w1)]> cl) _ H2 Hcl)
    as [H3 E3]; [done| |].
  - intros tx' ch Hp. cbn in Hp. apply lookup_insert_Some in Hp as [[<- <-]|[_ Hp]]; [done|].
    apply (channel_at_ext E2). by apply (wf_client_heap w1 H1 c cl Hcl).
  - eexists _, _. split_and!; [done|exact H3|by etrans|exact (channel_at_ext E3 _ _ Hch)].
Qed.

(** Whatever is received was sent for the transaction of the channel. *)
Lemma sf_await c ch tx w :
  client_at w c → channel_at w ch tx →
  sf (λ r _, ∀ m, r = Response m → mTransactionID m = tx) w (await c ch).
Proof.
  intros Hc Hch. apply safe_atomic; [exact _|]. intros w1 H1 E1.
  pose proof (client_at_ext E1 _ Hc) as [cl Hcl].
  pose proof (channel_at_ext E1 _ _ Hch) as [buf Hb]. rewrite Hcl, Hb. cbv zeta.
  set (ready := _ ++ _). set (taken := default TimeUp _).
  assert (∀ m, taken = Response m → buf = Some m) as Htaken.
  { intros m. unfold taken. destruct (ready !! _) as [r|] eqn:Hr; [|done]. cbn. intros ->.
    apply list_elem_of_lookup_2 in Hr. unfold ready in Hr.
    destruct buf as [m'|], (ucDone cl); cbn in Hr; set_solver. }
  destruct (set_channels_ok ch _ (mkChan tx None) w1 H1 Hb) as [H2 E2]; [done|done|].
  eexists taken, _. split_and!; [done|destruct taken; auto with bfcp| |].
  - destruct taken; [|apply ext_tick..]. etrans; [exact E2|apply ext_tick].
  - intros m Hm. apply Htaken in Hm as ->. exact (wf_channels w1 H1 ch _ m Hb eq_refl).
Qed.

Definition response_to (msg : Message) (r : Message + client_error) : Prop :=
  ∀ m, r = inl m → mTransactionID m = mTransactionID msg.

Lemma sf_transact_loop c ch msg n : ∀ w,
  client_at w c → channel_at w ch (mTransactionID msg) →
  sf (λ r _, response_to msg r) w (transact_loop c ch msg n).
Proof.
  induction n as [|n IH]; intros w Hc Hch; cbn [transact_loop].
  { sfstep sf_deref_client as cl _. by constructor. }
  sfstep sf_UDPClient_send as sent _. destruct sent; cbn [negb]; [|by constructor].
  sfstep sf_await as r Hr. destruct r as [m| |]; [|by constructor|by apply IH].
  constructor. intros m' [= <-]. by apply Hr.
Qed.

Lemma sf_transact c msg w :
  client_at w c → sf (λ r _, response_to msg r) w (transact c msg).
Proof.
  intros Hc. unfold transact. sfstep sf_deref_client as cl _.
  destruct (ucClosed cl); [by constructor|].
  sfstep sf_open_pending as ch Hch. sfstep sf_transact_loop as r Hr.
  sfstep sf_upd_client. by constructor.
Qed.

Lemma sf_client_message c p w : client_at w c → sf (λ _ _, True) w (client_message c p).
Proof.
  intros Hc. unfold client_message. sfstep sf_deref_client as cl _. sfstep sf_nextTransactionID.
  by constructor.
Qed.

Lemma sf_UDPClient_Hello c w : client_at w c → sf (λ _ _, True) w (UDPClient_Hello c).
Proof.
  intros Hc. unfold UDPClient_Hello. sfstep sf_client_message. sfstep sf_transact. by constructor.
Qed.

Lemma sf_UDPClient_RequestFloor c f w :
  client_at w c → sf (λ _ _, True) w (UDPClient_RequestFloor c f).
Proof.
  intros Hc. unfold UDPClient_RequestFloor, finish_request. sfstep sf_client_message. sfstep sf_transact as r Hr.
  destruct r as [m|]; [|by constructor]. destruct (_ =? _); [by constructor|].
  destruct (negb _); [by constructor|]. sfstep sf_lift as [rid|] _; [|by constructor].
  sfstep sf_lift as [[st q]|] _; [|by constructor].
  eapply safe_bind with (Q := λ _ _, True); [exact _| |].
  - apply (sf_client_update c
      (λ w cl, with_active <[f := mkActive f rid (ucUserID cl) 0 st (now (w_tick w)) 0]> cl)
      (λ _ _, tt) tick); [done| |auto with bfcp]. by intros; apply keeps_pending_refl.
  - intros [] w' E _. advance E. sfstep sf_applyOwnStatus. by constructor.
Qed.

Lemma sf_UDPClient_ReleaseFloor c f w :
  client_at w c → sf (λ _ _, True) w (UDPClient_ReleaseFloor c f).
Proof.
  intros Hc. unfold UDPClient_ReleaseFloor. sfstep sf_deref_client as cl _.
  destruct (ucActive cl !! f) as [req|]; [|by constructor].
  sfstep sf_client_message. sfstep sf_transact as r Hr. destruct r as [m|]; [|by constructor].
  destruct (_ =? _); [by constructor|]. sfstep sf_upd_client. sfstep sf_client_event. by constructor.
Qed.

Lemma sf_UDPClient_Goodbye c w : client_at w c → sf (λ _ _, True) w (UDPClient_Goodbye c).
Proof.
  intros Hc. unfold UDPClient_Goodbye. sfstep sf_client_message. sfstep sf_transact. by constructor.
Qed.

Lemma sf_NewUDPClient cfg w : sf (λ _ _, True) w (NewUDPClient true cfg).
Proof.
  unfold NewUDPClient. cbn [negb]. destruct (resolve _) as [key|]; [|by constructor].
  sfstep sf_getOrCreateTransport as t Ht.
  eapply safe_bind with (Q := λ c w', client_at w' c); [exact _| |].
  - apply safe_atomic; [exact _|]. intros w1 H1 E1.
    destruct (new_client_ok (new_client cfg t key) w1 H1) as (H2 & E2 & Hc).
    { split; [by apply (udp_at_ext E1)|]. cbn. intros tx ch. by rewrite lookup_empty. }
    eexists _, _. by split_and!.
  - intros c w1 E1 Hc. eapply safe_bind with (Q := λ _ _, True); [exact _| |by constructor].
    apply sf_modify. intros w2 Hw2 E2. split; [|by split]. apply wf_register_client; [done|].
    by apply (client_at_ext E2).
Qed.
End Client.

(** ** Entry points *)

Section Threads.
Context {env : Env}.

(** The objects a thread starts from exist, and the listener it comes from is the
    one the server has. *)
Definition thread_ok (w : World) (t : thread) : Prop :=
  match t with
  | TDatagram _ _ | TRegisterClient _ _ _ _ => cTransport config = TransportUDP
  | TConnection _ _ => cTransport config = TransportTCP
  | TKeepalive t _ => keepalive_at w t
  | TNewUDPClient _ => cTransport config = TransportUDP
  | TSetClientHooks c _ | TClientHello c | TClientRequestFloor c _ | TClientReleaseFloor c _
  | TClientGoodbye c | TCloseClient c => client_at w c
  | _ => True
  end.

Lemma sf_ignore {A} Q (p : prog A) w : sf Q w p → sf (λ _ _, True) w (ignore p).
Proof. intros Hp. eapply safe_bind; [exact _|exact Hp|]. intros. by constructor. Qed.

Lemma udp_session_of w i :
  cTransport config = TransportUDP → wf_world w → session_at w i → udp_session w i.
Proof.
  intros Hc Hwf [s Hs]. pose proof (wf_session_heap _ Hwf i s Hs) as Hok.
  unfold session_ok in Hok. rewrite Hc in Hok.
  destruct (sTransport s), (sUDPTransport s) as [t|] eqn:Ht; try done. by exists s, t.
Qed.

Lemma sf_handleUDPMessage t msg w :
  cTransport config = TransportUDP → udp_at w t → sf (λ _ _, True) w (handleUDPMessage t msg).
Proof.
  intros Hc Ht. unfold handleUDPMessage. sfstep sf_UDP_RemoteAddr as remote _.
  sfstep sf_gets as cl [-> Hwf].
  destruct (w_udp_clients _ !! remote) as [c|] eqn:Hcl.
  { apply (wf_clients _ Hwf) in Hcl. sfstep sf_message_in. by apply sf_UDPClient_handleMessage. }
  sfstep sf_gets as found [-> Hwf2].
  eapply safe_bind with (Q := λ i w', udp_session w' i); [exact _| |].
  - destruct (w_sessions _ !! remote) as [i|] eqn:Hi.
    + constructor. apply udp_session_of; [done..|]. by eapply wf_sessions.
    + eapply safe_mono; [exact _|apply sf_alloc_session|].
      * unfold session_ok. by rewrite Hc.
      * intros i w' _ (s & Hs & _ & Hu). by exists s, t.
  - intros i w' _ Hi. by apply sf_Session_handleUDPMessage.
Qed.

Lemma sf_udp_datagram remote data w :
  cTransport config = TransportUDP → sf (λ _ _, True) w (udp_datagram remote data).
Proof.
  intros Hc. unfold udp_datagram. destruct (Decode_returns data) as [Hr _].
  destruct (Decode data) as [msg|e| |]; [|by constructor|done..].
  sfstep sf_getOrCreateTransport as t Ht. by apply sf_handleUDPMessage.
Qed.

Lemma sf_connection_loop i t msgs w :
  tcp_session w i → tcp_at w t → sf (λ _ _, True) w (connection_loop i t msgs).
Proof.
  revert w. induction msgs as [|msg msgs IH]; intros w Hi Ht; cbn [connection_loop]; [by constructor|].
  sfstep sf_TCP_IsClosed as [|] _; [by constructor|].
  sfstep sf_handleMessage. by apply IH.
Qed.

Lemma sf_on_close i remote w : session_at w i → sf (λ _ _, True) w (on_close i remote).
Proof.
  intros Hi. unfold on_close. eapply safe_bind with (Q := λ _ _, True); [exact _| |].
  - apply sf_modify. intros w' Hw _. split; [by apply wf_unregister_session|by split].
  - intros [] w' E _. advance E. sfstep sf_deref_session as s _.
    apply safe_when; [exact _|]. intros _. apply sf_emit.
Qed.

Lemma sf_serve_connection t msgs w :
  cTransport config = TransportTCP → tcp_at w t → sf (λ _ _, True) w (serve_connection t msgs).
Proof.
  intros Hc Ht. unfold serve_connection, handleConnection.
  eapply safe_bind with (Q := λ i w', tcp_session w' i); [exact _| |].
  - sfstep sf_TCP_RemoteAddr as remote _. eapply safe_mono; [exact _|apply sf_alloc_session|].
    + unfold session_ok. by rewrite Hc.
    + intros i w' _ (s & Hs & Ht' & _). by exists s, t.
  - intros i w' E Hi. advance E. sfstep sf_TCP_RemoteAddr as remote _.
    sfstep sf_StartKeepalive. sfstep sf_connection_loop. sfstep sf_Transport_Close. apply sf_on_close. by apply tcp_session_at.
Qed.

Lemma sf_accept_connection remote msgs w :
  cTransport config = TransportTCP → sf (λ _ _, True) w (accept_connection remote msgs).
Proof.
  intros Hc. unfold accept_connection.
  eapply safe_bind with (Q := λ t w', tcp_at w' t); [exact _| |intros; by apply sf_serve_connection].
  apply safe_atomic; [exact _|]. intros wa Ha _.
  destruct (new_transport_ok (NewTransport remote RolePassive) wa Ha eq_refl) as (? & ? & ?).
  by eexists _, _.
Qed.

Lemma sf_register_client_session key t u v w :
  cTransport config = TransportUDP → udp_at w t →
  sf (λ i w', session_at w' i) w (register_client_session key t u v).
Proof.
  intros Hc Ht. apply safe_atomic; [exact _|]. intros wa Ha Ea. advance Ea.
  destruct (w_sessions wa !! key) as [i|] eqn:Hi.
  { eexists _, _. split_and!; [done..|]. by eapply wf_sessions. }
  set (s := mkSession None (Some t) (set_ClientVersion v
    (NewSessionStateMachine (u16 (cConferenceID config)) u key (now (w_tick wa))))).
  destruct (new_session_ok s wa Ha) as (Hb & Eb & Hs); [unfold session_ok; by rewrite Hc|].
  eexists _, _. split_and!; [done| | |by exists s].
  - apply wf_tick, wf_register_session; [done|by exists s].
  - etrans; [exact Eb|by split].
Qed.

Lemma sf_RegisterClient remote u f v w :
  cTransport config = TransportUDP → sf (λ _ _, True) w (RegisterClient true remote u f v).
Proof.
  intros Hc. unfold RegisterClient. cbn [negb]. destruct (resolve remote) as [key|]; [|by constructor].
  sfstep sf_getOrCreateTransport as t Ht. sfstep sf_register_client_session as i Hi.
  sfstep sf_GetFloor as fl Hfl. eapply safe_bind with (Q := λ _ _, True); [exact _| |].
  - destruct fl as [l|]; [by apply sf_floor_get|by constructor].
  - intros st w' E _. advance E. sfstep sf_sendFloorState. by constructor.
Qed.

Lemma sf_close_sessions w : sf (λ _ _, True) w close_sessions.
Proof.
  unfold close_sessions. eapply safe_bind; [exact _|apply sf_range_sessions|].
  intros ls wa _ Hls. apply safe_for_each; [exact _|]. intros i wb Hi E.
  rewrite Forall_forall in Hls. apply Hls, (session_at_ext E) in Hi.
  sfstep sf_deref_session as s [_ Hs]. destruct (sTransport s) as [t|] eqn:Ht; [|by constructor].
  apply sf_Transport_Close. by eapply session_ok_tcp.
Qed.

(** The threads that take nothing of the world away. *)
Definition takes_nothing (t : thread) : bool :=
  match t with TKeepalive _ _ | TCloseClient _ => false | _ => true end.

Lemma sf_thread t w : takes_nothing t = true → thread_ok w t → sf (λ _ _, True) w (thread_prog t).
Proof.
  destruct t; cbn [thread_prog thread_ok takes_nothing]; intros Hp Ht; try discriminate.
  - by apply sf_udp_datagram.
  - by apply sf_accept_connection.
  - eapply sf_ignore, sf_CreateFloor.
  - apply sf_modify. intros w' Hw _. split; [by apply wf_unregister_floor|by split].
  - apply sf_ignore with (λ _ _, True). unfold GrantFloor. sfstep sf_GetFloor as fl Hfl.
    destruct fl as [l|]; [|by constructor]. sfstep sf_floor_Grant. by constructor.
  - apply sf_broadcastFloorStatus.
  - apply sf_broadcastFloorState.
  - eapply sf_ignore. by apply sf_RegisterClient.
  - apply sf_close_sessions.
  - eapply sf_ignore, sf_NewUDPClient.
  - apply sf_upd_client; [done|]. by intros; apply keeps_pending_refl.
  - by eapply sf_ignore, sf_UDPClient_Hello.
  - by eapply sf_ignore, sf_UDPClient_RequestFloor.
  - by eapply sf_ignore, sf_UDPClient_ReleaseFloor.
  - by eapply sf_ignore, sf_UDPClient_Goodbye.
Qed.

Lemma wf_NewServer : wf_world NewServer.
Proof.
  split; cbn; intros *; rewrite ?lookup_empty, ?lookup_nil; try done. by intros ?%elem_of_nil.
Qed.

End Threads.

(** ** What the threads own

    [Done] panics when the counter of the wait group would become negative, and so does
    closing a channel twice.  A keepalive goroutine owns one unit of the counter, and the
    call of [Close] that [closed.Swap] lets through owns the channel. *)

Inductive duty := EndKeepalive (transport : nat) | CloseDone (client : nat).

#[global] Instance duty_eq_dec : EqDecision duty.
Proof. solve_decision. Defined.

(** How many threads can have a duty. *)
Definition supply (w : World) (d : duty) : nat :=
  match d with
  | EndKeepalive t => from_option keepalives 0%nat (w_transports w !! t)
  | CloseDone c =>
      from_option (λ cl, if ucClosed cl && negb (ucDone cl) then 1%nat else 0%nat) 0%nat
        (w_client_heap w !! c)
  end.

Definition done_closed (w : World) : Prop :=
  ∀ c cl, w_client_heap w !! c = Some cl → ucDone cl = true → ucClosed cl = true.

Definition entitled (ds : list duty) (w : World) : Prop :=
  (∀ d, (length (filter (.= d) ds) <= supply w d)%nat) ∧ done_closed w.

Lemma entitled_perm ds ds' w : ds ≡ₚ ds' → entitled ds w → entitled ds' w.
Proof. intros Hp [Hs Hd]. split; [|done]. intros d. by rewrite <- Hp. Qed.

(** Nothing is taken away. *)
Definition provides (w w' : World) : Prop :=
  (∀ d, (supply w d <= supply w' d)%nat) ∧ (done_closed w → done_closed w').

Lemma entitled_provides ds w w' : provides w w' → entitled ds w → entitled ds w'.
Proof. intros [Hp Hd] [Hs Hc]. split; [|by apply Hd]. intros d. etrans; [apply Hs|apply Hp]. Qed.

Lemma provides_transports ts' w :
  (∀ t, (from_option keepalives 0 (w_transports w !! t) <= from_option keepalives 0 (ts' !! t))%nat) →
  provides w (set_transports (λ _, ts') w).
Proof. intros Hk. split; [|done]. intros [t|c]; [apply Hk|done]. Qed.

Lemma provides_client w c cl cl' :
  w_client_heap w !! c = Some cl → (ucDone cl = true → ucDone cl' = true) →
  (ucClosed cl && negb (ucDone cl) = true → ucClosed cl' && negb (ucDone cl') = true) →
  (done_closed w → ucDone cl' = true → ucClosed cl' = true) →
  provides w (set_client_heap <[c := cl']> w).
Proof.
  intros Hc Hd Hs Hcl. split.
  - intros [t|c']; [done|]. cbn. destruct (decide (c' = c)) as [->|];
      [|by rewrite list_lookup_insert_ne]. rewrite list_lookup_insert_eq by (by eapply lookup_lt_Some).
    rewrite Hc. cbn. destruct (ucClosed cl && _); [by rewrite Hs|lia].
  - intros Hw c' x [(<- & <- & _)|[_ Hx]]%list_lookup_insert_Some; [by apply Hcl|by eapply Hw].
Qed.

#[global] Instance provides_frame : Frame provides.
Proof.
  split.
  - split; [by split|]. intros w1 w2 w3 [H1 D1] [H2 D2]. split; [|by auto]. intros d. etrans; [apply H1|apply H2].
  - intros w w' _ _ Ht Hc. split; [intros [t|c]; cbn; by rewrite ?Ht, ?Hc|].
    unfold done_closed. by rewrite Hc.
  - intros. by split.
  - intros. by split.
  - intros w t tr tr' Ht Hk. apply provides_transports. intros t'.
    destruct (decide (t' = t)) as [->|]; [|by rewrite list_lookup_insert_ne].
    rewrite list_lookup_insert_eq by (by eapply lookup_lt_Some). by rewrite Ht.
  - intros w tr. apply provides_transports. intros t.
    destruct (w_transports w !! t) eqn:Ht; cbn; [|lia]. by erewrite lookup_app_l_Some by done.
  - intros w c cl cl' Hc H1 H2. apply (provides_client w c cl); [done|by rewrite H2|by rewrite H1, H2|].
    rewrite H1, H2. intros Hw. exact (Hw c cl Hc).
  - intros w cl Hcl Hd. split.
    + intros [t|c]; cbn; [done|]. destruct (w_client_heap w !! c) eqn:Hc; cbn; [|lia].
      by erewrite lookup_app_l_Some by done.
    + intros Hw c x [Hx|[_ [_ <-]%list_lookup_singleton_Some]]%lookup_app_Some; [by eapply Hw|congruence].
Qed.

#[local] Hint Resolve provides_frame : frame.

(** A duty is done, or taken on. *)
Lemma entitled_drop d ds w w' :
  entitled (d :: ds) w → supply w d = S (supply w' d) →
  (∀ d', d' ≠ d → supply w' d' = supply w d') → (done_closed w → done_closed w') → entitled ds w'.
Proof.
  intros [Hs Hc] Hd Ho Hdc. split; [|by apply Hdc]. intros d'. specialize (Hs d').
  rewrite filter_cons in Hs. destruct (decide (d' = d)) as [->|Hne]; [|rewrite Ho by done];
    case_decide; cbn in Hs; try done; lia.
Qed.
Lemma entitled_add d ds w w' :
  entitled ds w → supply w' d = S (supply w d) →
  (∀ d', d' ≠ d → supply w' d' = supply w d') → (done_closed w → done_closed w') →
  entitled (d :: ds) w'.
Proof.
  intros [Hs Hc] Hd Ho Hdc. split; [|by apply Hdc]. intros d'. specialize (Hs d').
  rewrite filter_cons. destruct (decide (d' = d)) as [->|Hne]; [rewrite Hd|rewrite Ho by done];
    case_decide; cbn; try done; lia.
Qed.
Lemma entitled_supply d ds w : entitled (d :: ds) w → (0 < supply w d)%nat.
Proof. intros [Hs _]. specialize (Hs d). rewrite filter_cons, decide_True in Hs by done. cbn in Hs. lia. Qed.

Section Duties.
Context {env : Env}.

Abbreviation gd := (guarded wf_world extends entitled).

Lemma gd_plain {A} (Q : A → World → Prop) us (p : prog A) w :
  sf Q w p → keeps provides p → gd (λ a us' w', us' = us ∧ Q a w') us w p.
Proof. apply guarded_of_safe; [exact _|exact _|]. apply entitled_provides. Qed.

(** Nobody waits: the goroutine is done by the one step. *)
Lemma gd_keepalive_end t w :
  keepalive_at w t → gd (λ _ _ _, True) [EndKeepalive t] w (keepalive_end t).
Proof.
  intros Ht. unfold keepalive_end, wg_Done.
  eapply guarded_bind with (Q := λ n us _, n = 0%nat ∧ us = []); [exact _| |].
  2: { intros n us w' _ [-> ->]. by constructor. }
  apply guarded_atomic; [exact _|]. intros rest w1 H1 T1 E1.
  destruct (keepalive_at_ext E1 _ Ht) as (tr & Htr & _). rewrite Htr.
  pose proof (entitled_supply _ _ _ T1) as Hn. cbn in Hn. rewrite Htr in Hn. cbn in Hn.
  unfold keepalives in Hn. pose proof (wf_waiters _ H1 t tr Htr) as Hw. unfold wg_sub.
  destruct (wgCounter (tKeepaliveWg tr)) as [|n] eqn:Hc; [lia|]. cbn [mbind res_bind]. rewrite Hw.
  destruct (set_transports_ok t tr (with_wg (mkWaitGroup n 0 (wgSema (tKeepaliveWg tr))) tr) w1 H1 Htr)
    as [H2 E2]; [by split|by rewrite Hw|].
  eexists _, _, []. split_and!; [done|exact H2| |exact E2|by destruct (n =? 0)%nat|done].
  eapply (entitled_drop (EndKeepalive t)); [exact T1| | |done]; cbn.
  - rewrite list_lookup_insert_eq, Htr by (by eapply lookup_lt_Some). cbn. unfold keepalives. by rewrite Hc.
  - intros [t'|c] Hd; cbn; [|done]. rewrite list_lookup_insert_ne; [done|congruence].
Qed.

Lemma gd_keepaliveLoop t wakes w :
  keepalive_at w t → gd (λ _ _ _, True) [EndKeepalive t] w (keepaliveLoop t wakes).
Proof.
  intros Ht. unfold keepaliveLoop.
  eapply guarded_bind; [exact _|apply gd_plain; [by apply sf_deref_keepalive|framed]|].
  intros tr us wa Ea [-> [_ Hi]]. apply (keepalive_at_ext Ea) in Ht.
  replace (tKeepaliveInterval tr <=? 0) with false by lia. clear Hi Ea.
  revert wa Ht. induction wakes as [|b wakes IH]; intros wa Ht; [by constructor|].
  cbn [keepalive_wakes].
  eapply guarded_bind; [exact _|apply gd_plain; [by apply sf_keepalive_cancelled|framed]|].
  intros c us wb Eb [-> _]. apply (keepalive_at_ext Eb) in Ht. destruct c; [by apply gd_keepalive_end|].
  destruct b; [|by apply IH].
  eapply guarded_bind; [exact _|apply gd_plain; [by apply sf_TCP_IsClosed, keepalive_tcp|framed]|].
  intros c us wc Ec [-> _]. apply (keepalive_at_ext Ec) in Ht. destruct c; [by apply gd_keepalive_end|].
  eapply guarded_bind; [exact _|apply gd_plain; [by apply sf_keepalive_send|]|].
  { unfold keepalive_send, keepalive_sender. framed. }
  intros [] us wd Ed [-> _]. apply IH. exact (keepalive_at_ext Ed _ Ht).
Qed.

(** [closed.Swap(true)] lets one call through to [close(c.done)]. *)
Lemma gd_UDPClient_Close c w : client_at w c → gd (λ _ _ _, True) [] w (UDPClient_Close c).
Proof.
  intros Hc. unfold UDPClient_Close.
  eapply guarded_bind with (Q := λ (r : bool * string) us _, us = if r.1 then [] else [CloseDone c]);
    [exact _| |].
  - apply guarded_atomic; [exact _|]. intros rest w1 H1 T1 E1.
    pose proof (client_at_ext E1 _ Hc) as [cl Hcl]. rewrite Hcl. cbv beta zeta iota.
    destruct (keeps_pending_ok c cl (with_closed true cl) w1 H1 Hcl) as [H2 E2]; [by apply keeps_pending_refl|].
    eexists _, _, _. split_and!; [done|exact H2| |exact E2|done]. cbn [fst].
    destruct (ucClosed cl) eqn:Hx.
    + eapply entitled_provides; [|exact T1]. apply (provides_client w1 c cl); [done|done|by rewrite Hx|done].
    + pose proof (proj2 T1 c cl Hcl) as Hd. rewrite Hx in Hd.
      assert (ucDone cl = false) as Hd' by (destruct (ucDone cl); [by specialize (Hd eq_refl)|done]).
      apply (entitled_add (CloseDone c) rest w1); [exact T1| | |]; cbn.
      * rewrite list_lookup_insert_eq, Hcl by (by eapply lookup_lt_Some). cbn. by rewrite Hx, Hd'.
      * intros [t|c'] Hne; cbn; [done|]. rewrite list_lookup_insert_ne; [done|congruence].
      * intros Hw c' x [(<- & <- & _)|[_ Hy]]%list_lookup_insert_Some; [done|by eapply Hw].
  - intros [[|] remote] us wa Ea Hus; cbn in Hus; subst us; [by constructor|].
    apply (client_at_ext Ea) in Hc. eapply guarded_bind with (Q := λ _ us _, us = []); [exact _| |].
    + apply guarded_atomic; [exact _|]. intros rest w1 H1 T1 E1.
      pose proof (client_at_ext E1 _ Hc) as [cl Hcl]. rewrite Hcl.
      pose proof (entitled_supply _ _ _ T1) as Hs. cbn in Hs. rewrite Hcl in Hs. cbn in Hs.
      destruct (ucClosed cl) eqn:Hx, (ucDone cl) eqn:Hd; cbn in Hs; try lia.
      destruct (keeps_pending_ok c cl (with_done true cl) w1 H1 Hcl) as [H2 E2]; [by apply keeps_pending_refl|].
      eexists _, _, []. split_and!; [done|exact H2| |exact E2|done].
      eapply (entitled_drop (CloseDone c)); [exact T1| | |]; cbn.
      * rewrite list_lookup_insert_eq, Hcl by (by eapply lookup_lt_Some). cbn. by rewrite Hx, Hd.
      * intros [t|c'] Hne; cbn; [done|]. rewrite list_lookup_insert_ne; [done|congruence].
      * intros Hw c' x [(<- & <- & _)|[_ Hy]]%list_lookup_insert_Some; [by cbn|by eapply Hw].
    + intros [] us wb _ ->. eapply guarded_mono; [exact _|apply (gd_plain (λ _ _, True))|done].
      * apply sf_modify. intros wc Hwc _. split; [by apply wf_unregister_client|by split].
      * apply keeps_atomic. intros w1 a w2 _ [= <- <-]. by apply frame_same.
Qed.

(** The duties that a thread starts with. *)
Definition duties (t : thread) : list duty :=
  match t with TKeepalive t _ => [EndKeepalive t] | _ => [] end.

Lemma provides_thread t : takes_nothing t = true → thread_respects provides t.
Proof.
  assert (∀ msg, respects provides msg) as Hm.
  { intros msg _ l. apply keeps_atomic. intros w a w' _ H. cbv beta zeta in H.
    destruct (w_floor_heap w !! l); [|done]. destruct (Floor_Release _ _). simplify_eq. by split. }
  destruct t; cbn; try done.
  - intros _. by apply Forall_true.
  - intros _. apply keeps_atomic. intros w a w' _ [= <- <-]. by split.
Qed.

Lemma gd_thread t w : thread_ok w t → gd (λ _ _ _, True) (duties t) w (thread_prog t).
Proof.
  intros Ht. destruct (takes_nothing t) eqn:Hp.
  - replace (duties t) with (@nil duty) by (by destruct t).
    eapply guarded_mono; [exact _|apply (gd_plain (λ _ _, True)); [by apply sf_thread|]|done].
    apply frame_thread; [exact _|by apply provides_thread].
  - destruct t; try done; [by apply gd_keepaliveLoop|by apply gd_UDPClient_Close].
Qed.

(** C7: the server never dereferences nil, never indexes out of range, never closes a
    channel twice, never brings the counter of a wait group below zero and never gets into
    an endless loop: any number of datagrams (of any bytes), connections, keepalives that
    have been started and calls of the application, interleaved step by step in any order,
    keep the server's invariant, and what has been sent and recorded is never lost.  What
    [Transport.Close] does after its critical section is not among the steps: its wait for
    the keepalives can make the wait group panic, as [close_races_hello] shows. *)
Theorem server_never_panics w ts sched :
  wf_world w → Forall (thread_ok w) ts → entitled (concat (duties <$> ts)) w →
  ∃ ps w', pool_run sched (thread_prog <$> ts) w = Ok (ps, w') ∧ wf_world w' ∧
    w_trace w `prefix_of` w_trace w' ∧ w_history w `prefix_of` w_history w'.
Proof.
  intros Hw Hts He.
  destruct (pool_run_guarded wf_world extends entitled entitled_perm sched (thread_prog <$> ts)
    (duties <$> ts) w) as (ps & w' & Hrun & Hw' & E); [done|done| |].
  - apply Forall2_fmap, Forall_Forall2_diag. eapply Forall_impl; [exact Hts|]. intros t. apply gd_thread.
  - exists ps, w'. split_and!; [done|done|apply E..].
Qed.
End Duties.

(** *** Transactions of the client role *)

Section Transactions.
Context {env : Env}.

(** C18: a call of the client role only returns a message of its own transaction,
    whatever datagrams arrive and whatever the other calls do meanwhile: the channel it
    waits on only ever carries messages with the transaction id it was made for. *)
Theorem transact_response_matches c msg w :
  client_at w c →
  safe wf_world extends
    (λ r _, ∀ response, r = inl response → mTransactionID response = mTransactionID msg)
    w (transact c msg).
Proof. apply sf_transact. Qed.
End Transactions.

(** ** Two requests at once

    Users 7 and 8 request floor 1 of a new server over UDP; the handlers take turns. *)

Definition demo_threads : list thread :=
  [TDatagram "a" (datagram (demo_request 2 1 7 1)); TDatagram "b" (datagram (demo_request 1 9 8 1))].

Definition demo_schedule : list nat := concat (repeat [0; 1]%nat 40).

#[local] Instance udp_demo : Env := demo_env TransportUDP.

Definition demo_end : World :=
  match pool_run demo_schedule (thread_prog <$> demo_threads) NewServer with
  | Ok (_, w) => w
  | _ => NewServer
  end.

Lemma demo_threads_ok w : Forall (thread_ok w) demo_threads.
Proof. by repeat constructor. Qed.

Lemma entitled_NewServer ds : ds = [] → entitled ds NewServer.
Proof. intros ->. split; [intros d; cbn; lia|]. intros c cl. cbn. by rewrite lookup_nil. Qed.

Lemma server_never_panics_witness :
  wf_world NewServer ∧ ∃ ps w',
    pool_run demo_schedule (thread_prog <$> demo_threads) NewServer = Ok (ps, w') ∧ wf_world w' ∧
    length (w_history w') = 3%nat.
Proof.
  split; [exact wf_NewServer|].
  destruct (server_never_panics NewServer demo_threads demo_schedule wf_NewServer (demo_threads_ok _)
    (entitled_NewServer _ eq_refl)) as (ps & w' & Hrun & Hw' & _). exists ps, w'. split; [exact Hrun|]. split; [exact Hw'|].
  assert (demo_end = w') as <- by (unfold demo_end; rewrite Hrun; reflexivity).
  vm_compute. reflexivity.
Defined.

(** A client of the role toward "s", and a call of it. *)
Definition demo_client : UDPClient :=
  new_client (mkUDPClientConfig "s" 1 7 0 0 0) 0 "s".

Definition demo_client_world : World :=
  mkWorld [] ∅ [] ∅ [] [mkUDPTransport (Some "s") false] {[ "s" := 0%nat ]} {[ "s" := 0%nat ]}
    [demo_client] [] 0 [] [] 0.

Lemma transact_response_matches_witness :
  client_at demo_client_world 0 ∧
  safe wf_world extends
    (λ r _, ∀ response, r = inl response → mTransactionID response = 1)
    demo_client_world (transact 0 (demo_message 2 PrimitiveHello 1 7)).
Proof.
  assert (client_at demo_client_world 0) as Hc by (exists demo_client; reflexivity).
  split; [exact Hc|].
  exact (transact_response_matches 0 (demo_message 2 PrimitiveHello 1 7) demo_client_world Hc).
Defined.
