(* ===== verification/Responses.v ===== *)
(** * What the server says

    The messages the server sends, from their construction to what a receiver reads
    out of the bytes: [says_status], [says_error] and [says_state] describe a
    datagram by what [Decode] and the getters return for it, and the lemmas show
    that the messages the server builds say what they are meant to. *)

From S2P Require Import Prelude Types Message Grouped Codec FloorFSM.

(** ** Reading a datagram *)

(** The header of the decoded message. *)
Record header_is (m : Message) (version primitive conf tx user : Z) (response : bool) : Prop := {
  hd_version : mVersion m = version;
  hd_primitive : mPrimitive m = primitive;
  hd_conference : mConferenceID m = conf;
  hd_transaction : mTransactionID m = tx;
  hd_user : mUserID m = user;
  hd_response : IsResponse m = response
}.

Definition says_status (bs : bytes) (version conf tx user : Z) (response : bool)
    (primitive floorID requestID status : Z) : Prop :=
  ∃ m, Decode bs = Ok m ∧ header_is m version primitive conf tx user response ∧
    GetFloorID m = Ok (Some floorID) ∧ GetFloorRequestID m = Ok (Some requestID) ∧
    GetRequestStatus m = Ok (Some (status, 0)).

Definition says_error (bs : bytes) (version conf tx user : Z) (response : bool) (code : Z)
    (info : string) : Prop :=
  ∃ m, Decode bs = Ok m ∧ header_is m version PrimitiveError conf tx user response ∧
    GetErrorCode m = Some code ∧ GetErrorInfo m = Some (string_bytes info).

(** ** Sending *)

(** The version and the R flag as [sendUDP] sets them; [send] only sets the version. *)
Definition outgoing_udp (version : Z) (msg : Message) : Message :=
  let msg := set_Version version msg in
  if negb (mVersion msg =? ProtocolVersionRFC8855) then SetResponse false msg else msg.

(** The message of a request or a session, before its attributes. *)
Definition wf_ids (conf tx user : Z) : Prop := is_u32 conf ∧ is_u16 tx ∧ is_u16 user.

#[global] Instance wf_ids_dec conf tx user : Decision (wf_ids conf tx user).
Proof. unfold wf_ids. apply _. Defined.

(** A message under construction, as the server leaves it before encoding. *)
Definition built (version : Z) (response : bool) (primitive conf tx user : Z)
    (attrs : list Attribute) : Message :=
  mkMessage version (if response then headerFlagResponse else 0) primitive 0 conf tx user attrs.

Lemma built_wf version response primitive conf tx user attrs :
  version_ok version → is_u8 primitive → wf_ids conf tx user →
  wf_header (built version response primitive conf tx user attrs).
Proof.
  intros Hv Hp (Hc & Ht & Hu). split; [|done]. split; try done.
  - cbn. unfold version_ok, ProtocolVersionRFC4582, ProtocolVersionRFC8855 in Hv. lia.
  - by destruct response.
Qed.

Lemma built_response version response primitive conf tx user attrs :
  IsResponse (built version response primitive conf tx user attrs) = response.
Proof. by destruct response. Qed.

(** What is received when a built message is sent. *)
Lemma built_received version response primitive conf tx user attrs xs :
  version_ok version → is_u8 primitive → wf_ids conf tx user →
  Forall2 attr_decodes attrs xs → Forall tlv_ok xs →
  is_u16 (Z.of_nat (attrs_wire_length attrs / 4)) →
  let msg := built version response primitive conf tx user attrs in
  ∃ bs m, Encode msg = Ok (sized msg, bs) ∧ Decode bs = Ok m ∧
    header_is m version primitive conf tx user response ∧ mAttributes m = tlv_parsed <$> xs.
Proof.
  intros Hv Hp Hi Hxs Hok Hlen msg.
  destruct (Decode_Encode msg xs [] (built_wf _ _ _ _ _ _ _ Hv Hp Hi) Hxs Hok Hlen)
    as (bs & Henc & Hdec & _). rewrite app_nil_r in Hdec.
  eexists bs, _. split_and!; [done|done| |done]. split; try done. by destruct response.
Qed.

Lemma tlv_ok_attr t mandatory v :
  is_u7 t → (length v <= max_value_len)%nat → tlv_ok (t, mandatory, v).
Proof. done. Qed.

(** The payload is counted in words. *)
Lemma words_u16 (n : nat) : Z.of_nat n < 262144 → is_u16 (Z.of_nat (n / 4)).
Proof. intros. width. mlia. Qed.

Lemma plain_wire_length t v : (attr_wire_length (tlv_attr t v) <= 5 + length v)%nat.
Proof.
  unfold attr_wire_length. cbn [aRawTLV aLength tlv_attr]. rewrite skip_padded_eq, Nat2Z.id.
  pose proof (pad4_spec (2 + length v)). lia.
Qed.

(** *** FloorRequestStatus *)

Lemma status_attr_decodes requestID status floorID :
  Forall2 attr_decodes [raw_status_attr requestID status floorID]
    [(AttrFloorRequestInfo, true, floorReqInfoValue requestID status floorID)].
Proof.
  repeat constructor. unfold raw_status_attr. rewrite floorReqInfoAttr_simple. constructor.
Qed.

Lemma status_attr_ok requestID status floorID :
  Forall tlv_ok [(AttrFloorRequestInfo, true, floorReqInfoValue requestID status floorID)].
Proof.
  apply Forall_singleton. split; [done|]. cbn [snd].
  rewrite length_floorReqInfoValue. unfold max_value_len. lia.
Qed.

Lemma status_received version response primitive conf tx user floorID requestID status :
  version_ok version → is_u8 primitive → wf_ids conf tx user → is_u16 floorID → is_u16 requestID →
  is_u8 status →
  let msg := built version response primitive conf tx user [raw_status_attr requestID status floorID] in
  ∃ bs, Encode msg = Ok (sized msg, bs) ∧
    says_status bs version conf tx user response primitive floorID requestID status.
Proof.
  intros Hv Hp Hi Hf Hr Hs msg.
  destruct (built_received version response primitive conf tx user _ _ Hv Hp Hi
    (status_attr_decodes requestID status floorID) (status_attr_ok requestID status floorID))
    as (bs & m & Henc & Hdec & Hhd & Hat); [apply (bool_decide_unpack _); exact I|].
  exists bs. split; [done|]. exists m. split_and!; [done|done|..];
    eapply (status_getters m requestID status floorID);
    try (unfold GetAttribute; rewrite Hat; done);
    unfold FloorRequestInfos; rewrite Hat;
    replace status with (u8 status) at 2 by (by apply u8_small); by apply infos_status.
Qed.

(** *** Error *)

Lemma string_bytes_length s : length (string_bytes s) = String.length s.
Proof. unfold string_bytes. rewrite length_fmap. induction s as [|a s IH]; [done|]. exact (f_equal S IH). Qed.

Lemma string_length_app s1 s2 : String.length (s1 +:+ s2) = (String.length s1 + String.length s2)%nat.
Proof. induction s1 as [|a s1 IH]; [done|]. exact (f_equal S IH). Qed.

Lemma length_pretty_N_go k : ∀ (n : N) s,
  (n < 10 ^ N.of_nat k)%N → (String.length (pretty_N_go n s) <= k + String.length s)%nat.
Proof.
  induction k as [|k IH]; intros n s Hn.
  - assert (n = 0%N) as -> by (cbn in Hn; lia). by rewrite pretty_N_go_0.
  - destruct (decide (n = 0%N)) as [->|]; [rewrite pretty_N_go_0; lia|].
    rewrite pretty_N_go_step by lia. etrans; [apply IH|cbn; lia].
    rewrite Nat2N.inj_succ, N.pow_succ_r' in Hn. apply N.Div0.div_lt_upper_bound. lia.
Qed.

Lemma length_pretty_u16 z : is_u16 z → (String.length (pretty z) <= 5)%nat.
Proof.
  intros Hz. destruct z as [|p|p]; [cbn; lia| |width; lia].
  change (pretty (Z.pos p)) with (pretty (N.pos p)). unfold pretty, pretty_N.
  rewrite decide_False by lia. etrans; [apply (length_pretty_N_go 5)|cbn; lia]. width. cbn. lia.
Qed.

Definition error_attrs (code : Z) (info : string) : list Attribute :=
  [tlv_attr AttrErrorCode [code]; tlv_attr AttrErrorInfo (string_bytes info)].

Lemma error_received version response conf tx user code info :
  version_ok version → wf_ids conf tx user → is_u8 code →
  (String.length info <= max_value_len)%nat →
  let msg := built version response PrimitiveError conf tx user (error_attrs code info) in
  ∃ bs, Encode msg = Ok (sized msg, bs) ∧ says_error bs version conf tx user response code info.
Proof.
  intros Hv Hi Hc Hinfo msg. unfold max_value_len in Hinfo.
  destruct (built_received version response PrimitiveError conf tx user (error_attrs code info)
    [(AttrErrorCode, true, [code]); (AttrErrorInfo, true, string_bytes info)] Hv)
    as (bs & m & Henc & Hdec & Hhd & Hat).
  - apply (bool_decide_unpack _); exact I.
  - done.
  - repeat apply Forall2_cons_2; [constructor..|done].
  - apply Forall_cons; split; [|apply Forall_singleton]; (split; [done|]); cbn [snd];
      rewrite ?string_bytes_length; unfold max_value_len; cbn; lia.
  - apply words_u16. unfold attrs_wire_length, error_attrs. cbn [fmap list_fmap sum_list].
    pose proof (plain_wire_length AttrErrorCode [code]).
    pose proof (plain_wire_length AttrErrorInfo (string_bytes info)).
    rewrite string_bytes_length in *. cbn [length] in *. unfold id. lia.
  - exists bs. split; [done|]. exists m. split_and!; [done|done|..];
      unfold GetErrorCode, GetErrorInfo, GetAttribute; rewrite Hat; done.
Qed.

(** The longest text of a floor's error fits. *)
Lemma floor_error_text_fits e :
  match e with
  | FloorInUse f o => is_u16 f ∧ is_u16 o
  | NotOwner u f o => is_u16 u ∧ is_u16 f ∧ is_u16 o
  | InvalidFloorState s | CannotGrant s | CannotDeny s =>
      (String.length (RequestStatus_String s) <= 30)%nat
  | NoUserToRevoke => True
  end → (String.length (floor_error_text e) <= max_value_len)%nat.
Proof.
  unfold max_value_len. destruct e; cbn [floor_error_text]; intros He;
    rewrite ?string_length_app;
    repeat match goal with
    | H : _ ∧ _ |- _ => destruct H
    | H : is_u16 _ |- _ => apply length_pretty_u16 in H
    end; cbn -[pretty RequestStatus_String]; lia.
Qed.

(** *** FloorStatus *)

(** The getters on an attribute of their own. *)
Lemma attr_value2_plain t v m :
  GetAttribute t m = Some (tlv_attr t v) → (2 <= length v)%nat → attr_value2 t m = Some v.
Proof.
  intros Ha Hv. unfold attr_value2. rewrite Ha. cbn. by destruct (Nat.leb_spec 2 (length v)); [|lia].
Qed.

Lemma GetFloorID_attr f m :
  GetAttribute AttrFloorID m = Some (tlv_attr AttrFloorID (be16 f)) → is_u16 f →
  GetFloorID m = Ok (Some f).
Proof.
  intros Ha Hf. unfold GetFloorID. erewrite attr_value2_plain by (done || by rewrite length_be16).
  by rewrite get16_be16_nil.
Qed.

Lemma GetFloorRequestID_attr r m :
  GetAttribute AttrFloorRequestID m = Some (tlv_attr AttrFloorRequestID (be16 r)) → is_u16 r →
  GetFloorRequestID m = Ok (Some r).
Proof.
  intros Ha Hr. unfold GetFloorRequestID.
  erewrite attr_value2_plain by (done || by rewrite length_be16). by rewrite get16_be16_nil.
Qed.

Lemma GetRequestStatus_attr st q m :
  GetAttribute AttrRequestStatus m = Some (tlv_attr AttrRequestStatus [st; q]) →
  GetRequestStatus m = Ok (Some (st, q)).
Proof. intros Ha. unfold GetRequestStatus. by erewrite attr_value2_plain by (done || cbn; lia). Qed.

Definition state_attrs (floorID requestID status : Z) : list Attribute :=
  [tlv_attr AttrFloorID (be16 floorID); tlv_attr AttrFloorRequestID (be16 requestID);
   tlv_attr AttrRequestStatus [status; 0]].

Lemma state_received version response conf tx user floorID requestID status :
  version_ok version → wf_ids conf tx user → is_u16 floorID → is_u16 requestID → is_u8 status →
  let msg := built version response PrimitiveFloorStatus conf tx user
               (state_attrs floorID requestID status) in
  ∃ bs, Encode msg = Ok (sized msg, bs) ∧
    says_status bs version conf tx user response PrimitiveFloorStatus floorID requestID status.
Proof.
  intros Hv Hi Hf Hr Hs msg.
  destruct (built_received version response PrimitiveFloorStatus conf tx user
    (state_attrs floorID requestID status)
    [(AttrFloorID, true, be16 floorID); (AttrFloorRequestID, true, be16 requestID);
     (AttrRequestStatus, true, [status; 0])] Hv) as (bs & m & Henc & Hdec & Hhd & Hat).
  - apply (bool_decide_unpack _); exact I.
  - done.
  - repeat apply Forall2_cons_2; [constructor..|done].
  - repeat (apply Forall_cons; split); [..|done]; (split; [done|]);
      cbn [snd]; rewrite ?length_be16; unfold max_value_len; cbn; lia.
  - apply (bool_decide_unpack _); exact I.
  - exists bs. split; [done|]. exists m. split_and!; [done|done|..].
    + apply GetFloorID_attr; [|done]. unfold GetAttribute. by rewrite Hat.
    + apply GetFloorRequestID_attr; [|done]. unfold GetAttribute. by rewrite Hat.
    + apply GetRequestStatus_attr. unfold GetAttribute. by rewrite Hat.
Qed.

(** ** Pre-encoded messages *)

(** C27: [BuildFloorStatusMessage], which writes its bytes by hand, produces what
    [Encode] produces for the message built with [AddFloorID] and
    [AddFloorRequestInformationRFC4582], and a receiver reads the floor, the request
    and the status out of it. *)
Theorem BuildFloorStatusMessage_encodes version conf tx user floorID requestID status :
  version_ok version → wf_ids conf tx user → is_u16 floorID → is_u16 requestID → is_u8 status →
  let msg := AddFloorRequestInformationRFC4582 requestID status floorID
               (AddFloorID floorID
                  (set_Version version (NewMessage PrimitiveFloorStatus conf tx user))) in
  let bs := BuildFloorStatusMessage version conf tx user floorID requestID status in
  Encode msg = Ok (sized msg, bs) ∧
  says_status bs version conf tx user false PrimitiveFloorStatus floorID requestID status.
Proof.
  intros Hv Hi Hf Hr Hs msg bs.
  assert (Forall2 attr_decodes (mAttributes msg)
    [(AttrFloorID, true, be16 floorID);
     (AttrFloorRequestInfo, true, floorReqInfoValue requestID status floorID)]) as Hxs.
  { apply Forall2_cons_2; [apply (decodes_plain AttrFloorID (be16 floorID))|].
    apply status_attr_decodes. }
  assert (Forall tlv_ok [(AttrFloorID, true, be16 floorID);
     (AttrFloorRequestInfo, true, floorReqInfoValue requestID status floorID)]) as Hok.
  { apply Forall_cons. split; [split; [done|cbn [snd]; rewrite length_be16; unfold max_value_len; lia]|apply status_attr_ok]. }
  destruct (Encode_run msg _ Hxs Hok) as [Henc _].
  assert (Encode msg = Ok (sized msg, bs)) as Hbs.
  { rewrite Henc. do 2 f_equal. unfold bs, BuildFloorStatusMessage. rewrite floorReqInfoAttr_simple.
    unfold tlv_bytes. cbn [fst snd fmap list_fmap concat]. rewrite app_nil_r.
    unfold wire_header. change 31 with (2 ^ 5 - 1). 
    cbn [sized set_PayloadLength mVersion mReserved mPrimitive mPayloadLength mConferenceID
      mTransactionID mUserID msg]. rewrite Z.land_0_l, Z.lor_0_r. by rewrite <- !app_assoc. }
  split; [done|]. destruct (Decode_Encode msg _ [] (built_wf version false PrimitiveFloorStatus conf tx user
    (mAttributes msg) Hv ltac:(apply (bool_decide_unpack _); exact I) Hi) Hxs Hok)
    as (bs' & Henc' & Hdec & _); [apply (bool_decide_unpack _); exact I|].
  rewrite Hbs in Henc'. simplify_eq. rewrite app_nil_r in Hdec.
  eexists. split; [exact Hdec|]. split; [by split|].
  set (m := set_Attributes _ _).
  assert (FloorRequestInfos m = Ok [status_info requestID status floorID]) as Hinfos.
  { rewrite <- (u8_small status) by done. by apply (infos_status requestID status floorID). }
  split_and!; [by apply GetFloorID_attr|..];
    unfold GetFloorRequestID, GetRequestStatus; cbn [attr_value2]; rewrite Hinfos; done.
Qed.

Lemma BuildFloorStatusMessage_encodes_witness :
  says_status (BuildFloorStatusMessage 1 1 2 7 5 6 3) 1 1 2 7 false PrimitiveFloorStatus 5 6 3.
Proof.
  apply (BuildFloorStatusMessage_encodes 1 1 2 7 5 6 3); apply (bool_decide_unpack _); exact I.
Defined.
