(* ===== verification/ServerRun.v ===== *)
(** * Running handlers alone

    What one step of a handler does when nothing interferes: [step w w' pk cb] says
    that from [w] to [w'] the packets [pk] were sent and the callbacks [cb] ran, while
    floors, registrations and the endpoints of the sessions stayed as they were.
    The lemmas give such a step for every primitive of the handlers. *)

From S2P Require Import Prelude Types Message Grouped Codec FloorFSM Session Prog World Transport UDPClient Server Interleave Responses ServerSafe.

(** ** What an observer sees *)

Definition packets (tr : list event) : list (string * bytes) :=
  omap (λ e, match e with Packet r b => Some (r, b) | _ => None end) tr.

(** The callbacks, without the message taps. *)
Definition calls (tr : list event) : list event :=
  omap (λ e, match e with
             | Packet _ _ | MessageIn _ _ _ _ _ _ _ | MessageOut _ _ _ _ _ _ _ => None
             | e => Some e
             end) tr.

(** The floor registered under an id. *)
Definition floor_of (w : World) (id : Z) : option FloorStateMachine :=
  w_floors w !! id ≫= λ l, w_floor_heap w !! l.

(** The transports of a session and the version it speaks. *)
Definition endpoint (s : Session) : option nat * option nat * Z :=
  (sTransport s, sUDPTransport s, Session_ProtocolVersion s).
Definition endpoints (w : World) : list (option nat * option nat * Z) :=
  endpoint <$> w_session_heap w.

(** Session [i] speaks version [v] with the open UDP (or TCP) transport to [r]; nobody
    waits in [Close] of a TCP transport that is open. *)
Definition udp_peer (w : World) (i : nat) (r : string) (v : Z) : Prop :=
  ∃ tcp t, endpoints w !! i = Some (tcp, Some t, v) ∧
    w_udp_transports w !! t = Some (mkUDPTransport (Some r) false).
Definition tcp_peer (w : World) (i : nat) (r : string) (v : Z) : Prop :=
  ∃ t tr, endpoints w !! i = Some (Some t, None, v) ∧
    w_transports w !! t = Some tr ∧ tRemote tr = r ∧ tClosed tr = false ∧
    wgWaiters (tKeepaliveWg tr) = 0%nat.

(** ** Steps *)

(** From [w] to [w'] the packets [pk] were sent and the callbacks [cb] ran; who is
    registered, and who talks to whom in which version, did not change. *)
Record comm (w w' : World) (pk : list (string * bytes)) (cb : list event) : Prop := {
  comm_sessions : w_sessions w' = w_sessions w;
  comm_endpoints : endpoints w' = endpoints w;
  comm_udp : w_udp_transports w' = w_udp_transports w;
  comm_tcp : w_transports w' = w_transports w;
  comm_packets : packets (w_trace w') = packets (w_trace w) ++ pk;
  comm_calls : calls (w_trace w') = calls (w_trace w) ++ cb;
  comm_listener : w_udp_sessions w' = w_udp_sessions w;
  comm_clients : w_udp_clients w' = w_udp_clients w
}.

(** And no floor changed. *)
Record step (w w' : World) (pk : list (string * bytes)) (cb : list event) : Prop := {
  step_comm : comm w w' pk cb;
  step_floors : w_floors w' = w_floors w;
  step_heap : w_floor_heap w' = w_floor_heap w
}.

Lemma comm_refl w : comm w w [] [].
Proof. by split; rewrite ?app_nil_r. Qed.
Lemma step_refl w : step w w [] [].
Proof. by split; [apply comm_refl|..]. Qed.

Lemma comm_trans w1 w2 w3 p1 p2 c1 c2 :
  comm w1 w2 p1 c1 → comm w2 w3 p2 c2 → comm w1 w3 (p1 ++ p2) (c1 ++ c2).
Proof.
  intros H1 H2. split.
  - by rewrite (comm_sessions _ _ _ _ H2), (comm_sessions _ _ _ _ H1).
  - by rewrite (comm_endpoints _ _ _ _ H2), (comm_endpoints _ _ _ _ H1).
  - by rewrite (comm_udp _ _ _ _ H2), (comm_udp _ _ _ _ H1).
  - by rewrite (comm_tcp _ _ _ _ H2), (comm_tcp _ _ _ _ H1).
  - by rewrite (comm_packets _ _ _ _ H2), (comm_packets _ _ _ _ H1), app_assoc.
  - by rewrite (comm_calls _ _ _ _ H2), (comm_calls _ _ _ _ H1), app_assoc.
  - by rewrite (comm_listener _ _ _ _ H2), (comm_listener _ _ _ _ H1).
  - by rewrite (comm_clients _ _ _ _ H2), (comm_clients _ _ _ _ H1).
Qed.

(** After which nothing more was sent or called. *)
Lemma comm_then w1 w2 w3 pk cb : comm w1 w2 pk cb → comm w2 w3 [] [] → comm w1 w3 pk cb.
Proof.
  intros H1 H2. rewrite <- (app_nil_r pk), <- (app_nil_r cb). by eapply comm_trans.
Qed.

Lemma step_trans w1 w2 w3 p1 p2 c1 c2 :
  step w1 w2 p1 c1 → step w2 w3 p2 c2 → step w1 w3 (p1 ++ p2) (c1 ++ c2).
Proof.
  intros [H1 Hf1 Hh1] [H2 Hf2 Hh2]. split; [by eapply comm_trans|congruence..].
Qed.

Lemma step_log evs w : step w (log_events evs w) (packets evs) (calls evs).
Proof. split; [split; try done; apply omap_app|done..]. Qed.

Lemma step_tick w w' pk cb : step w w' pk cb → step w (tick w') pk cb.
Proof. intros [[] ? ?]. by split; [split|..]. Qed.

Lemma tick_step w : step w (tick w) [] [].
Proof. apply step_tick, step_refl. Qed.

Lemma comm_udp_peer w w' pk cb i r v : comm w w' pk cb → udp_peer w i r v → udp_peer w' i r v.
Proof.
  intros Hc (tcp & t & Hi & Ht). exists tcp, t.
  by rewrite (comm_endpoints _ _ _ _ Hc), (comm_udp _ _ _ _ Hc).
Qed.
Lemma comm_tcp_peer w w' pk cb i r v : comm w w' pk cb → tcp_peer w i r v → tcp_peer w' i r v.
Proof.
  intros Hc (t & tr & Hi & Ht & ?). exists t, tr.
  by rewrite (comm_endpoints _ _ _ _ Hc), (comm_tcp _ _ _ _ Hc).
Qed.
Lemma step_floor_of w w' pk cb id : step w w' pk cb → floor_of w' id = floor_of w id.
Proof. intros [_ Hf Hh]. unfold floor_of. by rewrite Hf, Hh. Qed.

Lemma endpoints_lookup w i e :
  endpoints w !! i = Some e → ∃ s, w_session_heap w !! i = Some s ∧ endpoint s = e.
Proof. unfold endpoints. rewrite list_lookup_fmap. intros (s & -> & ->)%fmap_Some. by exists s. Qed.

Lemma session_heap_alter f i s w :
  w_session_heap w !! i = Some s →
  set_session_heap <[i := f s]> w = set_session_heap (alter f i) w.
Proof. intros Hs. unfold set_session_heap. f_equal. symmetry. by apply alter_insert. Qed.

(** An update of a session that keeps its endpoint. *)
Lemma endpoints_update f i w :
  (∀ s, endpoint (f s) = endpoint s) →
  endpoints (set_session_heap (alter f i) w) = endpoints w.
Proof.
  intros Hf. unfold endpoints. cbn. apply list_eq. intros j. rewrite !list_lookup_fmap.
  destruct (decide (i = j)) as [->|]; [|by rewrite list_lookup_alter_ne].
  rewrite list_lookup_alter_eq. destruct (w_session_heap w !! j); cbn; [by rewrite Hf|done].
Qed.

(** ** Running single statements *)

(** [srun H]: the next statement of the program runs as [H] says. *)
Tactic Notation "srun" uconstr(H) := erewrite run_bind_Ok by (eapply H; eauto).

Section Run.
Context {env : Env}.

Lemma run_emit e w : run (emit e) w = Ok (tt, log_events [e] w).
Proof. unfold emit, modify. by rewrite run_atomic. Qed.

(** A callback, where it is set. *)
Lemma run_callback b e w :
  calls [e] = [e] → packets [e] = [] →
  ∃ w', run (when b (emit e)) w = Ok (tt, w') ∧ step w w' [] (if b then [e] else []).
Proof.
  intros Hc Hp. destruct b; cbn [when].
  - rewrite run_emit. eexists. split; [done|]. pose proof (step_log [e] w) as Hs.
    by rewrite Hc, Hp in Hs.
  - exists w. split; [done|apply step_refl].
Qed.

Lemma run_message_out remote msg w :
  ∃ w', run (message_out remote msg) w = Ok (tt, w') ∧ step w w' [] [] .
Proof.
  unfold message_out. destruct (OnMessageOut hooks); cbn [when]; [|by exists w; split; [|apply step_refl]].
  destruct (GetFloorID_Ok msg) as [f Hf]. srun run_lift.
  rewrite run_emit. eexists. split; [done|]. apply (step_log [MessageOut _ _ _ _ _ _ _]).
Qed.

Lemma run_message_in remote msg w :
  ∃ w', run (message_in remote msg) w = Ok (tt, w') ∧ step w w' [] [] ∧
    w_nextTxID w' = w_nextTxID w.
Proof.
  unfold message_in. destruct (OnMessageIn hooks); cbn [when];
    [|by exists w; split_and!; [|apply step_refl|]].
  destruct (GetFloorID_Ok msg) as [f Hf]. srun run_lift.
  rewrite run_emit. eexists. split_and!; [done| |done]. apply (step_log [MessageIn _ _ _ _ _ _ _]).
Qed.

Lemma run_session_SetState i st w :
  is_Some (w_session_heap w !! i) →
  ∃ w', run (session_SetState i st) w = Ok (tt, w') ∧ step w w' [] [].
Proof.
  intros [s Hs]. unfold session_SetState, upd_session. rewrite run_atomic, Hs.
  eexists. split; [done|]. apply step_tick.
  rewrite (session_heap_alter (set_StateMachine (Session_SetState st (now (w_tick w)))) _ _ _ Hs).
  split; [split; try done; [by apply endpoints_update|by rewrite app_nil_r..]|done..].
Qed.

(** ** Sending *)

Context (Hwrite : ∀ t, write_ok t = true).

Lemma run_sendUDP i r v msg bs w :
  udp_peer w i r v → Encode (outgoing_udp v msg) = Ok (sized (outgoing_udp v msg), bs) →
  ∃ w', run (sendUDP i msg) w = Ok (tt, w') ∧ step w w' [(r, bs)] [].
Proof using Hwrite.
  intros (tcp & t & Hi & Ht) Henc. apply endpoints_lookup in Hi as (s & Hs & He).
  injection He as He1 He2 He3. unfold sendUDP. srun run_deref. rewrite He2, He3.
  fold (outgoing_udp v msg).
  assert (run (UDPTransport_SendMessage t (outgoing_udp v msg)) w =
          Ok ((None, sized (outgoing_udp v msg)), tick (log_events [Packet r bs] w))) as Hsend.
  { unfold UDPTransport_SendMessage. rewrite run_atomic, Ht. unfold encode_or. rewrite Henc.
    unfold socket_write. by rewrite Hwrite. }
  rewrite (run_bind_Ok _ _ _ _ _ Hsend).
  pose proof (step_tick _ _ _ _ (step_log [Packet r bs] w)) as Hst. cbn in Hst.
  set (w1 := tick (log_events [Packet r bs] w)) in *.
  destruct (OnMessageOut hooks); cbn [when]; [|by exists w1].
  assert (run (UDPTransport_RemoteAddr t) w1 = Ok (r, w1)) as Hr
    by (unfold UDPTransport_RemoteAddr; rewrite run_atomic; cbn; by rewrite Ht).
  rewrite (run_bind_Ok _ _ _ _ _ Hr).
  destruct (run_message_out r (sized (outgoing_udp v msg)) w1) as (w2 & -> & Hst2).
  exists w2. split; [done|]. exact (step_trans _ _ _ _ _ _ _ Hst Hst2).
Qed.

Lemma run_send_tcp i r v msg bs w :
  tcp_peer w i r v → Encode (set_Version v msg) = Ok (sized (set_Version v msg), bs) →
  ∃ w', run (send i msg) w = Ok (tt, w') ∧ step w w' [(r, bs)] [].
Proof using Hwrite.
  intros (t & tr & Hi & Ht & Hr & Hcl & _) Henc. apply endpoints_lookup in Hi as (s & Hs & He).
  injection He as He1 He2 He3. unfold send. srun run_deref. rewrite He1, He2, He3.
  assert (run (Transport_SendMessage t (set_Version v msg)) w =
          Ok ((None, sized (set_Version v msg)), tick (log_events [Packet r bs] w))) as Hsend.
  { unfold Transport_SendMessage. rewrite run_atomic, Ht, Hcl. unfold encode_or. rewrite Henc.
    unfold socket_write. by rewrite Hwrite, Hr. }
  rewrite (run_bind_Ok _ _ _ _ _ Hsend).
  pose proof (step_tick _ _ _ _ (step_log [Packet r bs] w)) as Hst. cbn in Hst.
  set (w1 := tick (log_events [Packet r bs] w)) in *.
  assert (run (Transport_RemoteAddr t) w1 = Ok (r, w1)) as Hra
    by (unfold Transport_RemoteAddr; rewrite run_atomic; cbn; by rewrite Ht, Hr).
  rewrite (run_bind_Ok _ _ _ _ _ Hra).
  destruct (run_message_out r (sized (set_Version v msg)) w1) as (w2 & -> & Hst2).
  exists w2. split; [done|]. exact (step_trans _ _ _ _ _ _ _ Hst Hst2).
Qed.

Lemma run_send_udp i r v msg bs w :
  udp_peer w i r v → Encode (outgoing_udp v msg) = Ok (sized (outgoing_udp v msg), bs) →
  ∃ w', run (send i msg) w = Ok (tt, w') ∧ step w w' [(r, bs)] [].
Proof using Hwrite.
  intros Hp Henc. pose proof Hp as (tcp & t & Hi & Ht). apply endpoints_lookup in Hi as (s & Hs & He).
  injection He as He1 He2 He3. unfold send. srun run_deref. rewrite He2. by eapply run_sendUDP.
Qed.

(** The address for the log. *)
Lemma run_udp_remote i r v w : udp_peer w i r v → run (udp_remote i) w = Ok (r, w).
Proof.
  intros (tcp & t & Hi & Ht). apply endpoints_lookup in Hi as (s & Hs & He).
  injection He as He1 He2 He3. unfold udp_remote. srun run_deref. rewrite He2.
  unfold UDPTransport_RemoteAddr. by rewrite run_atomic, Ht.
Qed.

Lemma run_tcp_remote i r v w : tcp_peer w i r v → run (tcp_remote i) w = Ok (r, w).
Proof.
  intros (t & tr & Hi & Ht & Hr & _). apply endpoints_lookup in Hi as (s & Hs & He).
  injection He as He1 He2 He3. unfold tcp_remote. srun run_deref. rewrite He1.
  unfold Transport_RemoteAddr. by rewrite run_atomic, Ht, Hr.
Qed.
End Run.

(** ** Floors *)

(** A registered floor: its id, its shape, and its id, user and request as the
    [uint16]s they are. *)
Record floor_ok (id : Z) (f : FloorStateMachine) : Prop := {
  fo_id : fFloorID f = id;
  fo_u16 : is_u16 id;
  fo_wf : wf_floor f;
  fo_owner : is_u16 (fOwnerUserID f);
  fo_request : is_u16 (fFloorRequestID f)
}.

Definition floors_ok (w : World) : Prop :=
  ∀ id l, w_floors w !! id = Some l → ∃ f, w_floor_heap w !! l = Some f ∧ floor_ok id f.

(** The lock of a floor id: a floor that does not exist is free. *)
Definition lock_at (w : World) (id : Z) : Lock.lock :=
  match floor_of w id with Some f => lock_of f | None => Lock.Free end.

(** The locks of all other floors stay. *)
Definition others_stay (w w' : World) (id : Z) : Prop :=
  ∀ id', id' ≠ id → floor_of w' id' = floor_of w id'.

Lemma floor_of_lookup w id l f :
  w_floors w !! id = Some l → w_floor_heap w !! l = Some f → floor_of w id = Some f.
Proof. intros Hl Hf. unfold floor_of. by rewrite Hl. Qed.

Lemma floor_of_inv w id f :
  floor_of w id = Some f → ∃ l, w_floors w !! id = Some l ∧ w_floor_heap w !! l = Some f.
Proof. unfold floor_of. intros (l & Hl & Hf)%bind_Some. by exists l. Qed.

Lemma lock_at_lookup w id l f :
  w_floors w !! id = Some l → w_floor_heap w !! l = Some f → lock_at w id = lock_of f.
Proof. intros Hl Hf. unfold lock_at. by rewrite (floor_of_lookup w id l f). Qed.

Lemma same_floors_ok w w' :
  w_floors w' = w_floors w → w_floor_heap w' = w_floor_heap w → floors_ok w → floors_ok w'.
Proof. intros Hf Hh Hok id l. rewrite Hf, Hh. apply Hok. Qed.

Lemma step_floors_ok w w' pk cb : step w w' pk cb → floors_ok w → floors_ok w'.
Proof. intros [_ Hf Hh]. by apply same_floors_ok. Qed.

Lemma step_lock_at w w' pk cb id : step w w' pk cb → lock_at w' id = lock_at w id.
Proof. intros Hs. unfold lock_at. by rewrite (step_floor_of _ _ _ _ id Hs). Qed.

Lemma step_others w w' pk cb id : step w w' pk cb → others_stay w w' id.
Proof. intros Hs id' _. by eapply step_floor_of. Qed.

Lemma others_trans w1 w2 w3 id : others_stay w1 w2 id → others_stay w2 w3 id → others_stay w1 w3 id.
Proof. intros H1 H2 id' Hne. by rewrite H2, H1. Qed.

(** The arguments of an operation as the [uint16]s they are. *)
Definition op_u16 (op : floor_op) : Prop :=
  match op with OpRequest u r _ => is_u16 u ∧ is_u16 r | _ => True end.

Lemma floor_apply_ok id op f : op_u16 op → floor_ok id f → floor_ok id (floor_apply op f).2.
Proof.
  intros Hop [Hid Hu Hwf Ho Hr].
  split; [by rewrite floor_apply_id|done|by apply floor_apply_wf|..];
    destruct op; cbn in *;
    unfold Floor_Request, Floor_Grant, Floor_Deny, Floor_Release, Floor_Revoke;
    repeat case_match; cbn in *; simplify_eq; try done; try apply Hop; width; lia.
Qed.

(** What one operation does to a registered floor. *)
Record operated (w w' : World) (id : Z) (l : nat) (ok : bool) (f' : FloorStateMachine) (lk : Lock.lock)
    : Prop := {
  op_comm : comm w w' [] [];
  op_floors : w_floors w' !! id = Some l;
  op_heap : w_floor_heap w' !! l = Some f';
  op_floors_ok : floors_ok w';
  op_lock : lock_at w' id = lk;
  op_others : others_stay w w' id
}.

Lemma operate id l f op w :
  floors_ok w → w_floors w !! id = Some l → w_floor_heap w !! l = Some f → op_u16 op →
  Lock.apply op (lock_at w id) = (no_error (floor_apply op f).1, lock_of (floor_apply op f).2) ∧
  operated w (apply_floor_op l op w) id l (no_error (floor_apply op f).1) (floor_apply op f).2
    (lock_of (floor_apply op f).2).
Proof.
  intros Hok Hl Hf Hop. destruct (Hok id l Hl) as (f0 & Hf0 & Hfo). simplify_eq.
  pose proof (floor_apply_lock op f (fo_wf _ _ Hfo)) as Hlock.
  assert (w_floor_heap (apply_floor_op l op w) !! l = Some (floor_apply op f).2) as Hnew
    by (cbn; by rewrite list_lookup_alter_eq, Hf).
  rewrite (lock_at_lookup w id l f) by done.
  destruct (floor_apply op f) as [e f'] eqn:Hf'. destruct Hlock as (_ & _ & Hlock).
  assert (∀ id' l', id' ≠ id → w_floors w !! id' = Some l' →
    w_floor_heap (apply_floor_op l op w) !! l' = w_floor_heap w !! l') as Hother.
  { intros id' l' Hne Hl'. cbn. apply list_lookup_alter_ne. intros <-.
    destruct (Hok id' l Hl') as (f1 & ? & []), Hfo. by simplify_eq. }
  split; [done|]. split; try done.
  - by split; rewrite ?app_nil_r.
  - intros id' l' Hl'. destruct (decide (id' = id)) as [->|Hne].
    + cbn in Hl'. simplify_eq. exists f'. split; [done|].
      replace f' with (floor_apply op f).2 by (by rewrite Hf'). by apply floor_apply_ok.
    + rewrite (Hother id' l') by done. by apply Hok.
  - by apply lock_at_lookup with l.
  - intros id' Hne. unfold floor_of. cbn [w_floors apply_floor_op tick log_floor_op set_floor_heap].
    destruct (w_floors w !! id') as [l'|] eqn:Hl'; [|done]. by apply Hother with id'.
Qed.

Section Floors.
Context {env : Env}.

Lemma run_floor_call {X} l op (g : Time → FloorStateMachine → X * FloorStateMachine) f w :
  w_floor_heap w !! l = Some f →
  (g (now (w_tick w)) f).2 = (floor_apply (op (now (w_tick w))) f).2 →
  run (floor_call l op g) w =
    Ok ((g (now (w_tick w)) f).1, apply_floor_op l (op (now (w_tick w))) w).
Proof.
  intros Hf Hg. unfold floor_call. rewrite run_atomic, Hf. cbn zeta.
  destruct (g (now (w_tick w)) f) as [x f']. cbn in Hg. subst f'. cbn. do 2 f_equal.
  unfold apply_floor_op, set_floor_heap. do 3 f_equal. symmetry.
  by apply (alter_insert (λ f, (floor_apply (op (now (w_tick w))) f).2)).
Qed.

Lemma run_floor_Request l u r p f w :
  w_floor_heap w !! l = Some f →
  run (floor_Request l u r p) w = Ok ((Floor_Request u r p f).1, apply_floor_op l (OpRequest u r p) w).
Proof.
  intros Hf. unfold floor_Request. rewrite (run_floor_call l _ _ f); [done|done|].
  cbn. by destruct (Floor_Request u r p f) as [[? ?] ?].
Qed.

Lemma run_floor_Grant l f w :
  w_floor_heap w !! l = Some f →
  run (floor_Grant l) w =
    Ok ((Floor_Grant (now (w_tick w)) f).1, apply_floor_op l (OpGrant (now (w_tick w))) w).
Proof. intros Hf. unfold floor_Grant. by rewrite (run_floor_call l _ _ f). Qed.

Lemma run_floor_Deny l f w :
  w_floor_heap w !! l = Some f →
  run (floor_Deny l) w = Ok ((Floor_Deny f).1, apply_floor_op l OpDeny w).
Proof. intros Hf. unfold floor_Deny. by rewrite (run_floor_call l _ _ f). Qed.

Lemma run_floor_Release l u f w :
  w_floor_heap w !! l = Some f →
  run (floor_Release l u) w = Ok ((Floor_Release u f).1, apply_floor_op l (OpRelease u) w).
Proof. intros Hf. unfold floor_Release. by rewrite (run_floor_call l _ _ f). Qed.

Lemma run_floor_get {X} l (g : FloorStateMachine → X) f w :
  w_floor_heap w !! l = Some f → run (floor_get l g) w = Ok (g f, w).
Proof. intros Hf. unfold floor_get. srun run_deref. done. Qed.

Lemma run_nextTxID w : run nextTxID_Add w = Ok (u32 (w_nextTxID w + 1), set_nextTxID (λ _, u32 (w_nextTxID w + 1)) w).
Proof. unfold nextTxID_Add. by rewrite run_atomic. Qed.

Lemma nextTxID_step f w : step w (set_nextTxID f w) [] [].
Proof. by split; [split; rewrite ?app_nil_r|..]. Qed.

(** The floor of a request: the registered one, or a new one. *)
Lemma run_request_floor id w :
  floors_ok w → is_u16 id →
  ∃ l f w1, run (request_floor id) w = Ok (l, w1) ∧
    w_floors w1 !! id = Some l ∧ w_floor_heap w1 !! l = Some f ∧
    lock_at w1 id = lock_at w id ∧ floors_ok w1 ∧ comm w w1 [] [] ∧
    w_nextTxID w1 = w_nextTxID w ∧ others_stay w w1 id.
Proof.
  intros Hok Hid. unfold request_floor, GetFloor. erewrite run_bind_Ok by apply run_gets.
  destruct (w_floors w !! id) as [l|] eqn:Hl.
  - destruct (Hok id l Hl) as (f & Hf & _). exists l, f, w. by split_and!; [..|apply comm_refl| |].
  - unfold CreateFloor. rewrite run_atomic, Hl.
    set (f := NewFloorStateMachine id (cConferenceID config) (now (w_tick w))).
    set (w1 := tick _).
    assert (w_floors w1 !! id = Some (length (w_floor_heap w))) as Hl1 by apply lookup_insert_eq.
    assert (w_floor_heap w1 !! length (w_floor_heap w) = Some f) as Hf1 by by apply list_lookup_middle.
    eexists _, f, w1. split_and!; [done|done|done| | |by split; rewrite ?app_nil_r|done|].
    + rewrite (lock_at_lookup w1 id _ f) by done. unfold lock_at, floor_of. by rewrite Hl.
    + intros id' l' Hl'. change (<[id := length (w_floor_heap w)]> (w_floors w) !! id' = Some l') in Hl'.
      apply lookup_insert_Some in Hl' as [[<- <-]|[_ Hl']].
      * exists f. split; [done|]. split; [done|done|apply wf_floor_new|done..].
      * destruct (Hok id' l' Hl') as (f' & Hf' & Hfo). exists f'. split; [|done].
        by apply lookup_app_l_Some.
    + intros id' Hne. unfold floor_of. cbn. rewrite lookup_insert_ne by done.
      destruct (w_floors w !! id') as [l'|] eqn:Hl'; [|done]. cbn.
      destruct (Hok id' l' Hl') as (f' & Hf' & _). rewrite Hf'. by apply lookup_app_l_Some.
Qed.

Lemma run_ask_grant f u r w :
  ∃ w', run (ask_grant f u r) w =
      Ok (match OnFloorRequest hooks with Some d => d f u r | None => AutoGrant config end, w') ∧
    step w w' [] (match OnFloorRequest hooks with Some _ => [AskedFloorRequest f u r] | None => [] end) ∧
    w_nextTxID w' = w_nextTxID w.
Proof.
  unfold ask_grant. destruct (OnFloorRequest hooks) as [d|];
    [|by exists w; split_and!; [|apply step_refl|]].
  erewrite run_bind_Ok by apply run_emit. eexists. split_and!; [done| |done].
  apply (step_log [AskedFloorRequest f u r]).
Qed.
End Floors.
