(* ===== verification/Holder.v ===== *)
(** * The holder of a floor, in every interleaving

    A floor that is granted stays granted to its holder while any number of goroutines
    work on the server step by step, so long as none of them gives it up. *)

From S2P Require Import Prelude Types Message Grouped Codec FloorFSM Session Prog World Transport UDPClient Server Threads Interleave Frame ServerSafe Scenario Safety Responses ServerRun.

(** An operation other than a release of the holder, of user 0, or a revocation. *)
Lemma held_stays op fsm u r :
  lock_of fsm = Lock.Held u r → op ≠ OpRevoke → (∀ v, op = OpRelease v → v ≠ u ∧ v ≠ 0) →
  lock_of (floor_apply op fsm).2 = Lock.Held u r.
Proof.
  intros Hl Hr Hv. assert (wf_floor fsm) as Hwf.
  { unfold lock_of in Hl. left. right.
    repeat match type of Hl with context [?a =? ?b] => destruct (Z.eqb_spec a b) end; try discriminate. done. }
  pose proof (floor_apply_lock op fsm Hwf) as H. destruct (floor_apply op fsm) as [e fsm'].
  destruct H as (_ & _ & H). rewrite Hl in H. cbn [snd]. apply (f_equal snd) in H. cbn [snd] in H. rewrite <- H.
  destruct op as [| | |v|]; try done. cbn -[decide]. destruct (Hv v eq_refl). by rewrite decide_False by tauto.
Qed.

(** Floor [id] is held by user [u] for request [r]. *)
Definition held (id u r : Z) (w : World) : Prop := lock_at w id = Lock.Held u r.

Lemma held_inv id u r w :
  held id u r w → ∃ l fsm, w_floors w !! id = Some l ∧ w_floor_heap w !! l = Some fsm ∧
    lock_of fsm = Lock.Held u r.
Proof.
  unfold held, lock_at, floor_of. destruct (w_floors w !! id) as [l|] eqn:Hl; [|done]. cbn.
  destruct (w_floor_heap w !! l) as [fsm|] eqn:Hf; [|done]. by exists l, fsm.
Qed.
Lemma held_intro id u r w l fsm :
  w_floors w !! id = Some l → w_floor_heap w !! l = Some fsm → lock_of fsm = Lock.Held u r →
  held id u r w.
Proof. intros Hl Hf H. unfold held, lock_at, floor_of. rewrite Hl. cbn. by rewrite Hf. Qed.

(** A floor that is held stays held. *)
Definition holds_on (id u r : Z) (w w' : World) : Prop := held id u r w → held id u r w'.

Lemma holds_on_op id u r w l op fsm :
  op ≠ OpRevoke → (∀ v, op = OpRelease v → v ≠ u ∧ v ≠ 0) → w_floor_heap w !! l = Some fsm →
  holds_on id u r w (set_floor_heap <[l := (floor_apply op fsm).2]> w).
Proof.
  intros Hr Hv Hl (l' & f & Hid & Hf & Hh)%held_inv. destruct (decide (l' = l)) as [->|].
  - simplify_eq. eapply (held_intro _ _ _ _ l); [done| |by apply held_stays].
    apply list_lookup_insert_eq. by eapply lookup_lt_Some.
  - eapply (held_intro _ _ _ _ l'); [done| |done]. cbn. by rewrite list_lookup_insert_ne.
Qed.

#[global] Instance holds_on_frame id u r : Frame (holds_on id u r).
Proof.
  split; unfold holds_on.
  - split; [by intros w|]. intros w1 w2 w3 H1 H2. auto.
  - intros w w' Hf Hh _ _. unfold held, lock_at, floor_of. by rewrite Hf, Hh.
  - intros w l op fsm Hk Hl. apply holds_on_op; [by destruct op|by intros v ->|done].
  - intros w id' fsm Hid (l & f & Hl & Hf & Hh)%held_inv. eapply (held_intro _ _ _ _ l); [| |exact Hh]; cbn.
    + rewrite lookup_insert_ne; [done|]. congruence.
    + by apply lookup_app_l_Some.
  - done.
  - done.
  - done.
  - done.
Qed.



Section Holder.
Context {env : Env}.


(** A step that is not on floors. *)
Lemma holds_atomic {A} id u r (f : World → call (A * World)) :
  (∀ w a w', f w = Ok (a, w') → w_floors w' = w_floors w ∧ w_floor_heap w' = w_floor_heap w) →
  keeps (holds_on id u r) (atomic f).
Proof.
  intros Hf. apply keeps_atomic. intros w a w' _ [E1 E2]%Hf. intros (l & fsm & Hl & Hh & H)%held_inv.
  apply (held_intro _ _ _ _ l fsm); by rewrite ?E1, ?E2.
Qed.
Lemma holds_wg_call {A} id u r t (f : WaitGroup → call (A * WaitGroup)) :
  keeps (holds_on id u r) (wg_call t f).
Proof.
  apply holds_atomic. intros w a w' H. destruct (w_transports w !! t) as [tr|]; [|done].
  destruct (f _) as [[b g]|[]| |]; [|done..]. cbn in H. by simplify_eq.
Qed.
Lemma holds_upd_client {X} id u r c (f : UDPClient → X * UDPClient) :
  keeps (holds_on id u r) (upd_client c f).
Proof.
  apply holds_atomic. intros w a w' H. destruct (w_client_heap w !! c) as [cl|]; [|done].
  destruct (f cl). by simplify_eq.
Qed.
Lemma holds_close_done id u r c : keeps (holds_on id u r) (close_done c).
Proof. apply holds_atomic. intros w a w' H. repeat case_match; by simplify_eq. Qed.
Lemma holds_unregister id u r k : keeps (holds_on id u r) (modify (set_udp_clients (delete k))).
Proof. apply holds_atomic. by intros w a w' [= <- <-]. Qed.
Hint Resolve holds_on_frame holds_wg_call holds_upd_client holds_close_done holds_unregister : frame.


End Holder.

(** ** User 8 asks, releases and says goodbye, and so does user 9 *)




