(* ===== verification/UDPClientRun.v ===== *)
(** * Transactions of the client role

    What [transact] does when nothing comes back: it sends its request as often as the
    configuration says, and leaves no transaction behind. *)

From S2P Require Import Prelude Types Message Grouped Codec FloorFSM Session Prog World Transport UDPClient Server Threads Interleave ServerSafe Scenario Safety Responses ServerRun.

(** A statement of client [c] that sends [pk] and leaves the clients alone. *)
Record client_step (w w' : World) (pk : list (string * bytes)) : Prop := {
  cs_clients : w_client_heap w' = w_client_heap w;
  cs_channels : w_channels w' = w_channels w;
  cs_udp : w_udp_transports w' = w_udp_transports w;
  cs_registered : w_udp_clients w' = w_udp_clients w;
  cs_listener : w_udp_sessions w' = w_udp_sessions w;
  cs_packets : packets (w_trace w') = packets (w_trace w) ++ pk
}.

Lemma client_step_refl w : client_step w w [].
Proof. by split; rewrite ?app_nil_r. Qed.

Lemma client_step_trans w1 w2 w3 p1 p2 :
  client_step w1 w2 p1 → client_step w2 w3 p2 → client_step w1 w3 (p1 ++ p2).
Proof.
  intros [H1 H2 H3 H4 H6 H5] [G1 G2 G3 G4 G6 G5]. split; [congruence..|]. by rewrite G5, H5, app_assoc.
Qed.

Lemma client_step_log e w : packets [e] = [] → client_step w (log_events [e] w) [].
Proof. intros He. split; try done. cbn [w_trace log_events]. unfold packets in *. by rewrite omap_app, He. Qed.

Section Run.
Context {env : Env} (Hwrite : ∀ t, write_ok t = true).
#[local] Set Default Proof Using "Hwrite".

(** Client [c], toward [r], as [cl]. *)
Definition client_peer (w : World) (c : nat) (cl : UDPClient) (r : string) : Prop :=
  w_client_heap w !! c = Some cl ∧
  w_udp_transports w !! ucTransport cl = Some (mkUDPTransport (Some r) false).

Lemma client_step_peer w w' pk c cl r :
  client_step w w' pk → client_peer w c cl r → client_peer w' c cl r.
Proof using. intros H [? ?]. split; [by rewrite (cs_clients _ _ _ H)|by rewrite (cs_udp _ _ _ H)]. Qed.

Lemma run_client_message_in remote msg w :
  ∃ w', run (message_in remote msg) w = Ok (tt, w') ∧ client_step w w' [].
Proof using.
  unfold message_in. destruct (OnMessageIn hooks); cbn [when];
    [|by exists w; split; [|apply client_step_refl]].
  destruct (GetFloorID_Ok msg) as [f Hf]. rewrite (run_bind_Ok _ _ _ _ _ (run_lift _ _ w Hf)).
  rewrite run_emit. eexists. split; [done|]. by apply client_step_log.
Qed.

Lemma run_UDPClient_send c cl r msg bs w :
  client_peer w c cl r →
  (let m := set_Version (ucVersion cl) msg in Encode m = Ok (sized m, bs)) →
  ∃ w', run (UDPClient_send c msg) w = Ok (true, w') ∧ client_step w w' [(r, bs)].
Proof.
  intros [Hc Ht] Henc. unfold UDPClient_send.
  rewrite (run_bind_Ok _ _ _ _ _ (run_deref _ _ _ w Hc)).
  set (m := set_Version (ucVersion cl) msg) in *. set (w1 := tick (log_events [Packet r bs] w)).
  assert (run (UDPTransport_SendMessage (ucTransport cl) m) w = Ok ((None, sized m), w1)) as Hsend.
  { unfold UDPTransport_SendMessage. rewrite run_atomic, Ht. unfold encode_or. rewrite Henc.
    unfold socket_write. by rewrite Hwrite. }
  rewrite (run_bind_Ok _ _ _ _ _ Hsend).
  assert (client_step w w1 [(r, bs)]) as Hs1 by (split; try done; exact (omap_app _ _ [Packet r bs])).
  unfold message_out. destruct (OnMessageOut hooks); cbn [when]; [|by exists w1].
  destruct (GetFloorID_Ok (sized m)) as [f Hf].
  exists (log_events [MessageOut (ucRemote cl) (Primitive_String (mPrimitive (sized m))) (mVersion (sized m))
    (mTransactionID (sized m)) (mConferenceID (sized m)) (mUserID (sized m)) (default 0 f)] w1).
  rewrite !run_bind, (run_lift _ _ _ Hf). cbn [mbind res_bind fst snd]. rewrite run_emit.
  split; [done|]. rewrite <- (app_nil_r [(r, bs)]).
  eapply client_step_trans; [exact Hs1|]. by apply client_step_log.
Qed.

Lemma run_await_none c cl ch tx w :
  w_client_heap w !! c = Some cl → ucDone cl = false → w_channels w !! ch = Some (mkChan tx None) →
  run (await c ch) w = Ok (TimeUp, tick w).
Proof using.
  intros Hc Hd Hch. unfold await. rewrite run_atomic, Hc, Hch, Hd. cbn [app length].
  by rewrite Nat.mod_1_r.
Qed.

(** The transaction up to its first wait, which is left with the response that has
    arrived in its channel. *)
Lemma transact_waits (Hchance : ∀ t, chance t = 0%nat) c cl r msg bs w :
  client_peer w c cl r → ucClosed cl = false → 0 < ucMaxRetries cl →
  (let m := set_Version (ucVersion cl) msg in Encode m = Ok (sized m, bs)) →
  let tx := mTransactionID msg in
  ∃ p w1 ch, steps (transact c msg) w p w1 ∧
    client_peer w1 c (with_pending <[tx := ch]> cl) r ∧
    w_channels w1 !! ch = Some (mkChan tx None) ∧
    w_udp_clients w1 = w_udp_clients w ∧ w_udp_sessions w1 = w_udp_sessions w ∧
    packets (w_trace w1) = packets (w_trace w) ++ [(r, bs)] ∧
    ∀ w2 cl2 response,
      w_client_heap w2 !! c = Some cl2 → w_channels w2 !! ch = Some (mkChan tx (Some response)) →
      ∃ w3, run p w2 = Ok (inl response, w3) ∧
        w_client_heap w3 !! c = Some (with_pending (delete tx) cl2) ∧ w_trace w3 = w_trace w2.
Proof.
  intros [Hc Ht] Hcl Hmax Henc tx. set (ch := length (w_channels w)).
  set (cl1 := with_pending <[tx := ch]> cl).
  set (w0 := set_client_heap <[c := cl1]> (set_channels (λ l, l ++ [mkChan tx None]) w)).
  assert (client_peer w0 c cl1 r) as Hp0
    by (split; [apply list_lookup_insert_eq; by eapply lookup_lt_Some|done]).
  destruct (run_UDPClient_send c cl1 r msg bs w0 Hp0 Henc) as (w1 & Hsend & Hs).
  destruct (Z.to_nat (ucMaxRetries cl)) as [|n] eqn:Hn; [lia|].
  eexists _, w1, ch. split.
  { unfold transact. eapply steps_run_bind; [by apply run_deref|]. rewrite Hcl.
    eapply steps_run_bind; [unfold open_pending; by rewrite run_atomic, Hc|].
    rewrite Hn. cbn [transact_loop]. apply steps_bind.
    eapply steps_run_bind; [exact Hsend|]. cbn [negb]. apply steps_refl. }
  pose proof (client_step_peer _ _ _ _ _ _ Hs Hp0) as Hp1. destruct Hs as [_ Hchs _ Hreg Hlis Hpk].
  split_and!; [done| |done..|].
  { rewrite Hchs. by apply list_lookup_middle. }
  intros w2 cl2 response Hc2 Hch.
  set (w3 := tick (set_channels <[ch := mkChan tx None]> w2)).
  assert (run (await c ch) w2 = Ok (Response response, w3)) as Haw.
  { unfold await. rewrite run_atomic, Hc2, Hch, Hchance, Nat.Div0.mod_0_l. done. }
  eexists (set_client_heap <[c := with_pending (delete tx) cl2]> w3). split_and!.
  - rewrite !run_bind. fold ch. rewrite Haw. cbn [mbind res_bind fst snd run mret prog_ret].
    rewrite run_bind. unfold upd_client. rewrite run_atomic. change (w_client_heap w3) with (w_client_heap w2). by rewrite Hc2.
  - apply list_lookup_insert_eq. by eapply lookup_lt_Some.
  - done.
Qed.

(** A datagram that answers a transaction ends up in its channel. *)
Lemma run_response c cl r ch bs m w :
  client_peer w c cl r → w_udp_sessions w !! r = Some (ucTransport cl) →
  w_udp_clients w !! r = Some c → Decode bs = Ok m → ucPending cl !! mTransactionID m = Some ch →
  w_channels w !! ch = Some (mkChan (mTransactionID m) None) →
  ∃ w', run (udp_datagram r bs) w = Ok (tt, w') ∧ w_client_heap w' !! c = Some cl ∧
    w_channels w' !! ch = Some (mkChan (mTransactionID m) (Some m)) ∧
    packets (w_trace w') = packets (w_trace w).
Proof using.
  intros [Hc Ht] Hlis Hreg Hdec Hpend Hch. unfold udp_datagram. rewrite Hdec.
  assert (run (getOrCreateTransport r) w = Ok (ucTransport cl, w)) as H1
    by (unfold getOrCreateTransport; by rewrite run_atomic, Hlis).
  rewrite (run_bind_Ok _ _ _ _ _ H1). unfold handleUDPMessage.
  assert (run (UDPTransport_RemoteAddr (ucTransport cl)) w = Ok (r, w)) as H2
    by (unfold UDPTransport_RemoteAddr; by rewrite run_atomic, Ht).
  rewrite (run_bind_Ok _ _ _ _ _ H2), (run_bind_Ok _ _ _ _ _ (run_gets _ w)), Hreg.
  destruct (run_client_message_in r m w) as (w1 & H3 & [Hcs Hchs _ _ _ Hpk]).
  rewrite (run_bind_Ok _ _ _ _ _ H3). unfold UDPClient_handleMessage.
  rewrite <- Hcs in Hc. rewrite (run_bind_Ok _ _ _ _ _ (run_deref _ _ _ w1 Hc)), Hpend.
  unfold try_send. rewrite run_atomic, Hchs, Hch. eexists. split_and!; [done|done| |].
  - apply list_lookup_insert_eq. rewrite Hchs. by eapply lookup_lt_Some.
  - by rewrite app_nil_r in Hpk.
Qed.

Lemma run_transact_loop_none c cl r ch tx msg bs n : ∀ w,
  client_peer w c cl r → ucDone cl = false → w_channels w !! ch = Some (mkChan tx None) →
  (let m := set_Version (ucVersion cl) msg in Encode m = Ok (sized m, bs)) →
  ∃ w', run (transact_loop c ch msg n) w =
      Ok (inr (NoResponse (mPrimitive msg) (ucRemote cl) (ucMaxRetries cl)), w') ∧
    client_step w w' (replicate n (r, bs)).
Proof.
  induction n as [|n IH]; intros w Hp Hd Hch Henc; cbn [transact_loop replicate].
  - rewrite (run_bind_Ok _ _ _ _ _ (run_deref _ _ _ w (proj1 Hp))).
    exists w. split; [done|apply client_step_refl].
  - destruct (run_UDPClient_send c cl r msg bs w Hp Henc) as (w1 & H1 & Hs1).
    rewrite (run_bind_Ok _ _ _ _ _ H1). cbn [negb].
    pose proof (client_step_peer _ _ _ _ _ _ Hs1 Hp) as Hp1.
    assert (w_channels w1 !! ch = Some (mkChan tx None)) as Hch1
      by (by rewrite (cs_channels _ _ _ Hs1)).
    rewrite (run_bind_Ok _ _ _ _ _ (run_await_none c cl ch tx w1 (proj1 Hp1) Hd Hch1)).
    destruct (IH (tick w1) Hp1 Hd Hch1 Henc) as (w2 & H2 & Hs2). exists w2. split; [done|].
    apply (client_step_trans w w1 w2 [(r, bs)]); [done|]. by destruct Hs2; split.
Qed.

(** A transaction without an answer sends its datagram as many times as the
    client's retries allow, then reports that there was no response, and the
    transaction is not pending any more. *)
Theorem transact_gives_up c cl r msg bs w :
  client_peer w c cl r → ucClosed cl = false → ucDone cl = false →
  (let m := set_Version (ucVersion cl) msg in Encode m = Ok (sized m, bs)) →
  ∃ w' cl', run (transact c msg) w =
      Ok (inr (NoResponse (mPrimitive msg) (ucRemote cl) (ucMaxRetries cl)), w') ∧
    packets (w_trace w') =
      packets (w_trace w) ++ replicate (Z.to_nat (ucMaxRetries cl)) (r, bs) ∧
    w_client_heap w' !! c = Some cl' ∧ ucPending cl' = delete (mTransactionID msg) (ucPending cl) ∧
    ucActive cl' = ucActive cl.
Proof.
  intros [Hc Ht] Hcl Hd Henc. unfold transact.
  rewrite (run_bind_Ok _ _ _ _ _ (run_deref _ _ _ w Hc)), Hcl.
  set (ch := length (w_channels w)). set (cl1 := with_pending <[mTransactionID msg := ch]> cl).
  set (w1 := set_client_heap <[c := cl1]>
               (set_channels (λ l, l ++ [mkChan (mTransactionID msg) None]) w)).
  assert (run (open_pending c (mTransactionID msg)) w = Ok (ch, w1)) as H1
    by (unfold open_pending; by rewrite run_atomic, Hc).
  rewrite (run_bind_Ok _ _ _ _ _ H1).
  assert (w_client_heap w1 !! c = Some cl1) as Hc1
    by (apply list_lookup_insert_eq; by eapply lookup_lt_Some).
  destruct (run_transact_loop_none c cl1 r ch (mTransactionID msg) msg bs (Z.to_nat (ucMaxRetries cl)) w1)
    as (w2 & H2 & Hs2); [done|done|by apply list_lookup_middle|done|].
  rewrite (run_bind_Ok _ _ _ _ _ H2).
  assert (w_client_heap w2 !! c = Some cl1) as Hc2 by (by rewrite (cs_clients _ _ _ Hs2)).
  eexists _, (with_pending (delete (mTransactionID msg)) cl1). split_and!.
  - rewrite run_bind. unfold upd_client. rewrite run_atomic, Hc2. done.
  - exact (cs_packets _ _ _ Hs2).
  - apply list_lookup_insert_eq. by eapply lookup_lt_Some.
  - cbn. apply delete_insert_eq.
  - done.
Qed.
End Run.

Lemma transact_gives_up_witness :
  ∃ w' bs, run (@transact (demo_env TransportUDP) 0 (demo_message 2 PrimitiveHello 1 7))
      demo_client_world = Ok (inr (NoResponse PrimitiveHello "s" 4), w') ∧
    packets (w_trace w') = [("s", bs); ("s", bs); ("s", bs); ("s", bs)].
Proof.
  destruct (@transact_gives_up (demo_env TransportUDP) (λ _, eq_refl) 0 demo_client "s"
    (demo_message 2 PrimitiveHello 1 7) (datagram (demo_message 2 PrimitiveHello 1 7))
    demo_client_world) as (w' & cl' & Hrun & Hp & _);
    [split; reflexivity|reflexivity|reflexivity|vm_compute; reflexivity|].
  eexists w', _. split; [exact Hrun|exact Hp].
Defined.
