(* ===== verification/ClientRun.v ===== *)
(** * The TCP client at work

    What the calls of [Client.v] do, run alone or up to a wait: the client's record, its
    channels and what is sent, as functions of the messages that arrive. *)

From S2P Require Import Prelude Types Message Grouped Codec Framing FloorFSM Session Prog World Transport UDPClient Client Server Interleave Responses ServerSafe Scenario ServerRun.

Section Run.
Context {W : Type} (L : lens W ClientWorld) {laws : LensLaws L} (app : nat → Callbacks W).
Context {env : Env} {dialer : Dialer}.
#[local] Set Default Proof Using "laws".

Definition has_client (w : W) (c : nat) (k : Client) : Prop := cClients (view L w) !! c = Some k.
Definition has_chan (w : W) (ch : nat) (r : RespChan) : Prop := cChans (view L w) !! ch = Some r.

(** The world with another record for the client. *)
Definition put (c : nat) (k : Client) (w : W) : W :=
  update L (set_clients <[c := k]> (view L w)) w.
Definition put_chan (ch : nat) (r : RespChan) (w : W) : W :=
  update L (set_chans <[ch := r]> (view L w)) w.
Definition set_net (f : World → World) (w : W) : W :=
  update L (update net (f (cNet (view L w))) (view L w)) w.

(** Only the clients and their network changed. *)
Definition within (w w' : W) : Prop := ∃ v, w' = update L v w.

Lemma within_refl w : within w w.
Proof. exists (view L w). by rewrite update_view. Qed.
Lemma within_trans w1 w2 w3 : within w1 w2 → within w2 w3 → within w1 w3.
Proof. intros [v1 ->] [v2 ->]. exists v2. by rewrite update_update. Qed.
Lemma within_put c k w : within w (put c k w).
Proof. by eexists. Qed.

Lemma has_put c k k' w : has_client w c k → has_client (put c k' w) c k'.
Proof.
  unfold has_client, put. intros Hc. rewrite view_update. cbn.
  apply list_lookup_insert_eq. by eapply lookup_lt_Some.
Qed.
Lemma put_put c k k' w : put c k' (put c k w) = put c k' w.
Proof.
  unfold put. rewrite view_update, update_update. f_equal. unfold set_clients. cbn.
  by rewrite list_insert_insert_eq.
Qed.
Lemma put_same c k w : has_client w c k → put c k w = w.
Proof.
  unfold has_client, put. intros Hc. transitivity (update L (view L w) w); [|apply update_view].
  f_equal. unfold set_clients. rewrite list_insert_id by done. by destruct (view L w).
Qed.

(** ** Statements *)

Lemma run_of_client {A} c (f : Client → A) k w :
  has_client w c k → run (of_client L c f) w = Ok (f k, w).
Proof.
  intros Hc. unfold of_client, here. rewrite run_bind, (run_zoom L), (run_deref _ _ _ _ Hc).
  cbn [mbind res_bind fst snd]. by rewrite update_view.
Qed.

Lemma run_on_client {A} c (f : Client → A * Client) k w :
  has_client w c k → run (on_client L c f) w = Ok ((f k).1, put c (f k).2 w).
Proof.
  intros Hc. unfold on_client, here. rewrite (run_zoom L), run_atomic. rewrite Hc. by destruct (f k).
Qed.

Lemma run_on_client_now c f k w :
  has_client w c k →
  run (on_client_now L c f) w =
    Ok (tt, put c (f (now (w_tick (cNet (view L w)))) k) (set_net tick w)).
Proof.
  intros Hc. unfold on_client_now, here. rewrite (run_zoom L), run_atomic. rewrite Hc.
  cbn [mbind res_bind fst snd]. unfold put, set_net. by rewrite view_update, update_update.
Qed.

Lemma run_setState c s k w :
  has_client w c k → run (setState L c s) w = Ok (tt, put c (with_kstate s k) w).
Proof. intros Hc. unfold setState. by rewrite (run_on_client _ _ k). Qed.

Lemma has_set_net f c k w : has_client w c k → has_client (set_net f w) c k.
Proof. unfold has_client, set_net. by rewrite view_update. Qed.

(** ** Received messages *)

(** What a message tells a client that does not wait for it. *)
Inductive news :=
| NewStatus (floorID requestID status : Z)
| NewFloorStatus (floorID status : Z)
| NewError (code : Z) (info : bytes)
| NoNews.

Definition read_news (msg : Message) : call news :=
  if (mPrimitive msg =? PrimitiveFloorRequestStatus) || (mPrimitive msg =? PrimitiveFloorStatus) then
    floorID ← GetFloorID msg;
    requestID ← GetFloorRequestID msg;
    status ← GetRequestStatus msg;
    Ok (match floorID, status with
        | Some floorID, Some (status, _) =>
            if mPrimitive msg =? PrimitiveFloorRequestStatus
            then NewStatus floorID (default 0 requestID) status else NewFloorStatus floorID status
        | _, _ => NoNews
        end)
  else if mPrimitive msg =? PrimitiveError then
    Ok (let '(code, info) := responseError msg in NewError code info)
  else Ok NoNews.

(** The state of a client after a status, where the status decides it. *)
Definition state_after (status : Z) : option Z :=
  if status =? RequestStatusGranted then Some StateFloorGranted
  else if status =? RequestStatusDenied then Some StateFloorDenied
  else if (status =? RequestStatusReleased) || (status =? RequestStatusRevoked)
  then Some StateFloorReleased
  else None.

Definition learn (t : Time) (n : news) (k : Client) : Client :=
  match n with
  | NewStatus floorID _ status =>
      let k := with_kactive (alter (update_status status t) floorID) k in
      match state_after status with Some s => with_kstate s k | None => k end
  | _ => k
  end.

(** The callback that is told. *)
Definition tell (cb : Callbacks W) (n : news) : gprog W () :=
  match n with
  | NewStatus floorID requestID status =>
      if status =? RequestStatusGranted then call_back (OnGranted cb) (λ f, f floorID requestID)
      else if status =? RequestStatusDenied then call_back (OnDenied cb) (λ f, f floorID requestID 0)
      else if status =? RequestStatusReleased then call_back (OnReleased cb) (λ f, f floorID)
      else if status =? RequestStatusRevoked then call_back (OnRevoked cb) (λ f, f floorID)
      else mret tt
  | NewFloorStatus floorID status => call_back (OnStatus cb) (λ f, f floorID status)
  | NewError code info => call_back (OnErr cb) (λ f, f (inr (code, info)))
  | NoNews => mret tt
  end.

Definition hear (c : nat) (n : news) (k : Client) (w : W) : W :=
  match n with
  | NewStatus _ _ _ =>
      put c (learn (now (w_tick (cNet (view L w)))) n k) (set_net tick w)
  | _ => w
  end.

Lemma run_dispatch c k msg w :
  has_client w c k →
  ∃ n, read_news msg = Ok n ∧
    run (Client_dispatch L app c msg) w = run (tell (app c) n) (hear c n k w).
Proof.
  intros Hc. unfold read_news, Client_dispatch.
  destruct (GetFloorID_Ok msg) as [floorID Hf], (GetFloorRequestID_Ok msg) as [requestID Hr],
    (GetRequestStatus_Ok msg) as [status Hs]. rewrite Hf, Hr, Hs. cbn [mbind res_bind].
  destruct (mPrimitive msg =? PrimitiveFloorRequestStatus) eqn:Hp; cbn [orb].
  { eexists. split; [done|]. unfold handleFloorRequestStatus.
    rewrite (run_bind_Ok _ _ _ _ _ (run_lift _ _ w Hf)). destruct floorID as [floorID|]; [|done].
    rewrite (run_bind_Ok _ _ _ _ _ (run_lift _ _ w Hr)), (run_bind_Ok _ _ _ _ _ (run_lift _ _ w Hs)).
    destruct status as [[status pos]|]; [|done].
    rewrite (run_bind_Ok _ _ _ _ _ (run_on_client_now _ _ _ w Hc)).
    cbn [tell hear]. unfold learn, state_after.
    set (t := now _). set (k1 := with_kactive _ k). set (w1 := put c k1 (set_net tick w)).
    assert (has_client w1 c k1) as Hc1 by by eapply has_put, has_set_net.
    assert (∀ s (q : gprog W ()), run (setState L c s ;; q) w1 =
      run q (put c (with_kstate s k1) (set_net tick w))) as Hst.
    { intros s q. rewrite (run_bind_Ok _ _ _ _ _ (run_setState _ s _ _ Hc1)).
      unfold w1. by rewrite put_put. }
    repeat (destruct (status =? _); [by rewrite Hst|]). done. }
  destruct (mPrimitive msg =? PrimitiveFloorStatus).
  { eexists. split; [done|]. unfold handleFloorStatus.
    rewrite (run_bind_Ok _ _ _ _ _ (run_lift _ _ w Hf)). destruct floorID as [floorID|]; [|done].
    rewrite (run_bind_Ok _ _ _ _ _ (run_lift _ _ w Hs)). by destruct status as [[status pos]|]. }
  destruct (mPrimitive msg =? PrimitiveError); eexists; (split; [done|]); [|done].
  unfold handleError. by destruct (responseError msg).
Qed.

Lemma run_handleMessage c k msg w :
  has_client w c k →
  let unclaimed := n ← read_news msg; run (tell (app c) n) (hear c n k w) in
  run (Client_handleMessage L app c msg) w =
    match kPending k !! mTransactionID msg with
    | None => unclaimed
    | Some ch =>
        match cChans (view L w) !! ch with
        | Some (mkRespChan None false) => Ok (tt, put_chan ch (mkRespChan (Some msg) false) w)
        | Some (mkRespChan (Some _) false) => unclaimed
        | _ => Panic
        end
    end.
Proof.
  intros Hc unclaimed. unfold Client_handleMessage.
  rewrite (run_bind_Ok _ _ _ _ _ (run_of_client _ _ _ w Hc)).
  assert (run (Client_dispatch L app c msg) w = unclaimed) as Hu.
  { destruct (run_dispatch c k msg w Hc) as (n & Hn & ->). unfold unclaimed. by rewrite Hn. }
  destruct (kPending k !! mTransactionID msg) as [ch|]; [|done].
  unfold offer, here. rewrite run_bind, (run_zoom L), run_atomic.
  destruct (cChans (view L w) !! ch) as [[[m|] []]|]; try done. cbn. by rewrite update_view.
Qed.

(** ** Sending *)

(** Client [c], connected to [r]. *)
Record online (w : W) (c : nat) (k : Client) (r : string) : Prop := {
  on_has : has_client w c k;
  on_connected : kConnected k = true;
  on_transport : ∃ t tr, kTransport k = Some t ∧
    w_transports (cNet (view L w)) !! t = Some tr ∧ tRemote tr = r ∧ tClosed tr = false
}.

Definition sent_by (w : W) : list (string * bytes) := packets (w_trace (cNet (view L w))).

Lemma online_put c k k' r w :
  online w c k r → kConnected k' = true → kTransport k' = kTransport k → online (put c k' w) c k' r.
Proof.
  intros [Hc _ (t & tr & Ht & Htr)] Hk Hkt. split; [by eapply has_put|done|].
  exists t, tr. rewrite Hkt. split; [done|]. unfold put. by rewrite view_update.
Qed.

Lemma sent_put c k w : sent_by (put c k w) = sent_by w.
Proof. unfold sent_by, put. by rewrite view_update. Qed.

Lemma run_Client_send (Hwrite : ∀ t, write_ok t = true) c k r msg bs w :
  online w c k r → Encode msg = Ok (sized msg, bs) →
  run (Client_send L c msg) w = Ok (None, set_net (λ n, tick (log_events [Packet r bs] n)) w).
Proof.
  intros [Hc _ (t & tr & Ht & Htr & Hr & Hopen)] Henc. unfold Client_send.
  rewrite (run_bind_Ok _ _ _ _ _ (run_of_client _ _ _ w Hc)), Ht. unfold on_net.
  rewrite run_bind, (run_zoom (lens_comp L net)). cbn [view lens_comp net].
  unfold Transport_SendMessage. rewrite run_atomic, Htr, Hopen. unfold encode_or. rewrite Henc.
  unfold socket_write. rewrite Hwrite, Hr. done.
Qed.

Lemma online_set_net f c k r w :
  (∀ n, w_transports (f n) = w_transports n) → online w c k r → online (set_net f w) c k r.
Proof.
  intros Hf [Hc Hk (t & tr & Ht & Htr)]. split; [by apply has_set_net|done|]. exists t, tr.
  split; [done|]. unfold set_net. rewrite view_update. cbn. by rewrite Hf.
Qed.

(** ** Waiting *)

(** The world when a call on channel [ch] is over. *)
Definition forgotten (c ch : nat) (tx : Z) (k : Client) (w : W) : W :=
  let v := view L w in
  update L (mkClientWorld (tick (cNet v)) (<[c := with_kpending (delete tx) k]> (cClients v))
              (<[ch := mkRespChan None true]> (cChans v))) w.

Lemma has_forgotten c ch tx k k' w :
  has_client w c k' → has_client (forgotten c ch tx k w) c (with_kpending (delete tx) k).
Proof.
  unfold has_client, forgotten. intros Hc. rewrite view_update. cbn.
  apply list_lookup_insert_eq. by eapply lookup_lt_Some.
Qed.
Lemma forgotten_chan c ch tx k w r :
  has_chan w ch r → has_chan (forgotten c ch tx k w) ch (mkRespChan None true).
Proof.
  unfold has_chan, forgotten. intros Hc. rewrite view_update. cbn.
  apply list_lookup_insert_eq. by eapply lookup_lt_Some.
Qed.
Lemma sent_forgotten c ch tx k w : sent_by (forgotten c ch tx k w) = sent_by w.
Proof. unfold sent_by, forgotten. by rewrite view_update. Qed.

Definition response_of (msg : Message) (buf : option Message) : Message + call_error :=
  match buf with Some m => inl m | None => inr (ResponseTimeout (mPrimitive msg)) end.

(** What is left of a call while it waits, and once it has got its response. *)
Definition receiving (c ch : nat) (msg : Message) : gprog W (Message + call_error) :=
  result ← (response ← receive L ch;
            mret (match response with
                  | Some response => inl response
                  | None => inr (ResponseTimeout (mPrimitive msg))
                  end));
  forget L c ch (mTransactionID msg) ;;
  mret result.
Definition received (c ch : nat) (msg response : Message) : gprog W (Message + call_error) :=
  forget L c ch (mTransactionID msg) ;;
  mret (inl response).

(** The step that takes the response out of the channel. *)
Lemma receiving_takes (Hchance : ∀ t, chance t = 0%nat) c ch msg response k w :
  has_client w c k → has_chan w ch (mkRespChan (Some response) false) →
  ∃ w', steps (receiving c ch msg) w (received c ch msg response) w' ∧
    has_client w' c k ∧ has_chan w' ch (mkRespChan None false).
Proof.
  intros Hc Hch. set (v := view L w).
  assert (run (receive L ch) w = Ok (Some response, update L (mkClientWorld (tick (cNet v)) (cClients v)
    (<[ch := mkRespChan None false]> (cChans v))) w)) as H1.
  { unfold receive, here. rewrite (run_zoom L), run_atomic. unfold has_chan in Hch. rewrite Hch.
    fold v. by rewrite Hchance. }
  eexists. split; [|split].
  - unfold receiving. eapply steps_run_bind; [|constructor].
    rewrite (run_bind_Ok _ _ _ _ _ H1). reflexivity.
  - unfold has_client. by rewrite view_update.
  - unfold has_chan. rewrite view_update. cbn. apply list_lookup_insert_eq. by eapply lookup_lt_Some.
Qed.

(** It then forgets the transaction, whatever has come since. *)
Lemma run_received c ch msg response k buf w :
  has_client w c k → has_chan w ch (mkRespChan buf false) →
  ∃ w', run (received c ch msg response) w = Ok (inl response, w') ∧
    has_client w' c (with_kpending (delete (mTransactionID msg)) k).
Proof.
  intros Hc Hch. unfold received, forget. rewrite !run_bind, (run_on_client _ _ _ _ Hc).
  cbn [mbind res_bind fst snd]. unfold close_chan, here. rewrite (run_zoom L), run_atomic.
  unfold put. rewrite !view_update. cbn [cChans set_clients]. unfold has_chan in Hch. rewrite Hch. cbn.
  eexists. split; [done|]. unfold has_client. rewrite view_update. cbn.
  apply list_lookup_insert_eq. by eapply lookup_lt_Some.
Qed.

(** A call up to its wait, which ends with what is in its channel. *)
Lemma sendAndWait_waits (Hwrite : ∀ t, write_ok t = true) (Hchance : ∀ t, chance t = 0%nat)
    c k r msg bs w :
  online w c k r → Encode msg = Ok (sized msg, bs) →
  let tx := mTransactionID msg in
  ∃ w1 ch, steps (sendAndWait L c msg) w (receiving c ch msg) w1 ∧
    online w1 c (with_kpending <[tx := ch]> k) r ∧ has_chan w1 ch (mkRespChan None false) ∧
    sent_by w1 = sent_by w ++ [(r, bs)] ∧ within w w1 ∧
    ∀ w2 k2 buf, has_client w2 c k2 → has_chan w2 ch (mkRespChan buf false) →
      run (receiving c ch msg) w2 = Ok (response_of msg buf, forgotten c ch tx k2 w2).
Proof.
  intros Hon Henc tx. pose proof Hon as [Hc Hk Ht]. set (ch := length (cChans (view L w))).
  set (k1 := with_kpending <[tx := ch]> k).
  set (w0 := update L (set_clients <[c := k1]> (set_chans (λ l, l ++ [mkRespChan None false]) (view L w))) w).
  set (w1 := set_net (λ n, tick (log_events [Packet r bs] n)) w0).
  assert (online w0 c k1 r) as Hon0.
  { split; [unfold has_client, w0; rewrite view_update|done|].
    - cbn. apply list_lookup_insert_eq. eapply lookup_lt_Some. exact Hc.
    - destruct Ht as (t & tr & Ht & Htr). exists t, tr. split; [done|]. unfold w0. by rewrite view_update. }
  pose proof (online_set_net (λ n, tick (log_events [Packet r bs] n)) c k1 r w0
    ltac:(done) Hon0) as Hon1. fold w1 in Hon1.
  assert (has_chan w1 ch (mkRespChan None false)) as Hch.
  { unfold has_chan, w1, set_net, w0. rewrite !view_update. cbn. by apply list_lookup_middle. }
  exists w1, ch. split.
  { unfold sendAndWait. eapply steps_run_bind.
    { unfold make_pending, here. rewrite (run_zoom L), run_atomic, (Hc : cClients _ !! _ = _). reflexivity. }
    cbn [fst snd]. fold ch tx k1 w0. 
    eapply steps_run_bind; [by eapply run_Client_send|]. cbn iota. apply steps_refl. }
  split_and!; [done|done| | |].
  - unfold sent_by, w1, set_net, w0. rewrite !view_update. exact (omap_app _ _ [Packet r bs]).
  - unfold w1, set_net, w0. eexists. by rewrite update_update.
  - intros w2 k2 buf Hc2 Hch2. set (v2 := view L w2).
    assert (run (receive L ch) w2 = Ok (buf, update L (mkClientWorld (tick (cNet v2)) (cClients v2)
      (<[ch := mkRespChan None false]> (cChans v2))) w2)) as H1.
    { unfold receive, here. rewrite (run_zoom L), run_atomic. unfold has_chan in Hch2. rewrite Hch2.
      fold v2. rewrite Hchance. destruct buf as [m|]; cbn; [done|].
      by rewrite list_insert_id by exact Hch2. }
    unfold receiving. rewrite !run_bind, H1. cbn [mbind res_bind fst snd run mret prog_ret].
    set (w3 := update L _ w2).
    assert (has_client w3 c k2) as Hc3 by (unfold has_client, w3; by rewrite view_update).
    unfold forget. rewrite !run_bind, (run_on_client _ _ _ _ Hc3).
    cbn [mbind res_bind fst snd]. unfold close_chan, here. rewrite (run_zoom L), run_atomic.
    unfold put, w3. rewrite !view_update. cbn [cChans set_clients].
    rewrite list_lookup_insert_eq by (eapply lookup_lt_Some; exact Hch2).
    cbn. unfold forgotten. rewrite !update_update. fold v2.
    unfold set_chans, set_clients. cbn. rewrite list_insert_insert_eq.
    by destruct buf.
Qed.

(** C39: a response that arrives as its call gives up brings the program down: the read
    loop looks the channel up, the call times out and closes the channel, and the read
    loop sends on it.  So for every call of a connected client and every answer to it
    there is an order of their steps that ends in a panic. *)
Theorem tcp_late_response_panics (Hwrite : ∀ t, write_ok t = true) (Hchance : ∀ t, chance t = 0%nat)
    c k r msg response bs w :
  online w c k r → Encode msg = Ok (sized msg, bs) →
  mTransactionID response = mTransactionID msg →
  ∃ sched, pool_run sched [sendAndWait L c msg ;; mret tt; Client_handleMessage L app c response] w
           = Panic.
Proof.
  intros Hon Henc Htx.
  destruct (sendAndWait_waits Hwrite Hchance c k r msg bs w Hon Henc)
    as (w1 & ch & Hs & [Hc1 _ _] & Hch & _ & _ & Hend). set (p := receiving c ch msg) in *.
  pose proof (Hend w1 _ None Hc1 Hch) as Hp. set (tx := mTransactionID msg) in *.
  set (k1 := with_kpending <[tx := ch]> k) in *. set (w2 := forgotten c ch tx k1 w1) in *.
  set (q := sent ← offer L ch response; if sent : bool then mret tt else Client_dispatch L app c response).
  assert (steps (Client_handleMessage L app c response) w1 q w1) as Hq.
  { unfold Client_handleMessage. eapply steps_run_bind; [by apply run_of_client|].
    rewrite Htx. fold tx. cbn. rewrite lookup_insert_eq. apply steps_refl. }
  assert (run q w2 = Panic) as Hpanic.
  { unfold q, offer, here. rewrite run_bind, (run_zoom L), run_atomic.
    pose proof (forgotten_chan c ch tx k1 w1 _ Hch) as Hclosed. unfold has_chan in Hclosed.
    fold w2 in Hclosed. by rewrite Hclosed. }
  set (call := λ p : gprog W (Message + call_error), p ;; mret tt).
  assert (steps (call (sendAndWait L c msg)) w (call p) w1) as Hs1 by by apply steps_bind.
  assert (steps (call p) w1 (mret tt) w2) as Hs2 by (eapply steps_run_bind; [exact Hp|apply steps_refl]).
  destruct (steps_pool _ _ _ _ Hs1 0 [call (sendAndWait L c msg); Client_handleMessage L app c response])
    as [n1 H1]; [done|]. cbn [insert list_insert] in H1.
  destruct (steps_pool _ _ _ _ Hq 1 [call p; Client_handleMessage L app c response])
    as [n2 H2]; [done|]. cbn [insert list_insert] in H2.
  destruct (steps_pool _ _ _ _ Hs2 0 [call p; q]) as [n3 H3]; [done|]. cbn [insert list_insert] in H3.
  destruct (pool_panics q 1 [mret tt; q] w2 Hpanic) as [n4 H4]; [done|].
  exists (replicate n1 0%nat ++ replicate n2 1%nat ++ replicate n3 0%nat ++ replicate n4 1%nat).
  by rewrite (pool_run_app _ _ _ _ _ _ H1), (pool_run_app _ _ _ _ _ _ H2), (pool_run_app _ _ _ _ _ _ H3).
Qed.

Lemma online_put_chan ch x c k r w : online w c k r → online (put_chan ch x w) c k r.
Proof.
  intros [Hc Hk (t & tr & Ht & Htr)]. split; [|done|].
  - unfold has_client, put_chan. by rewrite view_update.
  - exists t, tr. split; [done|]. unfold put_chan. by rewrite view_update.
Qed.

Lemma has_put_chan ch x y w : has_chan w ch y → has_chan (put_chan ch x w) ch x.
Proof.
  unfold has_chan, put_chan. intros H. rewrite view_update. cbn.
  apply list_lookup_insert_eq. by eapply lookup_lt_Some.
Qed.

Lemma online_forgotten c ch tx k r w :
  online w c k r → online (forgotten c ch tx k w) c (with_kpending (delete tx) k) r.
Proof.
  intros [Hc Hk (t & tr & Ht & Htr)]. split; [by eapply has_forgotten|done|].
  exists t, tr. split; [done|]. unfold forgotten. by rewrite view_update.
Qed.

(** ** A client that has lost its connection without noticing *)

(** It takes itself for connected, and its transport is closed. *)
Record dead (w : W) (c : nat) : Prop := {
  dead_client : ∃ k t tr, has_client w c k ∧ kConnected k = true ∧ kTransport k = Some t ∧
    w_transports (cNet (view L w)) !! t = Some tr ∧ tClosed tr = true
}.

(** The calls of the application, and whether they report an error. *)
Inductive client_call :=
| CallConnect
| CallHello
| CallRequestFloor (floorID beneficiaryID priority : Z)
| CallReleaseFloor (floorID : Z)
| CallQueryFloor (floorID : Z)
| CallGoodbye
| CallDisconnect.

Definition failed {A} (r : A + call_error) : bool := match r with inl _ => false | inr _ => true end.

Definition make_call (c : nat) (call : client_call) : gprog W bool :=
  match call with
  | CallConnect => r ← Client_Connect L app c; mret (failed r)
  | CallHello => r ← Client_Hello L c; mret (failed r)
  | CallRequestFloor f b p => r ← Client_RequestFloor L app c f b p; mret (failed r)
  | CallReleaseFloor f => r ← Client_ReleaseFloor L app c f; mret (failed r)
  | CallQueryFloor f => r ← QueryFloor L c f; mret (failed r)
  | CallGoodbye => r ← Client_Goodbye L c; mret (failed r)
  | CallDisconnect => Disconnect L c ;; mret false
  end.

(** Nothing is sent, and the client stays as dead as it was. *)
Definition useless (w w' : W) (c : nat) : Prop := dead w' c ∧ sent_by w' = sent_by w.

Lemma dead_put c k k' w :
  dead w c → has_client w c k → kConnected k' = kConnected k → kTransport k' = kTransport k →
  useless w (put c k' w) c.
Proof.
  intros [(k0 & t & tr & Hc & Hk & Ht & Htr & Hcl)] Hc' Hk' Ht'. unfold has_client in *. simplify_eq.
  split; [|apply sent_put]. split. exists k', t, tr.
  split_and!; [by eapply has_put|congruence|congruence| |done]. unfold put. by rewrite view_update.
Qed.

(** The message of a call is made. *)
Lemma dead_message {A} c primitive (p : Message → gprog W A) w :
  dead w c →
  ∃ msg w', run (tx ← Client_nextTransactionID L c; msg ← Client_message L c primitive tx; p msg) w =
      run (p msg) w' ∧ useless w w' c.
Proof.
  intros Hd. pose proof Hd as [(k & t & tr & Hc & _)].
  set (v := u32 (kNextTxID k + 1)). set (w1 := put c (with_knextTxID v k) w).
  assert (has_client w1 c (with_knextTxID v k)) as Hc1 by by eapply has_put.
  eexists _, w1. split; [|by apply (dead_put c k)].
  unfold Client_nextTransactionID. rewrite (run_bind_Ok _ _ _ _ _ (run_on_client _ _ k w Hc)).
  unfold Client_message. fold v w1.
  by rewrite run_bind, (run_bind_Ok _ _ _ _ _ (run_of_client _ _ _ w1 Hc1)).
Qed.

Lemma dead_send c msg w :
  dead w c → run (Client_send L c msg) w = Ok (Some (SendFailed TransportIsClosed), w).
Proof.
  intros [(k & t & tr & Hc & _ & Ht & Htr & Hcl)]. unfold Client_send.
  rewrite (run_bind_Ok _ _ _ _ _ (run_of_client _ _ _ w Hc)), Ht. unfold on_net.
  rewrite run_bind, (run_zoom (lens_comp L net)). cbn [view lens_comp net].
  unfold Transport_SendMessage. rewrite run_atomic, Htr, Hcl. cbn [mbind res_bind fst snd].
  exact (f_equal (λ x, Ok (_, x)) (update_view (l:=lens_comp L net) w)).
Qed.

Lemma useless_trans w1 w2 w3 c : useless w1 w2 c → useless w2 w3 c → useless w1 w3 c.
Proof. intros [_ H1] [Hd H2]. split; [done|congruence]. Qed.

Lemma dead_sendAndWait c msg w :
  dead w c → ∃ w', run (sendAndWait L c msg) w = Ok (inr (SendFailed TransportIsClosed), w') ∧
    useless w w' c.
Proof.
  intros [(k & t & tr & Hc & Hk & Ht & Htr & Hcl)]. set (tx := mTransactionID msg).
  set (ch := length (cChans (view L w))). set (k1 := with_kpending <[tx := ch]> k).
  set (w1 := update L (set_clients <[c := k1]> (set_chans (λ l, l ++ [mkRespChan None false]) (view L w))) w).
  assert (has_client w1 c k1) as Hc1.
  { unfold has_client, w1. rewrite view_update. cbn. apply list_lookup_insert_eq.
    eapply lookup_lt_Some. exact Hc. }
  assert (dead w1 c) as Hd1.
  { split. exists k1, t, tr. split_and!; try done. unfold w1. by rewrite view_update. }
  assert (sent_by w1 = sent_by w) as Hs1 by (unfold sent_by, w1; by rewrite view_update).
  unfold sendAndWait. rewrite run_bind. unfold make_pending at 1, here at 1.
  rewrite (run_zoom L), run_atomic, (Hc : cClients _ !! _ = _). cbn [mbind res_bind fst snd].
  fold ch tx k1 w1. rewrite (run_bind_Ok _ _ _ _ _ (dead_send c msg w1 Hd1)).
  erewrite (run_bind_Ok (mret _) _ w1 _ w1) by done.
  destruct (dead_put c k1 (with_kpending (delete tx) k1) w1 Hd1 Hc1) as [Hd2 Hs2]; [done..|].
  unfold forget. rewrite !run_bind, (run_on_client _ _ _ _ Hc1). cbn [mbind res_bind fst snd].
  set (w2 := put c _ w1) in *.
  assert (has_chan w2 ch (mkRespChan None false)) as Hch.
  { unfold has_chan, w2, put, w1. rewrite !view_update. cbn. by apply list_lookup_middle. }
  unfold close_chan, here. rewrite (run_zoom L), run_atomic, (Hch : cChans _ !! _ = _). cbn.
  eexists. split; [reflexivity|]. split.
  - destruct Hd2 as [(k2 & t2 & tr2 & ? & ? & ? & ? & ?)]. split. exists k2, t2, tr2.
    unfold has_client. rewrite view_update. by split_and!.
  - unfold sent_by in *. rewrite view_update. by rewrite <- Hs1, <- Hs2.
Qed.

(** A call that prepares a message and waits for the answer. *)
Lemma dead_call {A} c primitive (build : Message → Message)
    (k : Message + call_error → gprog W (A + call_error)) w :
  (∀ e, k (inr e) = mret (inr e)) → dead w c →
  ∃ w', run (tx ← Client_nextTransactionID L c; msg ← Client_message L c primitive tx;
             response ← sendAndWait L c (build msg); k response) w =
    Ok (inr (SendFailed TransportIsClosed), w') ∧ useless w w' c.
Proof.
  intros Hk Hd. destruct (dead_message c primitive (λ msg, response ← sendAndWait L c (build msg); k response)
    w Hd) as (msg & w1 & -> & U1).
  destruct (dead_sendAndWait c (build msg) w1 (proj1 U1)) as (w2 & H2 & U2).
  exists w2. split; [|by eapply useless_trans]. by rewrite (run_bind_Ok _ _ _ _ _ H2), Hk.
Qed.

Lemma dead_if_connected {A} c (p : gprog W (A + call_error)) w :
  dead w c → run (if_connected L c p) w = run p w.
Proof.
  intros [(k & t & tr & Hc & Hk & _)]. unfold if_connected, IsConnected.
  by rewrite (run_bind_Ok _ _ _ _ _ (run_of_client _ _ _ w Hc)), Hk.
Qed.

Lemma dead_goodbye c w :
  dead w c → ∃ w', run (Client_Goodbye L c) w = Ok (inr (SendFailed TransportIsClosed), w') ∧
    useless w w' c.
Proof.
  intros Hd. unfold Client_Goodbye. rewrite (dead_if_connected c _ w Hd).
  destruct (dead_message c PrimitiveGoodbye (λ msg, e ← Client_send L c msg;
    mret (match e with Some e => inr e | None => inl tt end)) w Hd) as (msg & w1 & -> & U1).
  exists w1. split; [|done]. by rewrite (run_bind_Ok _ _ _ _ _ (dead_send c msg w1 (proj1 U1))).
Qed.

Lemma dead_close c t w k :
  dead w c → has_client w c k → kTransport k = Some t →
  ∃ w', run (on_net L (Transport_Close t)) w = Ok (tt, w') ∧ useless w w' c.
Proof.
  intros [(k0 & t0 & tr & Hc & Hk & Ht & Htr & Hcl)] Hc' Ht'. unfold has_client in Hc, Hc'.
  rewrite Hc in Hc'. injection Hc' as ->. rewrite Ht in Ht'. injection Ht' as ->.
  unfold on_net. rewrite (run_zoom (lens_comp L net)). unfold Transport_Close. rewrite run_atomic.
  cbn [view lens_comp net]. rewrite Htr. cbn [mbind res_bind fst snd].
  set (tr' := close_tcp tr).
  eexists. split; [reflexivity|]. split; [split; exists k, t, tr'|].
  - unfold has_client. cbn. rewrite view_update. split_and!; [done..| |done].
    cbn. apply list_lookup_insert_eq. by eapply lookup_lt_Some.
  - unfold sent_by. cbn. by rewrite view_update.
Qed.

Definition reports (call : client_call) : bool :=
  match call with CallDisconnect => false | _ => true end.

Lemma dead_make_call c call w :
  dead w c → ∃ w', run (make_call c call) w = Ok (reports call, w') ∧ useless w w' c.
Proof.
  intros Hd. pose proof Hd as [(k & t & tr & Hc & Hk & Ht & _)].
  assert (∀ A (p : gprog W (A + call_error)) e w', run p w = Ok (inr e, w') →
    run (r ← p; mret (failed r)) w = Ok (true, w')) as Hfail
    by (intros A p e w' H; by rewrite (run_bind_Ok _ _ _ _ _ H)).
  destruct call; cbn [make_call].
  - exists w. split; [|by split]. eapply Hfail. unfold Client_Connect, IsConnected.
    by rewrite (run_bind_Ok _ _ _ _ _ (run_of_client _ _ _ w Hc)), Hk.
  - enough (∃ w', run (Client_Hello L c) w = Ok (inr (SendFailed TransportIsClosed), w') ∧
      useless w w' c) as (w' & H & U) by (exists w'; split; [by eapply Hfail|done]).
    unfold Client_Hello. rewrite dead_if_connected by done.
    by apply (dead_call c PrimitiveHello (λ msg, AddSupportedAttributes tcp_hello_attributes
      (AddSupportedPrimitives tcp_hello_primitives msg))).
  - enough (∃ w', run (Client_RequestFloor L app c floorID beneficiaryID priority) w =
      Ok (inr (SendFailed TransportIsClosed), w') ∧ useless w w' c) as (w' & H & U)
      by (exists w'; split; [by eapply Hfail|done]).
    unfold Client_RequestFloor. rewrite dead_if_connected by done.
    by apply (dead_call c PrimitiveFloorRequest (floor_request floorID beneficiaryID priority)).
  - unfold Client_ReleaseFloor. rewrite run_bind, dead_if_connected by done.
    rewrite (run_bind_Ok _ _ _ _ _ (run_of_client _ _ _ w Hc)).
    destruct (kActive k !! floorID) as [req|]; [|exists w; split; [done|by split]].
    edestruct (dead_call (A:=()) c PrimitiveFloorRelease (λ msg,
      AddFloorRequestID (aFloorRequestID req) (AddFloorID floorID msg))) as (w' & H & U);
      [|exact Hd|exists w'; split; [|exact U]; erewrite H; reflexivity]. done.
  - enough (∃ w', run (QueryFloor L c floorID) w = Ok (inr (SendFailed TransportIsClosed), w') ∧
      useless w w' c) as (w' & H & U) by (exists w'; split; [by eapply Hfail|done]).
    unfold QueryFloor. rewrite dead_if_connected by done.
    destruct (dead_message c PrimitiveFloorQuery (λ msg, sendAndWait L c (AddFloorID floorID msg))
      w Hd) as (msg & w1 & -> & U1).
    destruct (dead_sendAndWait c (AddFloorID floorID msg) w1 (proj1 U1)) as (w2 & H2 & U2).
    exists w2. split; [done|by eapply useless_trans].
  - destruct (dead_goodbye c w Hd) as (w' & H & U). exists w'. split; [|exact U]. by eapply Hfail.
  - destruct (dead_goodbye c w Hd) as (w1 & H1 & U1).
    unfold Disconnect, IsConnected. rewrite run_bind, (run_bind_Ok _ _ _ _ _ (run_of_client _ _ _ w Hc)), Hk.
    cbn [when]. rewrite (run_bind_Ok _ _ _ _ _ H1).
    pose proof (proj1 U1) as [(k1 & t1 & tr1 & Hc1 & _ & Ht1 & _)].
    rewrite (run_bind_Ok _ _ _ _ _ (run_of_client _ _ _ w1 Hc1)), Ht1.
    destruct (dead_close c t1 w1 k1 (proj1 U1) Hc1 Ht1) as (w2 & H2 & U2). rewrite H2.
    exists w2. split; [done|]. by eapply useless_trans.
Qed.

(** C40: a client that takes itself for connected on a closed transport stays so for
    ever.  [Connect] refuses, [Disconnect] changes nothing, every other call fails, and
    nothing is sent; so do any of them after the others.  The client comes there when
    its connection ends while [Connect] is still running (the witness). *)
Theorem dead_client_stays_dead c (pending : list client_call) w :
  dead w c →
  ∃ results w', run (fold_right (λ call rest, r ← make_call c call; rs ← rest; mret (r :: rs))
                       (mret []) pending) w = Ok (results, w') ∧
    results = map reports pending ∧
    dead w' c ∧ sent_by w' = sent_by w.
Proof.
  revert w. induction pending as [|call pending IH]; intros w Hd; cbn [fold_right map].
  - by exists [], w.
  - destruct (dead_make_call c call w Hd) as (w1 & H1 & Hd1 & Hs1). rewrite (run_bind_Ok _ _ _ _ _ H1).
    destruct (IH w1 Hd1) as (rs & w2 & H2 & -> & Hd2 & Hs2). rewrite (run_bind_Ok _ _ _ _ _ H2).
    eexists _, w2. split_and!; [done|done|done|congruence].
Qed.
End Run.

(** ** A client

    User 7 of conference 1 at server "s"; its application notes every callback. *)

Definition note (cb : client_callback) : gprog ClientWorld () :=
  zoom net (emit (ClientCallback "s" cb)).

Definition noting (_ : nat) : Callbacks ClientWorld :=
  mkCallbacks None None (Some (λ f r, note (CbFloorGranted f r)))
    (Some (λ f r _, note (CbFloorDenied f r))) (Some (λ f, note (CbFloorReleased f)))
    (Some (λ f, note (CbFloorReleased f))) (Some (λ f s, note (CbFloorStatus f 0 s))) None.

Definition demo_tcp_client : Client :=
  mkClient (DefaultClientConfig "s" 1 7) (Some 0%nat) StateWaitFloorRequest true 1
    {[ 5 := mkActive 5 6 0 0 RequestStatusPending 1 0 ]} ∅.

Definition demo_tcp_world (clients : list Client) (transports : list Transport) : ClientWorld :=
  mkClientWorld (mkWorld [] ∅ [] ∅ transports [] ∅ ∅ [] [] 0 [] [] 0) clients [].

Definition demo_connected : ClientWorld :=
  demo_tcp_world [demo_tcp_client] [NewTransport "s" RoleActive].

#[local] Instance tcp_demo : Env := demo_env TransportTCP.
#[local] Instance demo_dialer : Dialer := {| dial := λ _ address, Some address |}.

Lemma demo_online : online lens_id demo_connected 0 demo_tcp_client "s".
Proof. split; [done..|]. by eexists 0%nat, _. Qed.

Lemma tcp_late_response_panics_witness :
  let msg := demo_message 1 PrimitiveFloorQuery 2 7 in
  ∃ sched, pool_run sched
    [sendAndWait lens_id 0 msg ;; mret tt;
     Client_handleMessage lens_id noting 0 (demo_message 1 PrimitiveFloorStatus 2 7)]
    demo_connected = Panic.
Proof.
  intros msg.
  exact (tcp_late_response_panics lens_id noting (λ _, eq_refl) (λ _, eq_refl) 0 demo_tcp_client "s"
    msg (demo_message 1 PrimitiveFloorStatus 2 7) (datagram msg) demo_connected demo_online eq_refl eq_refl).
Defined.

(** [Connect] and the read loop of its connection, which the server closes at once. *)
Definition connect_race : list nat := [0; 0; 0; 0; 0; 1; 1; 1; 1; 1; 1; 0; 0]%nat.

Definition raced : ClientWorld :=
  match pool_run connect_race
          [Client_Connect lens_id noting 0 ;; mret tt; client_reader lens_id noting 0 0 (λ _, Reading) []]
          (demo_tcp_world [new_tcp_client (Some (DefaultClientConfig "s" 1 7))] []) with
  | Ok ([Ret tt; Ret tt], w) => w
  | _ => demo_tcp_world [] []
  end.

Lemma dead_client_stays_dead_witness :
  dead lens_id raced 0 ∧
  ∃ w', run (fold_right (λ call rest, r ← make_call lens_id noting 0 call; rs ← rest; mret (r :: rs))
               (mret []) [CallHello; CallDisconnect; CallConnect; CallRequestFloor 5 0 0]) raced =
    Ok ([true; false; true; true], w') ∧ dead lens_id w' 0.
Proof.
  assert (dead lens_id raced 0) as Hd.
  { split. eexists _, 0%nat, _. split_and!; [vm_compute; reflexivity|reflexivity..]. }
  split; [exact Hd|].
  destruct (dead_client_stays_dead lens_id noting 0
    [CallHello; CallDisconnect; CallConnect; CallRequestFloor 5 0 0] raced Hd)
    as (rs & w' & Hrun & Hrs & Hd' & _). subst rs. exists w'. split; [exact Hrun|exact Hd'].
Defined.
