(* ===== verification/FloorLocks.v ===== *)
(** * Floors as locks

    The floors of the server by their locks ([FloorFSM.v]): what the calls on a
    registered floor return and do to its lock, and what the searches through the
    floors find. *)

From S2P Require Import Prelude Types Message Grouped Codec FloorFSM Session Prog World Transport UDPClient Server Interleave Responses ServerSafe ServerRun.

(** ** Floors by their locks *)

(** Why a floor whose lock is [l] refuses a request. *)
Definition refusal (floorID : Z) (l : Lock.lock) : floor_error :=
  match l with
  | Lock.Blocked => InvalidFloorState RequestStatusDenied
  | _ => FloorInUse floorID (Lock.user l)
  end.

(** Floor [id] is cell [l], and its lock is [lk]. *)
Record located (w : World) (id : Z) (l : nat) (lk : Lock.lock) : Prop := {
  loc_floors : w_floors w !! id = Some l;
  loc_heap : ∃ f, w_floor_heap w !! l = Some f ∧ lock_of f = lk;
  loc_ok : floors_ok w
}.

Lemma located_lock w id l lk : located w id l lk → lock_at w id = lk.
Proof. intros [Hl (f & Hf & <-) _]. by apply lock_at_lookup with l. Qed.

Lemma located_step w w' pk cb id l lk : step w w' pk cb → located w id l lk → located w' id l lk.
Proof.
  intros Hs [Hl Hf Hok]. pose proof (step_floors_ok _ _ _ _ Hs Hok). destruct Hs as [_ Ef Eh].
  split; [by rewrite Ef|by rewrite Eh|done].
Qed.

Lemma locate w id l : floors_ok w → w_floors w !! id = Some l → located w id l (lock_at w id).
Proof.
  intros Hok Hl. destruct (Hok id l Hl) as (f & Hf & _). split; [done| |done].
  exists f. split; [done|]. symmetry. by apply lock_at_lookup with l.
Qed.

(** The user of a lock is the owner of its floor. *)
Lemma lock_user f : wf_floor f → Lock.user (lock_of f) = fOwnerUserID f.
Proof. intros H. unfold lock_of. floor_cases H; done. Qed.

Lemma located_user_u16 w id l lk : located w id l lk → is_u16 (Lock.user lk).
Proof.
  intros [Hl (f & Hf & <-) Hok]. destruct (Hok id l Hl) as (f' & ? & Hfo). simplify_eq.
  rewrite lock_user by apply Hfo. apply Hfo.
Qed.

(** An operation on a located floor does what it does to the lock. *)
Lemma located_op w id l lk op :
  located w id l lk → op_u16 op →
  ∃ f, w_floor_heap w !! l = Some f ∧ lock_of f = lk ∧ floor_ok id f ∧
    no_error (floor_apply op f).1 = (Lock.apply op lk).1 ∧
    comm w (apply_floor_op l op w) [] [] ∧
    located (apply_floor_op l op w) id l (Lock.apply op lk).2 ∧
    others_stay w (apply_floor_op l op w) id.
Proof.
  intros [Hl (f & Hf & <-) Hok] Hop. destruct (Hok id l Hl) as (f' & ? & Hfo). simplify_eq.
  destruct (operate id l f op w Hok Hl Hf Hop) as [Hlock Hw].
  rewrite (lock_at_lookup w id l f) in Hlock by done. rewrite Hlock. exists f.
  split_and!; [done..|by apply Hw| |by apply Hw]. cbn [snd].
  split; [by eapply op_floors|eexists; split; [by eapply op_heap|done]|by eapply op_floors_ok].
Qed.

Section FloorCalls.
Context {env : Env}.

Lemma run_Grant_waiting w id l u r :
  located w id l (Lock.Waiting u r) →
  ∃ w', run (floor_Grant l) w = Ok (None, w') ∧ comm w w' [] [] ∧
    located w' id l (Lock.Held u r) ∧ others_stay w w' id.
Proof.
  intros Hloc. destruct (located_op w id l _ (OpGrant (now (w_tick w))) Hloc I)
    as (f & Hf & Hlk & _ & He & Hc & Hl & Ho).
  eexists. split_and!; [|exact Hc|exact Hl|exact Ho]. erewrite run_floor_Grant by done.
  do 2 f_equal. cbn in He. by destruct (Floor_Grant _ f) as [[e|] ?].
Qed.

Lemma run_Deny_waiting w id l u r :
  located w id l (Lock.Waiting u r) →
  ∃ w', run (floor_Deny l) w = Ok (None, w') ∧ comm w w' [] [] ∧
    located w' id l Lock.Blocked ∧ others_stay w w' id.
Proof.
  intros Hloc. destruct (located_op w id l _ OpDeny Hloc I)
    as (f & Hf & Hlk & _ & He & Hc & Hl & Ho).
  eexists. split_and!; [|exact Hc|exact Hl|exact Ho]. erewrite run_floor_Deny by done.
  do 2 f_equal. cbn in He. by destruct (Floor_Deny f) as [[e|] ?].
Qed.

(** What a request finds and does. *)
Definition requested (w' : World) (id : Z) (l : nat) (u r : Z) (lk : Lock.lock)
    (res : Z * option floor_error) : Prop :=
  match lk with
  | Lock.Free => res = (RequestStatusPending, None) ∧ located w' id l (Lock.Waiting u r)
  | _ => res = (RequestStatusDenied, Some (refusal id lk)) ∧ located w' id l lk
  end.

Lemma Floor_Request_lock id u r p f :
  floor_ok id f →
  (Floor_Request u r p f).1 =
    match lock_of f with
    | Lock.Free => (RequestStatusPending, None)
    | lk => (RequestStatusDenied, Some (refusal id lk))
    end.
Proof.
  intros [Hid _ Hwf _ _]. unfold lock_of. floor_cases Hwf; subst; done.
Qed.

Lemma run_Request_lock w id l lk u r p :
  located w id l lk → is_u16 u → is_u16 r →
  ∃ res w', run (floor_Request l u r p) w = Ok (res, w') ∧ comm w w' [] [] ∧
    others_stay w w' id ∧ requested w' id l u r lk res.
Proof.
  intros Hloc Hu Hr. destruct (located_op w id l lk (OpRequest u r p) Hloc (conj Hu Hr))
    as (f & Hf & <- & Hfo & He & Hc & Hl & Ho).
  eexists _, _. split_and!; [by apply run_floor_Request|exact Hc|exact Ho|].
  rewrite (Floor_Request_lock id) by done. unfold requested.
  by destruct (lock_of f).
Qed.

(** What a release finds and does. *)
Definition released (w' : World) (id : Z) (l : nat) (u : Z) (lk : Lock.lock)
    (res : option floor_error) : Prop :=
  if decide (u = 0 ∨ u = Lock.user lk) then res = None ∧ located w' id l Lock.Free
  else res = Some (NotOwner u id (Lock.user lk)) ∧ located w' id l lk.

Lemma run_Release_lock w id l lk u :
  located w id l lk →
  ∃ res w', run (floor_Release l u) w = Ok (res, w') ∧ comm w w' [] [] ∧
    others_stay w w' id ∧ released w' id l u lk res.
Proof.
  intros Hloc. destruct (located_op w id l lk (OpRelease u) Hloc I)
    as (f & Hf & <- & Hfo & He & Hc & Hl & Ho).
  eexists _, _. split_and!; [by apply run_floor_Release|exact Hc|exact Ho|].
  unfold released. cbn -[decide] in Hl, He. rewrite lock_user in * by apply Hfo.
  unfold Floor_Release in *. destruct Hfo as [<- _ _ _ _].
  case_decide as Hd; cbn -[Z.eqb] in *;
    destruct (Z.eqb_spec (fOwnerUserID f) u), (Z.eqb_spec u 0); cbn in *; try done; lia.
Qed.
End FloorCalls.

(** ** Looking floors up *)

Section Lookup.
Context {env : Env}.

Lemma run_range_floors w :
  ∃ ls, run (range_of w_floors) w = Ok (ls, tick w) ∧
    ∀ l, l ∈ ls ↔ ∃ id, w_floors w !! id = Some l.
Proof.
  unfold range_of. rewrite run_atomic. eexists. split; [done|]. intros l.
  rewrite range_perm, list_elem_of_fmap. split.
  - intros ([id l'] & -> & Hin). exists id. by apply elem_of_map_to_list in Hin.
  - intros [id Hl]. exists (id, l). by rewrite elem_of_map_to_list.
Qed.

Lemma run_find_floor (test : nat → prog bool) (b : nat → bool) ls w :
  (∀ l, l ∈ ls → run (test l) w = Ok (b l, w)) →
  ∃ res, run (find_floor test ls) w = Ok (res, w) ∧
    match res with Some l => l ∈ ls ∧ b l = true | None => ∀ l, l ∈ ls → b l = false end.
Proof.
  induction ls as [|l ls IH]; intros Ht; cbn [find_floor].
  - exists None. split; [done|]. by intros l ?%elem_of_nil.
  - rewrite (run_bind_Ok _ _ _ _ _ (Ht l (list_elem_of_here _ _))).
    destruct (b l) eqn:Hb; [exists (Some l); split; [done|]; by split; [left|]|].
    destruct IH as (res & Hrun & Hres); [by intros l' ?; apply Ht; right|].
    exists res. split; [done|]. destruct res as [l'|]; [by split; [right|]; apply Hres|].
    intros l' [->|?]%elem_of_cons; [done|by apply Hres].
Qed.

(** A search through the registered floors for one with [P]. *)
Definition search (w : World) (P : FloorStateMachine → bool) (res : option nat) : Prop :=
  match res with
  | Some l => ∃ id f, w_floors w !! id = Some l ∧ w_floor_heap w !! l = Some f ∧ P f = true
  | None => ∀ id f, floor_of w id = Some f → P f = false
  end.

Lemma run_search (test : nat → prog bool) (P : FloorStateMachine → bool) w :
  floors_ok w →
  (∀ l f w', w_floor_heap w' !! l = Some f → run (test l) w' = Ok (P f, w')) →
  ∃ res, run (ls ← range_of w_floors; find_floor test ls) w = Ok (res, tick w) ∧ search w P res.
Proof.
  intros Hok Ht. destruct (run_range_floors w) as (ls & H1 & Hls).
  rewrite (run_bind_Ok _ _ _ _ _ H1).
  destruct (run_find_floor test (λ l, from_option P false (w_floor_heap w !! l)) ls (tick w))
    as (res & H2 & Hres).
  - intros l [id Hl]%Hls. destruct (Hok id l Hl) as (f & Hf & _). rewrite Hf. by apply Ht.
  - exists res. split; [done|]. destruct res as [l|].
    + destruct Hres as [[id Hl]%Hls Hp]. destruct (Hok id l Hl) as (f & Hf & _).
      exists id, f. by rewrite Hf in Hp.
    + intros id f (l & Hl & Hf)%floor_of_inv. specialize (Hres l).
      rewrite Hf in Hres. apply Hres, Hls. by exists id.
Qed.

Lemma run_GetFloorByRequestID rid w :
  floors_ok w →
  ∃ res, run (GetFloorByRequestID rid) w = Ok (res, tick w) ∧
    search w (λ f, fFloorRequestID f =? rid) res.
Proof.
  intros Hok. apply run_search; [done|]. intros l f w' Hf. 
  by rewrite (run_bind_Ok _ _ _ _ _ (run_floor_get l Floor_GetFloorRequestID f w' Hf)).
Qed.

(** The floor waits for or is held by the user. *)
Definition owned_by (user : Z) (f : FloorStateMachine) : bool :=
  negb (Floor_IsAvailable f) && (fOwnerUserID f =? user).

Lemma run_floorOwnedBy user w :
  floors_ok w →
  ∃ res, run (floorOwnedBy user) w = Ok (res, tick w) ∧ search w (owned_by user) res.
Proof.
  intros Hok. apply run_search; [done|]. intros l f w' Hf. unfold owned_by.
  rewrite (run_bind_Ok _ _ _ _ _ (run_floor_get l Floor_IsAvailable f w' Hf)).
  destruct (Floor_IsAvailable f); [done|].
  by rewrite (run_bind_Ok _ _ _ _ _ (run_floor_get l Floor_GetOwner f w' Hf)).
Qed.

(** What [release_lookup] finds: the floor that is named; else the floor of the
    request; else a floor of the user. *)
Definition release_target_spec (w : World) (msg : Message) (t : release_target) : Prop :=
  match t with
  | ReleaseOf l id =>
      ∃ f, w_floors w !! id = Some l ∧ w_floor_heap w !! l = Some f ∧
        (GetFloorID msg = Ok (Some id) ∨
         ∃ rid, GetFloorID msg = Ok None ∧ GetFloorRequestID msg = Ok (Some rid) ∧
           (fFloorRequestID f = rid ∨
            (∀ id' f', floor_of w id' = Some f' → fFloorRequestID f' ≠ rid) ∧
            owned_by (mUserID msg) f = true))
  | ReleaseError code info =>
      (∃ id, GetFloorID msg = Ok (Some id) ∧ floor_of w id = None ∧
         code = ErrorInvalidFloorID ∧ info = floor_missing id) ∨
      (GetFloorID msg = Ok None ∧ GetFloorRequestID msg = Ok None ∧
         code = ErrorUnknownMandatoryAttribute ∧ info = "Missing FLOOR-REQUEST-ID attribute") ∨
      (∃ rid, GetFloorID msg = Ok None ∧ GetFloorRequestID msg = Ok (Some rid) ∧
         (∀ id f, floor_of w id = Some f → fFloorRequestID f ≠ rid ∧ owned_by (mUserID msg) f = false) ∧
         code = ErrorFloorRequestIDDoesNotExist ∧
         info = "FloorRequestID " +:+ pretty rid +:+ " does not exist")
  end.

Lemma search_Some_id w P l :
  floors_ok w → search w P (Some l) →
  ∃ f, w_floors w !! fFloorID f = Some l ∧ w_floor_heap w !! l = Some f ∧ P f = true.
Proof.
  intros Hok (id & f & Hl & Hf & HP). exists f. split_and!; [|done..].
  destruct (Hok id l Hl) as (f' & ? & []). by simplify_eq.
Qed.

Lemma run_release_lookup msg w :
  floors_ok w →
  ∃ t w', run (release_lookup msg) w = Ok (t, w') ∧ step w w' [] [] ∧ release_target_spec w msg t.
Proof.
  intros Hok. unfold release_lookup. destruct (GetFloorID_Ok msg) as [fid Hfid].
  rewrite (run_bind_Ok _ _ _ _ _ (run_lift _ _ w Hfid)). destruct fid as [id|].
  { unfold GetFloor. rewrite (run_bind_Ok _ _ _ _ _ (run_gets _ w)).
    destruct (w_floors w !! id) as [l|] eqn:Hl; eexists _, w; (split_and!; [done|apply step_refl|]).
    - destruct (Hok id l Hl) as (f & Hf & _). exists f. eauto.
    - left. exists id. split_and!; [done| |done..]. unfold floor_of. by rewrite Hl. }
  destruct (GetFloorRequestID_Ok msg) as [rid Hrid].
  rewrite (run_bind_Ok _ _ _ _ _ (run_lift _ _ w Hrid)). destruct rid as [rid|].
  2: { eexists _, w. split_and!; [done|apply step_refl|]. right. by left. }
  destruct (run_GetFloorByRequestID rid w Hok) as (res & H1 & Hres). rewrite (run_bind_Ok _ _ _ _ _ H1).
  destruct res as [l|].
  { destruct (search_Some_id _ _ _ Hok Hres) as (f & Hl & Hf & Hr%Z.eqb_eq).
    rewrite (run_bind_Ok _ _ _ _ _ (run_floor_get l fFloorID f (tick w) Hf)).
    eexists _, _. split_and!; [done|apply tick_step|]. exists f. split_and!; [done..|].
    right. exists rid. auto. }
  destruct (run_floorOwnedBy (mUserID msg) (tick w)) as (res & H2 & Hres2); [by eapply step_floors_ok, Hok; apply tick_step|].
  rewrite (run_bind_Ok _ _ _ _ _ H2). pose proof (step_tick _ _ _ _ (tick_step w)) as Hs.
  assert (∀ id f, floor_of w id = Some f → fFloorRequestID f ≠ rid) as Hnone
    by (intros id f Hf; specialize (Hres id f Hf); by apply Z.eqb_neq).
  destruct res as [l|].
  - destruct (search_Some_id (tick w) _ _ ltac:(eapply step_floors_ok, Hok; apply tick_step) Hres2)
      as (f & Hl & Hf & Hr).
    rewrite (run_bind_Ok _ _ _ _ _ (run_floor_get l Floor_GetFloorRequestID f (tick (tick w)) Hf)).
    rewrite (run_bind_Ok _ _ _ _ _ (run_floor_get l fFloorID f (tick (tick w)) Hf)).
    eexists _, _. split_and!; [done|done|]. exists f. split_and!; [done..|].
    right. exists rid. auto.
  - eexists _, _. split_and!; [done|done|]. right; right. exists rid. split_and!; [done..| |done|done].
    intros id f Hf. split; [by eapply Hnone|exact (Hres2 id f Hf)].
Qed.
End Lookup.
