(* ===== verification/Channel.v ===== *)
(** * Channels

    The handlers for UDP and for TCP differ in how they answer: the R flag, the send
    and what it logs, the broadcast.  A [channel] is these operations, [ChannelLaws]
    what a handler relies on, and the two instances show it of the server's
    functions. *)

From S2P Require Import Prelude Types Message Grouped Codec FloorFSM Session Prog World Transport UDPClient Server Interleave Responses ServerSafe ServerRun.

(** ** Answers *)

Inductive answer :=
| Status (floorID requestID status : Z)
| Refusal (code : Z) (info : string).


(** The datagram [bs] answers [msg] with [a]: same version, conference, transaction
    and user. *)
Definition answers (bs : bytes) (msg : Message) (response : bool) (a : answer) : Prop :=
  match a with
  | Status floorID requestID status =>
      says_status bs (mVersion msg) (mConferenceID msg) (mTransactionID msg) (mUserID msg) response
        PrimitiveFloorRequestStatus floorID requestID status
  | Refusal code info =>
      says_error bs (mVersion msg) (mConferenceID msg) (mTransactionID msg) (mUserID msg) response
        code info
  end.


(** A decoded message: its version is one of the two, its fields have their widths. *)
Record wf_request (msg : Message) : Prop := {
  rq_version : version_ok (mVersion msg);
  rq_ids : wf_ids (mConferenceID msg) (mTransactionID msg) (mUserID msg);
  rq_floor : ∀ f, GetFloorID msg = Ok (Some f) → is_u16 f;
  rq_request : ∀ r, GetFloorRequestID msg = Ok (Some r) → is_u16 r
}.

(** ** Answering *)

Lemma outgoing_built v primitive conf tx user attrs :
  version_ok v →
  outgoing_udp v (built ProtocolVersionRFC4582 true primitive conf tx user attrs) =
  built v (v =? ProtocolVersionRFC8855) primitive conf tx user attrs.
Proof. by intros [-> | ->]. Qed.

Lemma outgoing_built_plain v primitive conf tx user attrs :
  version_ok v →
  outgoing_udp v (built ProtocolVersionRFC4582 false primitive conf tx user attrs) =
  built v false primitive conf tx user attrs.
Proof. by intros [-> | ->]. Qed.
Lemma add_error_built response code info conf tx user :
  is_u8 code → info ≠ "" → (String.length info <= max_value_len)%nat →
  add_error code info (built ProtocolVersionRFC4582 response PrimitiveError conf tx user []) =
  built ProtocolVersionRFC4582 response PrimitiveError conf tx user (error_attrs code info).
Proof.
  intros Hc Hne Hlen. unfold add_error. rewrite decide_False by done.
  unfold AddErrorInfo, AddErrorCode, AddAttribute. rewrite (u8_small code) by done.
  rewrite (u8_small (Z.of_nat (length (string_bytes info)))); [done|].
  rewrite string_bytes_length. unfold max_value_len in Hlen. width. lia.
Qed.

(** ** Hearing a message *)

(** What a session records of any message: its version. *)
Record heard (w w' : World) (i : nat) (v : Z) : Prop := {
  hr_floors : w_floors w' = w_floors w;
  hr_heap : w_floor_heap w' = w_floor_heap w;
  hr_sessions : w_sessions w' = w_sessions w;
  hr_endpoints : endpoints w' = alter (λ e, (e.1, v)) i (endpoints w);
  hr_udp : w_udp_transports w' = w_udp_transports w;
  hr_tcp : w_transports w' = w_transports w;
  hr_tx : w_nextTxID w' = w_nextTxID w;
  hr_packets : packets (w_trace w') = packets (w_trace w);
  hr_calls : calls (w_trace w') = calls (w_trace w);
  hr_listener : w_udp_sessions w' = w_udp_sessions w;
  hr_clients : w_udp_clients w' = w_udp_clients w
}.

Lemma heard_udp_peer w w' i r v v' : heard w w' i v' → udp_peer w i r v → udp_peer w' i r v'.
Proof.
  intros H (tcp & t & Hi & Ht). exists tcp, t.
  rewrite (hr_endpoints _ _ _ _ H), (hr_udp _ _ _ _ H), list_lookup_alter_eq, Hi. done.
Qed.
Lemma heard_tcp_peer w w' i r v v' : heard w w' i v' → tcp_peer w i r v → tcp_peer w' i r v'.
Proof.
  intros H (t & tr & Hi & Ht). exists t, tr.
  rewrite (hr_endpoints _ _ _ _ H), (hr_tcp _ _ _ _ H), list_lookup_alter_eq, Hi. done.
Qed.
Lemma heard_udp_other w w' i j r v v' :
  j ≠ i → heard w w' i v' → udp_peer w j r v → udp_peer w' j r v.
Proof.
  intros Hne H (tcp & t & Hi & Ht). exists tcp, t.
  rewrite (hr_endpoints _ _ _ _ H), (hr_udp _ _ _ _ H), list_lookup_alter_ne by done. done.
Qed.
Lemma heard_tcp_other w w' i j r v v' :
  j ≠ i → heard w w' i v' → tcp_peer w j r v → tcp_peer w' j r v.
Proof.
  intros Hne H (t & tr & Hi & Ht). exists t, tr.
  rewrite (hr_endpoints _ _ _ _ H), (hr_tcp _ _ _ _ H), list_lookup_alter_ne by done. done.
Qed.
Lemma heard_floor_of w w' i v id : heard w w' i v → floor_of w' id = floor_of w id.
Proof. intros H. unfold floor_of. by rewrite (hr_floors _ _ _ _ H), (hr_heap _ _ _ _ H). Qed.

Lemma udp_peer_session w i r v : udp_peer w i r v → is_Some (w_session_heap w !! i).
Proof. intros (tcp & t & Hi & _). apply endpoints_lookup in Hi as (s & Hs & _). by exists s. Qed.
Lemma tcp_peer_session w i r v : tcp_peer w i r v → is_Some (w_session_heap w !! i).
Proof. intros (t & tr & Hi & _). apply endpoints_lookup in Hi as (s & Hs & _). by exists s. Qed.

Section Hear.
Context {env : Env}.

Lemma run_update f i s w :
  w_session_heap w !! i = Some s →
  run (upd_session i f) w =
    Ok (tt, tick (set_session_heap (alter (set_StateMachine (f (now (w_tick w)))) i) w)).
Proof.
  intros Hs. unfold upd_session. rewrite run_atomic, Hs. 
  by rewrite <- (session_heap_alter (set_StateMachine (f (now (w_tick w)))) i s).
Qed.

Lemma endpoints_version i v w :
  0 < v →
  endpoints (set_session_heap (alter (set_StateMachine (set_ClientVersion v)) i) w) =
  alter (λ e, (e.1, v)) i (endpoints w).
Proof.
  intros Hv. unfold endpoints. cbn. apply list_eq. intros j.
  destruct (decide (i = j)) as [->|].
  - rewrite list_lookup_alter_eq, !list_lookup_fmap, list_lookup_alter_eq.
    destruct (w_session_heap w !! j) as [s|]; cbn; [|done]. unfold endpoint.
    by rewrite ProtocolVersion_client.
  - by rewrite list_lookup_alter_ne, !list_lookup_fmap, list_lookup_alter_ne.
Qed.

(** The common start of the two message handlers. *)
Lemma run_hear i v w :
  is_Some (w_session_heap w !! i) → 0 < v →
  ∃ w1 w2, run (upd_session i UpdateActivity) w = Ok (tt, w1) ∧
    run (upd_session i (λ _, set_ClientVersion v)) w1 = Ok (tt, w2) ∧ heard w w2 i v.
Proof.
  intros [s Hs] Hv. eexists _, _. split_and!; [by apply run_update with s|eapply run_update|].
  - cbn. by rewrite list_lookup_alter_eq, Hs.
  - split; try done.
    change (endpoints (set_session_heap (alter (set_StateMachine (set_ClientVersion v)) i)
      (set_session_heap (alter (set_StateMachine (UpdateActivity (now (w_tick w)))) i) w)) =
      alter (λ e, (e.1, v)) i (endpoints w)).
    rewrite endpoints_version by done. by rewrite endpoints_update.
Qed.

Lemma heard_step w w1 w2 i v :
  heard w w1 i v → step w1 w2 [] [] → w_nextTxID w2 = w_nextTxID w1 → heard w w2 i v.
Proof.
  intros [] [[] ??] ?. rewrite app_nil_r in *. split; congruence.
Qed.

Lemma run_udp_heard i r v msg w :
  udp_peer w i r v → wf_request msg →
  ∃ w1, run (Session_handleUDPMessage i msg) w = run (udp_dispatch i msg) w1 ∧
    heard w w1 i (mVersion msg).
Proof.
  intros Hp [Hv _ _ _]. pose proof Hp as (tcp & t & Hi & Ht).
  apply endpoints_lookup in Hi as (s & Hs & _).
  destruct (run_hear i (mVersion msg) w) as (w1 & w2 & H1 & H2 & Hh);
    [by eexists|by destruct Hv as [-> | ->]|].
  unfold Session_handleUDPMessage. rewrite (run_bind_Ok _ _ _ _ _ H1), (run_bind_Ok _ _ _ _ _ H2).
  destruct (heard_udp_peer _ _ _ _ _ _ Hh Hp) as (tcp' & t' & Hi' & Ht').
  apply endpoints_lookup in Hi' as (s' & Hs' & He). injection He as _ He _.
  srun run_deref. rewrite He.
  assert (run (UDPTransport_RemoteAddr t') w2 = Ok (r, w2)) as Hr
    by (unfold UDPTransport_RemoteAddr; by rewrite run_atomic, Ht').
  rewrite (run_bind_Ok _ _ _ _ _ Hr).
  destruct (run_message_in r msg w2) as (w3 & H3 & Hst & Htx).
  rewrite (run_bind_Ok _ _ _ _ _ H3). exists w3. split; [done|]. by eapply heard_step.
Qed.

(** The handler of a message over TCP comes to its dispatch. *)
Lemma steps_tcp_heard i r v msg w :
  tcp_peer w i r v → wf_request msg →
  ∃ w1, steps (handleMessage i msg) w (tcp_dispatch i msg) w1 ∧ heard w w1 i (mVersion msg).
Proof.
  intros Hp [Hv _ _ _]. pose proof Hp as (t & tr & Hi & Ht).
  apply endpoints_lookup in Hi as (s & Hs & _).
  destruct (run_hear i (mVersion msg) w) as (w1 & w2 & H1 & H2 & Hh);
    [by eexists|by destruct Hv as [-> | ->]|].
  destruct (run_message_in r msg w2) as (w3 & H3 & Hst & Htx).
  exists w3. split; [|by eapply heard_step]. unfold handleMessage.
  eapply steps_run_bind; [exact H1|]. eapply steps_run_bind; [exact H2|].
  eapply steps_run_bind; [exact (run_tcp_remote _ _ _ _ (heard_tcp_peer _ _ _ _ _ _ Hh Hp))|].
  eapply steps_run_bind; [exact H3|constructor].
Qed.

Lemma run_tcp_heard i r v msg w :
  tcp_peer w i r v → wf_request msg →
  ∃ w1, run (handleMessage i msg) w = run (tcp_dispatch i msg) w1 ∧
    heard w w1 i (mVersion msg).
Proof.
  intros Hp Hm. destruct (steps_tcp_heard i r v msg w Hp Hm) as (w1 & Hs & Hh). exists w1.
  split; [by apply steps_run|done].
Qed.
End Hear.

(** ** Broadcasts *)

(** Session [j], in whatever version it speaks, gets the status of the floor. *)
Definition told {env : Env} (peer : World → nat → string → Z → Prop) (w : World) (j : nat)
    (user floorID requestID status : Z) (pk : list (string * bytes)) : Prop :=
  ∃ r v tx bs, pk = [(r, bs)] ∧ peer w j r v ∧
    says_status bs v (cConferenceID config) tx user false PrimitiveFloorRequestStatus
      floorID requestID status.

(** Every registered session is a peer. *)
Definition all_peers (peer : World → nat → string → Z → Prop) (w : World) : Prop :=
  ∀ k j, w_sessions w !! k = Some j → ∃ r v, peer w j r v ∧ version_ok v.

(** The sessions in the order of [range], and what each is sent: nothing for the
    excepted one. *)
Definition broadcasted {env : Env} (peer : World → nat → string → Z → Prop) (w : World)
    (except : option nat) (user floorID requestID status : Z) (pk : list (string * bytes)) : Prop :=
  ∃ js pks, js ≡ₚ snd <$> map_to_list (w_sessions w) ∧ pk = concat pks ∧
    Forall2 (λ j pk, if decide (Some j = except) then pk = []
                     else told peer w j user floorID requestID status pk) js pks.

(** A loop whose rounds send what [R] says. *)
Lemma run_each (js : list nat) (body : nat → prog ()) (R : nat → list (string * bytes) → Prop) w0 :
  (∀ j w pk, j ∈ js → step w0 w pk [] →
     ∃ pk' w', run (body j) w = Ok (tt, w') ∧ step w w' pk' [] ∧ R j pk') →
  ∀ w pk, step w0 w pk [] →
  ∃ pks w', run (for_each js body) w = Ok (tt, w') ∧ step w w' (concat pks) [] ∧ Forall2 R js pks.
Proof.
  intros Hb. induction js as [|j js IH]; intros w pk Hs; cbn [for_each].
  - exists [], w. split_and!; [done|apply step_refl|constructor].
  - destruct (Hb j w pk) as (pk1 & w1 & H1 & Hs1 & HR); [left|done|].
    rewrite (run_bind_Ok _ _ _ _ _ H1).
    destruct (IH ltac:(intros j' w' pk' ?; apply Hb; by right) w1 _ (step_trans _ _ _ _ _ _ _ Hs Hs1))
      as (pks & w2 & H2 & Hs2 & HRs).
    exists (pk1 :: pks), w2. split_and!; [done| |by constructor].
    exact (step_trans _ _ _ _ _ _ _ Hs1 Hs2).
Qed.

Section Notices.
Context {env : Env}.

Definition notice (user floorID requestID status tx : Z) : Message :=
  built ProtocolVersionRFC4582 false PrimitiveFloorRequestStatus (cConferenceID config) tx user
    [raw_status_attr requestID status floorID].

Lemma notice_received v user floorID requestID status tx :
  version_ok v → is_u32 (cConferenceID config) → is_u16 tx → is_u16 user → is_u16 floorID →
  is_u16 requestID → is_u8 status →
  let msg := set_Version v (notice user floorID requestID status tx) in
  ∃ bs, Encode msg = Ok (sized msg, bs) ∧
    says_status bs v (cConferenceID config) tx user false PrimitiveFloorRequestStatus
      floorID requestID status.
Proof.
  intros Hv Hc Ht Hu Hf Hr Hs.
  by apply (status_received v false PrimitiveFloorRequestStatus).
Qed.

Lemma run_range_sessions w :
  ∃ js, run (range_of w_sessions) w = Ok (js, tick w) ∧ js ≡ₚ snd <$> map_to_list (w_sessions w).
Proof. unfold range_of. rewrite run_atomic. eexists. split; [done|]. apply range_perm. Qed.

End Notices.

(** ** The interface *)

Section Channel.
Context {env : Env}.

(** [ch_peer w i r v]: in [w], session [i] talks to [r] in version [v].  [ch_flag]:
    the handlers set the R flag on their answers. *)
Record channel := mkChannel {
  ch_peer : World → nat → string → Z → Prop;
  ch_flag : bool;
  ch_send : nat → Message → prog ();
  ch_remote : nat → prog string;
  ch_broadcast : option nat → Z → Z → Z → Z → prog ()
}.

(** A statement that sends one datagram to [r] and runs no callback. *)
Definition sends (p : prog ()) (w : World) (r : string) (says : bytes → Prop) : Prop :=
  ∃ bs w', run p w = Ok (tt, w') ∧ step w w' [(r, bs)] [] ∧ says bs.

Class ChannelLaws (ch : channel) := {
  ch_comm : ∀ w w' pk cb i r v, comm w w' pk cb → ch_peer ch w i r v → ch_peer ch w' i r v;
  ch_session : ∀ w i r v, ch_peer ch w i r v → is_Some (w_session_heap w !! i);
  ch_heard : ∀ w w' i r v v', heard w w' i v' → ch_peer ch w i r v → ch_peer ch w' i r v';
  ch_heard_other : ∀ w w' i j r v v',
    j ≠ i → heard w w' i v' → ch_peer ch w j r v → ch_peer ch w' j r v;
  ch_run_send : ∀ w i r v flag primitive conf tx user attrs bs,
    ch_peer ch w i r v → version_ok v → (flag = true → ch_flag ch = true) →
    (let msg := built v (flag && (v =? ProtocolVersionRFC8855)) primitive conf tx user attrs in
     Encode msg = Ok (sized msg, bs)) →
    ∃ w', run (ch_send ch i (built ProtocolVersionRFC4582 flag primitive conf tx user attrs)) w =
        Ok (tt, w') ∧ step w w' [(r, bs)] [];
  ch_run_remote : ∀ w i r v, ch_peer ch w i r v → run (ch_remote ch i) w = Ok (r, w);
  ch_run_broadcast : ∀ except user floorID requestID status w,
    all_peers (ch_peer ch) w → is_u32 (cConferenceID config) → is_u16 user → is_u16 floorID →
    is_u16 requestID → is_u8 status →
    ∃ pk w', run (ch_broadcast ch except user floorID requestID status) w = Ok (tt, w') ∧
      step w w' pk [] ∧ broadcasted (ch_peer ch) w except user floorID requestID status pk
}.

Definition udp_channel : channel :=
  mkChannel udp_peer true sendUDP udp_remote broadcastFloorStatusUDP.
Definition tcp_channel : channel :=
  mkChannel tcp_peer false send tcp_remote broadcastFloorStatus.

Section Instances.
Context (Hwrite : ∀ t, write_ok t = true).
#[local] Set Default Proof Using "Hwrite".

Lemma udp_run_send w i r v flag primitive conf tx user attrs bs :
  udp_peer w i r v → version_ok v →
  (let msg := built v (flag && (v =? ProtocolVersionRFC8855)) primitive conf tx user attrs in
   Encode msg = Ok (sized msg, bs)) →
  ∃ w', run (sendUDP i (built ProtocolVersionRFC4582 flag primitive conf tx user attrs)) w =
      Ok (tt, w') ∧ step w w' [(r, bs)] [].
Proof.
  intros Hp Hv Henc. apply (run_sendUDP Hwrite i r v _ bs w Hp).
  destruct flag; [by rewrite outgoing_built|by rewrite outgoing_built_plain].
Qed.

Lemma tcp_run_send w i r v flag primitive conf tx user attrs bs :
  tcp_peer w i r v → (flag = true → false = true) →
  (let msg := built v (flag && (v =? ProtocolVersionRFC8855)) primitive conf tx user attrs in
   Encode msg = Ok (sized msg, bs)) →
  ∃ w', run (send i (built ProtocolVersionRFC4582 flag primitive conf tx user attrs)) w =
      Ok (tt, w') ∧ step w w' [(r, bs)] [].
Proof.
  intros Hp Hf Henc. destruct flag; [by specialize (Hf eq_refl)|].
  exact (run_send_tcp Hwrite i r v _ bs w Hp Henc).
Qed.

Lemma run_broadcast_tcp except user floorID requestID status w :
  all_peers tcp_peer w → is_u32 (cConferenceID config) → is_u16 user → is_u16 floorID →
  is_u16 requestID → is_u8 status →
  ∃ pk w', run (broadcastFloorStatus except user floorID requestID status) w = Ok (tt, w') ∧
    step w w' pk [] ∧ broadcasted tcp_peer w except user floorID requestID status pk.
Proof.
  intros Hpeers Hc Hu Hf Hr Hs. unfold broadcastFloorStatus.
  destruct (run_range_sessions w) as (js & H1 & Hjs). rewrite (run_bind_Ok _ _ _ _ _ H1).
  edestruct (run_each js) with (w0 := w) as (pks & w' & H2 & Hs2 & HR); [|apply tick_step|].
  2: { exists (concat pks), w'. split_and!; [exact H2| |by exists js, pks].
       exact (step_trans _ _ _ _ _ _ _ (tick_step w) Hs2). }
  intros j w1 pk Hj Hs1. cbv beta. 
  rewrite Hjs, list_elem_of_fmap in Hj. destruct Hj as ([k j'] & -> & Hk%elem_of_map_to_list).
  destruct (Hpeers _ _ Hk) as (r & v & Hp & Hv). cbn [snd].
  case_bool_decide as Hex; [exists [], w1; split_and!; [done|apply step_refl|by rewrite decide_True]|].
  rewrite (run_bind_Ok _ _ _ _ _ (run_nextTxID w1)). set (tx := u32 _).
  destruct (notice_received v user floorID requestID status (u16 tx) Hv Hc (u16_range _) Hu Hf Hr Hs)
    as (bs & Henc & Hsays).
  destruct (run_send_tcp Hwrite j' r v (notice user floorID requestID status (u16 tx)) bs
    (set_nextTxID (λ _, tx) w1)) as (w2 & H2 & Hs2); [|done|].
  { eapply comm_tcp_peer, Hp. exact (comm_trans _ _ _ _ _ _ _ (step_comm _ _ _ _ Hs1) (step_comm _ _ _ _ (nextTxID_step _ w1))). }
  exists [(r, bs)], w2. split_and!; [exact H2| |].
  - exact (step_trans _ _ _ _ _ _ _ (nextTxID_step _ w1) Hs2).
  - rewrite decide_False by done. by exists r, v, (u16 tx), bs.
Qed.

Lemma run_broadcast_udp except user floorID requestID status w :
  all_peers udp_peer w → is_u32 (cConferenceID config) → is_u16 user → is_u16 floorID →
  is_u16 requestID → is_u8 status →
  ∃ pk w', run (broadcastFloorStatusUDP except user floorID requestID status) w = Ok (tt, w') ∧
    step w w' pk [] ∧ broadcasted udp_peer w except user floorID requestID status pk.
Proof.
  intros Hpeers Hc Hu Hf Hr Hs. unfold broadcastFloorStatusUDP.
  destruct (run_range_sessions w) as (js & H1 & Hjs). rewrite (run_bind_Ok _ _ _ _ _ H1).
  edestruct (run_each js) with (w0 := w) as (pks & w' & H2 & Hs2 & HR); [|apply tick_step|].
  2: { exists (concat pks), w'. split_and!; [exact H2| |by exists js, pks].
       exact (step_trans _ _ _ _ _ _ _ (tick_step w) Hs2). }
  intros j w1 pk Hj Hs1. cbv beta.
  rewrite Hjs, list_elem_of_fmap in Hj. destruct Hj as ([k j'] & -> & Hk%elem_of_map_to_list).
  destruct (Hpeers _ _ Hk) as (r & v & Hp & Hv). cbn [snd].
  pose proof (comm_udp_peer _ _ _ _ _ _ _ (step_comm _ _ _ _ Hs1) Hp) as Hp1.
  pose proof Hp1 as (tcp & t & Hi & _). apply endpoints_lookup in Hi as (s & Hss & He).
  injection He as _ He _. rewrite (run_bind_Ok _ _ _ _ _ (run_deref _ _ _ w1 Hss)), He.
  rewrite (bool_decide_true (is_Some (Some t))) by by eexists. rewrite orb_false_r.
  case_bool_decide as Hex; [exists [], w1; split_and!; [done|apply step_refl|by rewrite decide_True]|].
  rewrite (run_bind_Ok _ _ _ _ _ (run_nextTxID w1)). set (tx := u32 _).
  destruct (notice_received v user floorID requestID status (u16 tx) Hv Hc (u16_range _) Hu Hf Hr Hs)
    as (bs & Henc & Hsays).
  destruct (run_sendUDP Hwrite j' r v (notice user floorID requestID status (u16 tx)) bs
    (set_nextTxID (λ _, tx) w1)) as (w2 & H2 & Hs2).
  { exact (comm_udp_peer _ _ _ _ _ _ _ (step_comm _ _ _ _ (nextTxID_step _ w1)) Hp1). }
  { unfold notice in *. by rewrite outgoing_built_plain. }
  exists [(r, bs)], w2. split_and!; [exact H2| |].
  - exact (step_trans _ _ _ _ _ _ _ (nextTxID_step _ w1) Hs2).
  - rewrite decide_False by done. by exists r, v, (u16 tx), bs.
Qed.

#[local] Instance udp_laws : ChannelLaws udp_channel.
Proof.
  split; cbn [ch_peer ch_flag ch_send ch_remote ch_broadcast udp_channel]; intros.
  - by eapply comm_udp_peer.
  - by eapply udp_peer_session.
  - by eapply heard_udp_peer.
  - by eapply heard_udp_other.
  - by apply udp_run_send with v.
  - by eapply run_udp_remote.
  - by apply run_broadcast_udp.
Qed.

#[local] Instance tcp_laws : ChannelLaws tcp_channel.
Proof.
  split; cbn [ch_peer ch_flag ch_send ch_remote ch_broadcast tcp_channel]; intros.
  - by eapply comm_tcp_peer.
  - by eapply tcp_peer_session.
  - by eapply heard_tcp_peer.
  - by eapply heard_tcp_other.
  - by apply tcp_run_send with v.
  - by eapply run_tcp_remote.
  - by apply run_broadcast_tcp.
Qed.
End Instances.
End Channel.
