(* ===== verification/Typed.v ===== *)
(** * What a decoded message holds

    The Go types of what [Decode] and the getters return: every field is in its width,
    down to the numbers that the grouped attributes are parsed into. *)

From S2P Require Import Prelude Types Message Grouped Codec Responses Channel.

(** ** Attributes *)

Record typed_attribute (a : Attribute) : Prop := {
  ty_type : is_u7 (aType a);
  ty_length : aLength a = Z.of_nat (length (aValue a));
  ty_value : all_u8 (aValue a);
  ty_plain : aRawTLV a = false
}.

Definition opt_all {A} (P : A → Prop) (o : option A) : Prop := ∀ a, o = Some a → P a.

Definition is_status (s : Z * Z) : Prop := is_u8 s.1 ∧ is_u8 s.2.

Lemma parseTLVs_loop_u8 data fuel : ∀ attrs offset subs,
  all_u8 data → Forall (λ a, all_u8 (aValue a)) attrs →
  parseTLVs_loop fuel data attrs offset = Ok subs → Forall (λ a, all_u8 (aValue a)) subs.
Proof.
  induction fuel as [|fuel IH]; intros attrs offset subs Hd Ha; cbn [parseTLVs_loop]; [done|].
  destruct (_ <=? _)%nat; [|intros; inv_res; by subst].
  intros H. inv_res. case_match; inv_res. eapply IH; [done| |done].
  apply Forall_app. split; [done|]. apply Forall_singleton. by eapply slice_all_u8.
Qed.

Lemma parseTLVs_u8 data subs :
  all_u8 data → parseTLVs data = Ok subs → Forall (λ a, all_u8 (aValue a)) subs.
Proof. intros Hd. apply parseTLVs_loop_u8; [done|constructor]. Qed.

Lemma first_request_status_u8 subs :
  Forall (λ a, all_u8 (aValue a)) subs → opt_all is_status (first_request_status subs).
Proof.
  induction 1 as [|a subs Ha _ IH]; cbn; [done|].
  destruct (aValue a) as [|s [|q v]]; [done..|]. case_match; [|done].
  intros ? [= <-]. unfold all_u8 in Ha. rewrite !Forall_cons in Ha. by destruct Ha as (?&?&_).
Qed.

Lemma findRequestStatus_u8 data o :
  all_u8 data → findRequestStatus data = Ok o → opt_all is_status o.
Proof.
  intros Hd. unfold findRequestStatus. destruct (parseTLVs data) eqn:Hp; intros; simplify_eq; [|done].
  by eapply first_request_status_u8, parseTLVs_u8.
Qed.

(** ** FLOOR-REQUEST-INFORMATION *)

Definition typed_floor (fl : FloorRequestStatusInfo) : Prop :=
  is_u16 (fsFloorID fl) ∧ is_u8 (fsStatus fl) ∧ is_u8 (fsQueuePosition fl).

Record typed_info (info : FloorRequestInfo) : Prop := {
  ti_request : is_u16 (fiFloorRequestID info);
  ti_overall : is_u8 (fiOverallStatus info);
  ti_queue : is_u8 (fiQueuePosition info);
  ti_floors : Forall typed_floor (fiFloors info);
  ti_beneficiary : is_u16 (fiBeneficiaryID info);
  ti_requested_by : is_u16 (fiRequestedByID info);
  ti_priority : is_u16 (fiPriority info)
}.

Lemma is_u16_0 : is_u16 0. Proof. width. lia. Qed.

Lemma info_step_typed info sub info' :
  all_u8 (aValue sub) → typed_info info → info_step info sub = Ok info' → typed_info info'.
Proof.
  intros Hv Hi. destruct info as [req ov qp ho fls ben hben rb hrb pr hpr].
  destruct Hi; cbn in *. unfold info_step. destruct (_ <? _)%nat; [by intros [= <-]|].
  destruct (_ =? AttrOverallRequestStatus).
  { intros Hres. inv_res. apply slice_all_u8 in H; [|done]. unfold lift_tlv in *.
    destruct (findRequestStatus _) as [o| | |] eqn:Hfind; inv_res; subst.
    apply findRequestStatus_u8 in Hfind; [|done]. destruct x0 as [[st pos]|]; inv_res; subst; [|by split].
    destruct (Hfind _ eq_refl). by split. }
  destruct (_ =? AttrFloorRequestStatus).
  { intros Hres. inv_res. subst info'. apply get16_range in H; [|done].
    apply slice_all_u8 in H0; [|done]. unfold lift_tlv in *.
    destruct (findRequestStatus _) as [o| | |] eqn:Hfind; inv_res; subst.
    apply findRequestStatus_u8 in Hfind; [|done].
    split; try done. apply Forall_app. split; [done|]. apply Forall_singleton.
    destruct x1 as [[st pos]|]; [destruct (Hfind _ eq_refl)|]; split_and!; try done; apply is_u8_0. }
  repeat (destruct (_ =? _); [intros Hres; inv_res; subst info'; apply get16_range in H; [|done]; by split|]).
  by intros [= <-].
Qed.

Lemma info_loop_typed subs : ∀ info info',
  Forall (λ a, all_u8 (aValue a)) subs → typed_info info →
  info_loop info subs = Ok info' → typed_info info'.
Proof.
  induction subs as [|sub subs IH]; intros info info' Hs Hi H; cbn in H; inv_res; [by subst|].
  apply Forall_cons in Hs as [Hv Hs]. eapply IH; [done| |done]. by eapply info_step_typed.
Qed.

Lemma parseFloorRequestInfo_typed value info :
  all_u8 value → parseFloorRequestInfo value = Ok info → typed_info info.
Proof.
  intros Hv. unfold parseFloorRequestInfo. destruct (_ <? _)%nat; [done|]. intros H. inv_res.
  destruct (parseTLVs _) as [subs| | |] eqn:Hp; cbn in *; inv_res. subst.
  apply slice_all_u8 in H0; [|done]. apply get16_range in H; [|done].
  pose proof is_u16_0. pose proof is_u8_0.
  eapply info_loop_typed; [by eapply parseTLVs_u8| |done]. by split.
Qed.

Lemma infos_typed attrs : ∀ infos,
  Forall (λ a, all_u8 (aValue a)) attrs → infos_of_attributes attrs = Ok infos →
  Forall typed_info infos.
Proof.
  induction attrs as [|a attrs IH]; intros infos Ha H; cbn in H; [inv_res; by subst|].
  apply Forall_cons in Ha as [Hv Ha]. destruct (negb _); [by apply IH|].
  destruct (_ && _); [by apply IH|]. inv_res.
  assert (all_u8 x) as Hx by (destruct (aRawTLV a); [by eapply slice_all_u8|inv_res; by subst]).
  destruct (parseFloorRequestInfo x) eqn:Hp; inv_res; [|by apply IH]. subst.
  constructor; [by eapply parseFloorRequestInfo_typed|by apply IH].
Qed.

(** ** Getters *)

Section Getters.
Context (m : Message) (Hattrs : Forall (λ a, all_u8 (aValue a)) (mAttributes m)).
#[local] Set Default Proof Using "Hattrs".

Lemma attr_value2_u8 t v : attr_value2 t m = Some v → all_u8 v.
Proof.
  unfold attr_value2, GetAttribute. intros (a & Ha & Hv)%bind_Some.
  assert (v = aValue a) as -> by (destruct (_ <=? _)%nat; by simplify_eq).
  apply (Forall_forall (λ a, all_u8 (aValue a)) (mAttributes m)); [done|].
  apply head_Some in Ha as [l Hl].
  assert (a ∈ filter (λ a, aType a = t) (mAttributes m)) as Hin by (rewrite Hl; by left).
  by apply list_elem_of_filter in Hin as [_ ?].
Qed.

Lemma m_infos infos : FloorRequestInfos m = Ok infos → Forall typed_info infos.
Proof. by apply infos_typed. Qed.

Lemma head_info {A} (f : FloorRequestInfo → A) (P : A → Prop) infos x :
  (∀ info, typed_info info → P (f info)) → FloorRequestInfos m = Ok infos →
  f <$> head infos = Some x → P x.
Proof.
  intros Hf Hi Hx. apply m_infos in Hi. apply fmap_Some in Hx as (info & Hh & ->). apply Hf.
  rewrite Forall_forall in Hi. by apply Hi, head_Some_elem_of.
Qed.

Lemma GetFloorID_u16 o : GetFloorID m = Ok o → opt_all is_u16 o.
Proof.
  unfold GetFloorID. destruct (attr_value2 _ m) as [v|] eqn:Hv; intros Hres; inv_res; subst.
  - intros ? [= <-]. by eapply get16_range, H; eapply attr_value2_u8.
  - apply m_infos in H. intros f Hf. apply fmap_Some in Hf as (fl & Hfl & ->).
    apply head_Some_elem_of, list_elem_of_bind in Hfl as (info & Hfl & Hin).
    rewrite Forall_forall in H. pose proof (ti_floors _ (H _ Hin)) as Hfs.
    rewrite Forall_forall in Hfs. by apply Hfs.
Qed.

Lemma GetFloorRequestID_u16 o : GetFloorRequestID m = Ok o → opt_all is_u16 o.
Proof.
  unfold GetFloorRequestID. destruct (attr_value2 _ m) as [v|] eqn:Hv; intros Hres; inv_res; subst.
  - intros ? [= <-]. by eapply get16_range, H; eapply attr_value2_u8.
  - intros r Hr. by eapply (head_info fiFloorRequestID is_u16); [intros ? []| |].
Qed.

Lemma GetBeneficiaryID_u16 o : GetBeneficiaryID m = Ok o → opt_all is_u16 o.
Proof.
  unfold GetBeneficiaryID. destruct (attr_value2 _ m) as [v|] eqn:Hv; intros Hres; inv_res; subst; [|done].
  intros ? [= <-]. by eapply get16_range, H; eapply attr_value2_u8.
Qed.

Lemma first_info_status_u8 infos :
  Forall typed_info infos → opt_all is_status (first_info_status infos).
Proof using.
  induction 1 as [|info infos Hi _ IH]; cbn; [done|].
  destruct (FloorRequestInfo_Status info) as [st|] eqn:Hst; [|done]. intros ? [= <-].
  split; [|apply Hi]. unfold FloorRequestInfo_Status in Hst.
  destruct (fiHasOverall info); [simplify_eq; apply Hi|].
  apply fmap_Some in Hst as (fl & Hfl & ->). apply head_Some_elem_of in Hfl.
  apply list_elem_of_filter in Hfl as [_ Hfl]. pose proof (ti_floors _ Hi) as Hfs.
  rewrite Forall_forall in Hfs. by apply Hfs.
Qed.

Lemma GetRequestStatus_u8 o : GetRequestStatus m = Ok o → opt_all is_status o.
Proof.
  unfold GetRequestStatus. destruct (attr_value2 _ m) as [v|] eqn:Hv; intros Hres; inv_res; subst.
  - apply attr_value2_u8 in Hv. intros ? [= <-]. split; by eapply index_u8.
  - by apply first_info_status_u8, m_infos.
Qed.

Lemma GetErrorCode_u8 : opt_all is_u8 (GetErrorCode m).
Proof.
  intros code Hc. unfold GetErrorCode, GetAttribute in Hc. apply bind_Some in Hc as (a & Ha & Hc).
  apply head_Some_elem_of, list_elem_of_filter in Ha as [_ Ha].
  rewrite Forall_forall in Hattrs. pose proof (Hattrs _ Ha) as Hv. unfold all_u8 in Hv.
  rewrite Forall_forall in Hv. by apply Hv, head_Some_elem_of.
Qed.
End Getters.

(** ** Messages *)

Record typed_message (m : Message) : Prop := {
  tm_fields : wf_fields m;
  tm_version : version_ok (mVersion m);
  tm_attributes : Forall typed_attribute (mAttributes m);
  tm_floor : ∃ o, GetFloorID m = Ok o ∧ opt_all is_u16 o;
  tm_request : ∃ o, GetFloorRequestID m = Ok o ∧ opt_all is_u16 o;
  tm_beneficiary : ∃ o, GetBeneficiaryID m = Ok o ∧ opt_all is_u16 o;
  tm_status : ∃ o, GetRequestStatus m = Ok o ∧ opt_all is_status o;
  tm_error : opt_all is_u8 (GetErrorCode m);
  tm_infos : ∃ infos, FloorRequestInfos m = Ok infos ∧ Forall typed_info infos
}.

Lemma tlv_run_typed s xs :
  tlv_run s xs → Forall (λ x, all_u8 x.2) xs → Forall typed_attribute (tlv_parsed <$> xs).
Proof.
  induction 1; intros Hv; [constructor|]. apply Forall_cons in Hv as [Hv Hvs]. cbn in *.
  constructor; [by split|by apply IHtlv_run].
Qed.

Lemma typed_attributes_u8 m :
  Forall typed_attribute (mAttributes m) → Forall (λ a, all_u8 (aValue a)) (mAttributes m).
Proof. intros H. eapply Forall_impl; [exact H|]. by intros ? []. Qed.

Lemma decoded data m : all_u8 data → Decode data = Ok m → typed_message m.
Proof.
  intros Hd Hm. destruct (Decode_sound data m Hd Hm) as (xs & s & rest & _ & [Hf Hv] & Hrun & _ & Hat & Hxs).
  pose proof (tlv_run_typed _ _ Hrun Hxs) as Ha. rewrite <- Hat in Ha.
  pose proof (typed_attributes_u8 m Ha) as Hu.
  destruct (GetFloorID_Ok m) as [o1 H1], (GetFloorRequestID_Ok m) as [o2 H2],
    (GetBeneficiaryID_Ok m) as [o3 H3], (GetRequestStatus_Ok m) as [o4 H4],
    (FloorRequestInfos_Ok m) as [infos H5].
  split; try done.
  - exists o1. split; [done|]. by eapply GetFloorID_u16.
  - exists o2. split; [done|]. by eapply GetFloorRequestID_u16.
  - exists o3. split; [done|]. by eapply GetBeneficiaryID_u16.
  - exists o4. split; [done|]. by eapply GetRequestStatus_u8.
  - by apply GetErrorCode_u8.
  - exists infos. split; [done|]. by eapply m_infos.
Qed.

(** The messages the server's handlers are proved for are those that [Decode] returns. *)
Lemma typed_request m : typed_message m → wf_request m.
Proof.
  intros [[] ? _ (o1 & H1 & T1) (o2 & H2 & T2) _ _ _ _]. split; [done|done|..].
  - intros f. rewrite H1. intros [= ->]. by apply T1.
  - intros r. rewrite H2. intros [= ->]. by apply T2.
Qed.
