(* ===== verification/Service.v ===== *)
(** * The floor service

    What a client gets from the server: [serve_request] and [serve_release] say how
    the lock of a floor ([FloorFSM.v]) and the client's request determine the answer
    and the next lock; the theorems show that the handlers, run alone, send exactly
    that answer, move exactly that lock and run exactly those callbacks, when the
    socket writes succeed. *)

From S2P Require Import Prelude Types Message Grouped Codec FloorFSM Session Prog World Transport UDPClient Server Interleave Responses ServerSafe ServerRun FloorLocks Channel.

(** ** The specification *)

(** [decision]: what the server or its callback decides. *)
Definition serve_request (decision : bool) (floorID user requestID : Z) (l : Lock.lock)
    : answer * Lock.lock :=
  match l with
  | Lock.Free =>
      if decision then (Status floorID requestID RequestStatusGranted, Lock.Held user requestID)
      else (Status floorID requestID RequestStatusDenied, Lock.Blocked)
  | _ => (Refusal ErrorUnauthorizedOperation (floor_error_text (refusal floorID l)), l)
  end.

Definition serve_release (floorID user requestID : Z) (l : Lock.lock) : answer * Lock.lock :=
  if decide (user = 0 ∨ user = Lock.user l) then
    (Status floorID requestID RequestStatusReleased, Lock.Free)
  else (Refusal ErrorFloorReleaseDenied (floor_error_text (NotOwner user floorID (Lock.user l))), l).


(** The id the next request gets. *)
Definition next_request_id (w : World) : Z := u16 (u32 (w_nextTxID w + 1)).

Lemma refusal_fits floorID l :
  is_u16 floorID → is_u16 (Lock.user l) →
  (String.length (floor_error_text (refusal floorID l)) <= max_value_len)%nat.
Proof.
  intros Hf Hu. apply floor_error_text_fits. destruct l; [done..|].
  apply (bool_decide_unpack _). exact I.
Qed.


(** ** Answering over a channel *)

Section Answer.
Context {env : Env} (ch : channel) {laws : ChannelLaws ch}.
#[local] Set Default Proof Using "laws".

(** The response of a message, as the handlers make it. *)
Definition fresh (primitive : Z) (req : Message) : Message :=
  let m := NewMessage primitive (mConferenceID req) (mTransactionID req) (mUserID req) in
  if ch_flag ch then SetResponse true m else m.

(** Over UDP the R flag is sent in version 2 only, over TCP never. *)
Definition response_flag (msg : Message) : bool :=
  ch_flag ch && (mVersion msg =? ProtocolVersionRFC8855).

Definition status_over (sess : nat) (req : Message) (floorID requestID status : Z) : prog () :=
  ch_send ch sess (AddFloorRequestInformationRFC4582 requestID status floorID
                     (fresh PrimitiveFloorRequestStatus req)).

Definition error_over (sess : nat) (req : Message) (errorCode : Z) (errorInfo : string) : prog () :=
  ch_send ch sess (add_error errorCode errorInfo (fresh PrimitiveError req)) ;;
  ch_remote ch sess ;; mret tt.

Lemma fresh_built primitive msg :
  fresh primitive msg = built ProtocolVersionRFC4582 (ch_flag ch) primitive (mConferenceID msg)
                          (mTransactionID msg) (mUserID msg) [].
Proof using. unfold fresh. by destruct (ch_flag ch). Qed.

Lemma run_status i r msg floorID requestID status w :
  ch_peer ch w i r (mVersion msg) → wf_request msg → is_u16 floorID → is_u16 requestID →
  is_u8 status →
  sends (status_over i msg floorID requestID status) w r
    (λ bs, answers bs msg (response_flag msg) (Status floorID requestID status)).
Proof.
  intros Hp [Hv Hi _ _] Hf Hr Hs. unfold status_over. rewrite fresh_built.
  destruct (status_received (mVersion msg) (response_flag msg) PrimitiveFloorRequestStatus _ _ _
    floorID requestID status Hv ltac:(apply (bool_decide_unpack _); exact I) Hi Hf Hr Hs)
    as (bs & Henc & Hsays).
  edestruct ch_run_send as (w' & Hrun & Hst); [exact Hp|exact Hv| |exact Henc|by exists bs, w'].
  done.
Qed.

Lemma run_error i r msg code info w :
  ch_peer ch w i r (mVersion msg) → wf_request msg → is_u8 code → info ≠ "" →
  (String.length info <= max_value_len)%nat →
  sends (error_over i msg code info) w r
    (λ bs, answers bs msg (response_flag msg) (Refusal code info)).
Proof.
  intros Hp [Hv Hi _ _] Hc Hne Hlen. unfold error_over. rewrite fresh_built, add_error_built by done.
  destruct (error_received (mVersion msg) (response_flag msg) _ _ _ code info Hv Hi Hc Hlen)
    as (bs & Henc & Hsays).
  edestruct ch_run_send as (w' & Hrun & Hst); [exact Hp|exact Hv| |exact Henc|]; [done|].
  exists bs, w'. split; [|done]. rewrite (run_bind_Ok _ _ _ _ _ Hrun).
  by rewrite (run_bind_Ok _ _ _ _ _ (ch_run_remote _ _ _ _ (ch_comm _ _ _ _ _ _ _ (step_comm _ _ _ _ Hst) Hp))).
Qed.

(** Answer, session state, callback: the end of most handlers. *)
Lemma run_finish i r msg floorID requestID status st b e w :
  ch_peer ch w i r (mVersion msg) → wf_request msg → is_u16 floorID → is_u16 requestID →
  is_u8 status → calls [e] = [e] → packets [e] = [] →
  ∃ bs w', run (status_over i msg floorID requestID status ;;
                session_SetState i st ;; when b (emit e)) w = Ok (tt, w') ∧
    step w w' [(r, bs)] (if b then [e] else []) ∧
    answers bs msg (response_flag msg) (Status floorID requestID status).
Proof.
  intros Hp Hm Hf Hr Hs He1 He2.
  destruct (run_status i r msg floorID requestID status w Hp Hm Hf Hr Hs) as (bs & w1 & H1 & Hs1 & Ha).
  rewrite (run_bind_Ok _ _ _ _ _ H1).
  destruct (run_session_SetState i st w1) as (w2 & H2 & Hs2);
    [by eapply ch_session, ch_comm; [apply Hs1|]|]. rewrite (run_bind_Ok _ _ _ _ _ H2).
  destruct (run_callback b e w2 He1 He2) as (w3 & H3 & Hs3).
  exists bs, w3. split_and!; [done| |done].
  exact (step_trans _ _ _ _ _ _ _ (step_trans _ _ _ _ _ _ _ Hs1 Hs2) Hs3).
Qed.

(** A refused request: the error, then the callback. *)
Lemma run_refuse i r msg floorID lk b e w :
  ch_peer ch w i r (mVersion msg) → wf_request msg → is_u16 floorID → is_u16 (Lock.user lk) →
  calls [e] = [e] → packets [e] = [] →
  let err := floor_error_text (refusal floorID lk) in
  ∃ bs w', run (error_over i msg ErrorUnauthorizedOperation err ;; when b (emit e)) w = Ok (tt, w') ∧
    step w w' [(r, bs)] (if b then [e] else []) ∧
    answers bs msg (response_flag msg) (Refusal ErrorUnauthorizedOperation err).
Proof.
  intros Hp Hm Hf Hu He1 He2 err.
  destruct (run_error i r msg ErrorUnauthorizedOperation err w Hp Hm)
    as (bs & w1 & H1 & Hs1 & Ha); [done|by destruct lk|by apply refusal_fits|].
  rewrite (run_bind_Ok _ _ _ _ _ H1).
  destruct (run_callback b e w1 He1 He2) as (w2 & H2 & Hs2).
  exists bs, w2. split_and!; [done| |done]. exact (step_trans _ _ _ _ _ _ _ Hs1 Hs2).
Qed.
End Answer.

(** ** Requests *)

Section Requests.
Context {env : Env}.

(** What the server decides on a request. *)
Definition decides (floorID user requestID : Z) : bool :=
  match OnFloorRequest hooks with
  | Some d => d floorID user requestID
  | None => AutoGrant config
  end.

(** The callbacks of a request: the application is asked, then told. *)
Definition request_calls (decision : bool) (floorID user requestID : Z) (l : Lock.lock)
    : list event :=
  (match OnFloorRequest hooks with Some _ => [AskedFloorRequest floorID user requestID]
                                 | None => [] end) ++
  match l, decision with
  | Lock.Free, true => if OnFloorGranted hooks then [FloorGranted floorID user requestID] else []
  | _, _ => if OnFloorDenied hooks then [FloorDenied floorID user requestID] else []
  end.

(** The start of both request handlers: the floor is found or made, the request
    gets its id, and the decision is taken. *)
Lemma run_admit floorID user w :
  floors_ok w → is_u16 floorID →
  ∃ l tx w1 w2 w3, run (request_floor floorID) w = Ok (l, w1) ∧
    run nextTxID_Add w1 = Ok (tx, w2) ∧ u16 tx = next_request_id w ∧
    run (ask_grant floorID user (next_request_id w)) w2 =
      Ok (decides floorID user (next_request_id w), w3) ∧
    comm w w3 [] (match OnFloorRequest hooks with
                  | Some _ => [AskedFloorRequest floorID user (next_request_id w)]
                  | None => [] end) ∧
    located w3 floorID l (lock_at w floorID) ∧ others_stay w w3 floorID.
Proof.
  intros Hok Hf. destruct (run_request_floor floorID w Hok Hf)
    as (l & f & w1 & Hrun & Hl & Hfl & Hlk & Hok1 & Hc & Htx & Ho).
  set (w2 := set_nextTxID (λ _, u32 (w_nextTxID w1 + 1)) w1).
  pose proof (nextTxID_step (λ _, u32 (w_nextTxID w1 + 1)) w1) as Hs2. fold w2 in Hs2.
  destruct (run_ask_grant floorID user (next_request_id w) w2) as (w3 & Hask & Hs3 & _).
  pose proof (step_trans _ _ _ _ _ _ _ Hs2 Hs3) as Hs.
  exists l, (u32 (w_nextTxID w1 + 1)), w1, w2, w3. split_and!.
  - done.
  - apply run_nextTxID.
  - by rewrite Htx.
  - done.
  - exact (comm_trans _ _ _ _ _ _ _ Hc (step_comm _ _ _ _ Hs)).
  - rewrite <- Hlk. eapply located_step; [exact Hs|]. by apply locate.
  - eapply others_trans; [exact Ho|]. by eapply step_others.
Qed.

Lemma next_request_id_u16 w : is_u16 (next_request_id w).
Proof. apply u16_range. Qed.
End Requests.
#[export] Hint Resolve next_request_id_u16 : bfcp.

(** The outcome of serving [msg]: what was sent, the lock of the floor, the
    callbacks; other floors stay as they were. *)
Record served (w w' : World) (floorID : Z) (l' : Lock.lock) (pk : list (string * bytes))
    (cb : list event) : Prop := {
  sv_packets : packets (w_trace w') = packets (w_trace w) ++ pk;
  sv_calls : calls (w_trace w') = calls (w_trace w) ++ cb;
  sv_sessions : w_sessions w' = w_sessions w;
  sv_lock : lock_at w' floorID = l';
  sv_others : others_stay w w' floorID;
  sv_floors : floors_ok w'
}.

Lemma served_heard w w1 w' i v floorID l' pk cb :
  heard w w1 i v → served w1 w' floorID l' pk cb → served w w' floorID l' pk cb.
Proof.
  intros Hh []. split; try done.
  - by rewrite <- (hr_packets _ _ _ _ Hh).
  - by rewrite <- (hr_calls _ _ _ _ Hh).
  - by rewrite <- (hr_sessions _ _ _ _ Hh).
  - intros id Hne. rewrite <- (heard_floor_of _ _ _ _ id Hh). by apply sv_others0.
Qed.

Lemma served_of w w' floorID l lk pk cb :
  comm w w' pk cb → located w' floorID l lk → others_stay w w' floorID →
  served w w' floorID lk pk cb.
Proof. intros [] Hl Ho. split; try done; [by eapply located_lock|apply Hl]. Qed.

Lemma served_then w w1 w2 floorID l lk pk1 pk2 cb1 cb2 :
  comm w w1 pk1 cb1 → located w1 floorID l lk → others_stay w w1 floorID → step w1 w2 pk2 cb2 →
  served w w2 floorID lk (pk1 ++ pk2) (cb1 ++ cb2).
Proof.
  intros Hc Hl Ho Hs. apply served_of with l.
  - exact (comm_trans _ _ _ _ _ _ _ Hc (step_comm _ _ _ _ Hs)).
  - by eapply located_step.
  - eapply others_trans; [exact Ho|]. by eapply step_others.
Qed.

Lemma heard_floors_ok w w' i v : heard w w' i v → floors_ok w → floors_ok w'.
Proof. intros H. apply same_floors_ok; apply H. Qed.
Lemma heard_lock_at w w' i v id : heard w w' i v → lock_at w' id = lock_at w id.
Proof. intros H. unfold lock_at. by rewrite (heard_floor_of _ _ _ _ id H). Qed.
Lemma heard_request_id w w' i v : heard w w' i v → next_request_id w' = next_request_id w.
Proof. intros H. unfold next_request_id. by rewrite (hr_tx _ _ _ _ H). Qed.

Section RequestTheorems.
Context {env : Env} (Hwrite : ∀ t, write_ok t = true).
#[local] Set Default Proof Using "Hwrite".
#[local] Instance udp_ok : ChannelLaws udp_channel := udp_laws Hwrite.
#[local] Instance tcp_ok : ChannelLaws tcp_channel := tcp_laws Hwrite.

Lemma run_handleUDPFloorRequest i r msg floorID w :
  udp_peer w i r (mVersion msg) → wf_request msg → floors_ok w →
  GetFloorID msg = Ok (Some floorID) →
  let requestID := next_request_id w in
  let decision := decides floorID (mUserID msg) requestID in
  let spec := serve_request decision floorID (mUserID msg) requestID (lock_at w floorID) in
  ∃ bs w', run (handleUDPFloorRequest i msg) w = Ok (tt, w') ∧
    answers bs msg (response_flag udp_channel msg) spec.1 ∧
    served w w' floorID spec.2 [(r, bs)]
      (request_calls decision floorID (mUserID msg) requestID (lock_at w floorID)).
Proof.
  intros Hp Hm Hok Hfid requestID decision spec. pose proof (rq_floor _ Hm _ Hfid) as Hf.
  unfold handleUDPFloorRequest. rewrite (run_bind_Ok _ _ _ _ _ (run_lift _ _ w Hfid)).
  destruct (run_admit floorID (mUserID msg) w Hok Hf)
    as (l & tx & w1 & w2 & w3 & H1 & H2 & Htx & H3 & Hc3 & Hl3 & Ho3). cbn beta iota zeta.
  rewrite (run_bind_Ok _ _ _ _ _ H1), (run_bind_Ok _ _ _ _ _ H2), Htx, (run_bind_Ok _ _ _ _ _ H3).
  fold requestID in Hc3 |- *. fold decision. set (lk := lock_at w floorID) in *.
  assert (is_u16 requestID) as Hr by apply next_request_id_u16.
  pose proof (located_user_u16 _ _ _ _ Hl3) as Hlu. 
  destruct (run_Request_lock w3 floorID l lk _ requestID (request_priority msg) Hl3
    ltac:(apply Hm) Hr) as (res & w4 & H4 & Hc4 & Ho4 & Hres). rewrite (run_bind_Ok _ _ _ _ _ H4).
  pose proof (comm_then _ _ _ _ _ Hc3 Hc4) as Hc.
  pose proof (others_trans _ _ _ _ Ho3 Ho4) as Ho.
  pose proof (comm_udp_peer _ _ _ _ _ _ _ Hc Hp) as Hp4. subst spec. unfold request_calls.
  destruct (decide (lk = Lock.Free)) as [Hlk|Hlk]; [rewrite Hlk in *; destruct Hres as [-> Hl]|].
  - destruct decision; cbn [andb negb].
    + destruct (run_Grant_waiting w4 floorID l _ _ Hl) as (w5 & H5 & Hc5 & Hl5 & Ho5).
      destruct (run_finish udp_channel i r msg floorID requestID RequestStatusGranted StateFloorGranted
        (OnFloorGranted hooks) (FloorGranted floorID (mUserID msg) requestID) w5)
        as (bs & w' & H6 & Hs & Ha); [by eapply comm_udp_peer|done..|].
      exists bs, w'. rewrite Z.eqb_refl, run_bind, (run_bind_Ok _ _ _ _ _ H5).
      split_and!; [exact H6|exact Ha|].
      eapply (served_then _ _ _ _ _ _ []); [by eapply comm_then|done|by eapply others_trans|done].
    + destruct (run_Deny_waiting w4 floorID l _ _ Hl) as (w5 & H5 & Hc5 & Hl5 & Ho5).
      destruct (run_finish udp_channel i r msg floorID requestID RequestStatusDenied StateFloorDenied
        (OnFloorDenied hooks) (FloorDenied floorID (mUserID msg) requestID) w5)
        as (bs & w' & H6 & Hs & Ha); [by eapply comm_udp_peer|done..|].
      exists bs, w'. erewrite run_bind_Ok by done. cbn iota.
      rewrite Z.eqb_refl, run_bind, (run_bind_Ok _ _ _ _ _ H5).
      split_and!; [exact H6|exact Ha|].
      eapply (served_then _ _ _ _ _ _ []); [by eapply comm_then|done|by eapply others_trans|done].
  - destruct (run_refuse udp_channel i r msg floorID lk (OnFloorDenied hooks)
      (FloorDenied floorID (mUserID msg) requestID) w4 Hp4 Hm Hf Hlu) as (bs & w' & H6 & Hs & Ha); [done..|].
    exists bs, w'. destruct lk; [done|..]; destruct Hres as [-> Hl];
      (split_and!; [exact H6|exact Ha|by eapply (served_then _ _ _ _ _ _ [])]).
Qed.

(** Over TCP an accepted request is answered twice: pending first, then decided. *)
Definition pending_first (msg : Message) (r : string) (floorID requestID : Z) (l : Lock.lock)
    (pk : list (string * bytes)) : Prop :=
  if decide (l = Lock.Free) then
    ∃ bs, pk = [(r, bs)] ∧ answers bs msg false (Status floorID requestID RequestStatusPending)
  else pk = [].

Lemma run_handleFloorRequest i r msg floorID w :
  tcp_peer w i r (mVersion msg) → wf_request msg → floors_ok w →
  GetFloorID msg = Ok (Some floorID) →
  let requestID := next_request_id w in
  let decision := decides floorID (mUserID msg) requestID in
  let spec := serve_request decision floorID (mUserID msg) requestID (lock_at w floorID) in
  ∃ pk bs w', run (handleFloorRequest i msg) w = Ok (tt, w') ∧
    pending_first msg r floorID requestID (lock_at w floorID) pk ∧
    answers bs msg false spec.1 ∧
    served w w' floorID spec.2 (pk ++ [(r, bs)])
      (request_calls decision floorID (mUserID msg) requestID (lock_at w floorID)).
Proof.
  intros Hp Hm Hok Hfid requestID decision spec. pose proof (rq_floor _ Hm _ Hfid) as Hf.
  unfold handleFloorRequest. rewrite (run_bind_Ok _ _ _ _ _ (run_lift _ _ w Hfid)).
  destruct (run_admit floorID (mUserID msg) w Hok Hf)
    as (l & tx & w1 & w2 & w3 & H1 & H2 & Htx & H3 & Hc3 & Hl3 & Ho3). cbn beta iota zeta.
  rewrite (run_bind_Ok _ _ _ _ _ H1), (run_bind_Ok _ _ _ _ _ H2), Htx, (run_bind_Ok _ _ _ _ _ H3).
  fold requestID in Hc3 |- *. fold decision. set (lk := lock_at w floorID) in *.
  assert (is_u16 requestID) as Hr by apply next_request_id_u16.
  pose proof (located_user_u16 _ _ _ _ Hl3) as Hlu.
  destruct (run_Request_lock w3 floorID l lk _ requestID (request_priority msg) Hl3
    ltac:(apply Hm) Hr) as (res & w4 & H4 & Hc4 & Ho4 & Hres). rewrite (run_bind_Ok _ _ _ _ _ H4).
  pose proof (comm_then _ _ _ _ _ Hc3 Hc4) as Hc.
  pose proof (others_trans _ _ _ _ Ho3 Ho4) as Ho.
  pose proof (comm_tcp_peer _ _ _ _ _ _ _ Hc Hp) as Hp4. subst spec. unfold request_calls, pending_first.
  destruct (decide (lk = Lock.Free)) as [Hlk|Hlk]; [rewrite Hlk in *; destruct Hres as [-> Hl]|].
  - destruct (run_status tcp_channel i r msg floorID requestID RequestStatusPending w4)
      as (bs0 & w5 & H5 & Hs5 & Ha0); [done..|]. rewrite (run_bind_Ok _ _ _ _ _ H5).
    pose proof (located_step _ _ _ _ _ _ _ Hs5 Hl) as Hl5.
    pose proof (comm_tcp_peer _ _ _ _ _ _ _ (step_comm _ _ _ _ Hs5) Hp4) as Hp5.
    pose proof (comm_trans _ _ _ _ _ _ _ Hc (step_comm _ _ _ _ Hs5)) as Hc5.
    pose proof (others_trans _ _ _ _ Ho (step_others _ _ _ _ floorID Hs5)) as Ho5.
    rewrite app_nil_r in Hc5. destruct decision; rewrite Z.eqb_refl; cbn [andb negb].
    + rewrite (run_bind_Ok sleep _ _ _ _ (run_gets _ w5)).
      destruct (run_Grant_waiting w5 floorID l _ _ Hl5) as (w6 & H6 & Hc6 & Hl6 & Ho6).
      destruct (run_finish tcp_channel i r msg floorID requestID RequestStatusGranted StateFloorGranted
        (OnFloorGranted hooks) (FloorGranted floorID (mUserID msg) requestID) w6)
        as (bs & w' & H7 & Hs & Ha); [by eapply comm_tcp_peer|done..|].
      exists [(r, bs0)], bs, w'. rewrite (run_bind_Ok _ _ _ _ _ H6).
      split_and!; [exact H7|by eexists|exact Ha|].
      eapply served_then; [by eapply comm_then|done|eapply others_trans; done|done].
    + destruct (run_Deny_waiting w5 floorID l _ _ Hl5) as (w6 & H6 & Hc6 & Hl6 & Ho6).
      destruct (run_finish tcp_channel i r msg floorID requestID RequestStatusDenied StateFloorDenied
        (OnFloorDenied hooks) (FloorDenied floorID (mUserID msg) requestID) w6)
        as (bs & w' & H7 & Hs & Ha); [by eapply comm_tcp_peer|done..|].
      exists [(r, bs0)], bs, w'. rewrite (run_bind_Ok _ _ _ _ _ H6).
      split_and!; [exact H7|by eexists|exact Ha|].
      eapply served_then; [by eapply comm_then|done|eapply others_trans; done|done].
  - destruct (run_refuse tcp_channel i r msg floorID lk (OnFloorDenied hooks)
      (FloorDenied floorID (mUserID msg) requestID) w4 Hp4 Hm Hf Hlu) as (bs & w' & H6 & Hs & Ha); [done..|].
    exists [], bs, w'. destruct lk; [done|..]; destruct Hres as [-> Hl];
      (split_and!; [exact H6|done|exact Ha|by eapply served_then]).
Qed.
End RequestTheorems.

(** ** Releases *)

Section Releases.
Context {env : Env}.

(** What a release does to the floor it names: the answer [a] to the session [i] at
    [r], and when the floor was freed a notice to every other session. *)
Definition release_served (peer : World → nat → string → Z → Prop) (response : bool)
    (w w' : World) (i : nat) (r : string) (msg : Message) (t : release_target) : Prop :=
  match t with
  | ReleaseError code info =>
      ∃ bs, answers bs msg response (Refusal code info) ∧
        packets (w_trace w') = packets (w_trace w) ++ [(r, bs)] ∧
        calls (w_trace w') = calls (w_trace w) ∧ ∀ id, floor_of w' id = floor_of w id
  | ReleaseOf l id =>
      ∃ rid bs pk, GetFloorRequestID msg = Ok rid ∧
        let user := mUserID msg in
        let spec := serve_release id user (default 0 rid) (lock_at w id) in
        answers bs msg response spec.1 ∧
        if decide (user = 0 ∨ user = Lock.user (lock_at w id)) then
          served w w' id spec.2 ((r, bs) :: pk)
            (if OnFloorReleased hooks then [FloorReleased id user] else []) ∧
          broadcasted peer w' (Some i) user id (default 0 rid) RequestStatusReleased pk
        else served w w' id spec.2 [(r, bs)] []
  end.

Lemma refused_served peer response w w' i r msg code info bs :
  step w w' [(r, bs)] [] → answers bs msg response (Refusal code info) →
  release_served peer response w w' i r msg (ReleaseError code info).
Proof.
  intros Hs Ha. exists bs. split_and!; [done|by apply Hs| |].
  - rewrite (comm_calls _ _ _ _ (step_comm _ _ _ _ Hs)). apply app_nil_r.
  - intros id. by eapply step_floor_of.
Qed.

Lemma release_target_located w msg l id :
  floors_ok w → release_target_spec w msg (ReleaseOf l id) →
  located w id l (lock_at w id) ∧ is_u16 id.
Proof.
  intros Hok (f & Hl & _). split; [by apply locate|].
  destruct (Hok id l Hl) as (f' & _ & Hfo). by eapply fo_u16.
Qed.

Lemma floor_missing_fits id :
  is_u16 id → floor_missing id ≠ "" ∧ (String.length (floor_missing id) <= max_value_len)%nat.
Proof.
  intros Hid%length_pretty_u16. split; [done|]. unfold floor_missing, max_value_len.
  rewrite !string_length_app. cbn -[pretty]. lia.
Qed.

Lemma request_missing_fits rid :
  is_u16 rid → let info := "FloorRequestID " +:+ pretty rid +:+ " does not exist" in
  info ≠ "" ∧ (String.length info <= max_value_len)%nat.
Proof.
  intros Hid%length_pretty_u16. split; [done|]. unfold max_value_len.
  rewrite !string_length_app. cbn -[pretty]. lia.
Qed.

Lemma release_error_fits w msg code info :
  wf_request msg → release_target_spec w msg (ReleaseError code info) →
  is_u8 code ∧ info ≠ "" ∧ (String.length info <= max_value_len)%nat.
Proof.
  intros Hm [(id & Hf & _ & -> & ->)|[(_ & _ & -> & ->)|(rid & _ & Hr & _ & -> & ->)]].
  - split; [done|]. apply floor_missing_fits. by eapply rq_floor.
  - split; [done|]. split; [done|]. unfold max_value_len. cbn. lia.
  - split; [done|]. apply request_missing_fits. by eapply rq_request.
Qed.

(** What stays of a broadcast when the world moves on. *)
Lemma broadcasted_comm (peer : World → nat → string → Z → Prop) w w' pk0 cb0 except u f r st pk :
  (∀ j r v, peer w j r v → peer w' j r v) → comm w w' pk0 cb0 →
  broadcasted peer w except u f r st pk → broadcasted peer w' except u f r st pk.
Proof.
  intros Hp Hc (js & pks & Hjs & -> & HR). exists js, pks.
  rewrite (comm_sessions _ _ _ _ Hc). split_and!; [done|done|].
  eapply Forall2_impl; [exact HR|]. intros j pk. cbv beta. case_decide; [done|].
  intros (r' & v & tx & bs & -> & Hpe & Hs). exists r', v, tx, bs. auto.
Qed.

Lemma all_peers_comm (peer : World → nat → string → Z → Prop) w w' pk cb :
  (∀ j r v, peer w j r v → peer w' j r v) → comm w w' pk cb → all_peers peer w → all_peers peer w'.
Proof.
  intros Hp Hc Ha k j. rewrite (comm_sessions _ _ _ _ Hc). intros (r & v & ? & ?)%Ha.
  exists r, v. auto.
Qed.

End Releases.

Section ReleaseRuns.
Context {env : Env} (Hconf : is_u32 (cConferenceID config)).
Context (ch : channel) {laws : ChannelLaws ch}.
#[local] Set Default Proof Using "laws Hconf".

Lemma default_request_u16 msg rid :
  wf_request msg → GetFloorRequestID msg = Ok rid → is_u16 (default 0 rid).
Proof using. intros Hm Hr. destruct rid; [by eapply rq_request|done]. Qed.

Lemma not_owner_fits u id o :
  is_u16 u → is_u16 id → is_u16 o →
  floor_error_text (NotOwner u id o) ≠ "" ∧
  (String.length (floor_error_text (NotOwner u id o)) <= max_value_len)%nat.
Proof using. intros. split; [done|]. by apply floor_error_text_fits. Qed.

Lemma all_ch_comm w w' pk cb :
  comm w w' pk cb → all_peers (ch_peer ch) w → all_peers (ch_peer ch) w'.
Proof using laws. intros Hc. eapply all_peers_comm; [|exact Hc]. intros ???. by eapply ch_comm. Qed.
Lemma broadcasted_ch_comm w w' pk0 cb0 except u f r st pk : comm w w' pk0 cb0 →
  broadcasted (ch_peer ch) w except u f r st pk → broadcasted (ch_peer ch) w' except u f r st pk.
Proof using laws. intros Hc. eapply broadcasted_comm; [|exact Hc]. intros ???. by eapply ch_comm. Qed.

(** The release handlers, which are the same code over the two channels. *)
Definition release_over (sess : nat) (msg : Message) : prog () :=
  target ← release_lookup msg;
  match target with
  | ReleaseError code info => error_over ch sess msg code info
  | ReleaseOf floor floorID =>
      rid ← lift (GetFloorRequestID msg);
      let requestID := default 0 rid in
      err ← floor_Release floor (mUserID msg);
      match err with
      | Some e => error_over ch sess msg ErrorFloorReleaseDenied (floor_error_text e)
      | None =>
          status_over ch sess msg floorID requestID RequestStatusReleased ;;
          session_SetState sess StateFloorReleased ;;
          when (OnFloorReleased hooks) (emit (FloorReleased floorID (mUserID msg))) ;;
          ch_broadcast ch (Some sess) (mUserID msg) floorID requestID RequestStatusReleased
      end
  end.

Lemma run_freed i r msg id rid w :
  ch_peer ch w i r (mVersion msg) → wf_request msg → all_peers (ch_peer ch) w → is_u16 id → is_u16 rid →
  ∃ bs pk w', run
      (status_over ch i msg id rid RequestStatusReleased ;;
       session_SetState i StateFloorReleased ;;
       when (OnFloorReleased hooks) (emit (FloorReleased id (mUserID msg))) ;;
       ch_broadcast ch (Some i) (mUserID msg) id rid RequestStatusReleased) w = Ok (tt, w') ∧
    step w w' ((r, bs) :: pk)
      (if OnFloorReleased hooks then [FloorReleased id (mUserID msg)] else []) ∧
    answers bs msg (response_flag ch msg) (Status id rid RequestStatusReleased) ∧
    broadcasted (ch_peer ch) w' (Some i) (mUserID msg) id rid RequestStatusReleased pk.
Proof.
  intros Hp Hm Hpeers Hid Hrid. pose proof (rq_ids _ Hm) as (_ & _ & Hu).
  destruct (run_status ch i r msg id rid RequestStatusReleased w) as (bs & w1 & H1 & Hs1 & Ha);
    [done..|]. rewrite (run_bind_Ok _ _ _ _ _ H1).
  destruct (run_session_SetState i StateFloorReleased w1) as (w2 & H2 & Hs2);
    [by eapply ch_session, ch_comm; [apply Hs1|]|]. rewrite (run_bind_Ok _ _ _ _ _ H2).
  destruct (run_callback (OnFloorReleased hooks) (FloorReleased id (mUserID msg)) w2)
    as (w3 & H3 & Hs3); [done..|]. rewrite (run_bind_Ok _ _ _ _ _ H3).
  pose proof (step_trans _ _ _ _ _ _ _ (step_trans _ _ _ _ _ _ _ Hs1 Hs2) Hs3) as Hs. cbn [app] in Hs.
  destruct (ch_run_broadcast (Some i) (mUserID msg) id rid RequestStatusReleased w3)
    as (pk & w4 & H4 & Hs4 & Hb); [|done..|].
  { by eapply all_ch_comm; [apply Hs|]. }
  exists bs, pk, w4. split_and!; [done| |done|].
  - pose proof (step_trans _ _ _ _ _ _ _ Hs Hs4) as Hs'. by rewrite app_nil_r in Hs'.
  - by eapply broadcasted_ch_comm; [apply Hs4|].
Qed.

Lemma run_release i r msg w :
  ch_peer ch w i r (mVersion msg) → wf_request msg → floors_ok w → all_peers (ch_peer ch) w →
  ∃ t w', run (release_over i msg) w = Ok (tt, w') ∧ release_target_spec w msg t ∧
    release_served (ch_peer ch) (response_flag ch msg) w w' i r msg t ∧ floors_ok w'.
Proof.
  intros Hp Hm Hok Hpeers. unfold release_over.
  destruct (run_release_lookup msg w Hok) as (t & w1 & H1 & Hs1 & Ht). exists t.
  rewrite (run_bind_Ok _ _ _ _ _ H1).
  pose proof (ch_comm _ _ _ _ _ _ _ (step_comm _ _ _ _ Hs1) Hp) as Hp1.
  destruct t as [l id|code info].
  2: { destruct (release_error_fits w msg code info Hm Ht) as (? & ? & ?).
       destruct (run_error ch i r msg code info w1) as (bs & w2 & H2' & Hs2 & Ha); [done..|].
       pose proof (step_trans _ _ _ _ _ _ _ Hs1 Hs2) as Hs. exists w2.
       split_and!; [done|done|by eapply refused_served|by eapply step_floors_ok]. }
  destruct (GetFloorRequestID_Ok msg) as [rid Hrid].
  rewrite (run_bind_Ok _ _ _ _ _ (run_lift _ _ w1 Hrid)). cbv zeta.
  pose proof (default_request_u16 msg rid Hm Hrid) as Hr.
  destruct (release_target_located w msg l id Hok Ht) as [Hl Hid].
  pose proof (located_step _ _ _ _ _ _ _ Hs1 Hl) as Hl1.
  pose proof (located_user_u16 _ _ _ _ Hl1) as Hlu.
  destruct (run_Release_lock w1 id l _ (mUserID msg) Hl1) as (res & w2 & H2 & Hc2 & Ho2 & Hres).
  rewrite (run_bind_Ok _ _ _ _ _ H2).
  pose proof (ch_comm _ _ _ _ _ _ _ Hc2 Hp1) as Hp2.
  pose proof (comm_trans _ _ _ _ _ _ _ (step_comm _ _ _ _ Hs1) Hc2) as Hc.
  pose proof (others_trans _ _ _ _ (step_others _ _ _ _ id Hs1) Ho2) as Ho.
  unfold release_served, serve_release. unfold released in Hres. case_decide as Hd; destruct Hres as [-> Hl2].
  - destruct (run_freed i r msg id (default 0 rid) w2) as (bs & pk & w3 & H3 & Hs3 & Ha & Hb); [done..| |done|done|].
    { by eapply all_ch_comm. }
    pose proof (served_then _ _ _ _ _ _ [] _ [] _ Hc Hl2 Ho Hs3) as Hsv.
    exists w3. split_and!; [done|done| |by eapply sv_floors]. exists rid, bs, pk. by split_and!.
  - destruct (not_owner_fits (mUserID msg) id (Lock.user (lock_at w id))) as [Hne Hfit];
      [apply Hm|done|done|].
    destruct (run_error ch i r msg ErrorFloorReleaseDenied _ w2 Hp2 Hm ltac:(done) Hne Hfit)
      as (bs & w3 & H3 & Hs3 & Ha).
    pose proof (served_then _ _ _ _ _ _ [] _ [] _ Hc Hl2 Ho Hs3) as Hsv.
    exists w3. split_and!; [done|done| |by eapply sv_floors]. exists rid, bs, []. by split_and!.
Qed.
End ReleaseRuns.


(** ** Queries *)

Section Queries.
Context {env : Env} (ch : channel) {laws : ChannelLaws ch}.
#[local] Set Default Proof Using "laws".

Definition query_over (sess : nat) (msg : Message) : prog () :=
  fid ← lift (GetFloorID msg);
  match fid with
  | None => error_over ch sess msg ErrorUnknownMandatoryAttribute "Missing FLOOR-ID attribute"
  | Some floorID =>
      floor ← GetFloor floorID;
      match floor with
      | None => error_over ch sess msg ErrorInvalidFloorID (floor_missing floorID)
      | Some l =>
          response ← add_floor_state floorID l (fresh ch PrimitiveFloorStatus msg);
          ch_send ch sess response
      end
  end.

(** The state and the request of the floor, or why there is none. *)
Definition query_answers (w : World) (msg : Message) (bs : bytes) : Prop :=
  match GetFloorID msg with
  | Ok (Some id) =>
      match floor_of w id with
      | Some f =>
          says_status bs (mVersion msg) (mConferenceID msg) (mTransactionID msg) (mUserID msg)
            (response_flag ch msg) PrimitiveFloorStatus id (fFloorRequestID f) (fCurrentState f)
      | None => answers bs msg (response_flag ch msg) (Refusal ErrorInvalidFloorID (floor_missing id))
      end
  | _ => answers bs msg (response_flag ch msg)
           (Refusal ErrorUnknownMandatoryAttribute "Missing FLOOR-ID attribute")
  end.

Lemma wf_floor_state f : wf_floor f → is_u8 (fCurrentState f).
Proof using. intros H. floor_cases H; done. Qed.

Lemma run_query i r msg w :
  ch_peer ch w i r (mVersion msg) → wf_request msg → floors_ok w →
  sends (query_over i msg) w r (query_answers w msg).
Proof.
  intros Hp Hm Hok. unfold query_over, query_answers, sends. destruct (GetFloorID_Ok msg) as [fid Hfid].
  rewrite (run_bind_Ok _ _ _ _ _ (run_lift _ _ w Hfid)), Hfid. destruct fid as [id|].
  2: { apply run_error; try done. unfold max_value_len. cbn. lia. }
  unfold GetFloor. rewrite (run_bind_Ok _ _ _ _ _ (run_gets _ w)).
  pose proof (rq_floor _ Hm _ Hfid) as Hid. destruct (w_floors w !! id) as [l|] eqn:Hl.
  2: { destruct (floor_missing_fits id Hid). replace (floor_of w id) with (@None FloorStateMachine)
         by (unfold floor_of; by rewrite Hl). by apply run_error. }
  destruct (Hok id l Hl) as (f & Hf & Hfo). rewrite (floor_of_lookup w id l f) by done.
  assert (run (add_floor_state id l (fresh ch PrimitiveFloorStatus msg)) w =
    Ok (built ProtocolVersionRFC4582 (ch_flag ch) PrimitiveFloorStatus (mConferenceID msg)
          (mTransactionID msg) (mUserID msg) (state_attrs id (fFloorRequestID f) (fCurrentState f)), w))
    as Hadd.
  { unfold add_floor_state. rewrite (run_bind_Ok _ _ _ _ _ (run_floor_get l Floor_GetFloorRequestID f w Hf)).
    rewrite (run_bind_Ok _ _ _ _ _ (run_floor_get l Floor_GetState f w Hf)), fresh_built.
    unfold AddRequestStatus. rewrite (u8_small (Floor_GetState f)) by apply wf_floor_state, Hfo. done. }
  rewrite (run_bind_Ok _ _ _ _ _ Hadd). destruct Hm as [Hv Hi _ _].
  destruct (state_received (mVersion msg) (response_flag ch msg) _ _ _ id (fFloorRequestID f)
    (fCurrentState f) Hv Hi Hid ltac:(apply Hfo) ltac:(apply wf_floor_state, Hfo)) as (bs & Henc & Hsays).
  edestruct ch_run_send as (w' & Hrun & Hst); [exact Hp|exact Hv| |exact Henc|by exists bs, w'].
  done.
Qed.
End Queries.


(** ** Goodbyes *)

Section Goodbyes.
Context {env : Env} (Hconf : is_u32 (cConferenceID config)).
Context (ch : channel) {laws : ChannelLaws ch}.
#[local] Set Default Proof Using "laws Hconf".

(** The floors that wait for or are held by the user, and what the others are told of
    each: its request id has been reset when it is read. *)
Definition goodbye_over (sess : nat) (userID : Z) (ls : list nat) : prog () :=
  for_each ls
    (release_owned
       (λ floorID requestID, ch_broadcast ch (Some sess) userID floorID requestID RequestStatusReleased)
       userID).

Definition release_calls (user id : Z) : list event :=
  if OnFloorReleased hooks then [FloorReleased id user] else [].

Lemma run_release_owned i user id l f w :
  floors_ok w → all_peers (ch_peer ch) w → is_u16 user →
  w_floors w !! id = Some l → w_floor_heap w !! l = Some f → fOwnerUserID f = user →
  ∃ pk w', run (release_owned (λ floorID requestID,
      ch_broadcast ch (Some i) user floorID requestID RequestStatusReleased) user l) w = Ok (tt, w') ∧
    comm w w' pk (release_calls user id) ∧ w_floors w' = w_floors w ∧
    located w' id l Lock.Free ∧ (∀ l', l' ≠ l → w_floor_heap w' !! l' = w_floor_heap w !! l') ∧
    broadcasted (ch_peer ch) w' (Some i) user id 0 RequestStatusReleased pk.
Proof.
  intros Hok Hpeers Hu Hl Hf Ho. pose proof (locate w id l Hok Hl) as Hloc.
  destruct (located_op w id l _ (OpRelease user) Hloc I) as (f' & Hf' & Hlk & Hfo & Hne & Hc & Hloc1 & _).
  simplify_eq. rewrite <- Hlk in Hne, Hloc1. cbn -[decide Floor_Release] in Hne, Hloc1.
  rewrite lock_user in Hne, Hloc1 by apply Hfo. rewrite decide_True in Hne, Hloc1 by auto.
  set (w1 := apply_floor_op l (OpRelease (fOwnerUserID f)) w) in *.
  assert (w_floor_heap w1 !! l = Some (Floor_Release (fOwnerUserID f) f).2) as Hf1
    by (cbn; by rewrite list_lookup_alter_eq, Hf).
  unfold release_owned. rewrite (run_bind_Ok _ _ _ _ _ (run_floor_Release l _ f w Hf)).
  destruct (Floor_Release (fOwnerUserID f) f).1 as [e|] eqn:He; [done|].
  rewrite (run_bind_Ok _ _ _ _ _ (run_floor_get l Floor_GetFloorRequestID _ w1 Hf1)).
  rewrite (run_bind_Ok _ _ _ _ _ (run_floor_get l fFloorID _ w1 Hf1)).
  assert (Floor_GetFloorRequestID (Floor_Release (fOwnerUserID f) f).2 = 0 ∧
          fFloorID (Floor_Release (fOwnerUserID f) f).2 = id) as [-> ->].
  { revert He. unfold Floor_Release. rewrite Z.eqb_refl. intros _. split; [done|apply Hfo]. }
  destruct (ch_run_broadcast (Some i) (fOwnerUserID f) id 0 RequestStatusReleased w1)
    as (pk & w2 & H2 & Hs2 & Hb); [by eapply (all_ch_comm ch)|done|done|by eapply fo_u16|done|done|].
  rewrite (run_bind_Ok _ _ _ _ _ H2).
  destruct (run_callback (OnFloorReleased hooks) (FloorReleased id (fOwnerUserID f)) w2)
    as (w3 & H3 & Hs3); [done..|].
  pose proof (step_trans _ _ _ _ _ _ _ Hs2 Hs3) as Hs. rewrite app_nil_r in Hs.
  exists pk, w3. split_and!; [done| | | | |].
  - exact (comm_trans _ _ _ _ _ _ _ Hc (step_comm _ _ _ _ Hs)).
  - by rewrite (step_floors _ _ _ _ Hs).
  - by eapply located_step.
  - intros l' Hne'. rewrite (step_heap _ _ _ _ Hs). cbn. by apply list_lookup_alter_ne.
  - by eapply (broadcasted_ch_comm ch); [apply Hs|].
Qed.

(** The floors of the list are freed, the others keep their state. *)
Lemma run_goodbye i user ls : ∀ w,
  floors_ok w → all_peers (ch_peer ch) w → is_u16 user → NoDup ls →
  (∀ l, l ∈ ls → ∃ id f, w_floors w !! id = Some l ∧ w_floor_heap w !! l = Some f ∧
     fOwnerUserID f = user) →
  ∃ ids pks w', run (goodbye_over i user ls) w = Ok (tt, w') ∧
    comm w w' (concat pks) (concat (release_calls user <$> ids)) ∧ floors_ok w' ∧
    Forall2 (λ id l, w_floors w !! id = Some l) ids ls ∧
    (∀ id, id ∈ ids → lock_at w' id = Lock.Free) ∧
    (∀ id, id ∉ ids → floor_of w' id = floor_of w id) ∧
    Forall2 (λ id, broadcasted (ch_peer ch) w' (Some i) user id 0 RequestStatusReleased) ids pks.
Proof.
  induction ls as [|l ls IH]; intros w Hok Hpeers Hu Hnd Hls.
  { exists [], [], w. split_and!; [done|apply comm_refl|done|done| |done|done]. by intros id ?%elem_of_nil. }
  apply NoDup_cons in Hnd as [Hnin Hnd].
  destruct (Hls l (list_elem_of_here _ _)) as (id & f & Hl & Hf & Ho).
  destruct (run_release_owned i user id l f w Hok Hpeers Hu Hl Hf Ho)
    as (pk & w1 & H1 & Hc1 & Ef & Hloc & Hother & Hb).
  destruct (IH w1) as (ids & pks & w2 & H2 & Hc2 & Hok2 & Hids & Hfree & Hsame & Hbs);
    [apply Hloc|by eapply (all_ch_comm ch)|done|done| |].
  { intros l' Hl'. destruct (Hls l' ltac:(by right)) as (id' & f' & ? & ? & ?). exists id', f'.
    rewrite Ef, Hother; [done|]. by intros ->. }
  assert (Forall2 (λ id l, w_floors w !! id = Some l) ids ls) as Hids' by (by rewrite Ef in Hids).
  exists (id :: ids), (pk :: pks), w2. cbn [goodbye_over for_each].
  rewrite (run_bind_Ok _ _ _ _ _ H1). split_and!; [exact H2|exact (comm_trans _ _ _ _ _ _ _ Hc1 Hc2)|done|by constructor| | |].
  - intros id' [->|Hin]%elem_of_cons; [|by apply Hfree]. destruct (decide (id ∈ ids)); [by apply Hfree|].
    unfold lock_at. rewrite Hsame by done. exact (located_lock _ _ _ _ Hloc).
  - intros id' [Hne Hni]%not_elem_of_cons. rewrite Hsame by done. unfold floor_of. rewrite Ef.
    destruct (w_floors w !! id') as [l'|] eqn:Hl'; [|done]. cbn. apply Hother. intros ->.
    destruct (Hok _ _ Hl') as (fa & ? & []), (Hok _ _ Hl) as (fb & ? & []). by simplify_eq.
  - constructor; [by eapply (broadcasted_ch_comm ch)|done].
Qed.
End Goodbyes.

(** What a goodbye of [user] does to the floors and tells the others. *)
Record farewell {env : Env} (peer : World → nat → string → Z → Prop) (w w' : World) (i : nat)
    (user : Z) (ids : list Z) (pks : list (list (string * bytes))) : Prop := {
  fw_nodup : NoDup ids;
  fw_ids : ∀ id, id ∈ ids ↔ ∃ f, floor_of w id = Some f ∧ fOwnerUserID f = user;
  fw_freed : ∀ id, id ∈ ids → lock_at w' id = Lock.Free;
  fw_others : ∀ id, id ∉ ids → floor_of w' id = floor_of w id;
  fw_calls : calls (w_trace w') = calls (w_trace w) ++ concat (release_calls user <$> ids);
  fw_told : Forall2 (λ id, broadcasted peer w' (Some i) user id 0 RequestStatusReleased) ids pks;
  fw_floors : floors_ok w'
}.

Section Collect.
Context {env : Env}.

Lemma run_floors_owned user ls w :
  (∀ l, l ∈ ls → is_Some (w_floor_heap w !! l)) →
  ∃ ls', run (floors_owned user ls) w = Ok (ls', w) ∧ ls' `sublist_of` ls ∧
    ∀ l, l ∈ ls' ↔ l ∈ ls ∧ ∃ f, w_floor_heap w !! l = Some f ∧ fOwnerUserID f = user.
Proof.
  induction ls as [|l ls IH]; intros Hls; cbn [floors_owned].
  { exists []. split_and!; [done|done|]. intros l. rewrite elem_of_nil. split; [done|]. by intros [? _]. }
  destruct (Hls l (list_elem_of_here _ _)) as [f Hf].
  rewrite (run_bind_Ok _ _ _ _ _ (run_floor_get l Floor_GetOwner f w Hf)).
  destruct IH as (ls' & H1 & Hsub & Hin); [by intros l' ?; apply Hls; right|].
  rewrite (run_bind_Ok _ _ _ _ _ H1). unfold Floor_GetOwner.
  destruct (Z.eqb_spec (fOwnerUserID f) user) as [Ho|Ho]; eexists; (split_and!; [done| |]).
  - by apply sublist_skip.
  - intros l'. rewrite !elem_of_cons, Hin. naive_solver.
  - by apply sublist_cons.
  - intros l'. rewrite elem_of_cons, Hin. naive_solver.
Qed.

Lemma floors_inj w id1 id2 l :
  floors_ok w → w_floors w !! id1 = Some l → w_floors w !! id2 = Some l → id1 = id2.
Proof.
  intros Hok H1 H2. destruct (Hok _ _ H1) as (f1 & ? & []), (Hok _ _ H2) as (f2 & ? & []).
  by simplify_eq.
Qed.

(** The floors of a user, collected in the order of [range]. *)
Lemma run_collect user w :
  floors_ok w →
  ∃ ls0 ls, run (range_of w_floors) w = Ok (ls0, tick w) ∧
    run (floors_owned user ls0) (tick w) = Ok (ls, tick w) ∧ NoDup ls ∧
    ∀ l, l ∈ ls ↔ ∃ id f, w_floors w !! id = Some l ∧ w_floor_heap w !! l = Some f ∧
                          fOwnerUserID f = user.
Proof.
  intros Hok. set (ls0 := range_order (w_tick w) (snd <$> map_to_list (w_floors w))).
  assert (ls0 ≡ₚ snd <$> map_to_list (w_floors w)) as Hp by apply range_perm.
  assert (∀ l, l ∈ ls0 ↔ ∃ id, w_floors w !! id = Some l) as Hin.
  { intros l. rewrite Hp, list_elem_of_fmap. split.
    - intros ([id l'] & -> & Hl). exists id. by apply elem_of_map_to_list in Hl.
    - intros [id Hl]. exists (id, l). by rewrite elem_of_map_to_list. }
  destruct (run_floors_owned user ls0 (tick w)) as (ls & H1 & Hsub & Hls).
  { intros l [id Hl]%Hin. destruct (Hok id l Hl) as (f & Hf & _). by exists f. }
  exists ls0, ls. split_and!; [unfold range_of; by rewrite run_atomic|done| |].
  - eapply sublist_NoDup; [|exact Hsub]. rewrite Hp. apply NoDup_fmap_2_strong, NoDup_map_to_list.
    intros [id1 l1] [id2 l2] Hm1%elem_of_map_to_list Hm2%elem_of_map_to_list [= ->].
    f_equal. by eapply floors_inj.
  - intros l. rewrite Hls, Hin. naive_solver.
Qed.
End Collect.

Section Farewell.
Context {env : Env} (Hconf : is_u32 (cConferenceID config)).
Context (ch : channel) {laws : ChannelLaws ch}.
#[local] Set Default Proof Using "laws Hconf".

(** The common part of the two goodbye handlers. *)
Lemma run_farewell i user w :
  floors_ok w → all_peers (ch_peer ch) w → is_u16 user →
  ∃ ls0 ls ids pks w', run (range_of w_floors) w = Ok (ls0, tick w) ∧
    run (floors_owned user ls0) (tick w) = Ok (ls, tick w) ∧
    run (goodbye_over ch i user ls) (tick w) = Ok (tt, w') ∧
    comm w w' (concat pks) (concat (release_calls user <$> ids)) ∧
    farewell (ch_peer ch) w w' i user ids pks.
Proof.
  intros Hok Hpeers Hu. destruct (run_collect user w Hok) as (ls0 & ls & H1 & H2 & Hnd & Hls).
  pose proof (tick_step w) as Ht.
  destruct (run_goodbye Hconf ch i user ls (tick w))
    as (ids & pks & w' & H3 & Hc & Hok' & Hids & Hfree & Hsame & Hbs);
    [by eapply step_floors_ok|by eapply (all_ch_comm ch); [apply Ht|]|done|done|by intros l ?%Hls|].
  exists ls0, ls, ids, pks, w'. split_and!; [done..| |].
  { exact (comm_trans _ _ _ _ _ _ _ (step_comm _ _ _ _ Ht) Hc). }
  split; [| |done|done|exact (comm_calls _ _ _ _ Hc)|done|done].
  - revert Hids Hnd. clear. intros Hids. induction Hids as [|id l ids ls Hl Hids IH]; [constructor|].
    intros [Hnin Hnd]%NoDup_cons. constructor; [|by apply IH]. intros Hin. apply Hnin.
    apply list_elem_of_lookup in Hin as [k Hk].
    destruct (Forall2_lookup_l _ _ _ _ _ Hids Hk) as (l' & Hk' & Hl'). simplify_eq/=.
    by eapply list_elem_of_lookup_2.
  - intros id. split.
    + intros Hin. apply list_elem_of_lookup in Hin as [k Hk].
      destruct (Forall2_lookup_l _ _ _ _ _ Hids Hk) as (l & Hk' & Hl). cbn in Hl.
      apply list_elem_of_lookup_2 in Hk'. apply Hls in Hk' as (id' & f & Hl' & Hf & Ho).
      assert (id' = id) as -> by exact (floors_inj w id' id l Hok Hl' Hl). exists f. split; [|done].
      by eapply floor_of_lookup.
    + intros (f & (l & Hl & Hf)%floor_of_inv & Ho).
      assert (l ∈ ls) as Hin by (apply Hls; eauto). apply list_elem_of_lookup in Hin as [k Hk].
      destruct (Forall2_lookup_r _ _ _ _ _ Hids Hk) as (id' & Hk' & Hl'). cbn in Hl'.
      assert (id' = id) as -> by exact (floors_inj w id' id l Hok Hl' Hl). by eapply list_elem_of_lookup_2.
Qed.
End Farewell.

(** ** Requests, from the message to the answer *)

Section Serve.
Context {env : Env} (Hwrite : ∀ t, write_ok t = true).
#[local] Set Default Proof Using "Hwrite".

Lemma serve_udp_request i r v msg floorID w :
  udp_peer w i r v → wf_request msg → floors_ok w →
  mPrimitive msg = PrimitiveFloorRequest → GetFloorID msg = Ok (Some floorID) →
  let user := mUserID msg in
  let requestID := next_request_id w in
  let decision := decides floorID user requestID in
  let spec := serve_request decision floorID user requestID (lock_at w floorID) in
  ∃ bs w', run (Session_handleUDPMessage i msg) w = Ok (tt, w') ∧
    answers bs msg (mVersion msg =? ProtocolVersionRFC8855) spec.1 ∧
    served w w' floorID spec.2 [(r, bs)]
      (request_calls decision floorID user requestID (lock_at w floorID)).
Proof.
  intros Hp Hm Hok Hprim Hfid user requestID decision spec.
  destruct (run_udp_heard i r v msg w Hp Hm) as (w1 & -> & Hh).
  unfold udp_dispatch. rewrite Hprim. cbn [Z.eqb Pos.eqb PrimitiveFloorRequest PrimitiveHello].
  destruct (run_handleUDPFloorRequest Hwrite i r msg floorID w1) as (bs & w' & Hrun & Ha & Hs);
    [by eapply heard_udp_peer|done|by eapply heard_floors_ok|done|].
  rewrite (heard_lock_at _ _ _ _ floorID Hh), (heard_request_id _ _ _ _ Hh) in *.
  exists bs, w'. split_and!; [exact Hrun|exact Ha|by eapply served_heard].
Qed.

Lemma serve_tcp_request i r v msg floorID w :
  tcp_peer w i r v → wf_request msg → floors_ok w →
  mPrimitive msg = PrimitiveFloorRequest → GetFloorID msg = Ok (Some floorID) →
  let user := mUserID msg in
  let requestID := next_request_id w in
  let decision := decides floorID user requestID in
  let spec := serve_request decision floorID user requestID (lock_at w floorID) in
  ∃ pk bs w', run (handleMessage i msg) w = Ok (tt, w') ∧
    pending_first msg r floorID requestID (lock_at w floorID) pk ∧ answers bs msg false spec.1 ∧
    served w w' floorID spec.2 (pk ++ [(r, bs)])
      (request_calls decision floorID user requestID (lock_at w floorID)).
Proof.
  intros Hp Hm Hok Hprim Hfid user requestID decision spec.
  destruct (run_tcp_heard i r v msg w Hp Hm) as (w1 & -> & Hh).
  unfold tcp_dispatch. rewrite Hprim. cbn [Z.eqb Pos.eqb PrimitiveFloorRequest PrimitiveHello].
  destruct (run_handleFloorRequest Hwrite i r msg floorID w1) as (pk & bs & w' & Hrun & Hpk & Ha & Hs);
    [by eapply heard_tcp_peer|done|by eapply heard_floors_ok|done|].
  rewrite (heard_lock_at _ _ _ _ floorID Hh), (heard_request_id _ _ _ _ Hh) in *.
  exists pk, bs, w'. split_and!; [exact Hrun|done|exact Ha|by eapply served_heard].
Qed.
End Serve.
