(* ===== verification/Served.v ===== *)
(** * What clients get

    The theorems about the message handlers of the server, run alone on a world where
    the session's peer is known and the writes succeed: requests, releases, queries
    and goodbyes over UDP and TCP, each against the specification of [Service.v];
    and a scenario of two clients for the witnesses. *)

From S2P Require Import Prelude Types Message Grouped Codec FloorFSM Session Prog World Transport UDPClient Server Threads Interleave Responses ServerSafe Scenario Safety ServerRun FloorLocks Channel Service.

(** ** From the world after hearing to the world before *)

Section Heard.
Context {env : Env} {w w1 : World} {i : nat} {v : Z} (Hh : heard w w1 i v).
#[local] Set Default Proof Using "Hh".

Lemma heard_all (ch : channel) {laws : ChannelLaws ch} :
  version_ok v → all_peers (ch_peer ch) w → all_peers (ch_peer ch) w1.
Proof using Hh.
  intros Hv Hall k j. rewrite (hr_sessions _ _ _ _ Hh). intros Hj.
  destruct (Hall k j Hj) as (r & v' & Hp & Hv'). destruct (decide (j = i)) as [->|Hne].
  - exists r, v. split; [by eapply ch_heard|done].
  - exists r, v'. split; [by eapply ch_heard_other|done].
Qed.

Lemma heard_target msg t : release_target_spec w1 msg t → release_target_spec w msg t.
Proof.
  assert (∀ id, floor_of w1 id = floor_of w id) as Hf by (intros id; by eapply heard_floor_of).
  destruct t; cbn; setoid_rewrite Hf; by rewrite ?(hr_floors _ _ _ _ Hh), ?(hr_heap _ _ _ _ Hh).
Qed.

Lemma heard_release peer response w' r msg t :
  release_served peer response w1 w' i r msg t → release_served peer response w w' i r msg t.
Proof.
  destruct t as [l id|code info]; cbn.
  - intros (rid & bs & pk & Hrid & Ha & Hs). exists rid, bs, pk.
    rewrite (heard_lock_at _ _ _ _ id Hh) in Ha, Hs. split_and!; [done..|]. 
    case_decide; [destruct Hs; split; [|done]|]; by eapply served_heard.
  - intros (bs & Ha & Hp & Hc & Hf). exists bs.
    rewrite <- (hr_packets _ _ _ _ Hh), <- (hr_calls _ _ _ _ Hh). split_and!; [done..|].
    intros id. by rewrite Hf, (heard_floor_of _ _ _ _ id Hh).
Qed.

Lemma heard_query (ch : channel) w' r msg bs :
  step w1 w' [(r, bs)] [] → query_answers ch w1 msg bs →
  query_answers ch w msg bs ∧ packets (w_trace w') = packets (w_trace w) ++ [(r, bs)] ∧
  calls (w_trace w') = calls (w_trace w) ∧ ∀ id, floor_of w' id = floor_of w id.
Proof.
  intros Hs Ha. split_and!.
  - revert Ha. unfold query_answers. destruct (GetFloorID msg) as [[id|]| | |]; try done.
    by rewrite (heard_floor_of _ _ _ _ id Hh).
  - rewrite <- (hr_packets _ _ _ _ Hh). apply Hs.
  - rewrite <- (hr_calls _ _ _ _ Hh), (comm_calls _ _ _ _ (step_comm _ _ _ _ Hs)). apply app_nil_r.
  - intros id. by rewrite (step_floor_of _ _ _ _ id Hs), (heard_floor_of _ _ _ _ id Hh).
Qed.

Lemma heard_farewell peer w' user ids pks :
  farewell peer w1 w' i user ids pks → farewell peer w w' i user ids pks.
Proof.
  assert (∀ id, floor_of w1 id = floor_of w id) as Hf by (intros id; by eapply heard_floor_of).
  intros F. destruct F as [? Hids ? Hother ? ? ?]. split; try done.
  - intros id. rewrite <- Hf. apply Hids.
  - intros id ?. rewrite <- Hf. by apply Hother.
  - by rewrite <- (hr_calls _ _ _ _ Hh).
Qed.
End Heard.

(** A message without attributes. *)
Definition says_plain (bs : bytes) (version primitive conf tx user : Z) (response : bool) : Prop :=
  ∃ m, Decode bs = Ok m ∧ header_is m version primitive conf tx user response ∧ mAttributes m = [].

Lemma plain_received version response primitive conf tx user :
  version_ok version → is_u8 primitive → wf_ids conf tx user →
  let msg := built version response primitive conf tx user [] in
  ∃ bs, Encode msg = Ok (sized msg, bs) ∧ says_plain bs version primitive conf tx user response.
Proof.
  intros Hv Hp Hi msg.
  destruct (built_received version response primitive conf tx user [] [] Hv Hp Hi)
    as (bs & m & Henc & Hdec & Hhd & Hat); [constructor|constructor|done|].
  exists bs. split; [done|]. by exists m.
Qed.

Section Theorems.
Context {env : Env} (Hwrite : ∀ t, write_ok t = true).
#[local] Set Default Proof Using "Hwrite".
#[local] Instance udp_holds : ChannelLaws udp_channel := udp_laws Hwrite.
#[local] Instance tcp_holds : ChannelLaws tcp_channel := tcp_laws Hwrite.

(** C8: a floor request over UDP is served as the specification says: when the floor
    is free it is granted to the user under a new request id or refused, as the
    server or its callback decides, and otherwise the request is rejected and nothing
    changes; the client gets exactly one datagram, which answers its transaction with
    that outcome, and the application's callbacks are told the same. *)
Theorem udp_floor_request_served i r v msg floorID w :
  udp_peer w i r v → wf_request msg → floors_ok w →
  mPrimitive msg = PrimitiveFloorRequest → GetFloorID msg = Ok (Some floorID) →
  let user := mUserID msg in
  let requestID := next_request_id w in
  let decision := decides floorID user requestID in
  let spec := serve_request decision floorID user requestID (lock_at w floorID) in
  ∃ bs w', run (Session_handleUDPMessage i msg) w = Ok (tt, w') ∧
    answers bs msg (mVersion msg =? ProtocolVersionRFC8855) spec.1 ∧
    served w w' floorID spec.2 [(r, bs)]
      (request_calls decision floorID user requestID (lock_at w floorID)).
Proof. by apply serve_udp_request. Qed.

(** A floor request over TCP is served as the specification says; an accepted
    request is answered twice, pending first and then with the decision. *)
Theorem tcp_floor_request_served i r v msg floorID w :
  tcp_peer w i r v → wf_request msg → floors_ok w →
  mPrimitive msg = PrimitiveFloorRequest → GetFloorID msg = Ok (Some floorID) →
  let user := mUserID msg in
  let requestID := next_request_id w in
  let decision := decides floorID user requestID in
  let spec := serve_request decision floorID user requestID (lock_at w floorID) in
  ∃ pk bs w', run (handleMessage i msg) w = Ok (tt, w') ∧
    pending_first msg r floorID requestID (lock_at w floorID) pk ∧ answers bs msg false spec.1 ∧
    served w w' floorID spec.2 (pk ++ [(r, bs)])
      (request_calls decision floorID user requestID (lock_at w floorID)).
Proof. by apply serve_tcp_request. Qed.

(** The channel and the entry point of a transport. *)
Definition channel_over (tp : TransportType) : channel :=
  match tp with TransportUDP => udp_channel | TransportTCP => tcp_channel end.
Definition handle_over (tp : TransportType) (sess : nat) (msg : Message) : prog () :=
  match tp with
  | TransportUDP => Session_handleUDPMessage sess msg
  | TransportTCP => handleMessage sess msg
  end.
#[local] Instance over_holds tp : ChannelLaws (channel_over tp).
Proof. destruct tp; apply _. Qed.

(** Releases and queries come to the handlers that the transports share. *)
Lemma run_over tp i r v msg w :
  ch_peer (channel_over tp) w i r v → wf_request msg →
  ∃ w1, heard w w1 i (mVersion msg) ∧
    (mPrimitive msg = PrimitiveFloorRelease →
       run (handle_over tp i msg) w = run (release_over (channel_over tp) i msg) w1) ∧
    (mPrimitive msg = PrimitiveFloorQuery →
       run (handle_over tp i msg) w = run (query_over (channel_over tp) i msg) w1).
Proof using.
  destruct tp; intros Hp Hm;
    [destruct (run_tcp_heard i r v msg w Hp Hm) as (w1 & Hrun & Hh)
    |destruct (run_udp_heard i r v msg w Hp Hm) as (w1 & Hrun & Hh)];
    exists w1; (split_and!; [done|intros Hprim..]); cbn [handle_over channel_over]; rewrite Hrun;
    unfold udp_dispatch, tcp_dispatch; by rewrite Hprim.
Qed.

(** C10: a floor release, over UDP or TCP, frees the floor it finds - the one it names,
    else the one of its request id, else one of the user - exactly when the user has it
    (or is user 0, whom the code lets release any floor); the client is answered, and
    every other registered session is told once; otherwise the client alone gets an error
    and no floor changes. *)
Theorem floor_release_served tp i r v msg w :
  is_u32 (cConferenceID config) → ch_peer (channel_over tp) w i r v → wf_request msg → floors_ok w →
  all_peers (ch_peer (channel_over tp)) w → mPrimitive msg = PrimitiveFloorRelease →
  ∃ t w', run (handle_over tp i msg) w = Ok (tt, w') ∧ floors_ok w' ∧
    release_target_spec w msg t ∧
    release_served (ch_peer (channel_over tp)) (response_flag (channel_over tp) msg) w w' i r msg t.
Proof.
  intros Hconf Hp Hm Hok Hpeers Hprim.
  destruct (run_over tp i r v msg w Hp Hm) as (w1 & Hh & Hrel & _). rewrite Hrel by done.
  destruct (run_release Hconf (channel_over tp) i r msg w1) as (t & w' & Hrun & Ht & Hr & Hok');
    [by eapply ch_heard|done|by eapply heard_floors_ok|by apply (heard_all Hh (channel_over tp)); [apply Hm|]|].
  exists t, w'. split_and!; [exact Hrun|done|by eapply heard_target|by eapply heard_release].
Qed.

(** C28: a floor query, over UDP or TCP, is answered with the state and the request of
    the floor as they are, or with an error when there is no such floor, and changes no
    floor. *)
Theorem floor_query_served tp i r v msg w :
  ch_peer (channel_over tp) w i r v → wf_request msg → floors_ok w →
  mPrimitive msg = PrimitiveFloorQuery →
  ∃ bs w', run (handle_over tp i msg) w = Ok (tt, w') ∧
    query_answers (channel_over tp) w msg bs ∧
    packets (w_trace w') = packets (w_trace w) ++ [(r, bs)] ∧
    calls (w_trace w') = calls (w_trace w) ∧ ∀ id, floor_of w' id = floor_of w id.
Proof.
  intros Hp Hm Hok Hprim. destruct (run_over tp i r v msg w Hp Hm) as (w1 & Hh & _ & Hq).
  rewrite Hq by done.
  destruct (run_query (channel_over tp) i r msg w1) as (bs & w' & Hrun & Hs & Ha);
    [by eapply ch_heard|done|by eapply heard_floors_ok|].
  exists bs, w'. split; [exact Hrun|]. by apply (heard_query Hh).
Qed.

(** What the handlers of a goodbye do; over TCP the farewell is acknowledged, and then
    the transport is closed. *)
Lemma run_handleUDPGoodbye i r msg w :
  is_u32 (cConferenceID config) → udp_peer w i r (mVersion msg) → is_u16 (mUserID msg) →
  floors_ok w → all_peers udp_peer w →
  ∃ ids pks w', run (handleUDPGoodbye i msg) w = Ok (tt, w') ∧
    packets (w_trace w') = packets (w_trace w) ++ concat pks ∧
    farewell udp_peer w w' i (mUserID msg) ids pks.
Proof.
  intros Hconf Hp Hu Hok Hpeers.
  destruct (run_farewell Hconf udp_channel i (mUserID msg) w Hok Hpeers Hu)
    as (ls0 & ls & ids & pks & w' & H1 & H2 & H3 & Hc & Hf).
  exists ids, pks, w'. split_and!; [|apply Hc|done]. unfold handleUDPGoodbye.
  rewrite (run_bind_Ok _ _ _ _ _ H1), (run_bind_Ok _ _ _ _ _ H2).
  etrans; [apply run_bind_Ok; exact H3|]. cbv beta.
  by rewrite (run_bind_Ok _ _ _ _ _ (run_udp_remote _ _ _ _ (comm_udp_peer _ _ _ _ _ _ _ Hc Hp))).
Qed.

Lemma run_handleGoodbye i r msg w :
  is_u32 (cConferenceID config) → tcp_peer w i r (mVersion msg) → wf_request msg →
  floors_ok w → all_peers tcp_peer w →
  ∃ ids pks bs w1 w2 t tr,
    run (handleGoodbye i msg) w = Ok (tt, set_transports <[t := close_tcp tr]> w2) ∧
    comm w w1 (concat pks) (concat (release_calls (mUserID msg) <$> ids)) ∧
    farewell tcp_peer w w1 i (mUserID msg) ids pks ∧
    says_plain bs (mVersion msg) PrimitiveGoodbyeAck (mConferenceID msg) (mTransactionID msg)
      (mUserID msg) false ∧
    step w1 w2 [(r, bs)] [] ∧ endpoints w2 !! i = Some (Some t, None, mVersion msg) ∧
    w_transports w2 !! t = Some tr.
Proof.
  intros Hconf Hp Hm Hok Hpeers.
  destruct (run_farewell Hconf tcp_channel i (mUserID msg) w Hok Hpeers ltac:(apply Hm))
    as (ls0 & ls & ids & pks & w1 & H1 & H2 & H3 & Hc & Hf).
  pose proof (comm_tcp_peer _ _ _ _ _ _ _ Hc Hp) as Hp1. pose proof Hm as [Hv Hi _ _].
  destruct (plain_received (mVersion msg) false PrimitiveGoodbyeAck _ _ _ Hv
    ltac:(apply (bool_decide_unpack _); exact I) Hi) as (bs & Henc & Hsays).
  destruct (run_send_tcp Hwrite i r _ (built ProtocolVersionRFC4582 false PrimitiveGoodbyeAck
    (mConferenceID msg) (mTransactionID msg) (mUserID msg) []) bs w1 Hp1 Henc) as (w2 & H4 & Hs2).
  pose proof (comm_tcp_peer _ _ _ _ _ _ _ (step_comm _ _ _ _ Hs2) Hp1) as Hp2.
  destruct (run_session_SetState i StateDisconnected w2) as (w3 & H5 & Hs3); [by eapply tcp_peer_session|].
  pose proof (comm_tcp_peer _ _ _ _ _ _ _ (step_comm _ _ _ _ Hs3) Hp2) as (t & tr & Hi3 & Ht & _).
  pose proof Hi3 as (s & Hss & [= He _ _])%endpoints_lookup.
  pose proof (step_trans _ _ _ _ _ _ _ Hs2 Hs3) as Hs.
  exists ids, pks, bs, w1, w3, t, tr. split_and!; [|done..]. unfold handleGoodbye.
  rewrite (run_bind_Ok _ _ _ _ _ H1), (run_bind_Ok _ _ _ _ _ H2).
  etrans; [apply run_bind_Ok; exact H3|]. etrans; [apply run_bind_Ok; exact H4|]. cbv beta.
  rewrite (run_bind_Ok _ _ _ _ _ H5), (run_bind_Ok _ _ _ _ _ (run_deref _ _ _ w3 Hss)), He.
  unfold Transport_Close. by rewrite run_atomic, Ht.
Qed.

(** A goodbye over UDP frees exactly the floors that wait for or are held by its
    user (by nobody, for user 0), tells every other registered session of each of
    them - with request id 0, since the id is read after the release - and sends
    nothing to the client. *)
Theorem udp_goodbye_frees i r v msg w :
  is_u32 (cConferenceID config) → udp_peer w i r v → wf_request msg → floors_ok w →
  all_peers udp_peer w → mPrimitive msg = PrimitiveGoodbye →
  ∃ ids pks w', run (Session_handleUDPMessage i msg) w = Ok (tt, w') ∧
    packets (w_trace w') = packets (w_trace w) ++ concat pks ∧
    farewell udp_peer w w' i (mUserID msg) ids pks.
Proof.
  intros Hconf Hp Hm Hok Hpeers Hprim.
  destruct (run_udp_heard i r v msg w Hp Hm) as (w1 & -> & Hh).
  destruct (run_handleUDPGoodbye i r msg w1) as (ids & pks & w' & Hrun & Hpk & Hf);
    [done|by eapply heard_udp_peer|apply Hm|by eapply heard_floors_ok
    |by apply (heard_all Hh udp_channel); [apply Hm|]|].
  exists ids, pks, w'. split_and!; [|by rewrite Hpk, (hr_packets _ _ _ _ Hh)|by eapply heard_farewell].
  unfold udp_dispatch. by rewrite Hprim.
Qed.

(** A goodbye over TCP frees the user's floors likewise, is then acknowledged, and
    the transport is closed. *)
Theorem tcp_goodbye_frees i r v msg w :
  is_u32 (cConferenceID config) → tcp_peer w i r v → wf_request msg → floors_ok w →
  all_peers tcp_peer w → mPrimitive msg = PrimitiveGoodbye →
  ∃ ids pks bs w1 w', run (handleMessage i msg) w = Ok (tt, w') ∧
    packets (w_trace w') = packets (w_trace w) ++ concat pks ++ [(r, bs)] ∧
    farewell tcp_peer w w1 i (mUserID msg) ids pks ∧
    says_plain bs (mVersion msg) PrimitiveGoodbyeAck (mConferenceID msg) (mTransactionID msg)
      (mUserID msg) false ∧
    calls (w_trace w') = calls (w_trace w1) ∧ (∀ id, floor_of w' id = floor_of w1 id) ∧
    ∀ r' v', ¬ tcp_peer w' i r' v'.
Proof.
  intros Hconf Hp Hm Hok Hpeers Hprim.
  destruct (run_tcp_heard i r v msg w Hp Hm) as (w0 & -> & Hh).
  destruct (run_handleGoodbye i r msg w0)
    as (ids & pks & bs & w1 & w2 & t & tr & Hrun & Hc & Hf & Hsays & Hs & Hi & Ht);
    [done|by eapply heard_tcp_peer|done|by eapply heard_floors_ok
    |by apply (heard_all Hh tcp_channel); [apply Hm|]|].
  exists ids, pks, bs, w1. eexists. split_and!.
  - unfold tcp_dispatch. rewrite Hprim. exact Hrun.
  - change (packets (w_trace w2) = packets (w_trace w) ++ concat pks ++ [(r, bs)]).
    rewrite (comm_packets _ _ _ _ (step_comm _ _ _ _ Hs)), (comm_packets _ _ _ _ Hc).
    by rewrite (hr_packets _ _ _ _ Hh), <- app_assoc.
  - by eapply heard_farewell.
  - done.
  - change (calls (w_trace w2) = calls (w_trace w1)).
    rewrite (comm_calls _ _ _ _ (step_comm _ _ _ _ Hs)). apply app_nil_r.
  - intros id. exact (step_floor_of _ _ _ _ id Hs).
  - intros r' v' (t' & tr' & Hi' & Ht' & _ & Hcl & _).
    change (endpoints w2 !! i = Some (Some t', None, v')) in Hi'. simplify_eq.
    cbn in Ht'. rewrite list_lookup_insert_eq in Ht' by (by eapply lookup_lt_Some). by simplify_eq.
Qed.
End Theorems.

(** ** Two clients

    In the demo worlds user 7 holds floor 1; user 8 asks for floor 2, which does not
    exist; user 7 releases floor 1, asks about it, and leaves. *)

Definition u16_result (r : call (option Z)) : Prop :=
  match r with Ok (Some z) => is_u16 z | _ => True end.
#[local] Instance u16_result_dec r : Decision (u16_result r).
Proof. unfold u16_result. repeat case_match; apply _. Defined.

Lemma wf_request_check msg :
  bool_decide (version_ok (mVersion msg) ∧
    wf_ids (mConferenceID msg) (mTransactionID msg) (mUserID msg) ∧
    u16_result (GetFloorID msg) ∧ u16_result (GetFloorRequestID msg)) = true → wf_request msg.
Proof.
  intros (? & ? & Hf & Hr)%bool_decide_eq_true. split; [done|done|..].
  - intros f Heq. by rewrite Heq in Hf.
  - intros r Heq. by rewrite Heq in Hr.
Qed.

Lemma demo_request_ok floorID : floorID ∈ [1; 2] → wf_request (demo_request 1 9 8 floorID).
Proof. intros H. apply wf_request_check. apply elem_of_cons in H as [->|[->|[]%elem_of_nil]%elem_of_cons]; by vm_compute. Qed.

Lemma demo_floors_ok tcp udp : floors_ok (demo_world tcp udp).
Proof.
  intros id l. unfold demo_world. cbn [w_floors w_floor_heap].
  intros [<- <-]%lookup_singleton_Some. exists demo_floor. split; [done|].
  split; [done|done|by left; right|done|done].
Qed.

Lemma demo_all_peers tcp udp peer :
  peer (demo_world tcp udp) 0%nat "a" 2 → peer (demo_world tcp udp) 1%nat "b" 1 →
  all_peers peer (demo_world tcp udp).
Proof.
  intros Ha Hb k j. unfold demo_world at 1. cbn [w_sessions].
  intros [[_ <-]|[_ [_ <-]%lookup_singleton_Some]]%lookup_insert_Some.
  - exists "a", 2. split; [done|by right].
  - exists "b", 1. split; [done|by left].
Qed.

Lemma demo_udp_a : udp_peer demo_udp 0 "a" 2.
Proof. by exists None, 0%nat. Qed.
Lemma demo_udp_b : udp_peer demo_udp 1 "b" 1.
Proof. by exists None, 1%nat. Qed.
Lemma demo_tcp_a : tcp_peer demo_tcp 0 "a" 2.
Proof. by eexists 0%nat, _. Qed.
Lemma demo_tcp_b : tcp_peer demo_tcp 1 "b" 1.
Proof. by eexists 1%nat, _. Qed.

Lemma demo_udp_peers : all_peers udp_peer demo_udp.
Proof. exact (demo_all_peers _ _ udp_peer demo_udp_a demo_udp_b). Qed.
Lemma demo_tcp_peers : all_peers tcp_peer demo_tcp.
Proof. exact (demo_all_peers _ _ tcp_peer demo_tcp_a demo_tcp_b). Qed.

Lemma udp_floor_request_served_witness :
  ∃ bs w', run (@Session_handleUDPMessage (demo_env TransportUDP) 1 (demo_request 1 9 8 2)) demo_udp =
      Ok (tt, w') ∧
    answers bs (demo_request 1 9 8 2) false (Status 2 6 RequestStatusGranted) ∧
    lock_at w' 2 = Lock.Held 8 6.
Proof.
  destruct (@udp_floor_request_served (demo_env TransportUDP) (λ _, eq_refl) 1 "b" 1
    (demo_request 1 9 8 2) 2 demo_udp demo_udp_b (demo_request_ok 2 ltac:(apply (bool_decide_unpack _); exact I)) (demo_floors_ok _ _)
    eq_refl eq_refl) as (bs & w' & Hrun & Ha & Hs).
  exists bs, w'. split; [exact Hrun|]. split; [exact Ha|exact (sv_lock _ _ _ _ _ _ Hs)].
Defined.

Lemma tcp_floor_request_served_witness :
  ∃ bs w', run (@handleMessage (demo_env TransportTCP) 1 (demo_request 1 9 8 1)) demo_tcp =
      Ok (tt, w') ∧ packets (w_trace w') = [("b", bs)] ∧
    answers bs (demo_request 1 9 8 1) false
      (Refusal ErrorUnauthorizedOperation "floor 1 already in use by user 7") ∧
    lock_at w' 1 = Lock.Held 7 3.
Proof.
  destruct (@tcp_floor_request_served (demo_env TransportTCP) (λ _, eq_refl) 1 "b" 1
    (demo_request 1 9 8 1) 1 demo_tcp demo_tcp_b (demo_request_ok 1 ltac:(apply (bool_decide_unpack _); exact I)) (demo_floors_ok _ _)
    eq_refl eq_refl) as (pk & bs & w' & Hrun & Hpk & Ha & Hs).
  assert (pk = []) as -> by exact Hpk. exists bs, w'. split; [exact Hrun|].
  split; [exact (sv_packets _ _ _ _ _ _ Hs)|].
  split; [exact Ha|exact (sv_lock _ _ _ _ _ _ Hs)].
Defined.

Lemma demo_release_ok : wf_request (demo_release 2 4 7 1).
Proof. apply wf_request_check. by vm_compute. Qed.
Lemma demo_query_ok : wf_request (demo_query 2 4 7 1).
Proof. apply wf_request_check. by vm_compute. Qed.
Lemma demo_goodbye_ok : wf_request (demo_message 2 PrimitiveGoodbye 4 7).
Proof. apply wf_request_check. by vm_compute. Qed.
Lemma demo_conference : is_u32 (cConferenceID (demo_config TransportUDP)).
Proof. by apply (bool_decide_unpack _). Qed.

(** The floor named is found in either world. *)
Lemma demo_target tcp udp t :
  release_target_spec (demo_world tcp udp) (demo_release 2 4 7 1) t → t = ReleaseOf 0 1.
Proof.
  assert (GetFloorID (demo_release 2 4 7 1) = Ok (Some 1)) as Hid by reflexivity.
  destruct t as [l id|code info]; cbn [release_target_spec]; rewrite Hid.
  - intros (f & Hl & _ & [[= <-]|(rid & [=] & _)]).
    unfold demo_world in Hl. cbn [w_floors] in Hl. by apply lookup_singleton_Some in Hl as [_ <-].
  - intros [(id & [= <-] & Hf & _)|[([=] & _)|(rid & [=] & _)]]. by vm_compute in Hf.
Qed.

Lemma floor_release_served_witness :
  ∃ bs pk w', run (@handle_over (demo_env TransportUDP) TransportUDP 0 (demo_release 2 4 7 1)) demo_udp =
      Ok (tt, w') ∧
    answers bs (demo_release 2 4 7 1) true (Status 1 0 RequestStatusReleased) ∧
    lock_at w' 1 = Lock.Free ∧ packets (w_trace w') = ("a", bs) :: pk ∧
    @broadcasted (demo_env TransportUDP) udp_peer w' (Some 0%nat) 7 1 0 RequestStatusReleased pk.
Proof.
  destruct (@floor_release_served (demo_env TransportUDP) (λ _, eq_refl) TransportUDP 0 "a" 2
    (demo_release 2 4 7 1) demo_udp demo_conference demo_udp_a demo_release_ok (demo_floors_ok _ _)
    demo_udp_peers eq_refl) as (t & w' & Hrun & _ & Ht & Hs).
  apply demo_target in Ht. subst t. destruct Hs as (rid & bs & pk & Hrid & Ha & Hs & Hb).
  assert (rid = None) as -> by (injection Hrid as <-; reflexivity).
  exists bs, pk, w'. split; [exact Hrun|]. split; [exact Ha|]. split; [exact (sv_lock _ _ _ _ _ _ Hs)|].
  split; [exact (sv_packets _ _ _ _ _ _ Hs)|exact Hb].
Defined.

Lemma floor_query_served_witness :
  ∃ bs w', run (@handle_over (demo_env TransportTCP) TransportTCP 0 (demo_query 2 4 7 1)) demo_tcp =
      Ok (tt, w') ∧ packets (w_trace w') = [("a", bs)] ∧
    says_status bs 2 1 4 7 false PrimitiveFloorStatus 1 3 RequestStatusGranted.
Proof.
  destruct (@floor_query_served (demo_env TransportTCP) (λ _, eq_refl) TransportTCP 0 "a" 2
    (demo_query 2 4 7 1) demo_tcp demo_tcp_a demo_query_ok (demo_floors_ok _ _) eq_refl)
    as (bs & w' & Hrun & Ha & Hp & _).
  exists bs, w'. split; [exact Hrun|]. split; [exact Hp|exact Ha].
Defined.

Lemma udp_goodbye_frees_witness :
  ∃ w', run (@Session_handleUDPMessage (demo_env TransportUDP) 0 (demo_message 2 PrimitiveGoodbye 4 7))
      demo_udp = Ok (tt, w') ∧ lock_at w' 1 = Lock.Free.
Proof.
  destruct (@udp_goodbye_frees (demo_env TransportUDP) (λ _, eq_refl) 0 "a" 2
    (demo_message 2 PrimitiveGoodbye 4 7) demo_udp demo_conference demo_udp_a demo_goodbye_ok
    (demo_floors_ok _ _) demo_udp_peers eq_refl) as (ids & pks & w' & Hrun & _ & Hf).
  exists w'. split; [exact Hrun|]. apply (fw_freed _ _ _ _ _ _ _ Hf), (fw_ids _ _ _ _ _ _ _ Hf).
  exists demo_floor. split; reflexivity.
Defined.

Lemma tcp_goodbye_frees_witness :
  ∃ w1 w', run (@handleMessage (demo_env TransportTCP) 0 (demo_message 2 PrimitiveGoodbye 4 7))
      demo_tcp = Ok (tt, w') ∧ lock_at w1 1 = Lock.Free ∧ (∀ id, floor_of w' id = floor_of w1 id) ∧
    ∀ r' v', ¬ tcp_peer w' 0 r' v'.
Proof.
  destruct (@tcp_goodbye_frees (demo_env TransportTCP) (λ _, eq_refl) 0 "a" 2
    (demo_message 2 PrimitiveGoodbye 4 7) demo_tcp demo_conference demo_tcp_a demo_goodbye_ok
    (demo_floors_ok _ _) demo_tcp_peers eq_refl)
    as (ids & pks & bs & w1 & w' & Hrun & _ & Hf & _ & _ & Hsame & Hclosed).
  exists w1, w'. split; [exact Hrun|]. split; [|split; [exact Hsame|exact Hclosed]].
  apply (fw_freed _ _ _ _ _ _ _ Hf), (fw_ids _ _ _ _ _ _ _ Hf).
  exists demo_floor. split; reflexivity.
Defined.
