(* ===== verification/Hello.v ===== *)
(** * Hello

    A hello registers the session of its sender under its address and is acknowledged
    with what the server supports; over TCP it also starts the keepalive. *)

From S2P Require Import Prelude Types Message Grouped Codec FloorFSM Session Prog World Transport UDPClient Server Threads Interleave Responses ServerSafe Scenario Safety ServerRun FloorLocks Channel Service Served.

(** ** The acknowledgement on the wire *)

(** The datagram acknowledges the hello [msg] and lists what the server supports. *)
Definition says_hello (bs : bytes) (msg : Message) (response : bool) : Prop :=
  ∃ ack, Decode bs = Ok ack ∧
    header_is ack (mVersion msg) PrimitiveHelloAck (mConferenceID msg) (mTransactionID msg)
      (mUserID msg) response ∧
    aValue <$> GetAttribute AttrSupportedPrimitives ack = Some hello_primitives ∧
    aValue <$> GetAttribute AttrSupportedAttributes ack = Some hello_attributes.

Definition hello_attrs : list Attribute :=
  [tlv_attr AttrSupportedPrimitives hello_primitives; tlv_attr AttrSupportedAttributes hello_attributes].

Lemma add_supported_built version response conf tx user :
  add_supported (built version response PrimitiveHelloAck conf tx user []) =
  built version response PrimitiveHelloAck conf tx user hello_attrs.
Proof. reflexivity. Qed.

Lemma hello_received response msg :
  version_ok (mVersion msg) → wf_ids (mConferenceID msg) (mTransactionID msg) (mUserID msg) →
  let ack := built (mVersion msg) response PrimitiveHelloAck (mConferenceID msg) (mTransactionID msg)
               (mUserID msg) hello_attrs in
  ∃ bs, Encode ack = Ok (sized ack, bs) ∧ says_hello bs msg response.
Proof.
  intros Hv Hi ack.
  destruct (built_received (mVersion msg) response PrimitiveHelloAck (mConferenceID msg)
    (mTransactionID msg) (mUserID msg) hello_attrs
    [(AttrSupportedPrimitives, true, hello_primitives); (AttrSupportedAttributes, true, hello_attributes)] Hv)
    as (bs & m & Henc & Hdec & Hhd & Hat).
  - apply (bool_decide_unpack _); exact I.
  - done.
  - repeat apply Forall2_cons_2; [constructor..|done].
  - repeat (apply Forall_cons; split); [..|done]; (split; [done|]); unfold max_value_len; cbn; lia.
  - apply (bool_decide_unpack _); exact I.
  - exists bs. split; [done|]. exists m. split_and!; [done|done|..];
      unfold GetAttribute; rewrite Hat; done.
Qed.

(** ** The handlers *)

(** The session [i] is registered at [r]; no floor, endpoint or transport changed. *)
Record greeted (w w' : World) (i : nat) (r : string) (pk : list (string * bytes)) : Prop := {
  gr_sessions : w_sessions w' = <[r := i]> (w_sessions w);
  gr_endpoints : endpoints w' = endpoints w;
  gr_udp : w_udp_transports w' = w_udp_transports w;
  gr_tcp : w_transports w' = w_transports w;
  gr_floors : w_floors w' = w_floors w;
  gr_heap : w_floor_heap w' = w_floor_heap w;
  gr_packets : packets (w_trace w') = packets (w_trace w) ++ pk;
  gr_calls : calls (w_trace w') = calls (w_trace w)
}.

Section Hello.
Context {env : Env}.

Lemma run_upd_session i f w :
  (∀ t s, endpoint (set_StateMachine (f t) s) = endpoint s) → is_Some (w_session_heap w !! i) →
  ∃ w', run (upd_session i f) w = Ok (tt, w') ∧ step w w' [] [] ∧ is_Some (w_session_heap w' !! i).
Proof.
  intros Hf [s Hs]. eexists. split_and!; [by apply run_update with s|apply step_tick|].
  - split; [split; try done|done..]; [|by rewrite app_nil_r..].
    apply endpoints_update. intros. apply Hf.
  - cbn. rewrite list_lookup_alter_eq, Hs. by eexists.
Qed.

Lemma run_store_supported i msg w :
  is_Some (w_session_heap w !! i) →
  ∃ w', run (store_supported i msg) w = Ok (tt, w') ∧ step w w' [] [].
Proof.
  intros Hs. unfold store_supported.
  assert (∃ w1, run (match GetAttribute AttrSupportedPrimitives msg with
    | Some attr => upd_session i (λ _, SetSupportedPrimitives (aValue attr))
    | None => mret tt end) w = Ok (tt, w1) ∧ step w w1 [] [] ∧ is_Some (w_session_heap w1 !! i))
    as (w1 & H1 & Hs1 & Hs').
  { case_match; [by apply run_upd_session|]. exists w. by split_and!; [|apply step_refl|]. }
  rewrite (run_bind_Ok _ _ _ _ _ H1).
  destruct (GetAttribute AttrSupportedAttributes msg) as [a|].
  - destruct (run_upd_session i (λ _, SetSupportedAttributes (aValue a)) w1) as (w2 & H2 & Hs2 & _);
      [done|done|]. exists w2. split; [done|]. exact (step_trans _ _ _ _ _ _ _ Hs1 Hs2).
  - by exists w1.
Qed.

(** What the two handlers of a hello have in common; [k]: how they end. *)
Definition greet_over (ch : channel) (sess : nat) (msg : Message) (k : string → bool → prog ())
    : prog () :=
  upd_session sess (λ _, set_identity (mConferenceID msg) (mUserID msg)) ;;
  remoteAddr ← ch_remote ch sess;
  alreadyRegistered ← register_session remoteAddr sess;
  store_supported sess msg ;;
  ch_send ch sess (add_supported (fresh ch PrimitiveHelloAck msg)) ;;
  session_SetState sess StateWaitFloorRequest ;;
  k remoteAddr alreadyRegistered.

Context (ch : channel) {laws : ChannelLaws ch}.
#[local] Set Default Proof Using "laws".

Lemma run_greet i r msg w :
  ch_peer ch w i r (mVersion msg) → wf_request msg →
  (∀ w1 w2, endpoints w2 = endpoints w1 → w_udp_transports w2 = w_udp_transports w1 →
     w_transports w2 = w_transports w1 →
     ch_peer ch w1 i r (mVersion msg) → ch_peer ch w2 i r (mVersion msg)) →
  ∃ bs w', greeted w w' i r [(r, bs)] ∧ says_hello bs msg (response_flag ch msg) ∧
    ∀ k, steps (greet_over ch i msg k) w (k r (bool_decide (is_Some (w_sessions w !! r)))) w'.
Proof.
  intros Hp [Hv Hi _ _] Hpeer.
  destruct (run_upd_session i (λ _, set_identity (mConferenceID msg) (mUserID msg)) w)
    as (w1 & H1 & Hs1 & _); [done|by eapply ch_session|].
  pose proof (ch_comm _ _ _ _ _ _ _ (step_comm _ _ _ _ Hs1) Hp) as Hp1.
  set (w2 := set_sessions <[r := i]> w1).
  assert (ch_peer ch w2 i r (mVersion msg)) as Hp2 by by apply (Hpeer w1).
  destruct (run_store_supported i msg w2) as (w3 & H3 & Hs3); [by eapply ch_session|].
  pose proof (ch_comm _ _ _ _ _ _ _ (step_comm _ _ _ _ Hs3) Hp2) as Hp3.
  destruct (hello_received (response_flag ch msg) msg Hv Hi) as (bs & Henc & Hsays).
  destruct (ch_run_send w3 i r (mVersion msg) (ch_flag ch) PrimitiveHelloAck (mConferenceID msg)
    (mTransactionID msg) (mUserID msg) hello_attrs bs Hp3 Hv ltac:(done) Henc) as (w4 & H4 & Hs4).
  pose proof (ch_comm _ _ _ _ _ _ _ (step_comm _ _ _ _ Hs4) Hp3) as Hp4.
  destruct (run_session_SetState i StateWaitFloorRequest w4) as (w5 & H5 & Hs5); [by eapply ch_session|].
  pose proof (step_trans _ _ _ _ _ _ _ (step_trans _ _ _ _ _ _ _ Hs3 Hs4) Hs5) as Hs.
  pose proof (step_comm _ _ _ _ Hs) as Hc. pose proof (step_comm _ _ _ _ Hs1) as Hc1.
  pose proof (comm_sessions _ _ _ _ Hc1) as He.
  exists bs, w5. split_and!; [|done|].
  - split.
    + rewrite (comm_sessions _ _ _ _ Hc). cbn. by rewrite He.
    + exact (eq_trans (comm_endpoints _ _ _ _ Hc) (comm_endpoints _ _ _ _ Hc1)).
    + exact (eq_trans (comm_udp _ _ _ _ Hc) (comm_udp _ _ _ _ Hc1)).
    + exact (eq_trans (comm_tcp _ _ _ _ Hc) (comm_tcp _ _ _ _ Hc1)).
    + exact (eq_trans (step_floors _ _ _ _ Hs) (step_floors _ _ _ _ Hs1)).
    + exact (eq_trans (step_heap _ _ _ _ Hs) (step_heap _ _ _ _ Hs1)).
    + rewrite (comm_packets _ _ _ _ Hc). change (w_trace w2) with (w_trace w1). by rewrite (comm_packets _ _ _ _ Hc1), app_nil_r.
    + rewrite (comm_calls _ _ _ _ Hc). change (w_trace w2) with (w_trace w1). by rewrite (comm_calls _ _ _ _ Hc1), !app_nil_r.
  - intros k. unfold greet_over.
    eapply steps_run_bind; [exact H1|]. eapply steps_run_bind; [exact (ch_run_remote _ _ _ _ Hp1)|].
    assert (run (register_session r i) w1 = Ok (bool_decide (is_Some (w_sessions w !! r)), w2)) as H2.
    { unfold register_session. by rewrite run_atomic, He. }
    eapply steps_run_bind; [exact H2|]. eapply steps_run_bind; [exact H3|].
    rewrite fresh_built, add_supported_built. eapply steps_run_bind; [exact H4|].
    eapply steps_run_bind; [exact H5|constructor].
Qed.
End Hello.

Section HelloRuns.
Context {env : Env} (Hwrite : ∀ t, write_ok t = true).
#[local] Set Default Proof Using "Hwrite".
#[local] Instance udp_hello_laws : ChannelLaws udp_channel := udp_laws Hwrite.
#[local] Instance tcp_hello_laws : ChannelLaws tcp_channel := tcp_laws Hwrite.

Definition connect_calls (known : bool) (r : string) (user : Z) : list event :=
  if negb known && OnClientConnect hooks then [ClientConnect r user] else [].

(** Over UDP the application is told of the client the first time. *)
Lemma run_handleUDPHello i r msg w :
  udp_peer w i r (mVersion msg) → wf_request msg →
  ∃ bs w1 w', run (handleUDPHello i msg) w = Ok (tt, w') ∧ greeted w w1 i r [(r, bs)] ∧
    says_hello bs msg (response_flag udp_channel msg) ∧
    step w1 w' [] (connect_calls (bool_decide (is_Some (w_sessions w !! r))) r (mUserID msg)).
Proof.
  intros Hp Hm. destruct (run_greet udp_channel i r msg w Hp Hm) as (bs & w1 & Hg & Hsays & Hrun).
  { intros w1 w2 He Hu _ (tcp & t & Hi & Ht). exists tcp, t. by rewrite He, Hu. }
  destruct (run_callback (negb (bool_decide (is_Some (w_sessions w !! r))) && OnClientConnect hooks)
    (ClientConnect r (mUserID msg)) w1) as (w2 & H2 & Hs2); [done..|].
  exists bs, w1, w2. split_and!; [|done|done|done].
  etrans; [exact (steps_run _ _ _ _ (Hrun (λ remoteAddr alreadyRegistered,
    when (negb alreadyRegistered && OnClientConnect hooks)
      (emit (ClientConnect remoteAddr (mUserID msg))))))|exact H2].
Qed.

(** A transport that is kept alive, by one goroutine more. *)
Definition keep_alive (sender : Z * Z) (tr : Transport) : Transport :=
  with_wg (wg_more (tKeepaliveWg tr)) (with_keepalive keepalive_interval sender tr).

(** The keepalive of the transport of a session. *)
Definition keeps_alive (w w' : World) (i : nat) (conf user : Z) : Prop :=
  ∃ t tr v, endpoints w !! i = Some (Some t, None, v) ∧ w_transports w !! t = Some tr ∧
    w_transports w' =
      <[t := keep_alive (conf, user) tr]> (w_transports w).

(** The goroutine that is counted is one more, unless somebody waits for none to be left. *)
Lemma run_StartKeepalive t tr w :
  w_transports w !! t = Some tr → is_Some (tKeepalive tr) → 0 < tKeepaliveInterval tr →
  wgWaiters (tKeepaliveWg tr) = 0%nat →
  run (StartKeepalive t) w =
    Ok (tt, set_transports <[t := with_wg (wg_more (tKeepaliveWg tr)) tr]> w).
Proof.
  intros Ht [s Hs] Hi Hwg. unfold StartKeepalive. rewrite (run_bind_Ok _ _ _ _ _ (run_deref _ _ _ w Ht)), Hs.
  replace (0 <? tKeepaliveInterval tr) with true by lia. unfold wg_call. rewrite run_atomic, Ht.
  unfold wg_add. by rewrite Hwg, andb_false_r.
Qed.

(** Over TCP the keepalive is started, and the application is told every time. *)
Lemma run_handleHello i r msg w :
  tcp_peer w i r (mVersion msg) → wf_request msg →
  ∃ bs w1 w' t tr, run (handleHello i msg) w = Ok (tt, w') ∧ greeted w w1 i r [(r, bs)] ∧
    says_hello bs msg (response_flag tcp_channel msg) ∧
    endpoints w !! i = Some (Some t, None, mVersion msg) ∧ w_transports w !! t = Some tr ∧
    step (set_transports <[t := keep_alive (mConferenceID msg, mUserID msg) tr]> w1) w' []
      (connect_calls false r (mUserID msg)).
Proof.
  intros Hp Hm.
  assert (∀ w1 w2, endpoints w2 = endpoints w1 → w_transports w2 = w_transports w1 →
    tcp_peer w1 i r (mVersion msg) → tcp_peer w2 i r (mVersion msg)) as Hmove
    by (intros w1 w2 He Ht (t & tr & ?); exists t, tr; by rewrite He, Ht).
  destruct (run_greet tcp_channel i r msg w Hp Hm) as (bs & w1 & Hg & Hsays & Hrun);
    [by intros w1 w2 ? _ ?; apply Hmove|].
  pose proof (gr_endpoints _ _ _ _ _ Hg) as Ge. pose proof (gr_tcp _ _ _ _ _ Hg) as Gt.
  pose proof (Hmove _ _ Ge Gt Hp) as (t & tr & Hi & Ht & Hr & Hcl & Hwg).
  pose proof Hi as (s & Hs & [= He1 He2 He3])%endpoints_lookup.
  set (tr1 := with_keepalive keepalive_interval (mConferenceID msg, mUserID msg) tr).
  set (tr' := keep_alive (mConferenceID msg, mUserID msg) tr).
  set (w2 := set_transports <[t := tr']> w1).
  assert (w_transports w2 !! t = Some tr') as Ht2
    by (apply list_lookup_insert_eq; by eapply lookup_lt_Some).
  destruct (run_callback (OnClientConnect hooks) (ClientConnect r (mUserID msg)) w2)
    as (w3 & H3 & Hs3); [done..|].
  exists bs, w1, w3, t, tr. rewrite <- Ge, <- Gt. split_and!; [|done|done|done|done|exact Hs3].
  etrans; [exact (steps_run _ _ _ _ (Hrun _))|]. cbv beta. rewrite (run_bind_Ok _ _ _ _ _ (run_deref _ _ _ w1 Hs)), He1.
  assert (run (EnableKeepalive t keepalive_interval (mConferenceID msg, mUserID msg)) w1 =
    Ok (tt, set_transports <[t := tr1]> w1)) as HE
    by (unfold EnableKeepalive; by rewrite run_atomic, Ht).
  rewrite (run_bind_Ok _ _ _ _ _ HE).
  assert (run (StartKeepalive t) (set_transports <[t := tr1]> w1) = Ok (tt, w2)) as HS.
  { rewrite (run_StartKeepalive t tr1);
      [|apply list_lookup_insert_eq; by eapply lookup_lt_Some|by eexists|done|done].
    unfold w2, set_transports. cbn. by rewrite list_insert_insert_eq. }
  rewrite (run_bind_Ok _ _ _ _ _ HS), <- H3. destruct (OnClientConnect hooks); [|done]. cbn [when].
  assert (run (Transport_RemoteAddr t) w2 = Ok (r, w2)) as HR
    by (unfold Transport_RemoteAddr; by rewrite run_atomic, Ht2, <- Hr).
  by rewrite (run_bind_Ok _ _ _ _ _ HR).
Qed.

(** C20: a hello over TCP registers the session of its connection under its address, is
    answered with one acknowledgement of its transaction that lists what the server
    supports, starts a keepalive in the name of its user - one more goroutine with every
    hello - and tells the application of the client, every time; no floor changes. *)
Theorem tcp_hello_served i r v msg w :
  tcp_peer w i r v → wf_request msg → mPrimitive msg = PrimitiveHello →
  ∃ bs w', run (handleMessage i msg) w = Ok (tt, w') ∧ says_hello bs msg false ∧
    packets (w_trace w') = packets (w_trace w) ++ [(r, bs)] ∧
    calls (w_trace w') = calls (w_trace w) ++ connect_calls false r (mUserID msg) ∧
    w_sessions w' = <[r := i]> (w_sessions w) ∧ tcp_peer w' i r (mVersion msg) ∧
    keeps_alive w w' i (mConferenceID msg) (mUserID msg) ∧ ∀ id, floor_of w' id = floor_of w id.
Proof.
  intros Hp Hm Hprim. destruct (run_tcp_heard i r v msg w Hp Hm) as (w0 & -> & Hh).
  pose proof (heard_tcp_peer _ _ _ _ _ _ Hh Hp) as Hp0.
  destruct (run_handleHello i r msg w0 Hp0 Hm) as (bs & w1 & w3 & t & tr & Hrun & [] & Hsays & Hi & Ht & Hs).
  pose proof (step_comm _ _ _ _ Hs) as Hc. exists bs, w3. split_and!; [|done|..].
  - unfold tcp_dispatch. rewrite Hprim. exact Hrun.
  - rewrite (comm_packets _ _ _ _ Hc), app_nil_r, <- (hr_packets _ _ _ _ Hh). exact gr_packets0.
  - rewrite (comm_calls _ _ _ _ Hc), <- (hr_calls _ _ _ _ Hh), <- gr_calls0. done.
  - rewrite (comm_sessions _ _ _ _ Hc), <- (hr_sessions _ _ _ _ Hh). exact gr_sessions0.
  - destruct Hp0 as (t' & tr' & Hi' & Ht' & Hr & Hcl & Hwg). simplify_eq.
    eexists t', _. rewrite (comm_endpoints _ _ _ _ Hc), (comm_tcp _ _ _ _ Hc).
    change (endpoints (set_transports ?f w1)) with (endpoints w1).
    cbn [set_transports w_transports]. rewrite gr_endpoints0, gr_tcp0.
    split_and!; [done|apply list_lookup_insert_eq; by eapply lookup_lt_Some|done..].
  - destruct Hp as (t' & tr2 & Hi' & Ht' & _). exists t, tr, v.
    rewrite (hr_endpoints _ _ _ _ Hh), list_lookup_alter_eq, Hi' in Hi.
    rewrite (comm_tcp _ _ _ _ Hc), <- (hr_tcp _ _ _ _ Hh). cbn [set_transports w_transports].
    rewrite gr_tcp0. split_and!; [by simplify_eq/=|done|done].
  - intros id. rewrite (step_floor_of _ _ _ _ id Hs), <- (heard_floor_of _ _ _ _ id Hh).
    unfold floor_of. cbn. by rewrite gr_floors0, gr_heap0.
Qed.
End HelloRuns.

Lemma demo_hello_ok : wf_request (demo_message 1 PrimitiveHello 4 8).
Proof. apply wf_request_check. by vm_compute. Qed.

Lemma tcp_hello_served_witness :
  ∃ bs w', run (@handleMessage (demo_env TransportTCP) 1 (demo_message 1 PrimitiveHello 4 8)) demo_tcp =
      Ok (tt, w') ∧ packets (w_trace w') = [("b", bs)] ∧
    says_hello bs (demo_message 1 PrimitiveHello 4 8) false ∧
    calls (w_trace w') = [ClientConnect "b" 8] ∧ keeps_alive demo_tcp w' 1 1 8.
Proof.
  destruct (@tcp_hello_served (demo_env TransportTCP) (λ _, eq_refl) 1 "b" 1
    (demo_message 1 PrimitiveHello 4 8) demo_tcp demo_tcp_b demo_hello_ok eq_refl)
    as (bs & w' & Hrun & Hs & Hp & Hc & _ & _ & Hk & _).
  exists bs, w'. split; [exact Hrun|]. split; [exact Hp|]. split; [exact Hs|].
  split; [exact Hc|exact Hk].
Defined.
