(* ===== verification/Keepalive.v ===== *)
(** * Closing a transport that is kept alive

    The whole of [Close] of [transport.go]: it marks the transport as closed and cancels
    its context, and then waits for the goroutines of its keepalive.  The programs of the
    server have the first part alone ([Transport_Close]). *)

From S2P Require Import Prelude Types Message Grouped Codec FloorFSM Session Prog World Transport UDPClient Server Threads Interleave Frame ServerSafe Scenario ServerRun Responses FloorLocks Channel Service Served Hello.

(** The critical section: whether the transport was closed before. *)
Definition close_section (t : nat) : prog bool :=
  atomic (λ w,
    match w_transports w !! t with
    | None => Panic
    | Some tr => if tClosed tr then Ok (true, w)
                 else Ok (false, set_transports <[t := close_tcp tr]> w)
    end).

Definition Close (t : nat) : prog () :=
  closed ← close_section t;
  if closed : bool then mret tt else wg_Wait t.

(** What is left of it while it waits. *)
Definition close_waiting (t : nat) : prog () := wg_call t wg_acquire ;; wg_call t (wg_check 0).

(** The part that the programs of the server have is the critical section. *)
Lemma Transport_Close_section t w :
  run (Transport_Close t) w = r ← run (close_section t) w; Ok (tt, r.2).
Proof.
  unfold Transport_Close, close_section. rewrite !run_atomic.
  destruct (w_transports w !! t) as [tr|] eqn:Ht; [|done]. destruct (tClosed tr) eqn:Hcl; [|done].
  cbn. do 2 f_equal. destruct w, tr. cbn in *. unfold set_transports, close_tcp. cbn. subst.
  f_equal. by apply list_insert_id.
Qed.

(** ** Steps on the wait group *)

(** The transport [t] with the wait group [g]. *)
Definition put_wg (t : nat) (g : WaitGroup) (tr : Transport) (w : World) : World :=
  set_transports <[t := with_wg g tr]> w.

Lemma put_wg_lookup t g tr w x :
  w_transports w !! t = Some x → w_transports (put_wg t g tr w) !! t = Some (with_wg g tr).
Proof. intros Ht. apply list_lookup_insert_eq. by eapply lookup_lt_Some. Qed.


Lemma run_wg_call {A} t (f : WaitGroup → call (A * WaitGroup)) tr w a g :
  w_transports w !! t = Some tr → f (tKeepaliveWg tr) = Ok (a, g) →
  run (wg_call t f) w = Ok (a, put_wg t g tr w).
Proof. intros Ht Hf. unfold wg_call. by rewrite run_atomic, Ht, Hf. Qed.


(** [Close] of a transport that is kept alive waits. *)
Lemma steps_Close t tr w n waiters sema :
  w_transports w !! t = Some tr → tClosed tr = false →
  tKeepaliveWg tr = mkWaitGroup (S n) waiters sema →
  steps (Close t) w (close_waiting t)
    (put_wg t (mkWaitGroup (S n) (S waiters) sema) (close_tcp tr) w).
Proof.
  intros Ht Hcl Hg. set (w1 := set_transports <[t := close_tcp tr]> w).
  assert (run (close_section t) w = Ok (false, w1)) as H1
    by (unfold close_section; by rewrite run_atomic, Ht, Hcl).
  assert (w_transports w1 !! t = Some (close_tcp tr)) as Ht1
    by (apply list_lookup_insert_eq; by eapply lookup_lt_Some).
  unfold Close. eapply steps_run_bind; [exact H1|]. unfold wg_Wait.
  eapply steps_run_bind; [apply (run_wg_call t wg_enter _ _ false (mkWaitGroup (S n) (S waiters) sema) Ht1)|].
  { unfold wg_enter. cbn [close_tcp tKeepaliveWg]. by rewrite Hg. }
  cbv iota. replace (put_wg t _ (close_tcp tr) w1)
    with (put_wg t (mkWaitGroup (S n) (S waiters) sema) (close_tcp tr) w); [constructor|].
  unfold put_wg, w1, set_transports. cbn. by rewrite list_insert_insert_eq.
Qed.



Section Keepalive.
Context {env : Env}.

(** ** The goroutine of the keepalive *)

(** The [select], whatever it comes to. *)
Lemma run_keepalive_cancelled t tr ticked w :
  w_transports w !! t = Some tr →
  run (keepalive_cancelled t ticked) w =
    Ok (context_done (w_tick w) tr && (negb ticked || (chance (w_tick w) =? 0)%nat), tick w).
Proof. intros Ht. unfold keepalive_cancelled. by rewrite run_atomic, Ht. Qed.

(** When the transport is closed, a tick brings the goroutine to its end, and so does any
    wake-up when its context is done: it says nothing more. *)
Lemma steps_closed_wake t tr ticked wakes w :
  w_transports w !! t = Some tr → tClosed tr = true → (ticked = true ∨ tContext tr = None) →
  steps (keepalive_wakes t (ticked :: wakes)) w (keepalive_end t) (tick w).
Proof.
  intros Ht Hcl Hor. cbn [keepalive_wakes].
  eapply steps_run_bind; [by apply (run_keepalive_cancelled t tr)|].
  destruct (context_done _ _ && _) eqn:Hc; [constructor|].
  destruct ticked; [|destruct Hor as [?|Hctx]; [done|]].
  - eapply steps_run_bind with (a := true) (w' := tick w); [|constructor].
    unfold Transport_IsClosed. rewrite run_atomic. cbn [w_transports tick]. by rewrite Ht, Hcl.
  - unfold context_done in Hc. rewrite Hctx in Hc. cbn in Hc. by rewrite Hcl in Hc.
Qed.


(** ** Close and its keepalive *)



End Keepalive.

(** ** Close and a hello *)

Section Race.
Context {env : Env} (Hwrite : ∀ t, write_ok t = true).
#[local] Set Default Proof Using "Hwrite".
#[local] Instance race_laws : ChannelLaws tcp_channel := tcp_laws Hwrite.

(** The handler of a hello, before it counts the goroutine that it starts. *)
Lemma hello_counts i r v msg t tr w :
  tcp_peer w i r v → wf_request msg → mPrimitive msg = PrimitiveHello →
  endpoints w !! i = Some (Some t, None, v) → w_transports w !! t = Some tr →
  let tr1 := with_keepalive keepalive_interval (mConferenceID msg, mUserID msg) tr in
  ∃ (k : () → prog ()) w1, steps (handleMessage i msg) w (wg_call t wg_add ≫= k) w1 ∧
    w_transports w1 = <[t := tr1]> (w_transports w).
Proof.
  intros Hp Hm Hprim Hi Ht tr1. destruct (steps_tcp_heard i r v msg w Hp Hm) as (w0 & Hs0 & Hh).
  pose proof (heard_tcp_peer _ _ _ _ _ _ Hh Hp) as Hp0.
  destruct (run_greet tcp_channel i r msg w0 Hp0 Hm) as (bs & w1 & Hg & _ & Hs1).
  { intros wa wb He _ Hta (t' & tr' & ?). exists t', tr'. by rewrite He, Hta. }
  assert (endpoints w1 !! i = Some (Some t, None, mVersion msg)) as Hi1.
  { by rewrite (gr_endpoints _ _ _ _ _ Hg), (hr_endpoints _ _ _ _ Hh), list_lookup_alter_eq, Hi. }
  assert (w_transports w1 = w_transports w) as Etr by by rewrite (gr_tcp _ _ _ _ _ Hg), (hr_tcp _ _ _ _ Hh).
  apply endpoints_lookup in Hi1 as (s & Hs & [= He1 _ _]).
  set (w2 := set_transports <[t := tr1]> w1).
  assert (w_transports w2 !! t = Some tr1) as Ht2
    by (apply list_lookup_insert_eq; rewrite Etr; by eapply lookup_lt_Some).
  eexists _, w2. split; [|by rewrite <- Etr].
  eapply steps_trans; [exact Hs0|]. unfold tcp_dispatch. rewrite Hprim. cbn [Z.eqb Pos.eqb PrimitiveHello].
  eapply steps_trans; [exact (Hs1 _)|]. cbv beta.
  eapply steps_run_bind; [exact (run_deref _ _ _ w1 Hs)|]. rewrite He1.
  eapply steps_run_bind with (w' := w2) (a := tt).
  { unfold EnableKeepalive. by rewrite run_atomic, Etr, Ht. }
  apply steps_bind. unfold StartKeepalive. eapply steps_run_bind; [exact (run_deref _ _ _ w2 Ht2)|].
  constructor.
Qed.

(** C24: a server that closes panics when a client says hello a second time at the wrong
    moment.  A transport with a keepalive goroutine is closed - [Close] waits -; the
    goroutine is the last, and between its decrement of the wait group's counter and the
    reset of its state the handler of a second hello on the connection calls
    [keepaliveWg.Add(1)]: for every such transport and hello there is an interleaving of
    the three goroutines that ends in the panic of [sync.WaitGroup]. *)
Theorem close_races_hello i r v msg t tr ticked wakes w :
  tcp_peer w i r v → wf_request msg → mPrimitive msg = PrimitiveHello →
  endpoints w !! i = Some (Some t, None, v) → w_transports w !! t = Some tr →
  keepalive_on tr → keepalives tr = 1%nat → tContext tr = None →
  ∃ sched, pool_run sched [handleMessage i msg; Close t; keepaliveLoop t (ticked :: wakes)] w = Panic.
Proof.
  intros Hp Hm Hprim Hi Ht Hon Hk Hctx.
  destruct (hello_counts i r v msg t tr w Hp Hm Hprim Hi Ht) as (k & w1 & S1 & E1).
  set (tr1 := with_keepalive _ _ tr) in E1.
  assert (w_transports w1 !! t = Some tr1) as Ht1
    by (rewrite E1; apply list_lookup_insert_eq; by eapply lookup_lt_Some).
  destruct Hp as (t' & tr' & Hi' & Ht' & _ & Hcl & Hwg).
  assert (t' = t) as -> by congruence. assert (tr' = tr) as -> by congruence.
  assert (tKeepaliveWg tr1 = mkWaitGroup 1 0 (wgSema (tKeepaliveWg tr))) as Hg1.
  { unfold keepalives in Hk. cbn. destruct (tKeepaliveWg tr). cbn in *. by subst. }
  pose proof (steps_Close t tr1 w1 0 0 _ Ht1 Hcl Hg1) as S2.
  set (w2 := put_wg t _ _ w1) in S2. set (g := mkWaitGroup 1 1 (wgSema (tKeepaliveWg tr))) in w2.
  assert (w_transports w2 !! t = Some (with_wg g (close_tcp tr1))) as Ht2 by by eapply put_wg_lookup.
  assert (steps (keepaliveLoop t (ticked :: wakes)) w2 (keepalive_end t) (tick w2)) as S3.
  { unfold keepaliveLoop. eapply steps_run_bind; [exact (run_deref _ _ _ w2 Ht2)|].
    eapply steps_closed_wake; [exact Ht2|done|by right]. }
  pose proof (run_wg_call t wg_sub _ (tick w2) 1%nat (mkWaitGroup 0 1 (wgSema (tKeepaliveWg tr))) Ht2 eq_refl) as R4.
  set (w3 := put_wg t _ _ (tick w2)) in R4.
  assert (steps (keepaliveLoop t (ticked :: wakes)) w2
    (wg_call t (wg_check 1) ;; wg_call t (wg_release 1)) w3) as S4.
  { eapply steps_trans; [exact S3|]. eapply steps_run_bind; [exact R4|constructor]. }
  assert (w_transports w3 !! t = Some (with_wg (mkWaitGroup 0 1 (wgSema (tKeepaliveWg tr))) (with_wg g (close_tcp tr1))))
    as Ht3 by (apply (put_wg_lookup t _ _ (tick w2) _ Ht2)).
  assert (run (wg_call t wg_add ≫= k) w3 = Panic) as R5.
  { rewrite run_bind. unfold wg_call. by rewrite run_atomic, Ht3. }
  set (p2 := wg_call t (wg_check 1) ;; wg_call t (wg_release 1)) in S4.
  destruct (steps_pool _ _ _ _ S1 0 [handleMessage i msg; Close t; keepaliveLoop t (ticked :: wakes)] eq_refl)
    as [n1 H1].
  destruct (steps_pool _ _ _ _ S2 1 [wg_call t wg_add ≫= k; Close t; keepaliveLoop t (ticked :: wakes)] eq_refl)
    as [n2 H2].
  destruct (steps_pool _ _ _ _ S4 2
    [wg_call t wg_add ≫= k; close_waiting t; keepaliveLoop t (ticked :: wakes)] eq_refl) as [n3 H3].
  destruct (pool_panics _ 0 [wg_call t wg_add ≫= k; close_waiting t; p2] w3 R5 eq_refl) as [n4 H4].
  exists (replicate n1 0%nat ++ replicate n2 1%nat ++ replicate n3 2%nat ++ replicate n4 0%nat).
  rewrite (pool_run_app _ _ _ _ _ _ H1). cbn [list_insert insert].
  rewrite (pool_run_app _ _ _ _ _ _ H2). cbn [list_insert insert].
  rewrite (pool_run_app _ _ _ _ _ _ H3). exact H4.
Qed.
End Race.

(** ** A transport that is kept alive *)

Definition kept_transport (ctx : option (nat → bool)) : Transport :=
  mkTransport "b" RolePassive ctx false keepalive_interval (Some (1, 8)) (mkWaitGroup 1 0 0).

Definition kept_world (ctx : option (nat → bool)) : World :=
  set_transports <[1%nat := kept_transport ctx]> demo_tcp.


Lemma kept_hello_ok : wf_request (demo_message 1 PrimitiveHello 5 8).
Proof. apply wf_request_check. by vm_compute. Qed.

(** User 8 has said hello, and says it again while the server closes. *)
Lemma close_races_hello_witness :
  keepalives (kept_transport None) = 1%nat ∧
  ∃ sched, pool_run sched
    [@handleMessage (demo_env TransportTCP) 1 (demo_message 1 PrimitiveHello 5 8); Close 1;
     @keepaliveLoop (demo_env TransportTCP) 1 [false]] (kept_world None) = Panic.
Proof.
  split; [reflexivity|].
  assert (tcp_peer (kept_world None) 1 "b" 1) as Hp by (by eexists 1%nat, _).
  assert (keepalive_on (kept_transport None)) as Hon by (split; [by eexists|by vm_compute]).
  exact (@close_races_hello (demo_env TransportTCP) (λ _, eq_refl) 1 "b" 1 (demo_message 1 PrimitiveHello 5 8)
    1 (kept_transport None) false [] (kept_world None) Hp kept_hello_ok eq_refl eq_refl eq_refl Hon eq_refl
    eq_refl).
Defined.
