(* ===== verification/Quiet.v ===== *)
(** * What the handlers of the server leave alone

    A frame for every message handler: the parts of the world that it does not change,
    proved statement by statement. *)

From S2P Require Import Prelude Types Message Grouped Codec FloorFSM Session Prog World Transport UDPClient Server Interleave ServerRun.

Lemma run_bind_inv {W A B} (p : gprog W A) (k : A → gprog W B) w r :
  run (p ≫= k) w = Ok r → ∃ a w', run p w = Ok (a, w') ∧ run (k a) w' = Ok r.
Proof. rewrite run_bind. destruct (run p w) as [[a w']| | |]; [|done..]. intros H. by exists a, w'. Qed.

(** The users that the sessions belong to. *)
Definition users (w : World) : list Z := (λ s, ssmUserID (sStateMachine s)) <$> w_session_heap w.

(** Endpoints and UDP transports stay, and no floor goes away; with [b] the registrations
    stay, too, with [u] the users of the sessions, and with [c] the TCP transports. *)
Record quiet (b u c : bool) (w w' : World) : Prop := {
  qt_sessions : b = true → w_sessions w' = w_sessions w;
  qt_users : u = true → users w' = users w;
  qt_tcp : c = true → w_transports w' = w_transports w;
  qt_endpoints : endpoints w' = endpoints w;
  qt_udp : w_udp_transports w' = w_udp_transports w;
  qt_listener : w_udp_sessions w' = w_udp_sessions w;
  qt_clients : w_udp_clients w' = w_udp_clients w;
  qt_floors : w_floors w ⊆ w_floors w'
}.

#[global] Instance quiet_preorder b u c : PreOrder (quiet b u c).
Proof.
  split; [by split|]. intros w1 w2 w3 [H Hu Ht] [H' Hu' Ht']. split; try congruence; [..|by etrans].
  - intros Hb. by rewrite H', H.
  - intros Hb. by rewrite Hu', Hu.
  - intros Hc. by rewrite Ht', Ht.
Qed.

(** [quietly] proves that a program is [quiet]: statement by statement. *)
Ltac quiet_step :=
  first
    [ apply keeps_Ret
    | solve [auto with quiet nocore]
    | apply keeps_when
    | apply keeps_for_each; intros
    | apply keeps_bind; [|intros]
    | match goal with
      | |- keeps (quiet _ _ _) (atomic _) => apply keeps_atomic
      | |- keeps (quiet _ _ _) (if ?b then _ else _) => destruct b
      | |- keeps (quiet _ _ _) (match ?x with _ => _ end) => destruct x
      end ].
Ltac quietly := repeat quiet_step.
Ltac quiet_leaf := simplify_eq/=; by split.
Create HintDb quiet.

Section Quiet.
Context {env : Env} (b u c : bool).

Lemma quiet_deref {A} (heap : World → list A) l : keeps (quiet b u c) (deref heap l).
Proof. apply keeps_atomic. intros w a w' _ H. cbv beta zeta in H. case_match; quiet_leaf. Qed.
Lemma quiet_gets {A} (f : World → A) : keeps (quiet b u c) (gets f).
Proof. apply keeps_atomic. intros w a w' _ H. cbv beta zeta in H. quiet_leaf. Qed.
Lemma quiet_lift {A} (r : call A) : keeps (quiet b u c) (lift r).
Proof. apply keeps_atomic. intros w a w' _ H. cbv beta zeta in H. destruct r; quiet_leaf. Qed.
Lemma quiet_emit e : keeps (quiet b u c) (emit e).
Proof. apply keeps_atomic. intros w a w' _ H. cbv beta zeta in H. quiet_leaf. Qed.
Lemma quiet_range `{Countable K} (m : World → gmap K nat) : keeps (quiet b u c) (range_of m).
Proof. apply keeps_atomic. intros w a w' _ H'. cbv beta zeta in H'. quiet_leaf. Qed.
Lemma quiet_nextTxID : keeps (quiet b u c) nextTxID_Add.
Proof. apply keeps_atomic. intros w a w' _ H. cbv beta zeta in H. quiet_leaf. Qed.

Lemma quiet_floor_call {X} l op (f : Time → FloorStateMachine → X * FloorStateMachine) :
  keeps (quiet b u c) (floor_call l op f).
Proof.
  apply keeps_atomic. intros w a w' _ H. cbv beta zeta in H. destruct (w_floor_heap w !! l); [|done].
  destruct (f _ _). quiet_leaf.
Qed.

Lemma quiet_upd i f :
  (∀ t s, endpoint (set_StateMachine (f t) s) = endpoint s) →
  (u = true → ∀ t s, ssmUserID (f t s) = ssmUserID s) → keeps (quiet b u c) (upd_session i f).
Proof.
  intros Hf Hu. apply keeps_atomic. intros w a w' _ H. cbv beta zeta in H.
  destruct (w_session_heap w !! i) as [s|] eqn:Hs; [|done]. simplify_eq. set (g := f _).
  split; try done.
  - intros Hb. unfold users. cbn. rewrite list_fmap_insert. apply list_insert_id.
    rewrite list_lookup_fmap, Hs. cbn. unfold g. by rewrite Hu.
  - change (endpoints (set_session_heap <[i := set_StateMachine g s]> w) = endpoints w).
    rewrite (session_heap_alter (set_StateMachine g) _ _ _ Hs). apply endpoints_update. intros. apply Hf.
Qed.
Lemma quiet_SetState i st : keeps (quiet b u c) (session_SetState i st).
Proof. by apply quiet_upd. Qed.

Lemma quiet_TCP_send t msg : keeps (quiet b u c) (Transport_SendMessage t msg).
Proof.
  apply keeps_atomic. intros w a w' _ H. cbv beta zeta in H. destruct (w_transports w !! t) as [tr|]; [|done].
  destruct (tClosed tr); [quiet_leaf|].
  unfold encode_or in H. destruct (Encode msg) as [[m bs]| | |]; simplify_eq; [|done].
  unfold socket_write in H. destruct (write_ok _); quiet_leaf.
Qed.

Lemma quiet_TCP_remote t : keeps (quiet b u c) (Transport_RemoteAddr t).
Proof. apply keeps_atomic. intros w a w' _ H. cbv beta zeta in H. case_match; quiet_leaf. Qed.

Lemma quiet_UDP_send t msg : keeps (quiet b u c) (UDPTransport_SendMessage t msg).
Proof.
  apply keeps_atomic. intros w a w' _ H. cbv beta zeta in H. destruct (w_udp_transports w !! t) as [[[r|] []]|]; simplify_eq; try done.
  unfold encode_or in H. destruct (Encode msg) as [[m bs]| | |]; simplify_eq; [|done].
  unfold socket_write in H. destruct (write_ok _); quiet_leaf.
Qed.

Lemma quiet_UDP_remote t : keeps (quiet b u c) (UDPTransport_RemoteAddr t).
Proof. apply keeps_atomic. intros w a w' _ H. cbv beta zeta in H. repeat case_match; quiet_leaf. Qed.

Lemma quiet_CreateFloor id : keeps (quiet b u c) (CreateFloor id).
Proof.
  apply keeps_atomic. intros w a w' _ H. cbv beta zeta in H. destruct (w_floors w !! id) eqn:Hl; simplify_eq; [done|].
  split; try done. by apply insert_subseteq.
Qed.
End Quiet.

#[export] Hint Resolve quiet_deref quiet_gets quiet_lift quiet_emit quiet_range quiet_nextTxID
  quiet_floor_call quiet_SetState quiet_UDP_send quiet_UDP_remote quiet_TCP_send quiet_TCP_remote
  quiet_CreateFloor : quiet.

(** A change of a TCP transport. *)
Lemma quiet_transport b u (p : prog ()) :
  (∃ f, p = atomic f ∧ ∀ w w', f w = Ok (tt, w') →
     w' = w ∨ ∃ t tr, w' = set_transports <[t := tr]> w) → keeps (quiet b u false) p.
Proof.
  intros (f & -> & Hf). apply keeps_atomic. intros w [] w' _ [->|(t & tr & ->)]%Hf; [done|by split].
Qed.

Section QuietHandlers.
Context {env : Env} (b u c : bool).

Lemma quiet_floor_get {X} l (f : FloorStateMachine → X) : keeps (quiet b u c) (floor_get l f).
Proof. unfold floor_get. quietly. Qed.
Hint Resolve quiet_floor_get : quiet.

Lemma quiet_message_out r msg : keeps (quiet b u c) (message_out r msg).
Proof. unfold message_out. quietly. Qed.
Hint Resolve quiet_message_out : quiet.

Lemma quiet_sendUDP i msg : keeps (quiet b u c) (sendUDP i msg).
Proof. unfold sendUDP. quietly. Qed.
Lemma quiet_udp_remote i : keeps (quiet b u c) (udp_remote i).
Proof. unfold udp_remote. quietly. Qed.
Hint Resolve quiet_sendUDP quiet_udp_remote : quiet.
Lemma quiet_send i msg : keeps (quiet b u c) (send i msg).
Proof. unfold send. quietly. Qed.
Lemma quiet_tcp_remote i : keeps (quiet b u c) (tcp_remote i).
Proof. unfold tcp_remote. quietly. Qed.

Lemma quiet_GetFloor id : keeps (quiet b u c) (GetFloor id).
Proof. apply quiet_gets. Qed.
Hint Resolve quiet_GetFloor : quiet.

Lemma quiet_find_floor test ls : (∀ l, keeps (quiet b u c) (test l)) → keeps (quiet b u c) (find_floor test ls).
Proof. intros Ht. induction ls as [|l ls IH]; cbn [find_floor]; quietly. Qed.

Lemma quiet_GetFloorByRequestID r : keeps (quiet b u c) (GetFloorByRequestID r).
Proof. unfold GetFloorByRequestID. quietly. apply quiet_find_floor. intros. quietly. Qed.
Lemma quiet_floorOwnedBy user : keeps (quiet b u c) (floorOwnedBy user).
Proof. unfold floorOwnedBy. quietly. apply quiet_find_floor. intros. quietly. Qed.
Hint Resolve quiet_GetFloorByRequestID quiet_floorOwnedBy : quiet.

Lemma quiet_floors_owned user ls : keeps (quiet b u c) (floors_owned user ls).
Proof. induction ls as [|l ls IH]; cbn [floors_owned]; quietly. Qed.
Hint Resolve quiet_floors_owned : quiet.
End QuietHandlers.

#[export] Hint Resolve quiet_floor_get quiet_sendUDP quiet_udp_remote quiet_send quiet_tcp_remote
  quiet_GetFloor quiet_GetFloorByRequestID quiet_floorOwnedBy quiet_floors_owned : quiet.

Section QuietDispatch.
Context {env : Env}.

(** Every message but a hello leaves the registrations alone, and every one but a hello
    and a goodbye the transports. *)
Lemma quiet_udp_dispatch i msg :
  keeps (quiet (negb (mPrimitive msg =? PrimitiveHello)) (negb (mPrimitive msg =? PrimitiveHello)) true)
    (udp_dispatch i msg).
Proof.
  unfold udp_dispatch. destruct (mPrimitive msg =? PrimitiveHello); cbn [negb].
  - unfold handleUDPHello, store_supported, register_session.
    quietly; try by apply quiet_upd. intros ??? _ H. quiet_leaf.
  - unfold handleUDPFloorRequest, handleUDPFloorRelease, handleUDPFloorQuery, handleUDPGoodbye,
      sendUDPError, sendUDPFloorStatusResponse, request_floor, ask_grant, release_lookup,
      add_floor_state, release_owned, broadcastFloorStatusUDP, floor_Request, floor_Grant, floor_Deny,
      floor_Release.
    quietly.
Qed.

Lemma quiet_EnableKeepalive b u t n s : keeps (quiet b u false) (EnableKeepalive t n s).
Proof.
  apply quiet_transport. eexists. split; [done|]. intros w w' H. cbv beta in H.
  destruct (w_transports w !! t); simplify_eq. right. by eexists _, _.
Qed.
Lemma quiet_wg_add b u t : keeps (quiet b u false) (wg_call t wg_add).
Proof.
  apply quiet_transport. eexists. split; [done|]. intros w w' H. cbv beta in H.
  destruct (w_transports w !! t) as [tr|]; [|done]. unfold wg_add in H. destruct (_ && _); simplify_eq/=.
  right. by eexists _, _.
Qed.
Lemma quiet_StartKeepalive b u t : keeps (quiet b u false) (StartKeepalive t).
Proof. pose proof (quiet_wg_add b u t). unfold StartKeepalive. quietly. Qed.
Lemma quiet_Close b u t : keeps (quiet b u false) (Transport_Close t).
Proof.
  apply quiet_transport. eexists. split; [done|]. intros w w' H. cbv beta in H.
  destruct (w_transports w !! t); simplify_eq. right. by eexists _, _.
Qed.
Hint Resolve quiet_EnableKeepalive quiet_StartKeepalive quiet_Close : quiet.

Lemma quiet_tcp_dispatch i msg :
  keeps (quiet (negb (mPrimitive msg =? PrimitiveHello)) (negb (mPrimitive msg =? PrimitiveHello))
           (negb ((mPrimitive msg =? PrimitiveHello) || (mPrimitive msg =? PrimitiveGoodbye))))
    (tcp_dispatch i msg).
Proof.
  unfold tcp_dispatch. destruct (mPrimitive msg =? PrimitiveHello); cbn [negb orb].
  { unfold handleHello, store_supported, register_session.
    quietly; try by apply quiet_upd. intros ??? _ H. quiet_leaf. }
  unfold handleFloorRequest, handleFloorRelease, handleFloorQuery, handleGoodbye, sendError,
    sendFloorStatus, request_floor, ask_grant, release_lookup, add_floor_state, release_owned,
    broadcastFloorStatus, floor_Request, floor_Grant, floor_Deny, floor_Release, sleep.
  destruct (mPrimitive msg =? PrimitiveFloorRequest); [quietly|].
  destruct (mPrimitive msg =? PrimitiveFloorRelease); [quietly|].
  destruct (mPrimitive msg =? PrimitiveFloorQuery); [quietly|].
  destruct (mPrimitive msg =? PrimitiveGoodbye); cbn [negb]; quietly.
Qed.

(** A hello makes its sender the user of the session. *)
Lemma hello_users i msg w w' :
  run (handleHello i msg) w = Ok (tt, w') → users w' = <[i := mUserID msg]> (users w).
Proof.
  unfold handleHello. intros H. destruct (run_bind_inv _ _ _ _ H) as ([] & w1 & H1 & H2).
  assert (users w1 = <[i := mUserID msg]> (users w)) as <-.
  { unfold upd_session in H1. rewrite run_atomic in H1. destruct (w_session_heap w !! i) as [s|] eqn:Hs; [|done].
    cbn in H1. simplify_eq. unfold users. cbn. by rewrite list_fmap_insert. }
  refine (qt_users false true false _ _ _ eq_refl). refine (keeps_run _ _ _ _ _ _ H2).
  unfold store_supported, register_session. quietly; try by apply quiet_upd. intros ??? _ Hr. quiet_leaf.
Qed.
End QuietDispatch.
