(* ===== verification/LateGrant.v ===== *)
(** * The grant after the pause

    Over TCP the handler of a floor request answers "pending", sleeps, and then grants the
    floor: whatever request the floor waits for by then. *)

From S2P Require Import Prelude Types Message Grouped Codec FloorFSM Session Prog World Transport UDPClient Server Threads Interleave Responses ServerSafe Scenario Safety ServerRun FloorLocks Channel Service Served Quiet.




Section LateGrant.
Context {env : Env} (Hwrite : ∀ t, write_ok t = true).
#[local] Set Default Proof Using "Hwrite".
#[local] Instance tcp_late : ChannelLaws tcp_channel := tcp_laws Hwrite.





End LateGrant.

(** ** Three connections of a server

    User 7 requests floor 1 over "a" and releases it over "b"; user 8 requests it over
    "c". *)





