(* ===== verification/ServiceSpec.v ===== *)
(** * The floor control service

    What the server does for its clients, as an abstract service: its state is the locks
    of the floors and, by address, the versions of the clients that said hello; a
    transition takes one message and gives the letters that are sent.  The handlers of
    either transport, run alone, are transitions of it. *)

From S2P Require Import Prelude Types Message Grouped Codec FloorFSM Session Prog World Transport UDPClient Server Threads Interleave ServerSafe Safety Responses ServerRun FloorLocks Channel Typed Service Served Hello Quiet.

(** ** The service *)

(** The locks of the floors that exist, and the clients that said hello: by address,
    the version they speak. *)
Record service := mkService {
  sLocks : gmap Z Lock.lock;
  sClients : gmap string Z
}.

(** What a letter says, to whom the request came from or to another client. *)
Inductive letter :=
| HelloAck (request : Message)
| GoodbyeAck (request : Message)
| Answer (request : Message) (a : answer)
| FloorState (request : Message) (floorID requestID state : Z)
| Notice (version tx user floorID requestID status : Z).

Definition lock_request (l : Lock.lock) : Z :=
  match l with Lock.Waiting _ r | Lock.Held _ r => r | Lock.Free | Lock.Blocked => 0 end.
Definition lock_state (l : Lock.lock) : Z :=
  match l with
  | Lock.Free => RequestStatusReleased
  | Lock.Waiting _ _ => RequestStatusPending
  | Lock.Held _ _ => RequestStatusGranted
  | Lock.Blocked => RequestStatusDenied
  end.

(** A floor that does not exist is free. *)
Definition lock_in (s : service) (id : Z) : Lock.lock := default Lock.Free (sLocks s !! id).
Definition set_lock (id : Z) (l : Lock.lock) (s : service) : service :=
  mkService (<[id := l]> (sLocks s)) (sClients s).
(** A client that is known speaks the version of its last message. *)
Definition hear (from : string) (m : Message) (s : service) : service :=
  mkService (sLocks s) (alter (λ _, mVersion m) from (sClients s)).
Definition join (from : string) (m : Message) (s : service) : service :=
  mkService (sLocks s) (<[from := mVersion m]> (sClients s)).
(** The floors that answer to the user are free. *)
Definition leave (user : Z) (s : service) : service :=
  mkService ((λ l, if decide (Lock.user l = user) then Lock.Free else l) <$> sLocks s) (sClients s).

(** Every client but [from] is told once, in some order and in its version. *)
Definition notices (s : service) (from : string) (user floorID requestID status : Z)
    (out : list (string * letter)) : Prop :=
  ∃ clients, clients ≡ₚ map_to_list (sClients s) ∧
    Forall2 (λ c x, ∃ tx, x = (c.1, Notice c.2 tx user floorID requestID status))
      (filter (λ c, c.1 ≠ from) clients) out.

(** The floor that a release is about, or the error when there is none. *)
Definition finds (s : service) (m : Message) (id : Z) (l : Lock.lock) : Prop :=
  sLocks s !! id = Some l ∧
  (GetFloorID m = Ok (Some id) ∨
   ∃ rid, GetFloorID m = Ok None ∧ GetFloorRequestID m = Ok (Some rid) ∧
     (lock_request l = rid ∨
      (∀ id' l', sLocks s !! id' = Some l' → lock_request l' ≠ rid) ∧
      l ≠ Lock.Free ∧ Lock.user l = mUserID m)).

Definition finds_none (s : service) (m : Message) (code : Z) (info : string) : Prop :=
  (∃ id, GetFloorID m = Ok (Some id) ∧ sLocks s !! id = None ∧
     code = ErrorInvalidFloorID ∧ info = floor_missing id) ∨
  (GetFloorID m = Ok None ∧ GetFloorRequestID m = Ok None ∧
     code = ErrorUnknownMandatoryAttribute ∧ info = "Missing FLOOR-REQUEST-ID attribute") ∨
  (∃ rid, GetFloorID m = Ok None ∧ GetFloorRequestID m = Ok (Some rid) ∧
     (∀ id l, sLocks s !! id = Some l →
        lock_request l ≠ rid ∧ ¬ (l ≠ Lock.Free ∧ Lock.user l = mUserID m)) ∧
     code = ErrorFloorRequestIDDoesNotExist ∧
     info = "FloorRequestID " +:+ pretty rid +:+ " does not exist").

Definition query_letter (s : service) (m : Message) : letter :=
  match GetFloorID m with
  | Ok (Some id) =>
      match sLocks s !! id with
      | Some l => FloorState m id (lock_request l) (lock_state l)
      | None => Answer m (Refusal ErrorInvalidFloorID (floor_missing id))
      end
  | _ => Answer m (Refusal ErrorUnknownMandatoryAttribute "Missing FLOOR-ID attribute")
  end.

Section Service.
Context {env : Env} (tp : TransportType).

(** Over TCP a request that is accepted is first said to be pending. *)
Definition pending_letter (l : Lock.lock) (from : string) (m : Message) (id rid : Z)
    : list (string * letter) :=
  match tp, l with
  | TransportTCP, Lock.Free => [(from, Answer m (Status id rid RequestStatusPending))]
  | _, _ => []
  end.

(** Over TCP a goodbye is acknowledged. *)
Definition farewell_letter (from : string) (m : Message) : list (string * letter) :=
  match tp with TransportTCP => [(from, GoodbyeAck m)] | TransportUDP => [] end.

(** Over UDP the application is told of a client that is new, over TCP of every hello. *)
Definition hello_calls (s : service) (from : string) (user : Z) : list event :=
  let known := match tp with
               | TransportTCP => false
               | TransportUDP => bool_decide (is_Some (sClients s !! from))
               end in
  connect_calls known from user.

(** One message, once its sender has been heard; the id of a new request is the
    server's choice. *)
Inductive serves (s : service) (from : string) (m : Message) :
    service → list (string * letter) → list event → Prop :=
| serves_hello :
    mPrimitive m = PrimitiveHello →
    serves s from m (join from m s) [(from, HelloAck m)] (hello_calls s from (mUserID m))
| serves_request id rid :
    mPrimitive m = PrimitiveFloorRequest → GetFloorID m = Ok (Some id) → is_u16 rid →
    let decision := decides id (mUserID m) rid in
    let spec := serve_request decision id (mUserID m) rid (lock_in s id) in
    serves s from m (set_lock id spec.2 s)
      (pending_letter (lock_in s id) from m id rid ++ [(from, Answer m spec.1)])
      (request_calls decision id (mUserID m) rid (lock_in s id))
| serves_no_floor :
    mPrimitive m = PrimitiveFloorRequest → GetFloorID m = Ok None →
    serves s from m s [(from, Answer m (Refusal ErrorInvalidFloorID "No floor ID in request"))] []
| serves_release id l rid out :
    mPrimitive m = PrimitiveFloorRelease → finds s m id l → GetFloorRequestID m = Ok rid →
    mUserID m = 0 ∨ mUserID m = Lock.user l →
    notices s from (mUserID m) id (default 0 rid) RequestStatusReleased out →
    serves s from m (set_lock id Lock.Free s)
      ((from, Answer m (Status id (default 0 rid) RequestStatusReleased)) :: out)
      (release_calls (mUserID m) id)
| serves_not_owner id l :
    mPrimitive m = PrimitiveFloorRelease → finds s m id l →
    ¬ (mUserID m = 0 ∨ mUserID m = Lock.user l) →
    serves s from m s
      [(from, Answer m (Refusal ErrorFloorReleaseDenied
                          (floor_error_text (NotOwner (mUserID m) id (Lock.user l)))))] []
| serves_no_target code info :
    mPrimitive m = PrimitiveFloorRelease → finds_none s m code info →
    serves s from m s [(from, Answer m (Refusal code info))] []
| serves_query :
    mPrimitive m = PrimitiveFloorQuery → serves s from m s [(from, query_letter s m)] []
| serves_goodbye ids outs :
    mPrimitive m = PrimitiveGoodbye → NoDup ids →
    (∀ id, id ∈ ids ↔ ∃ l, sLocks s !! id = Some l ∧ Lock.user l = mUserID m) →
    Forall2 (λ id, notices s from (mUserID m) id 0 RequestStatusReleased) ids outs →
    serves s from m (leave (mUserID m) s) (concat outs ++ farewell_letter from m)
      (concat (release_calls (mUserID m) <$> ids))
| serves_ignored :
    mPrimitive m ∉ [PrimitiveHello; PrimitiveFloorRequest; PrimitiveFloorRelease;
                    PrimitiveFloorQuery; PrimitiveGoodbye] →
    serves s from m s [] [].

End Service.

(** ** The holder of a floor *)

(** The message takes the floors of the user away: a release of the user or of user 0,
    or the goodbye of the user. *)
Definition gives_up (m : Message) (user : Z) : Prop :=
  (mPrimitive m = PrimitiveFloorRelease ∧ (mUserID m = 0 ∨ mUserID m = user)) ∨
  (mPrimitive m = PrimitiveGoodbye ∧ mUserID m = user).

Lemma lock_in_set s id id' l :
  lock_in (set_lock id l s) id' = if decide (id = id') then l else lock_in s id'.
Proof.
  unfold lock_in, set_lock. cbn. case_decide as Hd; [subst; by rewrite lookup_insert_eq|].
  by rewrite lookup_insert_ne.
Qed.

Section Holder.
Context {env : Env}.

(** What is not given up is kept: whatever else is served, the holder holds. *)
Lemma serves_holder tp s from m s' out cb id u rid :
  serves tp s from m s' out cb → lock_in s id = Lock.Held u rid → ¬ gives_up m u →
  lock_in s' id = Lock.Held u rid.
Proof.
  intros Hs Hl Hg. destruct Hs; try done.
  - unfold spec. rewrite lock_in_set. case_decide as Hd; [subst|done]. by rewrite Hl.
  - rewrite lock_in_set. case_decide as Hd; [subst|done]. destruct Hg. left. split; [done|].
    destruct H0 as [Hid _]. unfold lock_in in Hl. rewrite Hid in Hl. cbn in Hl. by subst.
  - revert Hl. unfold lock_in, leave. cbn. rewrite lookup_fmap.
    destruct (sLocks s !! id) as [l|]; cbn; [|done]. intros ->.
    rewrite decide_False; [done|]. intros Hu. apply Hg. by right.
Qed.
End Holder.

(** ** The server as a service *)

(** The service that a world stands for. *)
Definition abstract (w : World) : service :=
  mkService (omap (λ l, lock_of <$> w_floor_heap w !! l) (w_floors w))
            (omap (λ j, snd <$> endpoints w !! j) (w_sessions w)).

Lemma abstract_lock w id : sLocks (abstract w) !! id = lock_of <$> floor_of w id.
Proof.
  unfold abstract, floor_of. cbn. rewrite lookup_omap. by destruct (w_floors w !! id).
Qed.

Lemma abstract_client w k : sClients (abstract w) !! k = w_sessions w !! k ≫= λ j, snd <$> endpoints w !! j.
Proof. unfold abstract. cbn. by rewrite lookup_omap. Qed.

Lemma lock_in_abstract w id : lock_in (abstract w) id = lock_at w id.
Proof. unfold lock_in, lock_at. rewrite abstract_lock. by destruct (floor_of w id). Qed.

Lemma service_eq s s' :
  (∀ id, sLocks s !! id = sLocks s' !! id) → (∀ k, sClients s !! k = sClients s' !! k) → s = s'.
Proof. destruct s, s'. cbn. intros ?%map_eq ?%map_eq. congruence. Qed.

(** What the lock of a floor says of it. *)
Lemma lock_fields f :
  wf_floor f →
  fFloorRequestID f = lock_request (lock_of f) ∧ fCurrentState f = lock_state (lock_of f) ∧
  fOwnerUserID f = Lock.user (lock_of f) ∧ (Floor_IsAvailable f = true ↔ lock_of f = Lock.Free).
Proof.
  intros H. unfold lock_of, Floor_IsAvailable. floor_cases H; cbn; split_and!; try done.
Qed.

(** ** Registered sessions *)

Definition peer_over {env : Env} (tp : TransportType) : World → nat → string → Z → Prop :=
  ch_peer (channel_over tp).

(** Floors are well formed, and every registered session is a peer at the address it is
    registered under. *)
Record registered_ok {env : Env} (tp : TransportType) (w : World) : Prop := {
  rg_floors : floors_ok w;
  rg_sessions : ∀ k j, w_sessions w !! k = Some j → ∃ v, peer_over tp w j k v ∧ version_ok v
}.

Lemma rg_peers {env : Env} tp w : registered_ok tp w → all_peers (peer_over tp) w.
Proof. intros [_ Hs] k j (v & ? & ?)%Hs. by exists k, v. Qed.

Lemma peer_inj {env : Env} tp w i r v r' v' : peer_over tp w i r v → peer_over tp w i r' v' → r = r' ∧ v = v'.
Proof. destruct tp; intros (? & ? & ? & ?) (? & ? & ? & ?); split; destruct_and?; by simplify_eq. Qed.

Lemma peer_version {env : Env} tp w i r v : peer_over tp w i r v → snd <$> endpoints w !! i = Some v.
Proof. by destruct tp; intros (? & ? & -> & _). Qed.

Lemma quiet_peer {env : Env} tp b u w w' i r v : quiet b u true w w' → peer_over tp w i r v → peer_over tp w' i r v.
Proof.
  intros [_ _ Ht He Hu _ _ _]. specialize (Ht eq_refl).
  by destruct tp; intros (x & t & ? & ?); exists x, t; rewrite He, ?Ht, ?Hu.
Qed.

Lemma quiet_registered {env : Env} tp u w w' :
  quiet true u true w w' → floors_ok w' → registered_ok tp w → registered_ok tp w'.
Proof.
  intros Hq Hok [_ Hs]. split; [done|]. intros k j. rewrite (qt_sessions _ _ _ _ _ Hq) by done.
  intros (v & ? & ?)%Hs. exists v. split; [by eapply quiet_peer|done].
Qed.

Lemma quiet_clients u c w w' : quiet true u c w w' → sClients (abstract w') = sClients (abstract w).
Proof. intros [Hs _ _ He _ _ _ _]. unfold abstract. cbn. by rewrite Hs, He. Qed.

(** What is sent, as letters. *)
Definition reads {env : Env} (tp : TransportType) (bs : bytes) (l : letter) : Prop :=
  match l with
  | HelloAck m => says_hello bs m (response_flag (channel_over tp) m)
  | GoodbyeAck m =>
      says_plain bs (mVersion m) PrimitiveGoodbyeAck (mConferenceID m) (mTransactionID m) (mUserID m) false
  | Answer m a => answers bs m (response_flag (channel_over tp) m) a
  | FloorState m id rid state =>
      says_status bs (mVersion m) (mConferenceID m) (mTransactionID m) (mUserID m)
        (response_flag (channel_over tp) m) PrimitiveFloorStatus id rid state
  | Notice version tx user id rid status =>
      says_status bs version (cConferenceID config) tx user false PrimitiveFloorRequestStatus
        id rid status
  end.

Definition delivered {env : Env} (tp : TransportType) (p : string * bytes) (x : string * letter) : Prop :=
  p.1 = x.1 ∧ reads tp p.2 x.2.

(** From [w] to [w'], the packets and the callbacks are those of [out] and [cb]. *)
Record sent {env : Env} (tp : TransportType) (w w' : World) (out : list (string * letter)) (cb : list event) : Prop := {
  st_packets : ∃ pk, packets (w_trace w') = packets (w_trace w) ++ pk ∧ Forall2 (delivered tp) pk out;
  st_calls : calls (w_trace w') = calls (w_trace w) ++ cb
}.

Lemma sent_refl {env : Env} tp w : sent tp w w [] [].
Proof. split; [exists []|]; by rewrite app_nil_r. Qed.

Lemma sent_trans {env : Env} tp w1 w2 w3 o1 o2 c1 c2 :
  sent tp w1 w2 o1 c1 → sent tp w2 w3 o2 c2 → sent tp w1 w3 (o1 ++ o2) (c1 ++ c2).
Proof.
  intros [(p1 & H1 & F1) C1] [(p2 & H2 & F2) C2]. split; [exists (p1 ++ p2)|].
  - rewrite H2, H1, app_assoc. split; [done|by apply Forall2_app].
  - by rewrite C2, C1, app_assoc.
Qed.

Lemma sent_one {env : Env} tp w w' r bs l cb :
  packets (w_trace w') = packets (w_trace w) ++ [(r, bs)] →
  calls (w_trace w') = calls (w_trace w) ++ cb → reads tp bs l → sent tp w w' [(r, l)] cb.
Proof. intros Hp Hc Hr. split; [|done]. exists [(r, bs)]. split; [done|]. by repeat constructor. Qed.

(** ** Hearing a message *)

Section Hearing.
Context {env : Env} (tp : TransportType).

(** Session [i] is the one of [r]: a registered one, if there is one. *)
Definition session_of (w : World) (i : nat) (r : string) : Prop :=
  ∀ j, w_sessions w !! r = Some j → j = i.

Lemma hear_abstract w w1 i r v m :
  registered_ok tp w → peer_over tp w i r v → session_of w i r → heard w w1 i (mVersion m) →
  abstract w1 = hear r m (abstract w).
Proof.
  intros Hok Hp Hi Hh. apply service_eq; cbn [sLocks sClients hear].
  - intros id. by rewrite !abstract_lock, (heard_floor_of _ _ _ _ id Hh).
  - intros k. rewrite abstract_client, (hr_sessions _ _ _ _ Hh), (hr_endpoints _ _ _ _ Hh).
    destruct (decide (k = r)) as [->|Hne].
    + rewrite lookup_alter_eq, abstract_client. destruct (w_sessions w !! r) as [j|] eqn:Hj; [|done].
      rewrite (Hi j Hj). cbn. rewrite list_lookup_alter_eq. by destruct (endpoints w !! i).
    + rewrite lookup_alter_ne, abstract_client by done. destruct (w_sessions w !! k) as [j|] eqn:Hj; [|done].
      cbn. rewrite list_lookup_alter_ne; [done|]. intros <-.
      destruct (rg_sessions _ _ Hok k i Hj) as (v' & Hp' & _). by destruct (peer_inj tp _ _ _ _ _ _ Hp Hp').
Qed.

Lemma heard_registered w w1 i v : version_ok v → heard w w1 i v → registered_ok tp w → registered_ok tp w1.
Proof.
  intros Hv Hh [Hf Hs]. split; [by eapply heard_floors_ok|].
  intros k j. rewrite (hr_sessions _ _ _ _ Hh). intros (v' & Hp & Hv')%Hs.
  destruct (decide (j = i)) as [->|Hne].
  - exists v. split; [|done]. destruct tp; [by eapply heard_tcp_peer|by eapply heard_udp_peer].
  - exists v'. split; [|done]. destruct tp; [by eapply heard_tcp_other|by eapply heard_udp_other].
Qed.
End Hearing.

(** ** Notices *)

Definition version_of (w : World) (j : nat) : Z := default 0 (snd <$> endpoints w !! j).

Lemma abstract_clients {env : Env} tp w : registered_ok tp w → sClients (abstract w) = version_of w <$> w_sessions w.
Proof.
  intros Hok. apply map_eq. intros k. rewrite abstract_client, lookup_fmap.
  destruct (w_sessions w !! k) as [j|] eqn:Hk; [|done]. cbn.
  destruct (rg_sessions _ _ Hok k j Hk) as (v & Hp & _). unfold version_of.
  by rewrite (peer_version tp _ _ _ _ Hp).
Qed.

Section Notices.
Context {env : Env} (tp : TransportType).

Lemma notices_each w i r v user fid rid st kjs pks :
  registered_ok tp w → peer_over tp w i r v → session_of w i r →
  Forall (λ kj, w_sessions w !! kj.1 = Some kj.2) kjs →
  Forall2 (λ j pk, if decide (Some j = Some i) then pk = []
                   else told (peer_over tp) w j user fid rid st pk) (snd <$> kjs) pks →
  ∃ out, Forall2 (delivered tp) (concat pks) out ∧
    Forall2 (λ c x, ∃ tx, x = (c.1, Notice c.2 tx user fid rid st))
      (filter (λ c : string * Z, c.1 ≠ r) (prod_map id (version_of w) <$> kjs)) out.
Proof.
  intros Hok Hp Hi. revert pks. induction kjs as [|[k j] kjs IH]; intros pks Hkjs HR.
  { apply Forall2_nil_inv_l in HR as ->. by exists []. }
  apply Forall_cons in Hkjs as [Hk Hkjs]. cbn [fst snd] in Hk.
  apply Forall2_cons_inv_l in HR as (pk & pks' & Hj & HR & ->). cbn [snd] in Hj.
  destruct (IH pks' Hkjs HR) as (out & Hd & Hn). cbn [fmap list_fmap concat prod_map fst snd].
  destruct (rg_sessions _ _ Hok k j Hk) as (v' & Hp' & _). rewrite filter_cons. cbn [fst].
  destruct (decide (j = i)) as [->|Hne].
  - rewrite decide_True in Hj by done. subst pk. destruct (peer_inj tp _ _ _ _ _ _ Hp Hp') as [<- _].
    rewrite decide_False by auto. by exists out.
  - assert (Some j ≠ Some i) as Hne' by congruence. rewrite decide_False in Hj by done.
    rewrite decide_True by (intros Hk'; cbn in Hk'; subst k; by apply Hne, Hi).
    destruct Hj as (r' & v2 & tx & bs & -> & Hp2 & Hs).
    destruct (peer_inj tp _ _ _ _ _ _ Hp' Hp2) as [-> ->].
    exists ((r', Notice v2 tx user fid rid st) :: out). split; [by constructor|].
    constructor; [|done]. exists tx. unfold version_of. cbn [fst snd prod_map id]. by rewrite (peer_version tp _ _ _ _ Hp2).
Qed.

Lemma notices_sent s w i r v user fid rid st pk :
  registered_ok tp w → peer_over tp w i r v → session_of w i r → sClients s = sClients (abstract w) →
  broadcasted (peer_over tp) w (Some i) user fid rid st pk →
  ∃ out, Forall2 (delivered tp) pk out ∧ notices s r user fid rid st out.
Proof.
  intros Hok Hp Hi Es (js & pks & Hjs & -> & HR).
  apply Permutation_map_inv in Hjs as (kjs & -> & Hkjs).
  destruct (notices_each w i r v user fid rid st kjs pks Hok Hp Hi) as (out & Hd & Hn).
  - apply Forall_forall. intros [k j]. rewrite <- Hkjs. apply elem_of_map_to_list.
  - done.
  - exists out. split; [done|]. eexists. split; [|exact Hn].
    by rewrite Es, (abstract_clients tp w Hok), map_to_list_fmap, <- Hkjs.
Qed.
End Notices.

