(* ===== verification/ServiceStep.v ===== *)
(** * The steps of the service

    Every message handler of the server, over either transport, run alone among
    registered sessions that are peers, is a transition of the service of
    [ServiceSpec.v]: lemma [served_message]. *)

From S2P Require Import Prelude Types Message Grouped Codec FloorFSM Session Prog World Transport UDPClient Server Threads Interleave ServerSafe Safety Responses ServerRun FloorLocks Channel Typed Service Served Hello Quiet ServiceSpec.

(** What the message has a transport's handlers do, once its sender has been heard. *)
Definition dispatch {env : Env} (tp : TransportType) (sess : nat) (m : Message) : prog () :=
  match tp with TransportUDP => udp_dispatch sess m | TransportTCP => tcp_dispatch sess m end.

(** A hello registers the session of its sender; nothing else changes the registrations. *)
Definition registered_by (m : Message) (i : nat) (r : string) : gmap string nat → gmap string nat :=
  if mPrimitive m =? PrimitiveHello then <[r := i]> else id.

(** Of the TCP transports only that of the session changes: it stays at its address, and
    is closed by a goodbye. *)
Definition transport_after (w w' : World) (i : nat) (m : Message) : Prop :=
  ∃ t tr tr' v, endpoints w !! i = Some (Some t, None, v) ∧ w_transports w !! t = Some tr ∧
    w_transports w' = <[t := tr']> (w_transports w) ∧ tRemote tr' = tRemote tr ∧
    tClosed tr' = (mPrimitive m =? PrimitiveGoodbye) ∧ wgWaiters (tKeepaliveWg tr') = 0%nat.

(** From [w] to [w'], message [m] of [r] has been served. *)
Record serviced {env : Env} (tp : TransportType) (i : nat) (r : string) (m : Message) (w w' : World)
    : Prop := {
  sd_run : run (dispatch tp i m) w = Ok (tt, w');
  sd_floors : floors_ok w';
  sd_serves : ∃ out cb, sent tp w w' out cb ∧ serves tp (abstract w) r m (abstract w') out cb;
  sd_sessions : w_sessions w' = registered_by m i r (w_sessions w);
  sd_endpoints : endpoints w' = endpoints w;
  sd_udp : w_udp_transports w' = w_udp_transports w;
  sd_listener : w_udp_sessions w' = w_udp_sessions w;
  sd_clients : w_udp_clients w' = w_udp_clients w;
  sd_transport : tp = TransportTCP → transport_after w w' i m
}.

(** ** What changes in the abstraction *)

Section Abstraction.
Context {env : Env}.

Lemma quiet_weaken b u c w w' : quiet b u true w w' → quiet b u c w w'.
Proof. by intros []; split; auto. Qed.

Lemma quiet_session u c w w' i r : quiet true u c w w' → session_of w i r → session_of w' i r.
Proof. intros Hq Hi j. rewrite (qt_sessions _ _ _ _ _ Hq) by done. apply Hi. Qed.

(** The service after a change of one lock. *)
Lemma abstract_set u c w w' id l :
  quiet true u c w w' → others_stay w w' id → lock_of <$> floor_of w' id = Some l →
  abstract w' = set_lock id l (abstract w).
Proof.
  intros Hq Ho Hl. apply service_eq; [|intros k; by rewrite (quiet_clients _ _ _ _ Hq)].
  intros id'. cbn [set_lock sLocks]. destruct (decide (id = id')) as [<-|].
  - by rewrite lookup_insert_eq, abstract_lock.
  - by rewrite lookup_insert_ne, !abstract_lock, Ho.
Qed.

Lemma abstract_same u c w w' :
  quiet true u c w w' → (∀ id, floor_of w' id = floor_of w id) → abstract w' = abstract w.
Proof.
  intros Hq Hf. apply service_eq; [|intros k; by rewrite (quiet_clients _ _ _ _ Hq)].
  intros id. by rewrite !abstract_lock, Hf.
Qed.

Lemma lock_exists w id l : lock_at w id = l → l ≠ Lock.Free → lock_of <$> floor_of w id = Some l.
Proof. unfold lock_at. destruct (floor_of w id); cbn; congruence. Qed.

Lemma still_there w w' id l :
  w_floors w ⊆ w_floors w' → floors_ok w' → is_Some (w_floors w !! id) → lock_at w' id = l →
  lock_of <$> floor_of w' id = Some l.
Proof.
  intros Hq Hok [x Hc] <-. pose proof (lookup_weaken _ _ _ _ Hc Hq) as Hc'.
  destruct (Hok id x Hc') as (f & Hf & _). unfold lock_at. by rewrite (floor_of_lookup w' id x f).
Qed.

Lemma set_lock_id s id l : sLocks s !! id = Some l → set_lock id l s = s.
Proof. intros H. unfold set_lock. rewrite insert_id by done. by destruct s. Qed.

(** The floor of [floor_of] is well formed, and its lock says who owns it. *)
Lemma floor_lock_fields w id f :
  floors_ok w → floor_of w id = Some f →
  fFloorRequestID f = lock_request (lock_of f) ∧ fCurrentState f = lock_state (lock_of f) ∧
  fOwnerUserID f = Lock.user (lock_of f) ∧ (Floor_IsAvailable f = true ↔ lock_of f = Lock.Free).
Proof.
  intros Hok (l & Hl & Hf)%floor_of_inv. destruct (Hok id l Hl) as (f' & ? & Hfo). simplify_eq.
  apply lock_fields, Hfo.
Qed.

(** The target of a release, by the locks. *)
Lemma target_finds w m l id :
  floors_ok w → release_target_spec w m (ReleaseOf l id) → finds (abstract w) m id (lock_at w id).
Proof.
  intros Hok (f & Hl & Hf & Hcase). pose proof (floor_of_lookup w id l f Hl Hf) as Hfl.
  destruct (floor_lock_fields w id f Hok Hfl) as (Hr & _ & Ho & Hfree).
  unfold lock_at. rewrite Hfl. split; [by rewrite abstract_lock, Hfl|].
  destruct Hcase as [?|(rid & ? & ? & [?|[Hno [Ha%negb_true_iff Hu%Z.eqb_eq]%andb_true_iff]])];
    [by left|right; exists rid; split_and!; [done|done|]..].
  - left. congruence.
  - right. split_and!.
    + intros id' l'. rewrite abstract_lock. intros (f1 & Hf' & ->)%fmap_Some.
      destruct (floor_lock_fields w id' f1 Hok Hf') as (<- & _). by eapply Hno.
    + rewrite <- Hfree. by rewrite Ha.
    + congruence.
Qed.

Lemma target_none w m code info :
  floors_ok w → release_target_spec w m (ReleaseError code info) → finds_none (abstract w) m code info.
Proof.
  intros Hok [(id & ? & Hf & ? & ?)|[?|(rid & ? & ? & Hno & ? & ?)]].
  - left. exists id. by rewrite abstract_lock, Hf.
  - right. by left.
  - right. right. exists rid. split_and!; [done|done| |done|done].
    intros id l. rewrite abstract_lock. intros (f & Hf & ->)%fmap_Some.
    destruct (Hno id f Hf) as [Hr Ho].
    destruct (floor_lock_fields w id f Hok Hf) as (<- & _ & <- & <-). split; [done|].
    unfold owned_by in Ho. intros [Ha Hu]. rewrite Hu, Z.eqb_refl, andb_true_r in Ho.
    apply negb_false_iff in Ho. done.
Qed.
End Abstraction.

(** ** The handlers *)

Section Steps.
Context {env : Env} (Hwrite : ∀ t, write_ok t = true) (Hconf : is_u32 (cConferenceID config)).
#[local] Set Default Proof Using "Hwrite Hconf".
#[local] Instance over_service_laws tp : ChannelLaws (channel_over tp) := over_holds Hwrite tp.

Lemma dispatched_quiet tp i m w w' :
  mPrimitive m ≠ PrimitiveHello → run (dispatch tp i m) w = Ok (tt, w') →
  quiet true true (match tp with
                   | TransportTCP => negb (mPrimitive m =? PrimitiveGoodbye)
                   | TransportUDP => true
                   end) w w'.
Proof using.
  intros Hp%Z.eqb_neq Hrun. destruct tp; cbn [dispatch] in Hrun.
  - pose proof (keeps_run _ _ _ _ _ (quiet_tcp_dispatch i m) Hrun) as Hq. by rewrite Hp in Hq.
  - pose proof (keeps_run _ _ _ _ _ (quiet_udp_dispatch i m) Hrun) as Hq. by rewrite Hp in Hq.
Qed.

(** Every message but a hello and a goodbye. *)
Lemma serviced_plain tp i r m w w' out cb :
  peer_over tp w i r (mVersion m) → mPrimitive m ≠ PrimitiveHello → mPrimitive m ≠ PrimitiveGoodbye →
  run (dispatch tp i m) w = Ok (tt, w') → floors_ok w' → sent tp w w' out cb →
  serves tp (abstract w) r m (abstract w') out cb → serviced tp i r m w w'.
Proof using.
  intros Hp Hh Hg Hrun Hok Hsent Hs. pose proof (dispatched_quiet tp i m w w' Hh Hrun) as Hq.
  apply Z.eqb_neq in Hh, Hg. destruct Hq as [Hq1 _ Hq3 ? ? ? ? _].
  split; [done|done|by exists out, cb| |done..|].
  - unfold registered_by. rewrite Hh. by apply Hq1.
  - intros ->. destruct Hp as (t & tr & Hi & Ht & Hr & Hcl & Hwg). exists t, tr, tr, (mVersion m).
    rewrite Hg, list_insert_id by done. rewrite Hg in Hq3. by split_and!; [..|apply Hq3| | |].
Qed.

Lemma serviced_request tp i r m id w :
  registered_ok tp w → peer_over tp w i r (mVersion m) → wf_request m →
  mPrimitive m = PrimitiveFloorRequest → GetFloorID m = Ok (Some id) → ∃ w', serviced tp i r m w w'.
Proof using Hwrite.
  intros Hok Hp Hm Hprim Hid.
  set (rid := next_request_id w). set (d := decides id (mUserID m) rid).
  set (spec := serve_request d id (mUserID m) rid (lock_in (abstract w) id)).
  assert (∃ pk w' , run (dispatch tp i m) w = Ok (tt, w') ∧
    served w w' id spec.2 pk (request_calls d id (mUserID m) rid (lock_in (abstract w) id)) ∧
    Forall2 (delivered tp) pk
      (pending_letter tp (lock_in (abstract w) id) r m id rid ++ [(r, Answer m spec.1)]))
    as (pk & w' & Hd & Hsv & Hpk).
  { unfold spec. rewrite lock_in_abstract. destruct tp; cbn [dispatch].
    - destruct (run_handleFloorRequest Hwrite i r m id w Hp Hm (rg_floors _ _ Hok) Hid)
        as (pk & bs & w' & Hrun & Hpend & Ha & Hsv).
      exists (pk ++ [(r, bs)]), w'. split_and!; [unfold tcp_dispatch; by rewrite Hprim|done|].
      apply Forall2_app; [|by repeat constructor]. unfold pending_first in Hpend.
      fold rid in Hpend. case_decide as Hl.
      + destruct Hpend as (bs' & -> & Ha'). rewrite Hl. by repeat constructor.
      + subst pk. by destruct (lock_at w id).
    - destruct (run_handleUDPFloorRequest Hwrite i r m id w Hp Hm (rg_floors _ _ Hok) Hid)
        as (bs & w' & Hrun & Ha & Hsv).
      exists [(r, bs)], w'. split_and!; [unfold udp_dispatch; by rewrite Hprim|done|].
      by repeat constructor. }
  pose proof (dispatched_quiet tp i m w w' ltac:(by rewrite Hprim) Hd) as Hq. destruct Hsv.
  exists w'. eapply serviced_plain; [done|by rewrite Hprim..|done|done|split; [by exists pk|done]|].
  rewrite (abstract_set _ _ w w' id spec.2 Hq); [|done|apply lock_exists; [done|]].
  - apply serves_request; [done|done|]. apply next_request_id_u16.
  - unfold spec, serve_request. destruct (lock_in (abstract w) id); try done. by destruct d.
Qed.

Lemma serviced_no_floor tp i r m w :
  registered_ok tp w → peer_over tp w i r (mVersion m) → wf_request m →
  mPrimitive m = PrimitiveFloorRequest → GetFloorID m = Ok None → ∃ w', serviced tp i r m w w'.
Proof using Hwrite.
  intros Hok Hp Hm Hprim Hid.
  destruct (run_error (channel_over tp) i r m ErrorInvalidFloorID "No floor ID in request" w Hp Hm)
    as (bs & w' & H1 & Hs & Ha); [done|done|unfold max_value_len; cbn; lia|].
  assert (run (dispatch tp i m) w = Ok (tt, w')) as Hd.
  { destruct tp; cbn [dispatch]; unfold udp_dispatch, tcp_dispatch; rewrite Hprim;
      cbn [Z.eqb Pos.eqb PrimitiveHello PrimitiveFloorRequest];
      unfold handleUDPFloorRequest, handleFloorRequest;
      by rewrite (run_bind_Ok _ _ _ _ _ (run_lift _ _ w Hid)). }
  pose proof (dispatched_quiet tp i m w w' ltac:(by rewrite Hprim) Hd) as Hq.
  exists w'. eapply serviced_plain;
    [done|by rewrite Hprim..|done|eapply step_floors_ok; [done|by eapply rg_floors]|eapply sent_one; [apply Hs|apply Hs|]|].
  - instantiate (1 := Answer m (Refusal ErrorInvalidFloorID "No floor ID in request")). exact Ha.
  - rewrite (abstract_same _ _ w w' Hq) by (intros; by eapply step_floor_of). by apply serves_no_floor.
Qed.

Lemma serviced_release tp i r m w :
  registered_ok tp w → peer_over tp w i r (mVersion m) → session_of w i r → wf_request m →
  mPrimitive m = PrimitiveFloorRelease → ∃ w', serviced tp i r m w w'.
Proof.
  intros Hok Hp Hi Hm Hprim.
  destruct (run_release Hconf (channel_over tp) i r m w Hp Hm (rg_floors _ _ Hok) (rg_peers _ _ Hok))
    as (t & w' & Hrun & Ht & Hserved & Hok').
  assert (run (dispatch tp i m) w = Ok (tt, w')) as Hd
    by (rewrite <- Hrun; destruct tp; cbn [dispatch]; unfold udp_dispatch, tcp_dispatch; by rewrite Hprim).
  pose proof (dispatched_quiet tp i m w w' ltac:(by rewrite Hprim) Hd) as Hq.
  assert (quiet true true true w w') as Hq1 by (rewrite Hprim in Hq; by destruct tp).
  pose proof (quiet_registered tp _ _ _ Hq1 Hok' Hok) as Hsrv. exists w'.
  destruct t as [l id|code info]; cbn [release_served] in Hserved.
  - destruct Hserved as (rid & bs & pk & Hrid & Ha & Hs). cbv zeta in Ha, Hs.
    pose proof (target_finds w m l id (rg_floors _ _ Hok) Ht) as Hfinds.
    destruct Ht as (f & Hl & _). unfold serve_release in Ha, Hs. case_decide as Hd'.
    + destruct Hs as [[] Hb]. cbn [fst snd] in *.
      destruct (notices_sent tp (abstract w) w' i r (mVersion m) (mUserID m) id (default 0 rid)
        RequestStatusReleased pk Hsrv)
        as (out & Hout & Hn); [by eapply quiet_peer|by eapply quiet_session|by rewrite (quiet_clients _ _ _ _ Hq)|exact Hb|].
      eapply serviced_plain with (out := (r, Answer m (Status id (default 0 rid) RequestStatusReleased)) :: out);
        [done|by rewrite Hprim..|done|done|split; [|done]; eexists; split; [done|by constructor]|].
      rewrite (abstract_set _ _ w w' id Lock.Free Hq); [by eapply serves_release|done|].
      eapply still_there; [apply Hq|done|by eexists|done].
    + destruct Hs as []. cbn [fst snd] in *.
      eapply serviced_plain; [done|by rewrite Hprim..|done|done|eapply sent_one; [done|done|]|].
      { by instantiate (1 := Answer m _). }
      rewrite (abstract_set _ _ w w' id (lock_at w id) Hq), set_lock_id;
        [by eapply serves_not_owner|apply Hfinds|done|].
      eapply still_there; [apply Hq|done|by eexists|done].
  - destruct Hserved as (bs & Ha & Hpk & Hc & Hf).
    eapply serviced_plain;
      [done|by rewrite Hprim..|done|done|eapply sent_one; [done|by rewrite app_nil_r|]|].
    { by instantiate (1 := Answer m (Refusal code info)). }
    rewrite (abstract_same _ _ w w' Hq Hf). by apply serves_no_target, target_none; [..|exact (rg_floors _ _ Hok)|].
Qed.

Lemma serviced_query tp i r m w :
  registered_ok tp w → peer_over tp w i r (mVersion m) → wf_request m →
  mPrimitive m = PrimitiveFloorQuery → ∃ w', serviced tp i r m w w'.
Proof using Hwrite.
  intros Hok Hp Hm Hprim.
  destruct (run_query (channel_over tp) i r m w Hp Hm (rg_floors _ _ Hok)) as (bs & w' & Hrun & Hs & Ha).
  assert (run (dispatch tp i m) w = Ok (tt, w')) as Hd
    by (rewrite <- Hrun; destruct tp; cbn [dispatch]; unfold udp_dispatch, tcp_dispatch; by rewrite Hprim).
  pose proof (dispatched_quiet tp i m w w' ltac:(by rewrite Hprim) Hd) as Hq. exists w'.
  eapply serviced_plain;
    [done|by rewrite Hprim..|done|eapply step_floors_ok; [done|by eapply rg_floors]|eapply sent_one; [apply Hs|apply Hs|]|].
  - instantiate (1 := query_letter (abstract w) m). revert Ha. unfold query_answers, query_letter.
    destruct (GetFloorID m) as [[id|]| | |]; try done.
    rewrite abstract_lock. destruct (floor_of w id) as [f|] eqn:Hf; [|done]. cbn [fmap option_fmap option_map].
    by destruct (floor_lock_fields w id f (rg_floors _ _ Hok) Hf) as (-> & -> & _).
  - rewrite (abstract_same _ _ w w' Hq) by (intros; by eapply step_floor_of). by apply serves_query.
Qed.

(** The notices of all the floors that a goodbye frees. *)
Lemma notices_goodbye tp s w i r v user ids pks :
  registered_ok tp w → peer_over tp w i r v → session_of w i r → sClients s = sClients (abstract w) →
  Forall2 (λ id, broadcasted (peer_over tp) w (Some i) user id 0 RequestStatusReleased) ids pks →
  ∃ outs, Forall2 (delivered tp) (concat pks) (concat outs) ∧
    Forall2 (λ id, notices s r user id 0 RequestStatusReleased) ids outs.
Proof using.
  intros Hok Hp Hi Es. induction 1 as [|id pk ids pks Hb _ (outs & Hd & Hn)]; [by exists []|].
  destruct (notices_sent tp s w i r v _ _ _ _ _ Hok Hp Hi Es Hb) as (out & Hd1 & Hn1).
  exists (out :: outs). split; [by apply Forall2_app|by constructor].
Qed.

(** The floors that a goodbye takes, in the abstraction. *)
Lemma farewell_leave peer w w' i user ids pks :
  floors_ok w → w_floors w ⊆ w_floors w' → sClients (abstract w') = sClients (abstract w) →
  farewell peer w w' i user ids pks →
  (∀ id, id ∈ ids ↔ ∃ l, sLocks (abstract w) !! id = Some l ∧ Lock.user l = user) ∧
  abstract w' = leave user (abstract w).
Proof using.
  intros Hok Hq Ec [_ Hids Hfree Hother _ _ Hok'].
  assert (∀ id, id ∈ ids ↔ ∃ l, sLocks (abstract w) !! id = Some l ∧ Lock.user l = user) as Hin.
  { intros id. rewrite Hids, abstract_lock. split.
    - intros (f & Hf & <-). exists (lock_of f). rewrite Hf. split; [done|]. symmetry.
      by apply (floor_lock_fields w id).
    - intros (l & (f & Hf & ->)%fmap_Some & <-). exists f. split; [done|]. by apply (floor_lock_fields w id). }
  split; [done|]. apply service_eq; [|intros k; by rewrite Ec].
  intros id. cbn [leave sLocks]. rewrite lookup_fmap. destruct (decide (id ∈ ids)) as [Hi'|Hn'].
  - destruct (proj1 (Hin id) Hi') as (l & Hl & Hu). rewrite Hl, abstract_lock. cbn.
    rewrite decide_True by done. apply (still_there w); [done..| |by apply Hfree].
    rewrite abstract_lock in Hl. apply fmap_Some in Hl as (f & (x & Hx & _)%floor_of_inv & _). by exists x.
  - rewrite !abstract_lock, Hother by done. destruct (floor_of w id) as [f|] eqn:Hf; [|done]. cbn.
    rewrite decide_False; [done|]. intros Hu. apply Hn', Hin. exists (lock_of f).
    by rewrite abstract_lock, Hf.
Qed.

Lemma serviced_udp_goodbye i r m w :
  registered_ok TransportUDP w → udp_peer w i r (mVersion m) → session_of w i r → wf_request m →
  mPrimitive m = PrimitiveGoodbye → ∃ w', serviced TransportUDP i r m w w'.
Proof.
  intros Hok Hp Hi Hm Hprim.
  destruct (run_handleUDPGoodbye Hwrite i r m w Hconf Hp ltac:(apply Hm) (rg_floors _ _ Hok) (rg_peers _ _ Hok))
    as (ids & pks & w' & Hrun & Hpk & Hf).
  assert (run (dispatch TransportUDP i m) w = Ok (tt, w')) as Hd
    by (cbn [dispatch]; unfold udp_dispatch; by rewrite Hprim).
  pose proof (dispatched_quiet TransportUDP i m w w' ltac:(by rewrite Hprim) Hd) as Hq.
  pose proof (quiet_registered TransportUDP _ _ _ Hq (fw_floors _ _ _ _ _ _ _ Hf) Hok) as Hsrv.
  destruct (notices_goodbye TransportUDP (abstract w) w' i r (mVersion m) (mUserID m) ids pks Hsrv)
    as (outs & Hout & Hn);
    [by eapply quiet_peer|by eapply quiet_session|by rewrite (quiet_clients _ _ _ _ Hq)|apply Hf|].
  destruct (farewell_leave _ _ _ _ _ _ _ (rg_floors _ _ Hok) (qt_floors _ _ _ _ _ Hq)
    (quiet_clients _ _ _ _ Hq) Hf) as [Hin Ha].
  exists w'. split; [done|apply Hf| | |by apply Hq..|done].
  - exists (concat outs ++ []), (concat (release_calls (mUserID m) <$> ids)). split.
    + split; [exists (concat pks); by rewrite app_nil_r|apply Hf].
    + rewrite Ha. change [] with (farewell_letter TransportUDP r m). 
      eapply serves_goodbye; [done|apply Hf|done|done].
  - unfold registered_by. rewrite Hprim. by apply Hq.
Qed.

Lemma serviced_tcp_goodbye i r m w :
  registered_ok TransportTCP w → tcp_peer w i r (mVersion m) → session_of w i r → wf_request m →
  mPrimitive m = PrimitiveGoodbye → ∃ w', serviced TransportTCP i r m w w'.
Proof.
  intros Hok Hp Hi Hm Hprim.
  destruct (run_handleGoodbye Hwrite i r m w Hconf Hp Hm (rg_floors _ _ Hok) (rg_peers _ _ Hok))
    as (ids & pks & bs & w1 & w2 & t & tr & Hrun & Hc & Hf & Hsays & Hs & Hit & Ht).
  set (w' := set_transports <[t := close_tcp tr]> w2) in *.
  assert (run (dispatch TransportTCP i m) w = Ok (tt, w')) as Hd
    by (cbn [dispatch]; unfold tcp_dispatch; by rewrite Hprim).
  pose proof (dispatched_quiet TransportTCP i m w w' ltac:(by rewrite Hprim) Hd) as Hq.
  pose proof (step_comm _ _ _ _ Hs) as Hc2.
  pose proof Hp as (t' & tr' & Hit' & Ht' & Hr & Hcl & Hwg).
  rewrite (comm_endpoints _ _ _ _ Hc2), (comm_endpoints _ _ _ _ Hc) in Hit.
  rewrite (comm_tcp _ _ _ _ Hc2), (comm_tcp _ _ _ _ Hc) in Ht. simplify_eq.
  assert (w_sessions w1 = w_sessions w) as Es by apply Hc.
  assert (registered_ok TransportTCP w1) as Hsrv.
  { split; [apply Hf|]. intros k j. rewrite Es. intros (v & ? & ?)%(rg_sessions _ _ Hok).
    exists v. split; [by eapply comm_tcp_peer|done]. }
  assert (sClients (abstract w1) = sClients (abstract w)) as Ec.
  { unfold abstract. cbn. by rewrite Es, (comm_endpoints _ _ _ _ Hc). }
  destruct (notices_goodbye TransportTCP (abstract w) w1 i (tRemote tr) (mVersion m) (mUserID m) ids pks Hsrv)
    as (outs & Hout & Hn); [by eapply comm_tcp_peer|intros j; rewrite Es; apply Hi|done|apply Hf|].
  assert (w_floors w ⊆ w_floors w1) as Hfl
    by (rewrite <- (step_floors _ _ _ _ Hs); exact (qt_floors _ _ _ _ _ Hq)).
  destruct (farewell_leave _ _ _ _ _ _ _ (rg_floors _ _ Hok) Hfl Ec Hf) as [Hin Ha].
  assert (abstract w' = abstract w1) as Ea.
  { apply service_eq; intros k; [|].
    { rewrite !abstract_lock. f_equal. exact (step_floor_of _ _ _ _ k Hs). }
    by rewrite (quiet_clients _ _ _ _ Hq), Ec. }
  exists w'. split; [done| | | |by apply Hq..|].
  - exact (step_floors_ok _ _ _ _ Hs (fw_floors _ _ _ _ _ _ _ Hf)).
  - exists (concat outs ++ [(tRemote tr, GoodbyeAck m)]), (concat (release_calls (mUserID m) <$> ids)).
    split; [split|].
    + exists (concat pks ++ [(tRemote tr, bs)]). split.
      * change (w_trace w') with (w_trace w2).
        by rewrite (comm_packets _ _ _ _ Hc2), (comm_packets _ _ _ _ Hc), <- app_assoc.
      * apply Forall2_app; [done|]. by repeat constructor.
    + change (w_trace w') with (w_trace w2).
      by rewrite (comm_calls _ _ _ _ Hc2), (comm_calls _ _ _ _ Hc), app_nil_r.
    + rewrite Ea, Ha. eapply (serves_goodbye TransportTCP); [done|apply Hf|done|done].
  - unfold registered_by. rewrite Hprim. by apply Hq.
  - intros _. exists t, tr, (close_tcp tr), (mVersion m). split_and!; [done|done| |done|by rewrite Hprim|done].
    unfold w'. cbn [set_transports w_transports].
    by rewrite (comm_tcp _ _ _ _ Hc2), (comm_tcp _ _ _ _ Hc).
Qed.

(** A hello: the session is registered, and its version is known. *)
Lemma greeted_join tp f w w1 w' i r m pk cb :
  greeted w w1 i r pk → step (set_transports f w1) w' [] cb → peer_over tp w i r (mVersion m) →
  abstract w' = join r m (abstract w).
Proof using.
  intros [] Hs Hp. pose proof (step_comm _ _ _ _ Hs) as Hc. apply service_eq.
  - intros id. cbn [join sLocks]. rewrite !abstract_lock, (step_floor_of _ _ _ _ id Hs).
    unfold floor_of. cbn. by rewrite gr_floors, gr_heap.
  - intros k. cbn [join sClients].
    rewrite abstract_client, (comm_sessions _ _ _ _ Hc), (comm_endpoints _ _ _ _ Hc).
    change (endpoints (set_transports f w1)) with (endpoints w1). cbn [set_transports w_sessions].
    rewrite gr_sessions, gr_endpoints.
    destruct (decide (k = r)) as [->|].
    + rewrite !lookup_insert_eq. cbn. by apply peer_version with tp r.
    + by rewrite !lookup_insert_ne, abstract_client.
Qed.


Lemma serviced_udp_hello i r m w :
  registered_ok TransportUDP w → udp_peer w i r (mVersion m) → wf_request m →
  mPrimitive m = PrimitiveHello → ∃ w', serviced TransportUDP i r m w w'.
Proof using Hwrite.
  intros Hok Hp Hm Hprim.
  destruct (run_handleUDPHello Hwrite i r m w Hp Hm) as (bs & w1 & w' & Hrun & Hg & Hsays & Hs).
  assert (set_transports id w1 = w1) as Ew by by destruct w1.
  pose proof (greeted_join TransportUDP id _ _ _ _ _ _ _ _ Hg ltac:(by rewrite Ew) Hp) as Ha. destruct Hg.
  assert (run (dispatch TransportUDP i m) w = Ok (tt, w')) as Hd
    by (cbn [dispatch]; unfold udp_dispatch; by rewrite Hprim).
  pose proof (keeps_run _ _ _ _ _ (quiet_udp_dispatch i m) Hd) as Hq.
  pose proof (step_comm _ _ _ _ Hs) as Hc.
  exists w'. split; [done| | | |by apply Hq..|done].
  - apply (step_floors_ok _ _ _ _ Hs). by eapply (same_floors_ok w), rg_floors.
  - eexists [(r, HelloAck m)], _. split; [eapply sent_one; [| |exact Hsays]|rewrite Ha; by constructor].
    + by rewrite (comm_packets _ _ _ _ Hc), app_nil_r.
    + rewrite (comm_calls _ _ _ _ Hc), gr_calls. unfold hello_calls. repeat f_equal.
      rewrite (abstract_clients TransportUDP w Hok), lookup_fmap. apply bool_decide_ext.
      by rewrite fmap_is_Some.
  - rewrite (comm_sessions _ _ _ _ Hc). unfold registered_by. by rewrite Hprim.
Qed.

Lemma serviced_tcp_hello i r m w :
  registered_ok TransportTCP w → tcp_peer w i r (mVersion m) → wf_request m →
  mPrimitive m = PrimitiveHello → ∃ w', serviced TransportTCP i r m w w'.
Proof using Hwrite.
  intros Hok Hp Hm Hprim.
  destruct (run_handleHello Hwrite i r m w Hp Hm) as (bs & w1 & w' & t & tr & Hrun & Hg & Hsays & Hi & Ht & Hs).
  set (tr' := keep_alive _ _) in Hs.
  pose proof (greeted_join TransportTCP _ _ _ _ _ _ _ _ _ Hg Hs Hp) as Ha. destruct Hg.
  assert (run (dispatch TransportTCP i m) w = Ok (tt, w')) as Hd
    by (cbn [dispatch]; unfold tcp_dispatch; by rewrite Hprim).
  pose proof (keeps_run _ _ _ _ _ (quiet_tcp_dispatch i m) Hd) as Hq.
  pose proof (step_comm _ _ _ _ Hs) as Hc.
  exists w'. split; [done| | | |by apply Hq..|].
  - apply (step_floors_ok _ _ _ _ Hs). by eapply (same_floors_ok w), rg_floors.
  - eexists [(r, HelloAck m)], _. split; [eapply sent_one; [| |exact Hsays]|rewrite Ha; by constructor].
    + rewrite (comm_packets _ _ _ _ Hc), app_nil_r. exact gr_packets.
    + rewrite (comm_calls _ _ _ _ Hc). change (w_trace (set_transports ?f w1)) with (w_trace w1). by rewrite gr_calls.
  - rewrite (comm_sessions _ _ _ _ Hc). unfold registered_by. by rewrite Hprim.
  - intros _. exists t, tr, tr', (mVersion m). destruct Hp as (t0 & tr0 & Hi0 & Ht0 & _ & Hcl & Hwg). simplify_eq.
    rewrite (comm_tcp _ _ _ _ Hc). cbn [set_transports w_transports]. rewrite gr_tcp, Hprim.
    by split_and!.
Qed.

(** A message that has come to its handler, from a session that is a peer and the one
    registered at its address, if any is. *)
Lemma served_message tp i r m w :
  registered_ok tp w → peer_over tp w i r (mVersion m) → session_of w i r → wf_request m →
  ∃ w', serviced tp i r m w w'.
Proof.
  intros Hok Hp Hi Hm.
  destruct (decide (mPrimitive m ∈ [PrimitiveHello; PrimitiveFloorRequest; PrimitiveFloorRelease;
                                    PrimitiveFloorQuery; PrimitiveGoodbye])) as [Hin|Hout].
  - rewrite !elem_of_cons, elem_of_nil in Hin. destruct Hin as [?|[?|[?|[?|[?|[]]]]]].
    + destruct tp; [by apply serviced_tcp_hello|by apply serviced_udp_hello].
    + destruct (GetFloorID_Ok m) as [[id|] Hid]; [by eapply serviced_request|by apply serviced_no_floor].
    + by apply serviced_release.
    + by apply serviced_query.
    + destruct tp; [by apply serviced_tcp_goodbye|by apply serviced_udp_goodbye].
  - exists w. pose proof Hout as Hout'. rewrite !not_elem_of_cons in Hout'.
    destruct Hout' as (Hh & H1%Z.eqb_neq & H2%Z.eqb_neq & H3%Z.eqb_neq & Hg & _).
    eapply serviced_plain; [done|done|done| |by eapply rg_floors|apply sent_refl|by apply serves_ignored].
    apply Z.eqb_neq in Hh, Hg. destruct tp; cbn [dispatch]; unfold udp_dispatch, tcp_dispatch; by repeat case_match.
Qed.
End Steps.
