(* ===== verification/UDPService.v ===== *)
(** * The UDP service

    The server over UDP refines the service of [ServiceSpec.v]: the datagrams that it
    handles one after the other are a run of the service ([udp_service_refined]), so that
    a floor stays with its holder until the holder gives it up
    ([udp_holder_keeps_floor]). *)

From S2P Require Import Prelude Types Message Grouped Codec FloorFSM Session Prog World Transport UDPClient Server Threads Interleave ServerSafe Scenario Safety Responses ServerRun FloorLocks Channel Typed Service Served Hello Quiet ServiceSpec ServiceStep.

(** Datagrams one after the other; what cannot be decoded is dropped. *)
Inductive service_run {env : Env} : service → list (string * bytes) → service →
    list (string * letter) → list event → Prop :=
| service_run_nil s : service_run s [] s [] []
| service_run_message s from bs m s1 out1 cb1 ds s2 out2 cb2 :
    Decode bs = Ok m → serves TransportUDP (hear from m s) from m s1 out1 cb1 →
    service_run s1 ds s2 out2 cb2 →
    service_run s ((from, bs) :: ds) s2 (out1 ++ out2) (cb1 ++ cb2)
| service_run_garbage s from bs e ds s2 out cb :
    Decode bs = Err e → service_run s ds s2 out cb → service_run s ((from, bs) :: ds) s2 out cb.

(** The server over UDP: floors are well formed, every registered session and every
    transport of the listener talks to the address it is kept under, and no client role
    shares the socket. *)
Record udp_server {env : Env} (w : World) : Prop := {
  us_registered : registered_ok TransportUDP w;
  us_listener : ∀ k t, w_udp_sessions w !! k = Some t →
    w_udp_transports w !! t = Some (mkUDPTransport (Some k) false);
  us_clients : w_udp_clients w = ∅
}.

(** ** Hearing a message *)

Section Entry.
Context {env : Env}.

Lemma heard_server w w1 i v : version_ok v → heard w w1 i v → udp_server w → udp_server w1.
Proof.
  intros Hv Hh [Hf Hl Hc]. split.
  - by eapply heard_registered.
  - intros k t. rewrite (hr_listener _ _ _ _ Hh), (hr_udp _ _ _ _ Hh). apply Hl.
  - by rewrite (hr_clients _ _ _ _ Hh).
Qed.

(** The transport of the sender. *)
Lemma run_listener r w :
  udp_server w →
  ∃ t w1, run (getOrCreateTransport r) w = Ok (t, w1) ∧ udp_server w1 ∧
    w_udp_transports w1 !! t = Some (mkUDPTransport (Some r) false) ∧
    w_sessions w1 = w_sessions w ∧ w_trace w1 = w_trace w ∧ abstract w1 = abstract w.
Proof.
  intros [[Hf Hs] Hl Hc]. unfold getOrCreateTransport. rewrite run_atomic.
  destruct (w_udp_sessions w !! r) as [t|] eqn:Hr; [exists t, w; by split_and!; auto|].
  set (t := length (w_udp_transports w)).
  assert (∀ t' x, w_udp_transports w !! t' = Some x →
    (w_udp_transports w ++ [mkUDPTransport (Some r) false]) !! t' = Some x) as Hgrow
    by (intros; by apply lookup_app_l_Some).
  eexists t, _. split_and!; [done| |by apply list_lookup_middle|done|done|done].
  split; [split; [done|]| |done]; cbn.
  - intros k j (v & (tcp & t' & ? & ?) & ?)%Hs. exists v. split; [|done]. exists tcp, t'. auto.
  - intros k t' [[<- <-]|[_ Hk]]%lookup_insert_Some; [by apply list_lookup_middle|auto].
Qed.

(** The session of the sender: its own, or one for this datagram only. *)
Lemma run_session t r w :
  udp_server w → w_udp_transports w !! t = Some (mkUDPTransport (Some r) false) →
  ∃ i v w1, run (match w_sessions w !! r with
                 | Some session => mret session
                 | None => alloc_session None (Some t) 0 r
                 end) w = Ok (i, w1) ∧ udp_server w1 ∧ udp_peer w1 i r v ∧ version_ok v ∧
    session_of w1 i r ∧ w_trace w1 = w_trace w ∧ abstract w1 = abstract w.
Proof.
  intros Hok Ht. destruct (w_sessions w !! r) as [j|] eqn:Hr.
  { destruct (rg_sessions _ _ (us_registered _ Hok) r j Hr) as (v & ? & ?). exists j, v, w.
    split_and!; [done..|by intros j' ?; simplify_eq|done|done]. }
  unfold alloc_session. rewrite run_atomic.
  set (ssm := NewSessionStateMachine _ _ _ _).
  assert (∀ i e, endpoints w !! i = Some e →
    (endpoints w ++ [(None, Some t, ProtocolVersionRFC8855)]) !! i = Some e) as Hgrow
    by (intros; by apply lookup_app_l_Some).
  cbv zeta. set (w1 := tick _). exists (length (w_session_heap w)), ProtocolVersionRFC8855, w1.
  assert (endpoints w1 = endpoints w ++ [(None, Some t, ProtocolVersionRFC8855)])
    as He by (unfold endpoints; cbn; by rewrite fmap_app).
  split_and!; [done| | |by right|by intros j'; cbn; rewrite Hr|done|].
  - destruct Hok as [[Hf Hs] Hl Hc]. split; [split; [done|]|done|done]. cbn.
    intros k j (v & (tcp & t' & ? & ?) & ?)%Hs. exists v. split; [|done]. exists tcp, t'.
    rewrite He. auto.
  - exists None, t. split; [|done]. rewrite He.
    replace (length (w_session_heap w)) with (length (endpoints w)) by apply length_fmap.
    by apply list_lookup_middle.
  - apply service_eq; [done|]. intros k. rewrite !abstract_client, He. cbn.
    destruct (w_sessions w !! k) as [j|] eqn:Hk; [|done]. cbn.
    destruct (rg_sessions _ _ (us_registered _ Hok) k j Hk) as (v & (tcp & t' & Hj & _) & _).
    by rewrite (Hgrow _ _ Hj), Hj.
Qed.

(** A datagram that holds a message comes to its handler. *)
Lemma run_datagram r bs m w :
  udp_server w → Decode bs = Ok m → wf_request m →
  ∃ i w1, run (udp_datagram r bs) w = run (udp_dispatch i m) w1 ∧ udp_server w1 ∧
    udp_peer w1 i r (mVersion m) ∧ session_of w1 i r ∧ abstract w1 = hear r m (abstract w) ∧
    sent TransportUDP w w1 [] [].
Proof.
  intros Hok Hdec Hm. unfold udp_datagram. rewrite Hdec.
  destruct (run_listener r w Hok) as (t & w1 & H1 & Hok1 & Ht & Es & Et & Ea).
  rewrite (run_bind_Ok _ _ _ _ _ H1). unfold handleUDPMessage.
  assert (run (UDPTransport_RemoteAddr t) w1 = Ok (r, w1)) as H2
    by (unfold UDPTransport_RemoteAddr; by rewrite run_atomic, Ht).
  rewrite (run_bind_Ok _ _ _ _ _ H2), (run_bind_Ok _ _ _ _ _ (run_gets _ w1)), (us_clients _ Hok1).
  rewrite lookup_empty, (run_bind_Ok _ _ _ _ _ (run_gets _ w1)).
  destruct (run_session t r w1 Hok1 Ht) as (i & v & w2 & H3 & Hok2 & Hp & Hv & Hi & Et2 & Ea2).
  rewrite (run_bind_Ok _ _ _ _ _ H3).
  destruct (run_udp_heard i r v m w2 Hp Hm) as (w3 & H4 & Hh). rewrite H4.
  exists i, w3. split_and!; [done| | | | |].
  - eapply heard_server; [apply Hm|done|done].
  - by eapply heard_udp_peer.
  - intros j. rewrite (hr_sessions _ _ _ _ Hh). apply Hi.
  - by rewrite (hear_abstract TransportUDP _ _ _ _ _ _ (us_registered _ Hok2) Hp Hi Hh), Ea2, Ea.
  - split; [exists []|]; rewrite app_nil_r.
    + by rewrite (hr_packets _ _ _ _ Hh), Et2, Et.
    + by rewrite (hr_calls _ _ _ _ Hh), Et2, Et.
Qed.
End Entry.

(** ** The datagrams *)

Section Serves.
Context {env : Env} (Hwrite : ∀ t, write_ok t = true) (Hconf : is_u32 (cConferenceID config)).
#[local] Set Default Proof Using "Hwrite Hconf".

(** A served message leaves the server in good order. *)
Lemma serviced_server i r m w w' :
  udp_server w → udp_peer w i r (mVersion m) → version_ok (mVersion m) →
  serviced TransportUDP i r m w w' → udp_server w'.
Proof using.
  intros [[_ Hs] Hl Hc] Hp Hv []. split; [split; [done|]|..].
  - intros k j. rewrite sd_sessions. unfold registered_by.
    assert (∀ k j v, udp_peer w j k v → udp_peer w' j k v) as Hmove
      by (intros ??? (x & t & ? & ?); exists x, t; by rewrite sd_endpoints, sd_udp).
    destruct (_ =? _).
    + intros [[<- <-]|[_ (v & ? & ?)%Hs]]%lookup_insert_Some;
        [exists (mVersion m); by split; [apply Hmove|]|exists v; by split; [apply Hmove|]].
    + intros (v & ? & ?)%Hs. exists v. by split; [apply Hmove|].
  - intros k t. rewrite sd_listener, sd_udp. apply Hl.
  - by rewrite sd_clients.
Qed.

(** What the listener does with datagrams that arrive one after the other. *)
Definition udp_datagrams (ds : list (string * bytes)) : prog () :=
  for_each ds (λ d, udp_datagram d.1 d.2).

Lemma datagrams_refine ds w :
  udp_server w → Forall (λ d, all_u8 d.2) ds →
  ∃ w' out cb, run (udp_datagrams ds) w = Ok (tt, w') ∧ udp_server w' ∧
    service_run (abstract w) ds (abstract w') out cb ∧ sent TransportUDP w w' out cb.
Proof.
  revert w. induction ds as [|[r bs] ds IH]; intros w Hok Hds.
  { exists w, [], []. split_and!; [done|done|constructor|apply sent_refl]. }
  apply Forall_cons in Hds as [Hbs Hds]. cbn [fst snd] in Hbs. unfold udp_datagrams. cbn [for_each fst snd].
  destruct (Decode_returns bs) as [Hret _]. destruct (Decode bs) as [m|e| |] eqn:Hm; [| |done..].
  - destruct (run_datagram r bs m w Hok Hm) as (i & w1 & H1 & Hok1 & Hp1 & Hi1 & Ea & Hs1);
      [by eapply typed_request, decoded|].
    assert (wf_request m) as Hwf by (by eapply typed_request, decoded).
    destruct (served_message Hwrite Hconf TransportUDP i r m w1 (us_registered _ Hok1) Hp1 Hi1 Hwf) as [w2 Hsd].
    pose proof (serviced_server _ _ _ _ _ Hok1 Hp1 (rq_version _ Hwf) Hsd) as Hok2.
    destruct Hsd as [H2 _ (out1 & cb1 & Hs2 & Hserves) _ _ _ _ _ _]. cbn [dispatch] in H2.
    destruct (IH w2 Hok2 Hds) as (w3 & out2 & cb2 & H3 & Hok3 & Hrun & Hs3).
    exists w3, (out1 ++ out2), (cb1 ++ cb2). split_and!; [|done| |].
    + rewrite H2 in H1. by rewrite (run_bind_Ok _ _ _ _ _ H1).
    + rewrite Ea in Hserves. by eapply service_run_message.
    + exact (sent_trans _ _ _ _ _ _ _ _ Hs1 (sent_trans _ _ _ _ _ _ _ _ Hs2 Hs3)).
  - destruct (IH w Hok Hds) as (w3 & out & cb & H3 & Hok3 & Hrun & Hs3). exists w3, out, cb.
    split_and!; [|done|by eapply service_run_garbage|done].
    assert (run (udp_datagram r bs) w = Ok (tt, w)) as H1 by (unfold udp_datagram; by rewrite Hm).
    by rewrite (run_bind_Ok _ _ _ _ _ H1).
Qed.

(** C1: the server over UDP refines the abstract service: whatever datagrams arrive, one
    after the other, from whatever addresses, the server handles them all, is again in
    good order, and what it has sent and told the application is what a run of the
    service gives out between the services that the two worlds stand for. *)
Theorem udp_service_refined ds w :
  udp_server w → Forall (λ d, all_u8 d.2) ds →
  ∃ w' out cb, run (udp_datagrams ds) w = Ok (tt, w') ∧ udp_server w' ∧
    service_run (abstract w) ds (abstract w') out cb ∧ sent TransportUDP w w' out cb.
Proof. apply datagrams_refine. Qed.

Lemma service_run_holder s ds s' out cb id u rid :
  service_run s ds s' out cb → lock_in s id = Lock.Held u rid →
  Forall (λ d, ∀ m, Decode d.2 = Ok m → ¬ gives_up m u) ds → lock_in s' id = Lock.Held u rid.
Proof using.
  induction 1 as [|s from bs m s1 out1 cb1 ds s2 out2 cb2 Hm Hs _ IH|s from bs e ds s2 out cb _ _ IH];
    intros Hl Hds; [done|..]; apply Forall_cons in Hds as [Hd Hds]; apply IH; try done.
  eapply (serves_holder TransportUDP); [exact Hs|done|]. by apply Hd.
Qed.

(** C12: a floor granted over UDP is the holder's until the holder gives it up: datagrams
    of any kind, from any addresses, among which there is no release and no goodbye in
    the name of the holder and no release in the name of user 0, leave the floor granted
    to the same user under the same request. *)
Theorem udp_holder_keeps_floor ds w id u rid :
  udp_server w → Forall (λ d, all_u8 d.2) ds → lock_at w id = Lock.Held u rid →
  Forall (λ d, ∀ m, Decode d.2 = Ok m → ¬ gives_up m u) ds →
  ∃ w', run (udp_datagrams ds) w = Ok (tt, w') ∧ lock_at w' id = Lock.Held u rid.
Proof.
  intros Hok Hds Hl Hg. destruct (datagrams_refine ds w Hok Hds) as (w' & out & cb & Hrun & _ & Hs & _).
  exists w'. split; [done|]. rewrite <- lock_in_abstract in *. by eapply service_run_holder.
Qed.
End Serves.

(** ** Two clients

    User 7 says hello from "a" and is granted floor 1; user 8 says hello from "b", and
    asks for the floor, too; something arrives that is no message. *)

Definition demo_datagrams : list (string * bytes) :=
  [("a", datagram (demo_message 2 PrimitiveHello 1 7)); ("a", datagram (demo_request 2 2 7 1));
   ("b", datagram (demo_message 1 PrimitiveHello 1 8)); ("c", [0; 0; 7]);
   ("b", datagram (demo_request 1 2 8 1))].

Lemma new_server_udp {env : Env} : udp_server NewServer.
Proof. by split. Qed.

Lemma demo_datagrams_u8 : Forall (λ d, all_u8 d.2) demo_datagrams.
Proof. apply (bool_decide_unpack _). by vm_compute. Qed.

Lemma udp_service_refined_witness :
  ∃ w' out cb, run (@udp_datagrams (demo_env TransportUDP) demo_datagrams) NewServer = Ok (tt, w') ∧
    @service_run (demo_env TransportUDP) (mkService ∅ ∅) demo_datagrams (abstract w') out cb ∧
    @sent (demo_env TransportUDP) TransportUDP NewServer w' out cb ∧ lock_in (abstract w') 1 = Lock.Held 7 1.
Proof.
  destruct (@udp_service_refined (demo_env TransportUDP) (λ _, eq_refl) demo_conference demo_datagrams
    NewServer new_server_udp demo_datagrams_u8) as (w' & out & cb & Hrun & _ & Hs & Hsent).
  exists w', out, cb. split; [exact Hrun|]. split; [exact Hs|]. split; [exact Hsent|].
  revert Hrun. vm_compute. intros [= <-]. reflexivity.
Defined.

Lemma udp_holder_keeps_floor_witness :
  ∃ w', run (@udp_datagrams (demo_env TransportUDP) demo_datagrams) demo_udp = Ok (tt, w') ∧
    lock_at w' 1 = Lock.Held 7 3.
Proof.
  apply (@udp_holder_keeps_floor (demo_env TransportUDP) (λ _, eq_refl) demo_conference demo_datagrams
    demo_udp 1 7 3).
  - split; [split; [apply demo_floors_ok|]| |reflexivity].
    + unfold demo_udp, demo_world at 1. cbn [w_sessions].
      intros k j [[<- <-]|[_ [<- <-]%lookup_singleton_Some]]%lookup_insert_Some.
      * exists 2. split; [apply demo_udp_a|by right].
      * exists 1. split; [apply demo_udp_b|by left].
    + unfold demo_udp, demo_world. cbn [w_udp_sessions w_udp_transports].
      by intros k t [[<- <-]|[_ [<- <-]%lookup_singleton_Some]]%lookup_insert_Some.
  - exact demo_datagrams_u8.
  - reflexivity.
  - repeat apply Forall_cons_2; try apply Forall_nil_2; cbn [fst snd]; intros m; vm_compute;
      (intros [= <-] || intros [=]); intros [[[=] _]|[[=] _]].
Defined.
