(* ===== verification/TCPService.v ===== *)
(** * The TCP service

    The server over TCP against the service of [ServiceSpec.v]: its clients connect, say
    something and hang up, one after the other, and the server serves them as the service
    says, tells the application who has left, and forgets whoever hangs up - but for the
    floors, which stay with them ([tcp_service_refined], [tcp_holder_keeps_floor]). *)

From S2P Require Import Prelude Types Message Grouped Codec FloorFSM Session Prog World Transport UDPClient Server Threads Interleave ServerSafe Scenario Safety Responses ServerRun FloorLocks Channel Typed Service Served Hello Quiet ServiceSpec ServiceStep.

(** ** Connections in turns *)

(** What the peers do: messages come to the server as its read loops read them. *)
Inductive turn :=
| Connects (remote : string)
| Says (remote : string) (m : Message)
| HangsUp (remote : string).

(** The open connections: by address, session and transport. *)
Abbreviation connections := (gmap string (nat * nat)).

Section Turns.
Context {env : Env}.

(** The start and the end of [accept_connection]. *)
Definition connect (remote : string) : prog (nat * nat) :=
  t ← atomic (λ w, Ok (length (w_transports w),
        set_transports (λ l, l ++ [NewTransport remote RolePassive]) w));
  sess ← handleConnection t;
  remoteAddr ← Transport_RemoteAddr t;
  Transport_Start t ;;
  mret (sess, t).

Definition hang_up (sess t : nat) (remote : string) : prog () :=
  Transport_Close t ;; on_close sess remote.

(** One turn; an address has one connection at a time. *)
Definition tcp_turn (conns : connections) (e : turn) : prog connections :=
  match e with
  | Connects r =>
      match conns !! r with
      | Some _ => mret conns
      | None => c ← connect r; mret (<[r := c]> conns)
      end
  | Says r m =>
      match conns !! r with
      | Some (sess, t) =>
          connection_loop sess t [m] ;;
          closed ← Transport_IsClosed t;
          if closed : bool then hang_up sess t r ;; mret (delete r conns) else mret conns
      | None => mret conns
      end
  | HangsUp r =>
      match conns !! r with
      | Some (sess, t) => hang_up sess t r ;; mret (delete r conns)
      | None => mret conns
      end
  end.

Fixpoint tcp_turns (conns : connections) (es : list turn) : prog connections :=
  match es with
  | [] => mret conns
  | e :: es => conns ← tcp_turn conns e; tcp_turns conns es
  end.

Lemma turns_of_nobody r (msgs : list Message) w :
  run (tcp_turns ∅ ((Says r <$> msgs) ++ [HangsUp r])) w = Ok (∅, w).
Proof. by induction msgs. Qed.

Lemma run_bind_IsClosed {A} t (k : bool → prog A) w :
  run (closed ← Transport_IsClosed t; k closed) w =
  match w_transports w !! t with Some tr => run (k (tClosed tr)) w | None => Panic end.
Proof.
  rewrite run_bind. unfold Transport_IsClosed. rewrite run_atomic. by destruct (w_transports w !! t).
Qed.

Lemma run_loop_one i t m w :
  run (connection_loop i t [m]) w =
  match w_transports w !! t with
  | Some tr => if tClosed tr then Ok (tt, w) else run (handleMessage i m) w
  | None => Panic
  end.
Proof.
  cbn [connection_loop]. rewrite run_bind_IsClosed. destruct (w_transports w !! t) as [tr|]; [|done].
  destruct (tClosed tr); [done|]. rewrite run_bind. by destruct (run (handleMessage i m) w) as [[[] ?]| | |].
Qed.

(** A closed transport is not read any more. *)
Lemma run_loop_closed i t tr msgs w :
  w_transports w !! t = Some tr → tClosed tr = true → run (connection_loop i t msgs) w = Ok (tt, w).
Proof.
  intros Ht Hc. destruct msgs; [done|]. cbn [connection_loop]. by rewrite run_bind_IsClosed, Ht, Hc.
Qed.

Lemma run_bind_assoc {A B C} (p : prog A) (f : A → prog B) (g : B → prog C) w :
  run ((p ≫= f) ≫= g) w = run (p ≫= λ a, f a ≫= g) w.
Proof. rewrite !run_bind. destruct (run p w) as [[a w1]| | |]; [|done..]. symmetry. apply run_bind. Qed.

Lemma run_bind_ext {A B} (p : prog A) (f g : A → prog B) w :
  (∀ a w', run (f a) w' = run (g a) w') → run (p ≫= f) w = run (p ≫= g) w.
Proof. intros H. rewrite !run_bind. destruct (run p w) as [[a w1]| | |]; [apply H|done..]. Qed.

Lemma run_bind_eq {A B} (p q : prog A) (k : A → prog B) w :
  run p w = run q w → run (p ≫= k) w = run (q ≫= k) w.
Proof. intros H. by rewrite !run_bind, H. Qed.

Lemma turns_of_open r i t (msgs : list Message) w :
  run (tcp_turns {[r := (i, t)]} ((Says r <$> msgs) ++ [HangsUp r])) w =
  run (connection_loop i t msgs ;; hang_up i t r ;; mret ∅) w.
Proof.
  assert (delete r ({[r := (i, t)]} : connections) = ∅) as Hdel by apply delete_singleton_eq.
  revert w. induction msgs as [|m msgs IH]; intros w; cbn [fmap list_fmap app tcp_turns tcp_turn];
    rewrite lookup_singleton_eq, Hdel.
  { rewrite run_bind_assoc. exact (run_bind_ext (hang_up i t r) _ (λ _, mret ∅) w (λ _ _, eq_refl)). }
  pose proof (run_loop_one i t m w) as Hl. rewrite run_bind_assoc.
  destruct (w_transports w !! t) as [tr|] eqn:Ht; [destruct (tClosed tr) eqn:Hcl|].
  - rewrite (run_bind_Ok _ _ _ _ _ Hl), (run_bind_Ok _ _ _ _ _ (run_loop_closed i t tr (m :: msgs) w Ht Hcl)).
    rewrite run_bind_assoc, run_bind_IsClosed, Ht, Hcl, run_bind_assoc.
    apply run_bind_ext. intros [] w'. apply turns_of_nobody.
  - rewrite (run_bind_eq _ (handleMessage i m)) by done. cbn [connection_loop].
    rewrite run_bind_assoc, run_bind_IsClosed, Ht, Hcl, run_bind_assoc. apply run_bind_ext. intros [] w1.
    rewrite run_bind_assoc, run_bind_IsClosed.
    destruct (w_transports w1 !! t) as [tr1|] eqn:Ht1; [destruct (tClosed tr1) eqn:Hcl1|].
    + rewrite (run_bind_Ok _ _ _ _ _ (run_loop_closed i t tr1 msgs w1 Ht1 Hcl1)), run_bind_assoc.
      apply run_bind_ext. intros [] w'. apply turns_of_nobody.
    + apply IH.
    + destruct msgs; cbn [connection_loop].
      * symmetry. change (run (hang_up i t r ;; mret (∅ : connections)) w1 = Panic).
        unfold hang_up, Transport_Close. by rewrite !run_bind, run_atomic, Ht1.
      * by rewrite run_bind_assoc, run_bind_IsClosed, Ht1.
  - rewrite run_bind, Hl. cbn [connection_loop]. by rewrite run_bind_assoc, run_bind_IsClosed, Ht.
Qed.

(** A new connection: a session of nobody, which is not registered yet. *)
Definition connected_world (r : string) (w : World) : World :=
  tick (set_session_heap (λ l, l ++ [mkSession (Some (length (w_transports w))) None
      (NewSessionStateMachine (u16 (cConferenceID config)) 0 r (now (w_tick w)))])
    (set_transports (λ l, l ++ [NewTransport r RolePassive]) w)).

Lemma run_new_transport r w :
  let w1 := set_transports (λ l, l ++ [NewTransport r RolePassive]) w in
  let t := length (w_transports w) in
  run (handleConnection t) w1 = Ok (length (w_session_heap w), connected_world r w) ∧
  run (Transport_RemoteAddr t) (connected_world r w) = Ok (r, connected_world r w) ∧
  run (Transport_Start t) (connected_world r w) = Ok (tt, connected_world r w).
Proof.
  intros w1 t. assert (w_transports w1 !! t = Some (NewTransport r RolePassive)) as Ht
    by by apply list_lookup_middle.
  assert (w_transports (connected_world r w) !! t = Some (NewTransport r RolePassive)) as Ht' by done.
  assert (run (Transport_RemoteAddr t) w1 = Ok (r, w1)) as Hr
    by (unfold Transport_RemoteAddr; by rewrite run_atomic, Ht).
  split_and!.
  - unfold handleConnection. rewrite (run_bind_Ok _ _ _ _ _ Hr). unfold alloc_session. by rewrite run_atomic.
  - unfold Transport_RemoteAddr. by rewrite run_atomic, Ht'.
  - unfold Transport_Start, StartKeepalive. by rewrite (run_bind_Ok _ _ _ _ _ (run_deref _ _ _ _ Ht')).
Qed.

Lemma run_connect r w :
  run (connect r) w = Ok ((length (w_session_heap w), length (w_transports w)), connected_world r w).
Proof.
  destruct (run_new_transport r w) as (H1 & H2 & H3). unfold connect.
  erewrite run_bind_Ok by by rewrite run_atomic.
  by rewrite (run_bind_Ok _ _ _ _ _ H1), (run_bind_Ok _ _ _ _ _ H2), (run_bind_Ok _ _ _ _ _ H3).
Qed.

(** A connection that is served alone, as in turns. *)
Lemma turns_of_connection r msgs w :
  run (tcp_turns ∅ (Connects r :: (Says r <$> msgs) ++ [HangsUp r])) w =
  run (accept_connection r msgs ;; mret ∅) w.
Proof.
  cbn [tcp_turns tcp_turn]. rewrite lookup_empty, run_bind_assoc, (run_bind_Ok _ _ _ _ _ (run_connect r w)).
  unfold accept_connection, serve_connection. destruct (run_new_transport r w) as (H1 & H2 & H3).
  rewrite run_bind_assoc. erewrite (run_bind_Ok (atomic _)) by by rewrite run_atomic.
  rewrite run_bind_assoc, (run_bind_Ok _ _ _ _ _ H1), run_bind_assoc, (run_bind_Ok _ _ _ _ _ H2).
  rewrite run_bind_assoc, (run_bind_Ok _ _ _ _ _ H3).
  etrans; [exact (turns_of_open r _ _ msgs (connected_world r w))|].
  rewrite run_bind_assoc. apply run_bind_ext. intros [] w'. done.
Qed.
End Turns.

(** ** The users of the sessions *)

Section Users.
Context {env : Env}.

Lemma upd_users i f u w w' :
  (∀ t s, ssmUserID (f t s) = default (ssmUserID s) u) → run (upd_session i f) w = Ok (tt, w') →
  users w' = match u with Some user => <[i := user]> (users w) | None => users w end.
Proof.
  intros Hf. unfold upd_session. rewrite run_atomic. destruct (w_session_heap w !! i) as [s|] eqn:Hs; [|done].
  intros [= <-]. unfold users. cbn. rewrite list_fmap_insert. cbn. rewrite Hf. destruct u; [done|].
  apply list_insert_id. by rewrite list_lookup_fmap, Hs.
Qed.

(** Whoever says hello is the user of the session. *)
Lemma handled_users i m w w' :
  run (handleMessage i m) w = Ok (tt, w') →
  users w' = if mPrimitive m =? PrimitiveHello then <[i := mUserID m]> (users w) else users w.
Proof.
  unfold handleMessage. intros ([] & w1 & H1 & H)%run_bind_inv.
  apply run_bind_inv in H as ([] & w2 & H2 & H). apply run_bind_inv in H as (remote & w3 & H3 & H).
  apply run_bind_inv in H as ([] & w4 & H4 & H).
  apply (upd_users i _ None) in H1; [|done]. apply (upd_users i _ None) in H2; [|done].
  apply (keeps_run _ _ _ _ _ (quiet_tcp_remote true true true i)), qt_users in H3; [|done].
  assert (users w4 = users w) as <-.
  { refine (eq_trans (qt_users true true true _ _ (keeps_run _ _ _ _ _ _ H4) eq_refl) _); [|congruence].
    unfold message_in. quietly. }
  destruct (Z.eqb_spec (mPrimitive m) PrimitiveHello) as [Hh|Hh].
  - unfold tcp_dispatch in H. rewrite Hh in H. by eapply hello_users.
  - apply (qt_users _ true _ _ _ (dispatched_quiet TransportTCP i m w4 w' Hh H) eq_refl).
Qed.
End Users.

(** ** The service and its connections *)

(** The service together with the open connections: by address, the user. *)
Record tcp_service := mkTCP { tcService : service; tcOpen : gmap string Z }.

(** Who hangs up is not a client any more; its floors stay as they are. *)
Definition forget (r : string) (s : service) : service := mkService (sLocks s) (delete r (sClients s)).

Section Service.
Context {env : Env}.

Definition disconnect_calls (r : string) (user : Z) : list event :=
  if OnClientDisconnect hooks then [ClientDisconnect r user] else [].

Inductive tcp_serves (open : gmap string Z) (s : service) :
    turn → tcp_service → list (string * letter) → list event → Prop :=
| tcp_connects r :
    open !! r = None → tcp_serves open s (Connects r) (mkTCP s (<[r := 0]> open)) [] []
| tcp_says r m user s' out cb :
    open !! r = Some user → mPrimitive m ≠ PrimitiveGoodbye →
    serves TransportTCP (hear r m s) r m s' out cb →
    tcp_serves open s (Says r m)
      (mkTCP s' (if mPrimitive m =? PrimitiveHello then <[r := mUserID m]> open else open)) out cb
| tcp_says_goodbye r m user s' out cb :
    open !! r = Some user → mPrimitive m = PrimitiveGoodbye →
    serves TransportTCP (hear r m s) r m s' out cb →
    tcp_serves open s (Says r m) (mkTCP (forget r s') (delete r open)) out (cb ++ disconnect_calls r user)
| tcp_hangs_up r user :
    open !! r = Some user →
    tcp_serves open s (HangsUp r) (mkTCP (forget r s) (delete r open)) [] (disconnect_calls r user)
| tcp_connected r user :
    open !! r = Some user → tcp_serves open s (Connects r) (mkTCP s open) [] []
| tcp_nobody r m :
    open !! r = None → tcp_serves open s (Says r m) (mkTCP s open) [] []
| tcp_gone r :
    open !! r = None → tcp_serves open s (HangsUp r) (mkTCP s open) [] [].

Inductive tcp_run : tcp_service → list turn → tcp_service → list (string * letter) → list event → Prop :=
| tcp_run_nil s : tcp_run s [] s [] []
| tcp_run_cons s e s1 out1 cb1 es s2 out2 cb2 :
    tcp_serves (tcOpen s) (tcService s) e s1 out1 cb1 → tcp_run s1 es s2 out2 cb2 →
    tcp_run s (e :: es) s2 (out1 ++ out2) (cb1 ++ cb2).
End Service.

(** ** The server as a service *)

(** Session [i] and transport [t] are an open connection to [r]. *)
Definition connected (w : World) (r : string) (i t : nat) : Prop :=
  ∃ tr v, endpoints w !! i = Some (Some t, None, v) ∧ w_transports w !! t = Some tr ∧
    tRemote tr = r ∧ tClosed tr = false ∧ wgWaiters (tKeepaliveWg tr) = 0%nat ∧ version_ok v.

(** The connections but that of [r] are open, and registered sessions are theirs. *)
Record others_open (r : option string) (conns : connections) (w : World) : Prop := {
  oo_floors : floors_ok w;
  oo_conns : ∀ k i t, Some k ≠ r → conns !! k = Some (i, t) → connected w k i t;
  oo_sessions : ∀ k j, Some k ≠ r → w_sessions w !! k = Some j → ∃ t, conns !! k = Some (j, t)
}.

(** The server over TCP: floors are well formed, the connections are open, and registered
    sessions are those of connections, under their addresses. *)
Definition tcp_server : connections → World → Prop := others_open None.

Definition tcp_abstract (conns : connections) (w : World) : tcp_service :=
  mkTCP (abstract w) (omap (λ c, users w !! c.1) conns).

Section Server.
Context {env : Env}.

Lemma connected_peer w r i t : connected w r i t → ∃ v, tcp_peer w i r v ∧ version_ok v.
Proof. intros (tr & v & ? & ? & ? & ? & ? & ?). exists v. split; [by exists t, tr|done]. Qed.

Lemma connected_user w r i t : connected w r i t → ∃ user, users w !! i = Some user.
Proof.
  intros (tr & v & (s & Hs & _)%endpoints_lookup & _). exists (ssmUserID (sStateMachine s)).
  unfold users. by rewrite list_lookup_fmap, Hs.
Qed.

Lemma server_registered conns w : tcp_server conns w → registered_ok TransportTCP w.
Proof.
  intros [Hf Hc Hs]. split; [done|]. intros k j Hj. destruct (Hs k j ltac:(done) Hj) as (t & Ht).
  by apply (connected_peer w k j t), Hc.
Qed.

Lemma server_session conns w r i t : tcp_server conns w → conns !! r = Some (i, t) → session_of w i r.
Proof. intros Hok Hc j Hj. destruct (oo_sessions _ _ _ Hok r j ltac:(done) Hj) as (t' & ?). by simplify_eq. Qed.

Lemma server_others r conns w : tcp_server conns w → others_open (Some r) conns w.
Proof. intros [Hf Hc Hs]. split; [done|..]; intros; [by apply Hc|by apply Hs]. Qed.

Lemma omap_delete_users (f : nat * nat → option Z) r (conns : connections) :
  omap f (delete r conns) = delete r (omap f conns).
Proof.
  apply map_eq. intros k. rewrite lookup_omap. destruct (decide (k = r)) as [->|].
  - by rewrite !lookup_delete_eq.
  - by rewrite !lookup_delete_ne, lookup_omap.
Qed.

Lemma omap_insert_users (f : nat * nat → option Z) r c u (conns : connections) :
  f c = Some u → omap f (<[r := c]> conns) = <[r := u]> (omap f conns).
Proof.
  intros Hf. apply map_eq. intros k. rewrite lookup_omap. destruct (decide (k = r)) as [->|].
  - by rewrite !lookup_insert_eq.
  - by rewrite !lookup_insert_ne, lookup_omap.
Qed.

(** The end of a connection. *)
Lemma run_hang_up conns w r i t tr user :
  others_open (Some r) conns w → conns !! r = Some (i, t) → w_transports w !! t = Some tr →
  tRemote tr = r → users w !! i = Some user →
  ∃ w', run (hang_up i t r) w = Ok (tt, w') ∧ tcp_server (delete r conns) w' ∧
    tcp_abstract (delete r conns) w' =
      mkTCP (forget r (abstract w)) (delete r (tcOpen (tcp_abstract conns w))) ∧
    sent TransportTCP w w' [] (disconnect_calls r user).
Proof.
  intros [Hf Hc Hs] Hr Ht Htr Hu.
  assert (∃ s, w_session_heap w !! i = Some s ∧ ssmUserID (sStateMachine s) = user) as (s & Hi & Hus).
  { unfold users in Hu. rewrite list_lookup_fmap in Hu. apply fmap_Some in Hu as (s & ? & ->). by exists s. }
  set (w1 := set_transports <[t := close_tcp tr]> w). set (w2 := set_sessions (delete r) w1).
  destruct (run_callback (OnClientDisconnect hooks) (ClientDisconnect r user) w2) as (w3 & H3 & Hs3); [done..|].
  pose proof (step_comm _ _ _ _ Hs3) as Hcm.
  assert (w_session_heap w3 = w_session_heap w) as Ehp.
  { destruct (OnClientDisconnect hooks); cbn [when] in H3; [rewrite run_emit in H3|]; by injection H3 as <-. }
  exists w3. split_and!.
  - unfold hang_up. assert (run (Transport_Close t) w = Ok (tt, w1)) as H1
      by (unfold Transport_Close; by rewrite run_atomic, Ht).
    rewrite (run_bind_Ok _ _ _ _ _ H1). unfold on_close.
    rewrite (run_bind_Ok _ _ _ _ _ (run_modify _ w1)), (run_bind_Ok _ _ _ _ _ (run_deref _ _ _ w2 Hi)).
    by rewrite Hus.
  - split.
    + by apply (step_floors_ok _ _ _ _ Hs3).
    + intros k i' t' _ [Hk Hk']%lookup_delete_Some. destruct (Hc k i' t' ltac:(congruence) Hk') as (tr' & v & H).
      exists tr', v. rewrite (comm_endpoints _ _ _ _ Hcm), (comm_tcp _ _ _ _ Hcm).
      change (w_transports w2) with (<[t := close_tcp tr]> (w_transports w)).
      destruct H as (Hi' & Ht' & Hr' & ? & ?). rewrite list_lookup_insert_ne; [done|].
      intros <-. congruence.
    + intros k j _. rewrite (comm_sessions _ _ _ _ Hcm). change (w_sessions w2) with (delete r (w_sessions w)). intros [Hk Hk']%lookup_delete_Some.
      destruct (Hs k j ltac:(congruence) Hk') as (t' & ?). exists t'. by rewrite lookup_delete_ne.
  - unfold tcp_abstract. cbn [tcOpen]. f_equal.
    + apply service_eq; cbn [forget sLocks sClients]; intros k.
      * by rewrite !abstract_lock, (step_floor_of _ _ _ _ k Hs3).
      * rewrite abstract_client, (comm_sessions _ _ _ _ Hcm), (comm_endpoints _ _ _ _ Hcm).
        change (w_sessions w2) with (delete r (w_sessions w)).
        destruct (decide (k = r)) as [->|]; [by rewrite !lookup_delete_eq|].
        by rewrite !lookup_delete_ne, abstract_client.
    + unfold users. rewrite Ehp. apply omap_delete_users.
  - split; [exists []; by rewrite (comm_packets _ _ _ _ Hcm)|by rewrite (comm_calls _ _ _ _ Hcm)].
Qed.

(** A new connection. *)
Lemma connected_server r conns w :
  tcp_server conns w → conns !! r = None →
  let c := (length (w_session_heap w), length (w_transports w)) in
  tcp_server (<[r := c]> conns) (connected_world r w) ∧
  tcp_abstract (<[r := c]> conns) (connected_world r w) =
    mkTCP (abstract w) (<[r := 0]> (tcOpen (tcp_abstract conns w))).
Proof.
  intros Hok Hr c. pose proof (server_registered conns w Hok) as Hreg. destruct Hok as [Hf Hc Hs].
  set (t := length (w_transports w)) in *. set (w' := connected_world r w).
  assert (endpoints w' = endpoints w ++ [(Some t, None, ProtocolVersionRFC4582)]) as He
    by (unfold endpoints; cbn; by rewrite fmap_app).
  assert (users w' = users w ++ [0]) as Hu by (unfold users; cbn; by rewrite fmap_app).
  assert (length (w_session_heap w) = length (endpoints w)) as Hle by (symmetry; apply length_fmap).
  assert (length (w_session_heap w) = length (users w)) as Hlu by (symmetry; apply length_fmap).
  split; [split; [done|..]|].
  - intros k i' t' _ [[<- [= <- <-]]|[_ Hk]]%lookup_insert_Some.
    + eexists (NewTransport r RolePassive), ProtocolVersionRFC4582. rewrite He, Hle.
      split_and!; [by apply list_lookup_middle|by apply list_lookup_middle|done..|by left].
    + destruct (Hc k i' t' ltac:(done) Hk) as (tr & v & Hi & Ht & ?). exists tr, v. rewrite He.
      split_and!; [by apply lookup_app_l_Some|by apply lookup_app_l_Some|apply H..].
  - intros k j _ Hk. destruct (Hs k j ltac:(done) Hk) as (t' & Ht'). exists t'.
    rewrite lookup_insert_ne; [done|]. congruence.
  - unfold tcp_abstract. cbn [tcOpen]. f_equal.
    + apply service_eq; [done|]. intros k. rewrite !abstract_client, He. cbn.
      destruct (w_sessions w !! k) as [j|] eqn:Hk; [|done]. cbn.
      destruct (rg_sessions _ _ Hreg k j Hk) as (v & (tr & t' & Hj & _) & _).
      by rewrite (lookup_app_l_Some _ _ _ _ Hj), Hj.
    + rewrite (omap_insert_users _ r c 0) by (cbn [fst c]; rewrite Hu, Hlu; by apply list_lookup_middle).
      f_equal. apply omap_ext. intros k [i' t'] Hk. cbn [fst].
      destruct (connected_user w k i' t' (Hc k i' t' ltac:(done) Hk)) as (u & Hus).
      by rewrite Hu, Hus, (lookup_app_l_Some _ _ _ _ Hus).
Qed.
End Server.

(** ** One turn *)

Section Refinement.
Context {env : Env} (Hwrite : ∀ t, write_ok t = true) (Hconf : is_u32 (cConferenceID config)).
#[local] Set Default Proof Using "Hwrite Hconf".

(** Connections do not share sessions or transports. *)
Lemma connected_inj w r i t k i' t' :
  connected w r i t → connected w k i' t' → k ≠ r → i' ≠ i ∧ t' ≠ t.
Proof using.
  intros (tr & v & Hi & Ht & Hr & _) (tr' & v' & Hi' & Ht' & Hk & _) Hne.
  assert (t' ≠ t) by (intros ->; congruence). split; [|done]. intros ->. congruence.
Qed.

(** A message that has been handled. *)
Lemma run_message conns w r i t m :
  tcp_server conns w → conns !! r = Some (i, t) → wf_request m →
  ∃ w' out cb tr', run (handleMessage i m) w = Ok (tt, w') ∧ others_open (Some r) conns w' ∧
    serves TransportTCP (hear r m (abstract w)) r m (abstract w') out cb ∧
    sent TransportTCP w w' out cb ∧ w_sessions w' = registered_by m i r (w_sessions w) ∧
    endpoints w' !! i = Some (Some t, None, mVersion m) ∧ w_transports w' !! t = Some tr' ∧
    tRemote tr' = r ∧ tClosed tr' = (mPrimitive m =? PrimitiveGoodbye) ∧
    wgWaiters (tKeepaliveWg tr') = 0%nat.
Proof.
  intros Hok Hr Hm. pose proof (oo_conns _ _ _ Hok r i t ltac:(done) Hr) as Hcn.
  pose proof (server_registered _ _ Hok) as Hreg.
  destruct (connected_peer _ _ _ _ Hcn) as (v & Hp & _).
  destruct (run_tcp_heard i r v m w Hp Hm) as (w1 & Hrun & Hh).
  pose proof (server_session _ _ _ _ _ Hok Hr) as Hi.
  destruct (served_message Hwrite Hconf TransportTCP i r m w1) as [w2 Hsd];
    [by eapply heard_registered; [apply Hm|..]|by eapply heard_tcp_peer| |done|].
  { intros j. rewrite (hr_sessions _ _ _ _ Hh). apply Hi. }
  pose proof (hear_abstract TransportTCP _ _ _ _ _ _ Hreg Hp Hi Hh) as Ea.
  destruct Hsd as [H2 Hf (out & cb & Hs & Hsv) Hse He _ _ _ Hta].
  destruct (Hta eq_refl) as (t0 & tr0 & tr' & v0 & Hi0 & Ht0 & Htr & Hrem & Hcl & Hwg).
  rewrite (hr_endpoints _ _ _ _ Hh) in Hi0, He. rewrite (hr_tcp _ _ _ _ Hh) in Ht0, Htr.
  rewrite (hr_sessions _ _ _ _ Hh) in Hse. pose proof Hcn as (tr & v1 & Hi1 & Ht1 & Hr1 & _).
  rewrite list_lookup_alter_eq, Hi1 in Hi0. simplify_eq/=.
  exists w2, out, cb, tr'. split_and!; [by rewrite Hrun| | | |done| | | |done|done].
  - split; [done|..].
    + intros k i' t' Hk Hk'. pose proof (oo_conns _ _ _ Hok k i' t' ltac:(done) Hk') as Hck.
      destruct (connected_inj _ _ _ _ _ _ _ Hcn Hck) as [Hni Hnt]; [congruence|].
      destruct Hck as (trk & vk & ? & ? & ?). exists trk, vk.
      by rewrite He, Htr, list_lookup_alter_ne, list_lookup_insert_ne.
    + intros k j Hk Hj. rewrite Hse in Hj. unfold registered_by in Hj. apply (oo_sessions _ _ _ Hok); [done|].
      destruct (mPrimitive m =? PrimitiveHello); [|done].
      apply lookup_insert_Some in Hj as [[<- _]|[_ ?]]; [by destruct Hk|done].
  - by rewrite <- Ea.
  - destruct Hs as [(pk & Hpk & Hd) Hc]. split; [exists pk|].
    + by rewrite Hpk, (hr_packets _ _ _ _ Hh).
    + by rewrite Hc, (hr_calls _ _ _ _ Hh).
  - by rewrite He, list_lookup_alter_eq, Hi1.
  - rewrite Htr. apply list_lookup_insert_eq. by eapply lookup_lt_Some.
  - done.
Qed.

(** The users of the connections after a message. *)
Lemma open_after conns w w' r i t m :
  tcp_server conns w → conns !! r = Some (i, t) → run (handleMessage i m) w = Ok (tt, w') →
  tcOpen (tcp_abstract conns w') =
  if mPrimitive m =? PrimitiveHello then <[r := mUserID m]> (tcOpen (tcp_abstract conns w))
  else tcOpen (tcp_abstract conns w).
Proof using.
  intros Hok Hr Hrun. apply handled_users in Hrun. cbn [tcp_abstract tcOpen]. rewrite Hrun.
  destruct (_ =? _); [|done]. apply map_eq. intros k. rewrite lookup_omap.
  pose proof (oo_conns _ _ _ Hok r i t ltac:(done) Hr) as Hcn.
  destruct (decide (k = r)) as [->|Hne].
  - rewrite Hr, lookup_insert_eq. cbn. destruct (connected_user _ _ _ _ Hcn) as (u & Hu).
    apply list_lookup_insert_eq. by eapply lookup_lt_Some.
  - rewrite lookup_insert_ne, lookup_omap by done. destruct (conns !! k) as [[i' t']|] eqn:Hk; [|done]. cbn.
    pose proof (oo_conns _ _ _ Hok k i' t' ltac:(done) Hk) as Hck.
    destruct (connected_inj _ _ _ _ _ _ _ Hcn Hck Hne) as [Hni _]. by rewrite list_lookup_insert_ne.
Qed.

(** What one turn is: a transition of the service. *)
Definition turn_served (conns : connections) (w : World) (e : turn) : Prop :=
  ∃ conns' w' out cb, run (tcp_turn conns e) w = Ok (conns', w') ∧ tcp_server conns' w' ∧
    tcp_serves (tcOpen (tcp_abstract conns w)) (abstract w) e (tcp_abstract conns' w') out cb ∧
    sent TransportTCP w w' out cb.

Lemma open_user conns w r i t :
  tcp_server conns w → conns !! r = Some (i, t) →
  ∃ user, users w !! i = Some user ∧ tcOpen (tcp_abstract conns w) !! r = Some user.
Proof using.
  intros Hok Hr. destruct (connected_user _ _ _ _ (oo_conns _ _ _ Hok r i t ltac:(done) Hr)) as (u & Hu).
  exists u. split; [done|]. cbn. by rewrite lookup_omap, Hr.
Qed.

Lemma says_served conns w r i t m :
  tcp_server conns w → conns !! r = Some (i, t) → wf_request m → turn_served conns w (Says r m).
Proof.
  intros Hok Hr Hm. destruct (open_user _ _ _ _ _ Hok Hr) as (u & Hu & Ho).
  destruct (oo_conns _ _ _ Hok r i t ltac:(done) Hr) as (tr & v & Hi & Ht & Htr & Hcl & Hwg & Hv).
  destruct (run_message _ _ _ _ _ _ Hok Hr Hm)
    as (w1 & out & cb & tr1 & Hrun & Hoo & Hsv & Hsent & Hse & Hi1 & Ht1 & Hr1 & Hcl1 & Hwg1).
  pose proof (open_after _ _ _ _ _ _ _ Hok Hr Hrun) as Hopen.
  assert (∀ k : bool → prog connections,
    run (connection_loop i t [m] ;; closed ← Transport_IsClosed t; k closed) w = run (k (tClosed tr1)) w1) as Hgo.
  { intros k. erewrite run_bind_Ok by (rewrite run_loop_one, Ht, Hcl; exact Hrun).
    by rewrite run_bind_IsClosed, Ht1. }
  unfold turn_served. cbn [tcp_turn]. rewrite Hr, Hgo, Hcl1.
  destruct (Z.eqb_spec (mPrimitive m) PrimitiveGoodbye) as [Hg|Hg].
  - rewrite Hg in Hopen. destruct (run_hang_up conns w1 r i t tr1 u Hoo Hr Ht1 Hr1)
      as (w2 & H2 & Hok2 & Ea & Hs2).
    { apply handled_users in Hrun. rewrite Hrun, Hg. exact Hu. }
    exists (delete r conns), w2, (out ++ []), (cb ++ disconnect_calls r u).
    split_and!; [by rewrite (run_bind_Ok _ _ _ _ _ H2)|done| |by eapply sent_trans].
    rewrite Ea, Hopen, app_nil_r. by apply tcp_says_goodbye.
  - exists conns, w1, out, cb. split_and!; [done| | |done].
    + destruct Hoo as [Hf Hc Hs]. split; [done|..].
      * intros k i' t' _ Hk. destruct (decide (k = r)) as [->|]; [|apply Hc; congruence].
        simplify_eq. exists tr1, (mVersion m). split_and!; [done..|apply Hm].
      * intros k j _ Hk. destruct (decide (k = r)) as [->|]; [|apply Hs; congruence].
        exists t. rewrite Hse in Hk. unfold registered_by in Hk. destruct (_ =? _).
        -- rewrite lookup_insert_eq in Hk. by simplify_eq.
        -- destruct (oo_sessions _ _ _ Hok r j ltac:(done) Hk) as (t' & ?). congruence.
    + replace (tcp_abstract conns w1) with (mkTCP (abstract w1) (tcOpen (tcp_abstract conns w1))) by done.
      rewrite Hopen. by eapply tcp_says.
Qed.

Definition turn_ok (e : turn) : Prop := match e with Says _ m => wf_request m | _ => True end.

Lemma turn_is_served conns w e : tcp_server conns w → turn_ok e → turn_served conns w e.
Proof.
  intros Hok He. assert (∀ r, conns !! r = None → tcOpen (tcp_abstract conns w) !! r = None) as Hno
    by (intros r Hr; cbn; by rewrite lookup_omap, Hr).
  destruct e as [r|r m|r]; destruct (conns !! r) as [[i t]|] eqn:Hr;
    try (destruct (open_user _ _ _ _ _ Hok Hr) as (u & Hu & Ho)).
  - exists conns, w, [], []. cbn [tcp_turn]. rewrite Hr.
    split_and!; [done|done|by eapply tcp_connected|apply sent_refl].
  - destruct (connected_server r conns w Hok Hr) as [Hok' Ea]. eexists _, _, [], [].
    cbn [tcp_turn]. rewrite Hr. split_and!; [by rewrite (run_bind_Ok _ _ _ _ _ (run_connect r w))|exact Hok'| |].
    + rewrite Ea. by apply tcp_connects, Hno.
    + split; [exists []|]; by rewrite app_nil_r.
  - by eapply says_served.
  - exists conns, w, [], []. cbn [tcp_turn]. rewrite Hr.
    split_and!; [done|done|by apply tcp_nobody, Hno|apply sent_refl].
  - destruct (oo_conns _ _ _ Hok r i t ltac:(done) Hr) as (tr & v & Hi & Ht & Htr & _).
    destruct (run_hang_up conns w r i t tr u (server_others r conns w Hok) Hr Ht Htr Hu)
      as (w' & H1 & Hok' & Ea & Hs).
    exists (delete r conns), w', [], (disconnect_calls r u). cbn [tcp_turn]. rewrite Hr.
    split_and!; [by rewrite (run_bind_Ok _ _ _ _ _ H1)|done| |done]. rewrite Ea. by apply tcp_hangs_up.
  - exists conns, w, [], []. cbn [tcp_turn]. rewrite Hr.
    split_and!; [done|done|by apply tcp_gone, Hno|apply sent_refl].
Qed.

Lemma turns_refine es conns w :
  tcp_server conns w → Forall turn_ok es →
  ∃ conns' w' out cb, run (tcp_turns conns es) w = Ok (conns', w') ∧ tcp_server conns' w' ∧
    tcp_run (tcp_abstract conns w) es (tcp_abstract conns' w') out cb ∧ sent TransportTCP w w' out cb.
Proof.
  revert conns w. induction es as [|e es IH]; intros conns w Hok Hes.
  { exists conns, w, [], []. split_and!; [done|done|constructor|apply sent_refl]. }
  apply Forall_cons in Hes as [He Hes]. cbn [tcp_turns].
  destruct (turn_is_served conns w e Hok He) as (conns1 & w1 & out1 & cb1 & H1 & Hok1 & Hsv & Hs1).
  destruct (IH conns1 w1 Hok1 Hes) as (conns2 & w2 & out2 & cb2 & H2 & Hok2 & Hrun & Hs2).
  exists conns2, w2, (out1 ++ out2), (cb1 ++ cb2).
  split_and!; [by rewrite (run_bind_Ok _ _ _ _ _ H1)|done| |by eapply sent_trans].
  by eapply tcp_run_cons.
Qed.

(** C2: the server over TCP refines the abstract service: clients connect, send messages
    and hang up in any order, and the server handles each turn, is again in good order,
    and what it has sent and told the application is what a run of the service gives out
    between the services, and the users of the open connections, that the worlds stand
    for. *)
Theorem tcp_service_refined es conns w :
  tcp_server conns w → Forall turn_ok es →
  ∃ conns' w' out cb, run (tcp_turns conns es) w = Ok (conns', w') ∧ tcp_server conns' w' ∧
    tcp_run (tcp_abstract conns w) es (tcp_abstract conns' w') out cb ∧ sent TransportTCP w w' out cb.
Proof. apply turns_refine. Qed.

(** No turn is a message that takes the floors of the user away. *)
Definition keeps_turn (user : Z) (e : turn) : Prop :=
  match e with Says _ m => ¬ gives_up m user | _ => True end.

Lemma tcp_run_holder s es s' out cb id u rid :
  tcp_run s es s' out cb → lock_in (tcService s) id = Lock.Held u rid → Forall (keeps_turn u) es →
  lock_in (tcService s') id = Lock.Held u rid.
Proof using.
  induction 1 as [|s e s1 out1 cb1 es s2 out2 cb2 Hs _ IH]; intros Hl Hes; [done|].
  apply Forall_cons in Hes as [He Hes]. apply IH; [|done].
  destruct Hs as [| |? m ? s' ? ? _ Hg Hsv|?|?|?|?]; try done; cbn [tcService].
  - by eapply (serves_holder TransportTCP).
  - change (lock_in s' id = Lock.Held u rid). by eapply (serves_holder TransportTCP).
Qed.

(** C13: a floor granted over TCP is the holder's until the holder gives it up: clients
    connect, send messages and hang up in any order, the holder among them, each turn
    served to its end before the next one begins (for handlers in the middle of others see
    [holder_keeps_floor_interleaved]), and as long
    as there is no release and no goodbye in the name of the holder and no release in the
    name of user 0, the floor stays granted to the same user under the same request - a
    holder whose connection breaks off is not deprived of its floor. *)
Theorem tcp_holder_keeps_floor es conns w id u rid :
  tcp_server conns w → Forall turn_ok es → lock_at w id = Lock.Held u rid →
  Forall (keeps_turn u) es →
  ∃ conns' w', run (tcp_turns conns es) w = Ok (conns', w') ∧ lock_at w' id = Lock.Held u rid.
Proof.
  intros Hok Hes Hl Hk. destruct (turns_refine es conns w Hok Hes) as (conns' & w' & out & cb & Hrun & _ & Hs & _).
  exists conns', w'. split; [done|]. rewrite <- lock_in_abstract in *.
  exact (tcp_run_holder _ _ _ _ _ id u rid Hs Hl Hk).
Qed.
End Refinement.

(** ** Two clients

    User 7 connects from "a", says hello and is granted floor 1; user 8 connects from "b"
    and asks for the floor, too; "a" breaks off, and then "b" says goodbye. *)

Definition demo_turns : list turn :=
  [Connects "a"; Says "a" (demo_message 1 PrimitiveHello 1 7); Says "a" (demo_request 1 2 7 1);
   Connects "b"; Says "b" (demo_message 1 PrimitiveHello 1 8); Says "b" (demo_request 1 2 8 1);
   HangsUp "a"; Says "b" (demo_message 1 PrimitiveGoodbye 3 8)].

Lemma new_server_tcp : tcp_server ∅ NewServer.
Proof. by split. Qed.

Lemma demo_turns_ok : Forall turn_ok demo_turns.
Proof.
  repeat apply Forall_cons_2; try apply Forall_nil_2; try exact I; apply wf_request_check; by vm_compute.
Qed.

Lemma tcp_service_refined_witness :
  ∃ conns' w' out cb, run (@tcp_turns (demo_env TransportTCP) ∅ demo_turns) NewServer = Ok (conns', w') ∧
    @tcp_run (demo_env TransportTCP) (mkTCP (mkService ∅ ∅) ∅) demo_turns (tcp_abstract conns' w') out cb ∧
    @sent (demo_env TransportTCP) TransportTCP NewServer w' out cb ∧ conns' = ∅ ∧ w_sessions w' = ∅ ∧
    lock_at w' 1 = Lock.Held 7 1.
Proof.
  destruct (@tcp_service_refined (demo_env TransportTCP) (λ _, eq_refl) demo_conference demo_turns
    ∅ NewServer new_server_tcp demo_turns_ok) as (conns' & w' & out & cb & Hrun & _ & Hs & Hsent).
  exists conns', w', out, cb. split; [exact Hrun|]. split; [exact Hs|]. split; [exact Hsent|].
  revert Hrun. vm_compute. intros [= <- <-]. repeat split.
Defined.

(** In the demo world user 7 holds floor 1. *)
Definition demo_connections : connections := {["a" := (0%nat, 0%nat); "b" := (1%nat, 1%nat)]}.
Definition demo_breaks_off : list turn :=
  [HangsUp "a"; Says "b" (demo_request 1 2 8 1); Connects "a"; HangsUp "b"].

Lemma demo_breaks_off_ok : Forall turn_ok demo_breaks_off.
Proof.
  repeat apply Forall_cons_2; try apply Forall_nil_2; try exact I; apply wf_request_check; by vm_compute.
Qed.

Lemma demo_tcp_server : tcp_server demo_connections demo_tcp.
Proof.
  split; [apply demo_floors_ok|..].
  - unfold demo_connections. intros k i t _ [[<- [= <- <-]]|[_ [<- [= <- <-]]%lookup_singleton_Some]]%lookup_insert_Some.
    + eexists _, 2. split_and!; [reflexivity..|by right].
    + eexists _, 1. split_and!; [reflexivity..|by left].
  - intros k j _. unfold demo_tcp, demo_world at 1. cbn [w_sessions].
    intros [[<- <-]|[_ [<- <-]%lookup_singleton_Some]]%lookup_insert_Some; by eexists.
Qed.

Lemma tcp_holder_keeps_floor_witness :
  ∃ conns' w', run (@tcp_turns (demo_env TransportTCP) demo_connections demo_breaks_off) demo_tcp =
      Ok (conns', w') ∧ lock_at w' 1 = Lock.Held 7 3.
Proof.
  apply (@tcp_holder_keeps_floor (demo_env TransportTCP) (λ _, eq_refl) demo_conference demo_breaks_off
    demo_connections demo_tcp 1 7 3 demo_tcp_server).
  - exact demo_breaks_off_ok.
  - reflexivity.
  - repeat apply Forall_cons_2; try apply Forall_nil_2; try exact I. intros [[[=] _]|[[=] _]].
Defined.
