(* ===== verification/Exchange.v ===== *)
(** * A floor request from end to end

    The request of a client, the server that serves it, and the client that reads the
    answer: the client role of [udpclient.go] and the server of [server.go], in their
    own worlds, joined by the datagrams that pass between them. *)

From S2P Require Import Prelude Types Message Grouped Codec FloorFSM Session Prog World Transport UDPClient Client Server Threads Interleave ServerSafe Scenario Safety Responses ServerRun UDPClientRun ClientRun FloorLocks Channel Service Served Typed.

(** ** The request on the wire *)

Definition request_tlvs (floorID beneficiaryID priority : Z) : list tlv :=
  [(AttrFloorID, true, be16 floorID)] ++
  (if 0 <? beneficiaryID then [(AttrBeneficiaryID, true, be16 beneficiaryID)] else []) ++
  (if 0 <? priority then [(AttrPriority, true, be16 (u16 priority))] else []).

Lemma floor_request_built version conf tx user f b p :
  set_Version version (floor_request f b p (NewMessage PrimitiveFloorRequest conf tx user)) =
  built version false PrimitiveFloorRequest conf tx user (tlv_parsed <$> request_tlvs f b p).
Proof.
  unfold floor_request, request_tlvs. by destruct (0 <? b), (0 <? p).
Qed.

Lemma request_received version conf tx user f b p :
  version_ok version → wf_ids conf tx user → is_u16 f →
  let msg := set_Version version (floor_request f b p (NewMessage PrimitiveFloorRequest conf tx user)) in
  ∃ bs m, Encode msg = Ok (sized msg, bs) ∧ Decode bs = Ok m ∧
    header_is m version PrimitiveFloorRequest conf tx user false ∧
    GetFloorID m = Ok (Some f) ∧ wf_request m.
Proof.
  intros Hv Hi Hf. rewrite floor_request_built. intros msg.
  destruct (built_received version false PrimitiveFloorRequest conf tx user
    (tlv_parsed <$> request_tlvs f b p) (request_tlvs f b p) Hv) as (bs & m & Henc & Hdec & Hhd & Hat).
  - apply (bool_decide_unpack _); exact I.
  - done.
  - unfold request_tlvs. destruct (0 <? b), (0 <? p); cbn; repeat constructor.
  - unfold request_tlvs. destruct (0 <? b), (0 <? p); tlvs_ok.
  - unfold request_tlvs. destruct (0 <? b), (0 <? p); apply (bool_decide_unpack _); exact I.
  - assert (GetFloorID m = Ok (Some f)) as Hfid.
    { apply GetFloorID_attr; [|done]. unfold GetAttribute. by rewrite Hat. }
    assert (GetFloorRequestID m = Ok None) as Hrid.
    { unfold GetFloorRequestID, attr_value2, GetAttribute, FloorRequestInfos. rewrite Hat.
      unfold request_tlvs. by destruct (0 <? b), (0 <? p). }
    exists bs, m. split_and!; [done..|]. destruct Hhd. split.
    + by subst.
    + by subst.
    + intros f'. rewrite Hfid. by intros [= <-].
    + intros r. by rewrite Hrid.
Qed.

(** ** The client role over UDP *)

Section UDPClient.
Context {env : Env} (Hwrite : ∀ t, write_ok t = true) (Hchance : ∀ t, chance t = 0%nat).
#[local] Set Default Proof Using "Hwrite Hchance".

(** Client [c] is registered toward [r], and its fields have their widths. *)
Record client_ready (w : World) (c : nat) (cl : UDPClient) (r : string) : Prop := {
  rdy_peer : client_peer w c cl r;
  rdy_transport : w_udp_sessions w !! r = Some (ucTransport cl);
  rdy_registered : w_udp_clients w !! r = Some c;
  rdy_open : ucClosed cl = false;
  rdy_retries : 0 < ucMaxRetries cl;
  rdy_version : version_ok (ucVersion cl);
  rdy_conference : is_u32 (ucConferenceID cl);
  rdy_user : is_u16 (ucUserID cl)
}.

Lemma run_client_message_new c cl r primitive w :
  client_ready w c cl r →
  ∃ v tx w', run (client_message c primitive) w =
      Ok (NewMessage primitive (ucConferenceID cl) tx (ucUserID cl), w') ∧ is_u16 tx ∧
    client_ready w' c (with_nextTxID v cl) r ∧ packets (w_trace w') = packets (w_trace w).
Proof using.
  intros [[Hc Ht] ? ? ? ? ? ? ?]. unfold client_message.
  rewrite (run_bind_Ok _ _ _ _ _ (run_deref _ _ _ w Hc)).
  assert (∀ v w0, w0 = set_client_heap <[c := with_nextTxID v cl]> w →
    client_ready w0 c (with_nextTxID v cl) r) as Hrdy.
  { intros v w0 ->. split; try done. split; [|done].
    apply list_lookup_insert_eq. by eapply lookup_lt_Some. }
  set (v1 := u32 (ucNextTxID cl + 1)).
  set (w1 := set_client_heap <[c := with_nextTxID v1 cl]> w).
  assert (run (next_client_tx c) w = Ok (u16 v1, w1)) as H1
    by (unfold next_client_tx; by rewrite run_atomic, Hc).
  unfold nextTransactionID. rewrite run_bind, (run_bind_Ok _ _ _ _ _ H1).
  destruct (u16 v1 =? 0).
  - assert (w_client_heap w1 !! c = Some (with_nextTxID v1 cl)) as Hc1
      by (apply list_lookup_insert_eq; by eapply lookup_lt_Some).
    set (v2 := u32 (v1 + 1)).
    exists v2, (u16 v2), (set_client_heap <[c := with_nextTxID v2 cl]> w1). split_and!.
    + unfold next_client_tx. by rewrite run_atomic, Hc1.
    + apply u16_range.
    + apply Hrdy. unfold w1, set_client_heap. cbn. by rewrite list_insert_insert_eq.
    + done.
  - exists v1, (u16 v1), w1. split_and!; [done|apply u16_range|by apply Hrdy|done].
Qed.

Lemma run_client_event c cl cb w :
  w_client_heap w !! c = Some cl →
  ∃ w', run (client_event c cb) w = Ok (tt, w') ∧ w_client_heap w' = w_client_heap w ∧
    packets (w_trace w') = packets (w_trace w).
Proof using.
  intros Hc. unfold client_event. rewrite (run_bind_Ok _ _ _ _ _ (run_deref _ _ _ w Hc)).
  set (b := match cb with CbFloorGranted _ _ => _ | _ => _ end).
  destruct b; cbn [when]; [|by exists w].
  rewrite run_emit. eexists. split_and!; [done|done|]. cbn [w_trace log_events].
  unfold packets. rewrite omap_app. apply app_nil_r.
Qed.

Lemma run_applyOwnStatus c cl floorID requestID status w :
  w_client_heap w !! c = Some cl →
  ∃ t w', run (applyOwnStatus c floorID requestID status) w = Ok (tt, w') ∧
    w_client_heap w' !! c = Some (with_active (apply_status floorID status t) cl) ∧
    packets (w_trace w') = packets (w_trace w).
Proof using.
  intros Hc. set (t := now (w_tick w)). set (cl1 := with_active (apply_status floorID status t) cl).
  set (w1 := tick (set_client_heap <[c := cl1]> w)). exists t.
  assert (w_client_heap w1 !! c = Some cl1) as Hc1
    by (apply list_lookup_insert_eq; by eapply lookup_lt_Some).
  unfold applyOwnStatus. rewrite run_bind, run_atomic, Hc. cbn [mbind res_bind fst snd].
  fold t cl1 w1.
  repeat case_match; try (by exists w1);
    match goal with |- context [client_event c ?cb] =>
      destruct (run_client_event c cl1 cb w1 Hc1) as (w' & H' & Hh & Hp); exists w';
      by rewrite Hh, Hp end.
Qed.

(** What the call returns and what the client knows of the floor, after an answer. *)
Definition request_outcome (a : answer) (cl : UDPClient) (floorID : Z)
    (result : Z + client_error) (cl' : UDPClient) : Prop :=
  match a with
  | Status _ requestID status =>
      result = inl requestID ∧
      if final_status status then ucActive cl' !! floorID = None
      else ∃ req, ucActive cl' !! floorID = Some req ∧ aFloorRequestID req = requestID ∧
             aStatus req = status
  | Refusal code info =>
      result = inr (ErrorResponse code (string_bytes info)) ∧ ucActive cl' = ucActive cl
  end.

Lemma answers_transaction bs msg flag a :
  answers bs msg flag a → ∃ m, Decode bs = Ok m ∧ mTransactionID m = mTransactionID msg.
Proof using. destruct a; intros (m & ? & [] & _); by exists m. Qed.

(** Reading the answer. *)
Lemma run_requested c cl floorID bs msg flag a m w :
  w_client_heap w !! c = Some cl → answers bs msg flag a → Decode bs = Ok m →
  (∀ f rid st, a = Status f rid st → f = floorID) →
  ∃ result w' cl', run (finish_request c floorID (inl m)) w = Ok (result, w') ∧
    w_client_heap w' !! c = Some cl' ∧ request_outcome a cl floorID result cl' ∧
    packets (w_trace w') = packets (w_trace w).
Proof using.
  intros Hc Ha Hdec Hfloor. unfold finish_request.
  destruct a as [f requestID status|code info]; destruct Ha as (m' & Hdec' & [_ Hprim _ _ _ _] & Ha);
    rewrite Hdec in Hdec'; injection Hdec' as <-; rewrite Hprim.
  - destruct Ha as (_ & Hrid & Hst). cbn [Z.eqb Pos.eqb PrimitiveError PrimitiveFloorRequestStatus negb].
    rewrite (run_bind_Ok _ _ _ _ _ (run_lift _ _ w Hrid)), (run_bind_Ok _ _ _ _ _ (run_lift _ _ w Hst)).
    set (req := mkActive floorID requestID (ucUserID cl) 0 status (now (w_tick w)) 0).
    set (cl1 := with_active <[floorID := req]> cl).
    rewrite run_bind, run_atomic, Hc. cbn [mbind res_bind fst snd]. fold req cl1.
    set (w1 := tick _). assert (w_client_heap w1 !! c = Some cl1) as Hc1
      by (apply list_lookup_insert_eq; by eapply lookup_lt_Some).
    destruct (run_applyOwnStatus c cl1 floorID requestID status w1 Hc1) as (t & w2 & H2 & Hc2 & Hp2).
    rewrite (run_bind_Ok _ _ _ _ _ H2). eexists _, w2, _. split_and!; [done|done| |done].
    split; [done|]. cbn [ucActive with_active cl1]. unfold apply_status. rewrite lookup_insert_eq.
    destruct (final_status status); [apply lookup_delete_eq|].
    rewrite lookup_insert_eq. by eexists.
  - destruct Ha as [Hcode Hinfo]. cbn [Z.eqb Pos.eqb PrimitiveError].
    exists (inr (error_response m)), w, cl. split_and!; [done|done| |done].
    split; [|done]. unfold error_response, responseError. by rewrite Hcode, Hinfo.
Qed.

(** A floor request up to its wait; whatever datagram of its transaction arrives then,
    the call returns what the datagram says. *)
Lemma request_waits c cl r (floorID : Z) w :
  client_ready w c cl r → is_u16 floorID →
  ∃ p w1 bs m, steps (UDPClient_RequestFloor c floorID) w p w1 ∧
    packets (w_trace w1) = packets (w_trace w) ++ [(r, bs)] ∧ Decode bs = Ok m ∧
    mPrimitive m = PrimitiveFloorRequest ∧ mVersion m = ucVersion cl ∧
    mUserID m = ucUserID cl ∧ GetFloorID m = Ok (Some floorID) ∧ wf_request m ∧
    ∀ flag a bs', answers bs' m flag a → (∀ f rid st, a = Status f rid st → f = floorID) →
      ∃ w2 w3 result cl', run (udp_datagram r bs') w1 = Ok (tt, w2) ∧
        run p w2 = Ok (result, w3) ∧ w_client_heap w3 !! c = Some cl' ∧
        request_outcome a cl floorID result cl' ∧ packets (w_trace w3) = packets (w_trace w1).
Proof.
  intros Hr Hf. destruct (run_client_message_new c cl r PrimitiveFloorRequest w Hr)
    as (v & tx & w0 & H0 & Htx & [Hp Hlis Hreg Hopen Hret Hver Hconf Huser] & Hpk0).
  set (cl0 := with_nextTxID v cl) in *. set (msg := NewMessage _ _ tx _) in H0.
  destruct (request_received (ucVersion cl) (ucConferenceID cl) tx (ucUserID cl) floorID 0 0 Hver)
    as (bs & m & Henc & Hdec & Hhd & Hfid & Hm); [done|done|].
  destruct (transact_waits Hwrite Hchance c cl0 r (AddFloorID floorID msg) bs w0)
    as (p & w1 & ch & Hsteps & Hp1 & Hch & Hreg1 & Hlis1 & Hpk1 & Hresume); [done..|].
  eexists _, w1, bs, m. split.
  { unfold UDPClient_RequestFloor. eapply steps_run_bind; [exact H0|]. by apply steps_bind. }
  split; [by rewrite Hpk1, Hpk0|]. split; [done|]. split_and!; [apply Hhd..|done|done|].
  intros flag a bs' Ha Hfloor. destruct (answers_transaction _ _ _ _ Ha) as (m' & Hdec' & Htx').
  rewrite (hd_transaction _ _ _ _ _ _ _ Hhd) in Htx'.
  destruct (run_response c _ r ch bs' m' w1 Hp1) as (w2 & H2 & Hc2 & Hch2 & Hpk2);
    [by rewrite Hlis1|by rewrite Hreg1|done|rewrite Htx'; apply lookup_insert_eq|by rewrite Htx'|].
  rewrite Htx' in Hch2. destruct (Hresume w2 _ m' Hc2 Hch2) as (w3 & H3 & Hc3 & Htr).
  destruct (run_requested c _ floorID bs' m flag a m' w3 Hc3 Ha Hdec' Hfloor)
    as (result & w4 & cl' & H4 & Hc4 & Ho & Hpk4).
  exists w2, w4, result, cl'. split_and!; [done|by rewrite (run_bind_Ok _ _ _ _ _ H3)|done| |].
  - by destruct a.
  - by rewrite Hpk4, Htr.
Qed.
End UDPClient.

Lemma outcome_HasFloor {env : Env} c cl cl' floorID f requestID status result w :
  w_client_heap w !! c = Some cl' →
  request_outcome (Status f requestID status) cl floorID result cl' →
  run (HasFloor c floorID) w = Ok (status =? RequestStatusGranted, w).
Proof.
  intros Hc [_ Ho]. unfold HasFloor. rewrite (run_bind_Ok _ _ _ _ _ (run_deref _ _ _ w Hc)).
  destruct (final_status status) eqn:Hf.
  - rewrite Ho. cbn. destruct (Z.eqb_spec status RequestStatusGranted) as [->|]; [discriminate|done].
  - destruct Ho as (req & -> & _ & ->). done.
Qed.

(** C16: a floor request of the client role, from end to end.  The call sends one
    datagram; the server that handles it changes the lock of the floor as
    [serve_request] says and sends one datagram back; when that arrives before the
    timer, the call returns what was decided: the request id of the server, with which
    the client holds the floor exactly when the server says granted, or the error of
    the server, and then it knows what it knew before. *)
Theorem udp_request_exchange (client server : Env) c cl r (floorID : Z) wc i rc v ws :
  (∀ t, @write_ok client t = true) → (∀ t, @chance client t = 0%nat) →
  (∀ t, @write_ok server t = true) →
  client_ready wc c cl r → is_u16 floorID → udp_peer ws i rc v → floors_ok ws →
  let user := ucUserID cl in
  let requestID := next_request_id ws in
  let spec := serve_request (@decides server floorID user requestID) floorID user requestID
                (lock_at ws floorID) in
  ∃ p wc1 bs m ws' bs' wc2 wc3 result cl',
    steps (@UDPClient_RequestFloor client c floorID) wc p wc1 ∧
    packets (w_trace wc1) = packets (w_trace wc) ++ [(r, bs)] ∧ Decode bs = Ok m ∧
    run (@Session_handleUDPMessage server i m) ws = Ok (tt, ws') ∧
    packets (w_trace ws') = packets (w_trace ws) ++ [(rc, bs')] ∧ lock_at ws' floorID = spec.2 ∧
    run (@udp_datagram client r bs') wc1 = Ok (tt, wc2) ∧ run p wc2 = Ok (result, wc3) ∧
    w_client_heap wc3 !! c = Some cl' ∧ request_outcome spec.1 cl floorID result cl' ∧
    ∀ status, spec.1 = Status floorID requestID status →
      run (@HasFloor c floorID) wc3 = Ok (status =? RequestStatusGranted, wc3).
Proof.
  intros Hwc Hch Hws Hr Hf Hp Hok user requestID spec.
  destruct (@request_waits client Hwc Hch c cl r floorID wc Hr Hf)
    as (p & wc1 & bs & m & Hsteps & Hpk & Hdec & Hprim & _ & Hu & Hfid & Hm & Hresume).
  destruct (@serve_udp_request server Hws i rc v m floorID ws Hp Hm Hok Hprim Hfid)
    as (bs' & ws' & Hrun & Ha & Hs). rewrite Hu in *. fold user requestID in Ha, Hs. fold spec in Ha, Hs.
  destruct (Hresume _ _ _ Ha) as (wc2 & wc3 & result & cl' & H2 & H3 & Hc & Ho & _).
  { intros f rid st. unfold spec, serve_request. destruct (lock_at ws floorID); try done.
    destruct (decides _ _ _); by intros [= <-]. }
  exists p, wc1, bs, m, ws', bs', wc2, wc3, result, cl'.
  split_and!; try done; [apply Hs|apply Hs|].
  intros status Hst. rewrite Hst in Ho. by eapply outcome_HasFloor.
Qed.

Lemma demo_client_ready : client_ready demo_client_world 0 demo_client "s".
Proof. by split; [split|..|right|apply (bool_decide_unpack _)|apply (bool_decide_unpack _)]. Qed.

(** User 7, a client toward "s", asks the server, which knows it as "a", for floor 2. *)
Lemma udp_request_exchange_witness :
  ∃ p wc1 wc2 wc3 result bs',
    steps (@UDPClient_RequestFloor (demo_env TransportUDP) 0 2) demo_client_world p wc1 ∧
    run (@udp_datagram (demo_env TransportUDP) "s" bs') wc1 = Ok (tt, wc2) ∧
    run p wc2 = Ok (result, wc3) ∧ result = inl 6 ∧ run (HasFloor 0 2) wc3 = Ok (true, wc3).
Proof.
  destruct (udp_request_exchange (demo_env TransportUDP) (demo_env TransportUDP) 0 demo_client "s" 2
    demo_client_world 0 "a" 2 demo_udp (λ _, eq_refl) (λ _, eq_refl) (λ _, eq_refl) demo_client_ready
    ltac:(apply (bool_decide_unpack _); exact I) demo_udp_a (demo_floors_ok _ _))
    as (p & wc1 & bs & m & ws' & bs' & wc2 & wc3 & result & cl' & Hs & _ & _ & _ & _ & _ & H2 & H3 & _ & Ho & Hhas).
  exists p, wc1, wc2, wc3, result, bs'. split; [exact Hs|]. split; [exact H2|]. split; [exact H3|].
  split; [exact (proj1 Ho)|]. exact (Hhas RequestStatusGranted eq_refl).
Defined.

(** ** The client over TCP *)

Section TCPClient.
Context {W : Type} (L : lens W ClientWorld) {laws : LensLaws L} (app : nat → Callbacks W).
Context {env : Env} {dialer : Dialer}.
Context (Hwrite : ∀ t, write_ok t = true) (Hchance : ∀ t, chance t = 0%nat).
#[local] Set Default Proof Using "laws Hwrite Hchance".

(** What a call does with an answer to its request. *)
Definition use_answer (c : nat) (floorID beneficiaryID priority : Z) (a : answer)
    : gprog W (Z + call_error) :=
  match a with
  | Status _ requestID status =>
      record_request L app c floorID beneficiaryID priority requestID status ;; mret (inl requestID)
  | Refusal code info => mret (inr (RequestFailed code (string_bytes info)))
  end.

(** The client during a call, but for its transactions. *)
Record same_client (k k' : Client) : Prop := {
  sc_active : kActive k' = kActive k;
  sc_state : kState k' = kState k
}.

Lemma read_answer bs m req flag a :
  answers bs req flag a → Decode bs = Ok m →
  mTransactionID m = mTransactionID req ∧
  read_response m = match a with
                    | Status _ requestID status => Ok (inl (requestID, status))
                    | Refusal code info => Ok (inr (RequestFailed code (string_bytes info)))
                    end.
Proof using.
  intros Ha Hdec. unfold read_response.
  destruct a as [f requestID status|code info]; destruct Ha as (m' & Hdec' & [_ Hprim _ Htx _ _] & Ha);
    rewrite Hdec in Hdec'; injection Hdec' as <-; rewrite Hprim; (split; [done|]).
  - destruct Ha as (_ & Hrid & Hst). cbn [Z.eqb Pos.eqb PrimitiveError PrimitiveFloorRequestStatus negb].
    by rewrite Hrid; cbn; rewrite Hst.
  - destruct Ha as [Hcode Hinfo]. cbn [Z.eqb Pos.eqb PrimitiveError].
    unfold responseError. by rewrite Hcode, Hinfo.
Qed.

(** A floor request up to its wait, and what comes of the answer. *)
Lemma tcp_request_waits c k r (floorID b p : Z) w :
  online L w c k r → is_u32 (kConferenceID (kConfig k)) → is_u16 (kUserID (kConfig k)) →
  is_u16 floorID →
  ∃ q w1 bs m, steps (Client_RequestFloor L app c floorID b p) w q w1 ∧
    sent_by L w1 = sent_by L w ++ [(r, bs)] ∧ Decode bs = Ok m ∧
    mPrimitive m = PrimitiveFloorRequest ∧ mUserID m = kUserID (kConfig k) ∧
    GetFloorID m = Ok (Some floorID) ∧ wf_request m ∧ within L w w1 ∧
    (∀ flag a bs', answers bs' m flag a →
      ∃ m' w2 w3 k3, Decode bs' = Ok m' ∧ run (Client_handleMessage L app c m') w1 = Ok (tt, w2) ∧
        steps q w2 (use_answer c floorID b p a) w3 ∧ within L w w3 ∧ online L w3 c k3 r ∧ same_client k k3 ∧
        kPending k3 !! mTransactionID m = None ∧ sent_by L w3 = sent_by L w1) ∧
    ∀ flag a bs1 a2 bs2, answers bs1 m flag a → answers bs2 m flag a2 →
      ∃ m1 m2 w2 w3 w4 w5 q2 k5, Decode bs1 = Ok m1 ∧ Decode bs2 = Ok m2 ∧
        run (Client_handleMessage L app c m1) w1 = Ok (tt, w2) ∧ steps q w2 q2 w3 ∧
        run (Client_handleMessage L app c m2) w3 = Ok (tt, w4) ∧
        (∃ ch, w4 = put_chan L ch (mkRespChan (Some m2) false) w3) ∧
        steps q2 w4 (use_answer c floorID b p a) w5 ∧ has_client L w5 c k5.
Proof.
  intros Hon Hconf Huser Hf. pose proof Hon as [Hc Hk _].
  set (v := u32 (kNextTxID k + 1)). set (k0 := with_knextTxID v k). set (w0 := put L c k0 w).
  assert (online L w0 c k0 r) as Hon0 by by apply (online_put L c k).
  destruct (request_received 1 (kConferenceID (kConfig k)) (u16 v) (kUserID (kConfig k)) floorID b p)
    as (bs & m & Henc & Hdec & Hhd & Hfid & Hm); [by left|split_and!; [done|apply u16_range|done]|done|].
  set (msg := NewMessage PrimitiveFloorRequest (kConferenceID (kConfig k)) (u16 v) (kUserID (kConfig k))).
  assert (set_Version 1 (floor_request floorID b p msg) = floor_request floorID b p msg) as Hver
    by (unfold floor_request; by destruct (0 <? b), (0 <? p)).
  assert (mTransactionID (floor_request floorID b p msg) = u16 v) as Htxm
    by (unfold floor_request; by destruct (0 <? b), (0 <? p)).
  fold msg in Henc. rewrite Hver in Henc. clear Hver.
  destruct (sendAndWait_waits L Hwrite Hchance c k0 r (floor_request floorID b p msg) bs w0 Hon0 Henc)
    as (w1 & ch & Hs & Hon1 & Hch & Hsent & Hin & Hend).
  set (q := receiving L c ch _) in Hs, Hend.
  set (fmsg := floor_request floorID b p msg) in *. rewrite Htxm in Hon1, Hend.
  eexists _, w1, bs, m. split.
  { unfold Client_RequestFloor, if_connected, IsConnected.
    eapply steps_run_bind; [by apply run_of_client|]. rewrite Hk.
    eapply steps_run_bind; [by apply run_on_client|].
    cbn [fst snd]. fold v k0 w0. eapply steps_run_bind.
    { unfold Client_message. rewrite (run_bind_Ok _ _ _ _ _ (run_of_client L c kConfig k0 w0 (on_has _ _ _ _ _ Hon0))).
      reflexivity. }
    apply steps_bind. exact Hs. }
  split; [rewrite Hsent; unfold w0; by rewrite (sent_put L)|]. split_and!; [done|apply Hhd|apply Hhd|done|done|exact (within_trans L _ _ _ (within_put L c k0 w) Hin)| |].
  { intros flag a bs' Ha. destruct (answers_transaction _ _ _ _ Ha) as (m' & Hdec' & _).
  destruct (read_answer bs' m' m flag a Ha Hdec') as [Htx' Hread].
  rewrite (hd_transaction _ _ _ _ _ _ _ Hhd) in Htx' |- *.
  set (k1 := with_kpending <[u16 v := ch]> k0) in *.
  set (w2 := put_chan L ch (mkRespChan (Some m') false) w1).
  assert (online L w2 c k1 r) as Hon2 by by apply online_put_chan.
  assert (has_chan L w2 ch (mkRespChan (Some m') false)) as Hch2 by by eapply has_put_chan.
  exists m', w2, (forgotten L c ch (u16 v) k1 w2), (with_kpending (delete (u16 v)) k1).
  split_and!; [done| | | |by apply online_forgotten|done|apply lookup_delete_eq|].
  - rewrite (run_handleMessage L app c k1 m' w1 (on_has _ _ _ _ _ Hon1)). rewrite Htx'.
    cbn [kPending with_kpending k1]. rewrite lookup_insert_eq.
    unfold has_chan in Hch. by rewrite Hch.
  - pose proof (Hend w2 k1 (Some m') (on_has _ _ _ _ _ Hon2) Hch2) as Hq.
    eapply steps_run_bind; [exact Hq|]. cbn [response_of].
    destruct a; (eapply steps_run_bind; [by apply run_lift|apply steps_refl]).
  - eapply (within_trans L); [exact (within_put L c k0 w)|]. eapply (within_trans L); [exact Hin|].
    eexists. unfold forgotten, w2, put_chan. by rewrite update_update.
  - rewrite (sent_forgotten L). unfold sent_by, w2, put_chan. by rewrite view_update. }
  intros flag a bs1 a2 bs2 Ha Ha2.
  destruct (answers_transaction _ _ _ _ Ha) as (m1 & Hdec1 & _).
  destruct (answers_transaction _ _ _ _ Ha2) as (m2 & Hdec2 & _).
  destruct (read_answer bs1 m1 m flag a Ha Hdec1) as [Htx1 Hread].
  destruct (read_answer bs2 m2 m flag a2 Ha2 Hdec2) as [Htx2 _].
  rewrite (hd_transaction _ _ _ _ _ _ _ Hhd) in Htx1, Htx2.
  set (k1 := with_kpending <[u16 v := ch]> k0) in *.
  assert (∀ x w', has_client L w' c k1 → has_chan L w' ch (mkRespChan None false) → mTransactionID x = u16 v →
    run (Client_handleMessage L app c x) w' = Ok (tt, put_chan L ch (mkRespChan (Some x) false) w')) as Hgets.
  { intros x w' Hc' Hch' Hx. rewrite (run_handleMessage L app c k1 x w' Hc'), Hx.
    cbn [kPending with_kpending k1]. rewrite lookup_insert_eq. unfold has_chan in Hch'. by rewrite Hch'. }
  assert (∀ x y w', has_client L w' c k1 → has_chan L w' ch y →
    has_client L (put_chan L ch x w') c k1 ∧ has_chan L (put_chan L ch x w') ch x) as Hput.
  { intros x y w' Hc' Hch'. split; [|by eapply has_put_chan].
    unfold has_client, put_chan. by rewrite view_update. }
  pose proof (on_has _ _ _ _ _ Hon1) as Hc1. set (w2 := put_chan L ch (mkRespChan (Some m1) false) w1).
  destruct (Hput (mkRespChan (Some m1) false) _ w1 Hc1 Hch) as [Hc2 Hch2].
  destruct (receiving_takes L Hchance c ch fmsg m1 k1 w2 Hc2 Hch2) as (w3 & H3 & Hc3 & Hch3).
  set (w4 := put_chan L ch (mkRespChan (Some m2) false) w3).
  destruct (Hput (mkRespChan (Some m2) false) _ w3 Hc3 Hch3) as [Hc4 Hch4].
  destruct (run_received L c ch fmsg m1 k1 _ w4 Hc4 Hch4) as (w5 & H5 & Hc5).
  exists m1, m2, w2, w3, w4, w5. eexists _, _.
  split_and!; [done|done|by apply Hgets|apply steps_bind; exact H3|by apply Hgets|by exists ch| |exact Hc5].
  eapply steps_run_bind; [exact H5|].
  destruct a; (eapply steps_run_bind; [by apply run_lift|apply steps_refl]).
Qed.

(** The client knows of a request for the floor, with this id and status. *)
Definition knows (k : Client) (floorID requestID status : Z) : Prop :=
  ∃ req, kActive k !! floorID = Some req ∧ aFloorRequestID req = requestID ∧ aStatus req = status.

Lemma run_use_pending c k (floorID b p f requestID : Z) w :
  has_client L w c k →
  ∃ w' k', run (use_answer c floorID b p (Status f requestID RequestStatusPending)) w =
      Ok (inl requestID, w') ∧ has_client L w' c k' ∧ kState k' = StateFloorRequested ∧
    knows k' floorID requestID RequestStatusPending ∧ kPending k' = kPending k ∧ within L w w'.
Proof using laws.
  intros Hc. cbn [use_answer]. unfold record_request.
  set (f0 := λ t : Time, with_kactive <[floorID:=mkActive floorID requestID b p RequestStatusPending t 0]>).
  rewrite !run_bind, (run_on_client_now L c f0 k w Hc). cbn [mbind res_bind fst snd].
  set (k1 := f0 _ k). set (w1 := put L c k1 (set_net L tick w)).
  assert (has_client L w1 c k1) as Hc1 by (apply (has_put L c k); by apply has_set_net).
  cbn [Z.eqb Pos.eqb RequestStatusPending RequestStatusGranted orb].
  rewrite (run_setState L c StateFloorRequested k1 w1 Hc1). cbn.
  eexists _, (with_kstate StateFloorRequested k1). split_and!; [done|by eapply has_put|done| |done|].
  { eexists. split; [apply lookup_insert_eq|done]. }
  eapply (within_trans L); [|apply (within_put L)].
  eapply (within_trans L); [by eexists|apply (within_put L)].
Qed.

(** The decision on a pending request arrives. *)
Lemma run_decision c k m bs req flag (floorID requestID status : Z) w :
  has_client L w c k → answers bs req flag (Status floorID requestID status) → Decode bs = Ok m →
  kPending k !! mTransactionID req = None → knows k floorID requestID RequestStatusPending →
  ∃ w' k', run (Client_handleMessage L app c m) w =
      run (tell (app c) (NewStatus floorID requestID status)) w' ∧
    has_client L w' c k' ∧ knows k' floorID requestID status ∧
    kState k' = default (kState k) (state_after status) ∧ within L w w'.
Proof using laws.
  intros Hc (m' & Hdec' & [_ Hprim _ Htx _ _] & Hfid & Hrid & Hst) Hdec Hpend (act & Hact & Hid & _).
  rewrite Hdec in Hdec'. injection Hdec' as <-.
  assert (read_news m = Ok (NewStatus floorID requestID status)) as Hnews.
  { unfold read_news. rewrite Hprim. cbn [Z.eqb Pos.eqb PrimitiveFloorRequestStatus orb].
    by rewrite Hfid; cbn; rewrite Hrid; cbn; rewrite Hst. }
  rewrite (run_handleMessage L app c k m w Hc), Htx, Hpend, Hnews. cbn [mbind res_bind].
  eexists _, _. split; [done|]. split; [apply (has_put L c k); by apply has_set_net|].
  unfold learn. split.
  - exists (update_status status (now (w_tick (cNet (view L w)))) act).
    split; [|by destruct act]. destruct (state_after status); cbn; by rewrite lookup_alter_eq, Hact.
  - split; [by destruct (state_after status)|].
    eapply (within_trans L); [by eexists|apply (within_put L)].
Qed.
End TCPClient.

(** C5: a floor request over TCP, from end to end, when the client reads an answer only
    after the call has come to rest: the first while the call waits, the second after it
    has returned.  (What becomes of a second answer that is read earlier is
    [tcp_decision_lost].)  If the floor is free, the server answers twice.  With the first
    answer the call returns the server's request id and the client counts the request as
    pending; the second finds nobody waiting, gives the request and the client the decided
    status, and runs the callback for it; the lock of the floor at the server is held by
    the client's user under that id, or blocked.  Otherwise the one answer makes the call
    fail with the error of the server, and the client knows what it knew before. *)
Theorem tcp_request_exchange {W} (L : lens W ClientWorld) {laws : LensLaws L}
    (app : nat → Callbacks W) (client server : Env) c k r (floorID b p : Z) w i rc v ws :
  (∀ t, @write_ok client t = true) → (∀ t, @chance client t = 0%nat) →
  (∀ t, @write_ok server t = true) →
  online L w c k r → is_u32 (kConferenceID (kConfig k)) → is_u16 (kUserID (kConfig k)) →
  is_u16 floorID → tcp_peer ws i rc v → floors_ok ws →
  let user := kUserID (kConfig k) in
  let requestID := next_request_id ws in
  let granted := @decides server floorID user requestID in
  ∃ q w1 bs m ws',
    steps (@Client_RequestFloor W L app client c floorID b p) w q w1 ∧
    sent_by L w1 = sent_by L w ++ [(r, bs)] ∧ Decode bs = Ok m ∧
    run (@handleMessage server i m) ws = Ok (tt, ws') ∧
    match lock_at ws floorID with
    | Lock.Free =>
        ∃ bs1 m1 bs2 m2 w2 w3 k3 w4 k4,
          packets (w_trace ws') = packets (w_trace ws) ++ [(rc, bs1); (rc, bs2)] ∧
          Decode bs1 = Ok m1 ∧ Decode bs2 = Ok m2 ∧
          run (@Client_handleMessage W L app client c m1) w1 = Ok (tt, w2) ∧
          run q w2 = Ok (inl requestID, w3) ∧ has_client L w3 c k3 ∧
          kState k3 = StateFloorRequested ∧ knows k3 floorID requestID RequestStatusPending ∧
          has_client L w4 c k4 ∧
          if granted then
            run (@Client_handleMessage W L app client c m2) w3 =
              run (call_back (OnGranted (app c)) (λ f, f floorID requestID)) w4 ∧
            kState k4 = StateFloorGranted ∧ knows k4 floorID requestID RequestStatusGranted ∧
            lock_at ws' floorID = Lock.Held user requestID
          else
            run (@Client_handleMessage W L app client c m2) w3 =
              run (call_back (OnDenied (app c)) (λ f, f floorID requestID 0)) w4 ∧
            kState k4 = StateFloorDenied ∧ knows k4 floorID requestID RequestStatusDenied ∧
            lock_at ws' floorID = Lock.Blocked
    | taken =>
        ∃ bs1 m1 w2 w3 k3,
          packets (w_trace ws') = packets (w_trace ws) ++ [(rc, bs1)] ∧ Decode bs1 = Ok m1 ∧
          run (@Client_handleMessage W L app client c m1) w1 = Ok (tt, w2) ∧
          run q w2 = Ok (inr (RequestFailed ErrorUnauthorizedOperation
                                (string_bytes (floor_error_text (refusal floorID taken)))), w3) ∧
          has_client L w3 c k3 ∧ same_client k k3 ∧ lock_at ws' floorID = taken
    end.
Proof.
  intros Hwc Hch Hws Hon Hconf Huser Hf Hp Hok user requestID granted.
  destruct (@tcp_request_waits W L laws app client Hwc Hch c k r floorID b p w Hon Hconf Huser Hf)
    as (q & w1 & bs & m & Hsteps & Hsent & Hdec & Hprim & Hu & Hfid & Hm & _ & Hresume & _).
  destruct (@serve_tcp_request server Hws i rc v m floorID ws Hp Hm Hok Hprim Hfid)
    as (pk & bs2 & ws' & Hrun & Hpk & Ha & [Hpks _ _ Hlock _ _]). rewrite Hu in *.
  fold user requestID in Hpk, Ha, Hlock. fold granted in Ha, Hlock.
  exists q, w1, bs, m, ws'. split_and!; [done..|]. unfold pending_first in Hpk.
  destruct (lock_at ws floorID) as [|u rid|u rid|] eqn:Hl; cbn [serve_request] in Ha, Hlock.
  2-4: destruct (Hresume _ _ _ Ha) as (m1 & w2 & w3 & k3 & Hdec1 & Hh & Hq%steps_run & _ & Hon3 & Hsame & _);
    rewrite decide_False in Hpk by done; subst pk;
    exists bs2, m1, w2, w3, k3; split_and!; try done; exact (on_has _ _ _ _ _ Hon3).
  rewrite decide_True in Hpk by done. destruct Hpk as (bs1 & -> & Ha1).
  destruct (Hresume _ _ _ Ha1) as (m1 & w2 & w3 & k3 & Hdec1 & Hh & Hq%steps_run & _ & Hon3 & _ & Hpend & _).
  destruct (@run_use_pending W L laws app client c k3 floorID b p floorID requestID w3
    (on_has _ _ _ _ _ Hon3)) as (w4 & k4 & Hq' & Hc4 & Hst4 & Hk4 & Hp4 & _).
  set (status := if granted then RequestStatusGranted else RequestStatusDenied).
  assert (answers bs2 m false (Status floorID requestID status)) as Ha2
    by (unfold status; destruct granted; exact Ha).
  destruct (answers_transaction _ _ _ _ Ha2) as (m2 & Hdec2 & _).
  destruct (@run_decision W L laws app client c k4 m2 bs2 m false floorID requestID status w4 Hc4 Ha2 Hdec2)
    as (w5 & k5 & Hnews & Hc5 & Hk5 & Hst5 & _); [by rewrite Hp4|done|].
  exists bs1, m1, bs2, m2, w2, w4, k4, w5, k5.
  do 9 (split; [first [done|by rewrite Hq]|]).
  destruct granted; split_and!; done.
Qed.

(** C25: the decision on a floor request over TCP can be lost.  When the read loop of the
    client has the second answer before the call has forgotten its transaction - after it
    took the first answer out of its channel -, the answer goes into that channel, which
    nobody reads any more: no callback runs, the call returns the request id, and the
    client counts the request as pending, while at the server its user holds the floor, or
    was refused. *)
Theorem tcp_decision_lost {W} (L : lens W ClientWorld) {laws : LensLaws L}
    (app : nat → Callbacks W) (client server : Env) c k r (floorID b p : Z) w i rc v ws :
  (∀ t, @write_ok client t = true) → (∀ t, @chance client t = 0%nat) →
  (∀ t, @write_ok server t = true) →
  online L w c k r → is_u32 (kConferenceID (kConfig k)) → is_u16 (kUserID (kConfig k)) →
  is_u16 floorID → tcp_peer ws i rc v → floors_ok ws → lock_at ws floorID = Lock.Free →
  let user := kUserID (kConfig k) in
  let requestID := next_request_id ws in
  let granted := @decides server floorID user requestID in
  ∃ q w1 bs m ws' bs1 m1 bs2 m2 w2 q2 w3 ch w4 w5 k5,
    steps (@Client_RequestFloor W L app client c floorID b p) w q w1 ∧
    sent_by L w1 = sent_by L w ++ [(r, bs)] ∧ Decode bs = Ok m ∧
    run (@handleMessage server i m) ws = Ok (tt, ws') ∧
    packets (w_trace ws') = packets (w_trace ws) ++ [(rc, bs1); (rc, bs2)] ∧
    Decode bs1 = Ok m1 ∧ Decode bs2 = Ok m2 ∧
    answers bs2 m false (Status floorID requestID
      (if granted then RequestStatusGranted else RequestStatusDenied)) ∧
    run (@Client_handleMessage W L app client c m1) w1 = Ok (tt, w2) ∧ steps q w2 q2 w3 ∧
    run (@Client_handleMessage W L app client c m2) w3 = Ok (tt, w4) ∧
    w4 = put_chan L ch (mkRespChan (Some m2) false) w3 ∧
    run q2 w4 = Ok (inl requestID, w5) ∧ has_client L w5 c k5 ∧
    kState k5 = StateFloorRequested ∧ knows k5 floorID requestID RequestStatusPending ∧
    lock_at ws' floorID = if granted then Lock.Held user requestID else Lock.Blocked.
Proof.
  intros Hwc Hch Hws Hon Hconf Huser Hf Hp Hok Hl user requestID granted.
  destruct (@tcp_request_waits W L laws app client Hwc Hch c k r floorID b p w Hon Hconf Huser Hf)
    as (q & w1 & bs & m & Hsteps & Hsent & Hdec & Hprim & Hu & Hfid & Hm & _ & _ & Hearly).
  destruct (@serve_tcp_request server Hws i rc v m floorID ws Hp Hm Hok Hprim Hfid)
    as (pk & bs2 & ws' & Hrun & Hpk & Ha & [Hpks _ _ Hlock _ _]). rewrite Hu, Hl in *.
  fold user requestID in Hpk, Ha, Hlock. fold granted in Ha, Hlock. cbn [serve_request] in Ha, Hlock.
  unfold pending_first in Hpk. rewrite decide_True in Hpk by done. destruct Hpk as (bs1 & -> & Ha1).
  set (status := if granted then RequestStatusGranted else RequestStatusDenied).
  assert (answers bs2 m false (Status floorID requestID status)) as Ha2
    by (unfold status; destruct granted; exact Ha).
  destruct (Hearly _ _ _ _ _ Ha1 Ha2)
    as (m1 & m2 & w2 & w3 & w4 & w5 & q2 & k4 & Hd1 & Hd2 & H1 & Hq & H2 & [ch Hput] & Hq2 & Hc4).
  destruct (@run_use_pending W L laws app client c k4 floorID b p floorID requestID w5 Hc4)
    as (w6 & k6 & H6 & Hc6 & Hst & Hk6 & _).
  exists q, w1, bs, m, ws', bs1, m1, bs2, m2, w2, q2, w3, ch, w4, w6, k6.
  do 12 (split; [first [done|exact Hpks]|]).
  split; [by rewrite (steps_run _ _ _ _ Hq2)|]. split_and!; [done..|].
  rewrite Hlock. by destruct granted.
Qed.

Lemma tcp_request_exchange_witness :
  ∃ q w1 m1 m2 w2 w3 w4,
    steps (@Client_RequestFloor _ lens_id noting (demo_env TransportTCP) 0 2 0 0) demo_connected q w1 ∧
    run (@Client_handleMessage _ lens_id noting (demo_env TransportTCP) 0 m1) w1 = Ok (tt, w2) ∧
    run q w2 = Ok (inl 6, w3) ∧
    run (@Client_handleMessage _ lens_id noting (demo_env TransportTCP) 0 m2) w3 = run (note (CbFloorGranted 2 6)) w4 ∧
    kState <$> cClients w4 !! 0%nat = Some StateFloorGranted.
Proof.
  destruct (tcp_request_exchange lens_id noting (demo_env TransportTCP) (demo_env TransportTCP) 0
    demo_tcp_client "s" 2 0 0 demo_connected 0 "a" 2 demo_tcp (λ _, eq_refl) (λ _, eq_refl)
    (λ _, eq_refl) demo_online ltac:(apply (bool_decide_unpack _); exact I)
    ltac:(apply (bool_decide_unpack _); exact I) ltac:(apply (bool_decide_unpack _); exact I)
    demo_tcp_a (demo_floors_ok _ _))
    as (q & w1 & bs & m & ws' & Hs & _ & _ & _ & Hcase).
  assert (lock_at demo_tcp 2 = Lock.Free) as Hfree by (vm_compute; reflexivity).
  rewrite Hfree in Hcase.
  destruct Hcase as (bs1 & m1 & bs2 & m2 & w2 & w3 & k3 & w4 & k4 & _ & _ & _ & H1 & H2 & _ & _ & _ & Hc4 & Hg).
  destruct Hg as (H3 & Hst & _). exists q, w1, m1, m2, w2, w3, w4.
  split; [exact Hs|]. split; [exact H1|]. split; [exact H2|]. split; [exact H3|].
  unfold has_client in Hc4. cbn in Hc4. by rewrite Hc4, <- Hst.
Defined.

Lemma tcp_decision_lost_witness :
  lock_at demo_tcp 2 = Lock.Free ∧
  ∃ q w1 m1 m2 w2 q2 w3 w4 w5,
    steps (@Client_RequestFloor _ lens_id noting (demo_env TransportTCP) 0 2 0 0) demo_connected q w1 ∧
    run (@Client_handleMessage _ lens_id noting (demo_env TransportTCP) 0 m1) w1 = Ok (tt, w2) ∧
    steps q w2 q2 w3 ∧
    run (@Client_handleMessage _ lens_id noting (demo_env TransportTCP) 0 m2) w3 = Ok (tt, w4) ∧
    run q2 w4 = Ok (inl 6, w5) ∧ kState <$> cClients w5 !! 0%nat = Some StateFloorRequested.
Proof.
  assert (lock_at demo_tcp 2 = Lock.Free) as Hfree by (vm_compute; reflexivity).
  split; [exact Hfree|].
  destruct (tcp_decision_lost lens_id noting (demo_env TransportTCP) (demo_env TransportTCP) 0
    demo_tcp_client "s" 2 0 0 demo_connected 0 "a" 2 demo_tcp (λ _, eq_refl) (λ _, eq_refl)
    (λ _, eq_refl) demo_online ltac:(apply (bool_decide_unpack _); exact I)
    ltac:(apply (bool_decide_unpack _); exact I) ltac:(apply (bool_decide_unpack _); exact I)
    demo_tcp_a (demo_floors_ok _ _) Hfree)
    as (q & w1 & bs & m & ws' & bs1 & m1 & bs2 & m2 & w2 & q2 & w3 & ch & w4 & w5 & k5 & Hs & _ & _ & _ & _ & _ & _ & _
        & H1 & Hq & H2 & _ & H3 & Hc & Hst & _).
  exists q, w1, m1, m2, w2, q2, w3, w4, w5.
  split; [exact Hs|]. split; [exact H1|]. split; [exact Hq|]. split; [exact H2|]. split; [exact H3|].
  unfold has_client in Hc. cbn in Hc. by rewrite Hc, <- Hst.
Defined.
