(* ===== verification/VirtualRun.v ===== *)
(** * Virtual clients at work

    What the programs of [Client.v] and [Virtual.v] keep of the virtual clients - their
    ids, a mutex that is held - and what [RequestFloor] does when the server grants at
    once. *)

From S2P Require Import Prelude Types Message Grouped Codec Framing FloorFSM Session Prog World Transport UDPClient Client Virtual Server Threads Interleave Responses ServerSafe Scenario Safety ServerRun ClientRun Channel Typed Exchange.

(** ** What the programs of a client keep

    A property of the world that only depends on what is around the clients and their
    network is kept by every program of [Client.v] whose callbacks keep it. *)

Record keeps_callbacks {W} (P : W → W → Prop) (cb : Callbacks W) : Prop := {
  kc_connected : ∀ p, OnConnected cb = Some p → keeps P p;
  kc_disconnected : ∀ p, OnDisconnected cb = Some p → keeps P p;
  kc_granted : ∀ p f r, OnGranted cb = Some p → keeps P (p f r);
  kc_denied : ∀ p f r e, OnDenied cb = Some p → keeps P (p f r e);
  kc_released : ∀ p f, OnReleased cb = Some p → keeps P (p f);
  kc_revoked : ∀ p f, OnRevoked cb = Some p → keeps P (p f);
  kc_status : ∀ p f s, OnStatus cb = Some p → keeps P (p f s);
  kc_error : ∀ p e, OnErr cb = Some p → keeps P (p e)
}.

Section ClientKeeps.
Context {W : Type} (L : lens W ClientWorld) (app : nat → Callbacks W) {env : Env} {dialer : Dialer}.
Context (P : W → W → Prop) (stable : ∀ u w, P w w → P w (update L u w)).
Context (Happ : ∀ c, keeps_callbacks P (app c)).
#[local] Set Default Proof Using "All".

Lemma keeps_here {A} (p : gprog ClientWorld A) : keeps P (here L p).
Proof. apply keeps_zoom. intros. by apply stable. Qed.
Lemma keeps_on_net {A} (p : prog A) : keeps P (on_net L p).
Proof. apply keeps_zoom. intros. by apply stable. Qed.
Lemma keeps_lift {A} (r : call A) : keeps P (lift r).
Proof. apply keeps_atomic. intros w a w' HP. destruct r; intros; by simplify_eq/=. Qed.
Lemma keeps_on_client {A} c (f : Client → A * Client) : keeps P (on_client L c f).
Proof. apply keeps_here. Qed.
Lemma keeps_on_client_now c f : keeps P (on_client_now L c f).
Proof. apply keeps_here. Qed.

Ltac keep :=
  repeat first
    [ assumption
    | apply keeps_Ret | apply keeps_here | apply keeps_on_net | apply keeps_lift
    | apply keeps_on_client | apply keeps_on_client_now
    | apply keeps_bind; [|intros ?]
    | match goal with
      | |- keeps _ (match ?x with _ => _ end) => destruct x
      | |- keeps _ (call_back ?f _) => let E := fresh in destruct f eqn:E; cbn [call_back];
          [first [ by eapply kc_connected | by eapply kc_disconnected | by eapply kc_granted
                 | by eapply kc_denied | by eapply kc_released | by eapply kc_revoked
                 | by eapply kc_status | by eapply kc_error ]|]
      | |- keeps _ (when ?b _) => destruct b; cbn [when]
      end
    | progress unfold of_client, setState, IsConnected, Client_nextTransactionID, NewClient,
        Client_send, make_pending, receive, close_chan, forget, sendAndWait, offer, Client_message,
        if_connected, Dial ].

Lemma keeps_Client_dispatch c msg : keeps P (Client_dispatch L app c msg).
Proof. unfold Client_dispatch, handleFloorRequestStatus, handleFloorStatus, handleError. keep. Qed.
Lemma keeps_Client_handleMessage c msg : keeps P (Client_handleMessage L app c msg).
Proof. pose proof keeps_Client_dispatch c msg. unfold Client_handleMessage. keep. Qed.
Lemma keeps_Client_Hello c : keeps P (Client_Hello L c).
Proof. unfold Client_Hello. keep. Qed.
Lemma keeps_Client_RequestFloor c f b p : keeps P (Client_RequestFloor L app c f b p).
Proof. unfold Client_RequestFloor, record_request. keep. Qed.
Lemma keeps_Client_ReleaseFloor c f : keeps P (Client_ReleaseFloor L app c f).
Proof. unfold Client_ReleaseFloor. keep. Qed.
Lemma keeps_QueryFloor c f : keeps P (QueryFloor L c f).
Proof. unfold QueryFloor. keep. Qed.
Lemma keeps_Client_Goodbye c : keeps P (Client_Goodbye L c).
Proof. unfold Client_Goodbye. keep. Qed.
Lemma keeps_Disconnect c : keeps P (Disconnect L c).
Proof. pose proof keeps_Client_Goodbye c. unfold Disconnect. keep. Qed.
Lemma keeps_Client_Connect c : keeps P (Client_Connect L app c).
Proof. unfold Client_Connect. keep. Qed.
Lemma keeps_client_messages c t msgs : keeps P (client_messages L app c t msgs).
Proof.
  induction msgs as [|msg msgs IH]; cbn [client_messages]; [keep|].
  pose proof keeps_Client_handleMessage c msg. keep.
Qed.
Lemma keeps_client_reader c t start connection : keeps P (client_reader L app c t start connection).
Proof.
  unfold client_reader, closed_connection.
  apply keeps_bind; [apply keeps_lift|]. intros [msgs reason].
  pose proof keeps_client_messages c t msgs. keep.
Qed.
End ClientKeeps.

(** ** What the programs of a virtual client keep

    A property of the virtual clients that the elementary steps keep is kept by every
    program of [Virtual.v].  [perm]: the clients whose mutex can be taken while it
    holds. *)

Definition identity (x : VClient) : string * Z := (vID x, vUserID x).

Record keeps_virtual (P : VWorld → VWorld → Prop) (perm : nat → Prop) : Prop := {
  kv_below : ∀ u w, P w w → P w (update below u w);
  kv_owner : ∀ f, keeps P (modify (set_owner f));
  kv_virtual : ∀ A u (f : VClient → A * VClient),
    (∀ x, vMu (f x).2 = vMu x ∧ identity (f x).2 = identity x) → keeps P (on_virtual u f);
  kv_mu : ∀ A u (f : VClient → A * VClient),
    (∀ x, identity (f x).2 = identity x) → keeps P (under_mu u f);
  kv_locked : ∀ A u (p : gprog VWorld A), (perm u → keeps P p) → keeps P (lock_mu u ;; p);
  kv_unlock : ∀ u, perm u → keeps P (unlock_mu u)
}.

(** The callbacks of an application that keep it. *)
Record app_keeps (P : VWorld → VWorld → Prop) (a : VCallbacks) : Prop := {
  ak_granted : ∀ f r, keeps P (onFloorGranted a f r);
  ak_denied : ∀ f r e s, keeps P (onFloorDenied a f r e s);
  ak_revoked : ∀ f r, keeps P (onFloorRevoked a f r);
  ak_released : ∀ f r, keeps P (onFloorReleased a f r);
  ak_status : ∀ f r s, keeps P (onFloorStatusChanged a f r s);
  ak_connected : keeps P (onConnected a);
  ak_disconnected : keeps P (onDisconnected a);
  ak_error : ∀ e, keeps P (onError a e)
}.

Lemma no_op_keeps P : app_keeps P NoOpCallbacks.
Proof. split; intros; apply keeps_Ret. Qed.

Section VirtualKeeps.
Context {env : Env} {dialer : Dialer} (vapp : nat → VCallbacks).
Context (P : VWorld → VWorld → Prop) (perm : nat → Prop) (HP : keeps_virtual P perm).
Context (Happ : ∀ u, app_keeps P (vapp u)).
#[local] Set Default Proof Using "All".

Lemma keeps_ranging {A} u (f : (∀ {B}, list B → list B) → VClient → A) : keeps P (ranging u f).
Proof using HP.
  apply keeps_atomic. intros w a w' Hw H. destruct (vwVirtual w !! u) as [x|]; [|done].
  destruct (vMu x); [done|]. injection H as _ <-. by apply (kv_below _ _ HP).
Qed.
Lemma keeps_gets {A} (f : VWorld → A) : keeps P (gets f).
Proof using. apply keeps_atomic. intros w a w' Hw H. by injection H as _ <-. Qed.
Lemma keeps_owner_of k : keeps P (owner_of k).
Proof using.
  apply keeps_atomic. intros w a w' Hw H. destruct (vwOwner w !! k); [|done]. by injection H as _ <-.
Qed.
Lemma keeps_lift_virtual {A} (r : call A) : keeps P (lift r).
Proof using. apply keeps_atomic. intros w a w' Hw H. destruct r; [|done..]. by injection H as _ <-. Qed.

Ltac keep :=
  repeat first
    [ solve [auto with nocore]
    | apply (kv_virtual _ _ HP); intros; split; done
    | apply (kv_mu _ _ HP); intros; repeat case_match; done
    | by apply (kv_unlock _ _ HP)
    | apply keeps_Ret | apply keeps_ranging | apply keeps_gets
    | apply keeps_owner_of | apply (kv_owner _ _ HP) | apply keeps_lift_virtual
    | apply (kv_locked _ _ HP); intros ?
    | apply keeps_bind; [|intros ?]
    | match goal with
      | |- keeps _ (match ?x with _ => _ end) => destruct x
      | |- keeps _ (when ?b _) => destruct b; cbn [when]
      end
    | apply (ak_granted _ _ (Happ _)) | apply (ak_denied _ _ (Happ _))
    | apply (ak_revoked _ _ (Happ _)) | apply (ak_released _ _ (Happ _))
    | apply (ak_status _ _ (Happ _)) | apply (ak_connected _ _ (Happ _))
    | apply (ak_disconnected _ _ (Happ _)) | apply (ak_error _ _ (Happ _)) ].

Lemma keeps_virtual_callbacks k : keeps_callbacks P (virtual_callbacks vapp k).
Proof.
  split; intros; apply (inj Some) in H as <-; unfold Virtual.on_connected, on_disconnected, on_granted,
    on_denied, on_released, on_revoked, drop_held, on_status, on_error; keep.
Qed.

Lemma keeps_V_Connect u : keeps P (V_Connect vapp u).
Proof.
  pose proof (kv_below _ _ HP) as Hb. pose proof keeps_virtual_callbacks as Hcb.
  assert (∀ config, keeps P (NewClient below config)) by (intros; by apply keeps_zoom).
  pose proof (keeps_Client_Connect below _ _ Hb Hcb).
  pose proof (keeps_Client_Hello below _ _ Hb Hcb).
  pose proof (keeps_Disconnect below _ _ Hb Hcb).
  unfold V_Connect. keep.
Qed.

Lemma keeps_the_client u : keeps P (the_client u).
Proof using HP. unfold the_client. keep. Qed.

Lemma keeps_V_RequestFloor u floorID opts : keeps P (V_RequestFloor vapp u floorID opts).
Proof.
  pose proof (kv_below _ _ HP) as Hb. pose proof keeps_virtual_callbacks as Hcb.
  pose proof keeps_the_client u. pose proof (keeps_Client_RequestFloor below _ _ Hb Hcb).
  unfold V_RequestFloor, if_usable, V_IsConnected. keep.
Qed.

Lemma keeps_V_ReleaseFloor u requestID : keeps P (V_ReleaseFloor vapp u requestID).
Proof.
  pose proof (kv_below _ _ HP) as Hb. pose proof keeps_virtual_callbacks as Hcb.
  pose proof keeps_the_client u. pose proof (keeps_Client_ReleaseFloor below _ _ Hb Hcb).
  unfold V_ReleaseFloor, if_usable, V_IsConnected. keep.
Qed.

Lemma keeps_release_each client floorIDs : ∀ e, keeps P (release_each vapp client floorIDs e).
Proof.
  induction floorIDs as [|floorID floorIDs IH]; intros e; cbn [release_each]; [apply keeps_Ret|].
  apply keeps_bind; [|intros r; apply IH].
  apply (keeps_Client_ReleaseFloor below _ _ (kv_below _ _ HP) keeps_virtual_callbacks).
Qed.

Lemma keeps_ReleaseAllFloors u : keeps P (ReleaseAllFloors vapp u).
Proof.
  pose proof keeps_the_client u. pose proof keeps_release_each.
  unfold ReleaseAllFloors, if_usable, V_IsConnected. keep.
Qed.

Lemma keeps_GetStatus u : keeps P (GetStatus u).
Proof using HP. unfold GetStatus. keep. Qed.

Lemma keeps_V_Close u : keeps P (V_Close vapp u).
Proof.
  pose proof (kv_below _ _ HP) as Hb. pose proof keeps_virtual_callbacks as Hcb.
  pose proof keeps_ReleaseAllFloors u. pose proof (keeps_Disconnect below _ _ Hb Hcb).
  unfold V_Close. keep.
Qed.

(** The calls of an application on its virtual clients, and the read loops of theirs. *)
Inductive virtual_thread : gprog VWorld () → Prop :=
| ThreadConnect u : virtual_thread (V_Connect vapp u ;; mret tt)
| ThreadRequest u floorID opts : virtual_thread (V_RequestFloor vapp u floorID opts ;; mret tt)
| ThreadRelease u requestID : virtual_thread (V_ReleaseFloor vapp u requestID ;; mret tt)
| ThreadReleaseAll u : virtual_thread (ReleaseAllFloors vapp u ;; mret tt)
| ThreadStatus u : virtual_thread (GetStatus u ;; mret tt)
| ThreadClose u : virtual_thread (V_Close vapp u)
| ThreadReader c t start connection :
    virtual_thread (client_reader below (virtual_callbacks vapp) c t start connection).

Lemma virtual_thread_keeps p : virtual_thread p → keeps P p.
Proof.
  intros Hp. destruct Hp; try (apply keeps_bind; [|intros; apply keeps_Ret]).
  - apply keeps_V_Connect.
  - apply keeps_V_RequestFloor.
  - apply keeps_V_ReleaseFloor.
  - apply keeps_ReleaseAllFloors.
  - apply keeps_GetStatus.
  - apply keeps_V_Close.
  - apply (keeps_client_reader below _ _ (kv_below _ _ HP)). apply keeps_virtual_callbacks.
Qed.
End VirtualKeeps.

(** ** Identities and mutexes *)

(** Every step leaves the ids of the clients alone. *)
Definition identities (w : VWorld) : list (string * Z) := identity <$> vwVirtual w.

Lemma identities_insert u x y w :
  vwVirtual w !! u = Some x → identity y = identity x →
  identities (set_virtual <[u := y]> w) = identities w.
Proof.
  intros Hu Hy. unfold identities. cbn. rewrite list_fmap_insert, Hy.
  apply list_insert_id. by rewrite list_lookup_fmap, Hu.
Qed.

Lemma identities_keep : keeps_virtual (same identities) (λ _, True).
Proof.
  assert (∀ A u (f : VClient → A * VClient), (∀ x, identity (f x).2 = identity x) →
    keeps (same identities) (on_virtual u f)) as Hv.
  { intros A u f Hf. apply keeps_atomic. intros w a w' HP H.
    destruct (vwVirtual w !! u) as [x|] eqn:Hu; [|done]. specialize (Hf x).
    destruct (f x) as [b y]. injection H as _ <-. by eapply identities_insert. }
  assert (∀ A u (f : VClient → A * VClient), (∀ x, identity (f x).2 = identity x) →
    keeps (same identities) (under_mu u f)) as Hm.
  { intros A u f Hf. apply keeps_atomic. intros w a w' HP H.
    destruct (vwVirtual w !! u) as [x|] eqn:Hu; [|done]. destruct (vMu x); [done|]. specialize (Hf x).
    destruct (f x) as [b y]. injection H as _ <-. by eapply identities_insert. }
  split; try done.
  - intros f. apply keeps_atomic. intros w a w' HP H. by injection H as _ <-.
  - intros A u f Hf. apply Hv. apply Hf.
  - intros A u p Hp. apply keeps_bind; [by apply Hm|]. intros _. by apply Hp.
  - intros u _. by apply Hv.
Qed.

(** Some call has the mutex of virtual client [v]. *)
Definition held (v : nat) (w : VWorld) : Prop :=
  ∃ x, vwVirtual w !! v = Some x ∧ vMu x = true.

Lemma held_insert v u x y w :
  vwVirtual w !! u = Some x → (u = v → vMu x = true → vMu y = true) → held v w →
  held v (set_virtual <[u := y]> w).
Proof.
  intros Hu Hy (z & Hz & Hmu). destruct (decide (u = v)) as [->|Hne].
  - rewrite Hu in Hz. injection Hz as ->. exists y. split; [|by apply Hy].
    cbn. apply list_lookup_insert_eq. by eapply lookup_lt_Some.
  - exists z. split; [|done]. cbn. by rewrite list_lookup_insert_ne.
Qed.

(** A critical section of a held mutex is not entered. *)
Lemma under_mu_blocked {A} v (f : VClient → A * VClient) : blocked (held v) (under_mu v f).
Proof. apply blocked_atomic. intros w (x & Hx & Hmu). by rewrite Hx, Hmu. Qed.

(** A mutex that is held stays so: the others can take all but this one. *)
Lemma held_keep v : keeps_virtual (always (held v)) (λ u, u ≠ v).
Proof.
  assert (∀ A u (f : VClient → A * VClient), (u = v → ∀ x, vMu (f x).2 = vMu x) →
    keeps (always (held v)) (on_virtual u f)) as Hv.
  { intros A u f Hf. apply keeps_atomic. intros w a w' HP H.
    destruct (vwVirtual w !! u) as [x|] eqn:Hu; [|done].
    destruct (f x) as [b y] eqn:Hy. injection H as <- <-. eapply held_insert; [done| |done].
    intros He Hmu. rewrite <- Hmu, <- (Hf He x). by rewrite Hy. }
  assert (∀ A u (f : VClient → A * VClient), keeps (always (held v)) (under_mu u f)) as Hm.
  { intros A u f. destruct (decide (u = v)) as [->|Hne]; [apply keeps_blocked, under_mu_blocked|].
    apply keeps_atomic. intros w a w' HP H. destruct (vwVirtual w !! u) as [x|] eqn:Hu; [|done].
    destruct (vMu x); [done|]. destruct (f x) as [b y]. injection H as <- <-.
    by eapply held_insert. }
  split.
  - done.
  - intros f. apply keeps_atomic. intros w a w' HP H. by injection H as _ <-.
  - intros A u f Hf. apply Hv. intros _ x. apply Hf.
  - intros A u f _. apply Hm.
  - intros A u p Hp.
    destruct (decide (u = v)) as [->|Hne]; [apply keeps_blocked, blocked_bind, under_mu_blocked|].
    apply keeps_bind; [apply Hm|]. intros _. by apply Hp.
  - intros u Hne. by apply Hv.
Qed.

(** ** A request that is granted at once *)

Section Granted.
Context {env : Env} {dialer : Dialer} (vapp : nat → VCallbacks).

(** The client is told, and asks its owner. *)
Lemma granted_steps c v k (floorID b p f requestID : Z) w :
  has_client below w c k → vwOwner w !! c = Some v →
  ∃ w' k', steps (use_answer below (virtual_callbacks vapp) c floorID b p
                    (Status f requestID RequestStatusGranted)) w
      (on_granted vapp v floorID requestID ;; mret (inl requestID)) w' ∧
    within below w w' ∧ has_client below w' c k' ∧ kState k' = StateFloorGranted ∧
    knows k' floorID requestID RequestStatusGranted.
Proof.
  intros Hc Ho. cbn [use_answer].
  set (f0 := λ t : Time, with_kactive <[floorID:=mkActive floorID requestID b p RequestStatusGranted t 0]>).
  set (w1 := put below c (f0 (now (w_tick (cNet (view below w)))) k) (set_net below tick w)).
  assert (has_client below w1 c (f0 (now (w_tick (cNet (view below w)))) k)) as Hc1
    by exact (has_put below c k _ _ (has_set_net below tick c k w Hc)).
  set (k1 := f0 _ k) in *. set (w2 := put below c (with_kstate StateFloorGranted k1) w1).
  assert (has_client below w2 c (with_kstate StateFloorGranted k1))
    as Hc2 by exact (has_put below c k1 _ w1 Hc1).
  set (f2 := λ t, with_kactive (alter (granted_at t) floorID)).
  set (t2 := now (w_tick (cNet (view below w2)))).
  set (k3 := f2 t2 (with_kstate StateFloorGranted k1)).
  set (w3 := put below c k3 (set_net below tick w2)).
  exists w3, k3. split_and!.
  - apply steps_bind. unfold record_request.
    eapply steps_run_bind; [exact (run_on_client_now below c f0 k w Hc)|].
    cbn [Z.eqb Pos.eqb RequestStatusGranted].
    eapply steps_run_bind; [exact (run_setState below c StateFloorGranted k1 w1 Hc1)|].
    eapply steps_run_bind; [exact (run_on_client_now below c f2 _ w2 Hc2)|].
    cbn [call_back virtual_callbacks OnGranted]. eapply steps_run_bind; [|apply steps_refl].
    unfold owner_of. rewrite run_atomic. 
    match goal with |- context [vwOwner ?u !! c] => change (vwOwner u) with (vwOwner w) end.
    by rewrite Ho.
  - by eexists.
  - exact (has_put below c _ _ _ (has_set_net below tick c _ w2 Hc2)).
  - done.
  - eexists. split; [cbn; by rewrite lookup_alter_eq, lookup_insert_eq|done].
Qed.
End Granted.

(** A connected virtual client, free to call. *)
Record usable (w : VWorld) (v : nat) (x : VClient) (k : nat) : Prop := {
  us_has : vwVirtual w !! v = Some x;
  us_open : vClosed x = false;
  us_connected : vConnected x = true;
  us_free : vMu x = false;
  us_client : vClient x = Some k;
  us_owner : vwOwner w !! k = Some v
}.

Lemma run_on_virtual {A} v (f : VClient → A * VClient) x w :
  vwVirtual w !! v = Some x →
  run (on_virtual v f) w = Ok ((f x).1, set_virtual <[v := (f x).2]> w).
Proof. intros Hx. unfold on_virtual. rewrite run_atomic, Hx. by destruct (f x). Qed.

Lemma run_reads_virtual {A} v (f : VClient → A) x w :
  vwVirtual w !! v = Some x → run (on_virtual v (λ x, (f x, x))) w = Ok (f x, w).
Proof.
  intros Hx. rewrite (run_on_virtual v _ x w Hx). cbn. unfold set_virtual.
  rewrite list_insert_id by done. by destruct w.
Qed.

(** What [RequestFloor] does with the outcome of its request. *)
Definition conclude_request {env : Env} (v : nat) (floorID : Z) (options : floorRequestOptions)
    (r : Z + call_error) : gprog VWorld (Z + virtual_error) :=
  result ← (match r with
            | inr e => mret (inr (FailedRequest e))
            | inl requestID =>
                t ← gets (λ w, now (w_tick (cNet (vwClients w))));
                on_virtual v (λ x, (tt, with_vactive
                  <[requestID := mkFloorRequest requestID floorID RequestStatusPending
                      (optPriority options) 0 t (optInformation options)
                      (optBeneficiaryID options)]> x)) ;;
                mret (inl requestID)
            end);
  unlock_mu v ;;
  mret result.

(** The call has its mutex and asks the TCP client. *)
Lemma request_locks {env : Env} vapp v x k floorID opts w :
  usable w v x k → floorID ≠ 0 →
  let w1 := set_virtual <[v := with_vmu true x]> w in
  steps (V_RequestFloor vapp v floorID opts) w
      (Client_RequestFloor below (virtual_callbacks vapp) k floorID
         (optBeneficiaryID (request_options opts)) (optPriority (request_options opts))
       ≫= conclude_request v floorID (request_options opts)) w1 ∧
    held v w1 ∧ vwOwner w1 !! k = Some v.
Proof.
  intros [Hx Ho Hc Hf Hk How] Hne w1.
  assert (vwVirtual w1 !! v = Some (with_vmu true x)) as Hx1
    by (cbn; apply list_lookup_insert_eq; by eapply lookup_lt_Some).
  split; [|split; [by exists (with_vmu true x)|done]].
  unfold V_RequestFloor, if_usable, V_IsConnected.
  eapply steps_run_bind; [by apply run_reads_virtual|]. rewrite Ho.
  eapply steps_run_bind; [by apply run_reads_virtual|]. rewrite Hc.
  replace (floorID =? 0) with false by lia.
  eapply steps_run_bind.
  { unfold lock_mu, under_mu. rewrite run_atomic, Hx, Hf. reflexivity. }
  fold w1. eapply steps_run_bind.
  { unfold the_client. rewrite (run_bind_Ok _ _ _ _ _ (run_reads_virtual v vClient _ w1 Hx1)).
    cbn [vClient with_vmu]. rewrite Hk. reflexivity. }
  apply steps_refl.
Qed.

(** The call up to its wait; what comes of the answer, up to what the client does with
    it. *)
Lemma virtual_waits {env : Env} (vapp : nat → VCallbacks)
    v x k kc r (floorID : Z) opts w :
  (∀ t, write_ok t = true) → (∀ t, chance t = 0%nat) → usable w v x k → online below w k kc r →
  is_u32 (kConferenceID (kConfig kc)) → is_u16 (kUserID (kConfig kc)) →
  is_u16 floorID → floorID ≠ 0 →
  let options := request_options opts in
  let w0 := set_virtual <[v := with_vmu true x]> w in
  ∃ q w1 bs m, steps (V_RequestFloor vapp v floorID opts) w q w1 ∧
    sent_by below w1 = sent_by below w ++ [(r, bs)] ∧ Decode bs = Ok m ∧
    mPrimitive m = PrimitiveFloorRequest ∧ mUserID m = kUserID (kConfig kc) ∧
    GetFloorID m = Ok (Some floorID) ∧ wf_request m ∧
    ∀ flag a bs', answers bs' m flag a →
      ∃ m' w2 w3 k3, Decode bs' = Ok m' ∧
        run (Client_handleMessage below (virtual_callbacks vapp) k m') w1 = Ok (tt, w2) ∧
        steps q w2 (use_answer below (virtual_callbacks vapp) k floorID (optBeneficiaryID options)
                      (optPriority options) a ≫= conclude_request v floorID options) w3 ∧
        within below w0 w3 ∧ has_client below w3 k k3 ∧ kPending k3 !! mTransactionID m = None.
Proof.
  intros Hwrite Hchance Hus Hon Hconf Huser Hf Hne options w0.
  destruct (request_locks vapp v x k floorID opts w Hus Hne) as (Hs0 & _ & _).
  assert (online below w0 k kc r) as Hon0 by by destruct Hon; split.
  destruct (tcp_request_waits below (virtual_callbacks vapp) Hwrite Hchance k kc r floorID
    (optBeneficiaryID options) (optPriority options) w0 Hon0 Hconf Huser Hf)
    as (q & w1 & bs & m & Hs1 & Hsent & Hdec & Hprim & Hu & Hfid & Hm & _ & Hresume & _).
  exists (q ≫= conclude_request v floorID options), w1, bs, m. split_and!; try done.
  { eapply steps_trans; [exact Hs0|]. by apply steps_bind. }
  intros flag a bs' Ha.
  destruct (Hresume flag a bs' Ha) as (m' & w2 & w3 & k3 & Hdec' & Hh & Hs2 & Hin & Hon3 & _ & Hpend & _).
  exists m', w2, w3, k3. split_and!; try done; [by apply steps_bind|exact (on_has _ _ _ _ _ Hon3)].
Qed.

(** C36: a virtual client waits for itself.  [RequestFloor] holds the mutex of the client
    while it waits for the answer of the server.  If the answer says that the floor is
    granted - the TCP client provides for it - the TCP client, in that same call, runs
    the callback of the virtual client, which takes the mutex: the floor is granted, the
    call does not return, and the mutex stays locked, whatever the other calls of the
    application and the read loops do. *)
Theorem virtual_request_deadlocks {env : Env} {dialer : Dialer} (vapp : nat → VCallbacks)
    v x k kc r (floorID : Z) opts w :
  (∀ t, write_ok t = true) → (∀ t, chance t = 0%nat) → (∀ u, app_keeps (always (held v)) (vapp u)) →
  usable w v x k → online below w k kc r →
  is_u32 (kConferenceID (kConfig kc)) → is_u16 (kUserID (kConfig kc)) →
  is_u16 floorID → floorID ≠ 0 →
  ∃ q w1 bs m,
    steps (V_RequestFloor vapp v floorID opts) w q w1 ∧
    sent_by below w1 = sent_by below w ++ [(r, bs)] ∧ Decode bs = Ok m ∧
    (∀ requestID, is_u16 requestID →
       ∃ bs', answers bs' m false (Status floorID requestID RequestStatusGranted)) ∧
    ∀ flag f requestID bs', answers bs' m flag (Status f requestID RequestStatusGranted) →
      ∃ m' w2 stuck w3 k3,
        Decode bs' = Ok m' ∧
        run (Client_handleMessage below (virtual_callbacks vapp) k m') w1 = Ok (tt, w2) ∧
        steps q w2 stuck w3 ∧ blocked (held v) stuck ∧ held v w3 ∧
        has_client below w3 k k3 ∧ kState k3 = StateFloorGranted ∧
        knows k3 floorID requestID RequestStatusGranted ∧
        ∀ others sched ps w4, Forall (virtual_thread vapp) others →
          pool_run sched ((stuck ;; mret tt) :: others) w3 = Ok (ps, w4) →
          ps !! 0%nat = Some (stuck ;; mret tt) ∧ held v w4.
Proof.
  intros Hwrite Hchance Happ Hus Hon Hconf Huser Hf Hne.
  destruct (request_locks vapp v x k floorID opts w Hus Hne) as (_ & Hheld0 & Hown0).
  set (w0 := set_virtual _ w) in *.
  destruct (virtual_waits vapp v x k kc r floorID opts w Hwrite Hchance Hus Hon Hconf Huser Hf Hne)
    as (q & w1 & bs & m & Hs1 & Hsent & Hdec & Hprim & Hu & Hfid & Hm & Hresume).
  exists q, w1, bs, m. split_and!; [done..| |].
  { intros requestID Hr. destruct Hm as [Hv Hi _ _].
    destruct (status_received (mVersion m) false PrimitiveFloorRequestStatus _ _ _ floorID requestID
      RequestStatusGranted Hv ltac:(apply (bool_decide_unpack _); exact I) Hi Hf Hr
      ltac:(apply (bool_decide_unpack _); exact I)) as (bs' & _ & Hsays). by exists bs'. }
  intros flag f requestID bs' Ha.
  destruct (Hresume flag _ bs' Ha) as (m' & w2 & w3 & k3 & Hdec' & Hh & Hs2 & [u3 ->] & Hc3 & _).
  destruct (granted_steps vapp k v k3 floorID (optBeneficiaryID (request_options opts))
    (optPriority (request_options opts)) f requestID _ Hc3 Hown0)
    as (w4 & k4 & Hs3 & [u4 ->] & Hc4 & Hst4 & Hk4).
  set (stuck := (on_granted vapp v floorID requestID ;; mret (inl requestID))
                  ≫= conclude_request v floorID (request_options opts)).
  assert (blocked (held v) stuck) as Hb
    by (do 3 apply blocked_bind; apply under_mu_blocked).
  exists m', w2, stuck, (update below u4 (update below u3 w0)), k4. split_and!; try done.
  { eapply steps_trans; [exact Hs2|]. apply steps_bind. exact Hs3. }
  intros others sched ps w5 Hoth Hpool.
  eapply (pool_stuck (held v)); [by apply blocked_bind| |  |exact Hpool]; [exact Hheld0|].
  eapply Forall_impl; [exact Hoth|]. intros p Hp. 
    by eapply (virtual_thread_keeps vapp), Hp; [apply held_keep|].
Qed.

(** ** Closing *)

Lemma goodbye_received conf tx user :
  wf_ids conf tx user →
  ∃ bs m, Encode (NewMessage PrimitiveGoodbye conf tx user) =
      Ok (sized (NewMessage PrimitiveGoodbye conf tx user), bs) ∧
    Decode bs = Ok m ∧ mPrimitive m = PrimitiveGoodbye.
Proof.
  intros Hi. destruct (built_received 1 false PrimitiveGoodbye conf tx user [] [])
    as (bs & m & Henc & Hdec & [_ Hprim _ _ _ _] & _);
    [by left|apply (bool_decide_unpack _); exact I|done|constructor|constructor
    |apply (bool_decide_unpack _); exact I|]. by exists bs, m.
Qed.

(** A connected client says goodbye and closes its transport. *)
Lemma run_Disconnect {W} (L : lens W ClientWorld) {laws : LensLaws L} {env : Env} c k r w :
  (∀ t, write_ok t = true) → online L w c k r →
  is_u32 (kConferenceID (kConfig k)) → is_u16 (kUserID (kConfig k)) →
  ∃ bs m w', run (Disconnect L c) w = Ok (tt, w') ∧ within L w w' ∧
    sent_by L w' = sent_by L w ++ [(r, bs)] ∧ Decode bs = Ok m ∧ mPrimitive m = PrimitiveGoodbye.
Proof.
  intros Hwrite Hon Hconf Huser. pose proof Hon as [Hc Hk Ht].
  set (v := u32 (kNextTxID k + 1)). set (k0 := with_knextTxID v k). set (w0 := put L c k0 w).
  assert (online L w0 c k0 r) as Hon0 by by apply (online_put L c k).
  destruct (goodbye_received (kConferenceID (kConfig k)) (u16 v) (kUserID (kConfig k)))
    as (bs & m & Henc & Hdec & Hprim); [split_and!; [done|apply u16_range|done]|].
  pose proof (run_Client_send L Hwrite c k0 r _ bs w0 Hon0 Henc) as Hsend.
  set (w1 := set_net L (λ n, tick (log_events [Packet r bs] n)) w0) in *.
  assert (online L w1 c k0 r) as Hon1 by by apply online_set_net.
  assert (run (Client_Goodbye L c) w = Ok (inl tt, w1)) as Hbye.
  { unfold Client_Goodbye, if_connected, IsConnected, Client_nextTransactionID.
    rewrite (run_bind_Ok _ _ _ _ _ (run_of_client L c kConnected k w Hc)), Hk.
    rewrite (run_bind_Ok _ _ _ _ _ (run_on_client L c _ k w Hc)). cbn [fst snd]. fold v k0 w0.
    unfold Client_message.
    rewrite run_bind, (run_bind_Ok _ _ _ _ _ (run_of_client L c kConfig k0 w0 (on_has _ _ _ _ _ Hon0))).
    cbn [run mret prog_ret mbind res_bind fst snd kConfig k0 with_knextTxID].
    by rewrite (run_bind_Ok _ _ _ _ _ Hsend). }
  destruct Hon1 as [Hc1 _ (t & tr & Ht1 & Htr & _)].
  exists bs, m. eexists. split.
  { unfold Disconnect, IsConnected.
    rewrite (run_bind_Ok _ _ _ _ _ (run_of_client L c kConnected k w Hc)), Hk. cbn [when].
    rewrite (run_bind_Ok _ _ _ _ _ Hbye), (run_bind_Ok _ _ _ _ _ (run_of_client L c kTransport k0 w1 Hc1)), Ht1.
    unfold on_net. rewrite (run_zoom (lens_comp L net)). unfold Transport_Close. rewrite run_atomic.
    change (w_transports (cNet (view L w1)) !! t = Some tr) in Htr.
    cbn [view lens_comp net]. rewrite Htr. reflexivity. }
  split_and!; [| |done|done].
  - apply (within_trans L _ w0); [exact (within_put L c k0 w)|]. unfold w1, set_net. cbn [fst snd].
    eexists. cbn [update lens_comp]. by rewrite view_update, update_update.
  - cbn [fst snd]. unfold sent_by. cbn [update lens_comp]. rewrite view_update. cbn.
    unfold w1, set_net. rewrite view_update. cbn. unfold packets. rewrite omap_app. cbn.
    pose proof (sent_put L c k0 w) as Hput. unfold sent_by, packets in Hput. fold w0 in Hput.
    by rewrite Hput.
Qed.

(** A closed virtual client. *)
Lemma run_closed {env : Env} {A} v x (p : gprog VWorld (A + virtual_error)) w :
  vwVirtual w !! v = Some x → vClosed x = true → run (if_usable v p) w = Ok (inr ErrClientClosed, w).
Proof.
  intros Hx Hc. unfold if_usable. rewrite (run_bind_Ok _ _ _ _ _ (run_reads_virtual v vClosed x w Hx)).
  by rewrite Hc.
Qed.

(** C38: [Close] releases no floor.  It marks the client as closed before it asks for the
    floors to be released, so that it refuses to: all that is sent is a Goodbye, the
    client still counts the floors as held, and it cannot release them any more. *)
Theorem virtual_close_releases_nothing {env : Env} {dialer : Dialer} (vapp : nat → VCallbacks)
    v x k kc r w :
  (∀ t, write_ok t = true) → usable w v x k → online below w k kc r →
  is_u32 (kConferenceID (kConfig kc)) → is_u16 (kUserID (kConfig kc)) →
  ∃ bs m w' x', run (V_Close vapp v) w = Ok (tt, w') ∧
    sent_by below w' = sent_by below w ++ [(r, bs)] ∧ Decode bs = Ok m ∧
    mPrimitive m = PrimitiveGoodbye ∧
    vwVirtual w' !! v = Some x' ∧ vHeld x' = vHeld x ∧
    run (ReleaseAllFloors vapp v) w' = Ok (inr ErrClientClosed, w') ∧
    ∀ requestID, run (V_ReleaseFloor vapp v requestID) w' = Ok (inr ErrClientClosed, w').
Proof.
  intros Hwrite [Hx Hopen Hconn Hfree Hclient Hown] Hon Hconf Huser.
  set (x0 := with_vclosed true x). set (w0 := set_virtual <[v := x0]> w).
  assert (vwVirtual w0 !! v = Some x0) as Hx0
    by (cbn; apply list_lookup_insert_eq; by eapply lookup_lt_Some).
  assert (online below w0 k kc r) as Hon0 by by destruct Hon; split.
  destruct (run_Disconnect below k kc r w0 Hwrite Hon0 Hconf Huser)
    as (bs & m & w' & Hrun & [u ->] & Hsent & Hdec & Hprim).
  exists bs, m, (update below u w0), x0. split_and!; try done.
  - unfold V_Close. rewrite (run_bind_Ok _ _ _ _ _ (run_on_virtual v _ x w Hx)). cbn [fst snd].
    rewrite Hopen. cbn [negb when]. fold x0 w0.
    assert (run (under_mu v (λ x, (vClient x, x))) w0 = Ok (Some k, w0)) as Hk.
    { unfold under_mu. rewrite run_atomic, Hx0. change (vMu x0) with (vMu x). rewrite Hfree.
      change (vClient x0) with (vClient x). rewrite Hclient. unfold set_virtual.
      rewrite list_insert_id by exact Hx0. by destruct w0. }
    rewrite (run_bind_Ok _ _ _ _ _ Hk). unfold ReleaseAllFloors.
    by rewrite (run_bind_Ok _ _ _ _ _ (run_closed v x0 _ w0 Hx0 eq_refl)).
  - by apply (run_closed v x0).
  - intros requestID. by apply (run_closed v x0).
Qed.

(** User 7 at server "s" asks for floor 2, and for nothing after that. *)
#[local] Instance virtual_demo : Env := demo_env TransportTCP.
#[local] Instance virtual_dialer : Dialer := {| dial := λ _ address, Some address |}.

Definition demo_vclient : VClient :=
  mkVClient "webrtc-7" 7 1 "s" (Some 0%nat) ∅ ∅ 30000000000 false true false.
Definition demo_virtual : VWorld := mkVWorld demo_connected [demo_vclient] {[ 0%nat := 0%nat ]}.
Definition no_app (_ : nat) : VCallbacks := NoOpCallbacks.

Lemma virtual_request_deadlocks_witness :
  ∃ q w1 w2 m' stuck w3 k3,
    steps (V_RequestFloor no_app 0 2 [WithPriority PriorityHigh]) demo_virtual q w1 ∧
    run (Client_handleMessage below (virtual_callbacks no_app) 0 m') w1 = Ok (tt, w2) ∧
    steps q w2 stuck w3 ∧
    has_client below w3 0 k3 ∧ knows k3 2 6 RequestStatusGranted ∧
    ∀ sched ps w4,
      pool_run sched [stuck ;; mret tt; GetStatus 0 ;; mret tt; V_Close no_app 0] w3 = Ok (ps, w4) →
      ps !! 0%nat = Some (stuck ;; mret tt).
Proof.
  destruct (@virtual_request_deadlocks virtual_demo virtual_dialer no_app 0 demo_vclient 0 demo_tcp_client "s" 2
    [WithPriority PriorityHigh] demo_virtual (λ _, eq_refl) (λ _, eq_refl) (λ _, no_op_keeps _)
    ltac:(by split) ltac:(split; [done..|]; by eexists 0%nat, _)
    ltac:(apply (bool_decide_unpack _); exact I) ltac:(apply (bool_decide_unpack _); exact I)
    ltac:(apply (bool_decide_unpack _); exact I) ltac:(discriminate))
    as (q & w1 & bs & m & Hs & _ & _ & Hans & Hall).
  destruct (Hans 6 ltac:(apply (bool_decide_unpack _); exact I)) as [bs' Ha].
  destruct (Hall _ _ _ _ Ha) as (m' & w2 & stuck & w3 & k3 & _ & Hh & Hs2 & _ & _ & Hc & _ & Hk & Hstuck).
  exists q, w1, w2, m', stuck, w3, k3. do 5 (split; [assumption|]).
  intros sched ps w4 Hrun. refine (proj1 (Hstuck _ sched ps w4 _ Hrun)).
  apply Forall_cons_2; [apply ThreadStatus|]. apply Forall_cons_2; [apply ThreadClose|apply Forall_nil_2].
Defined.

(** The client holds floor 2 under request 6. *)
Definition demo_holding : VWorld :=
  mkVWorld demo_connected [with_vheld (λ _, {[ 2 := 6 ]}) demo_vclient] {[ 0%nat := 0%nat ]}.

Lemma virtual_close_releases_nothing_witness :
  ∃ bs m w', run (V_Close no_app 0) demo_holding = Ok (tt, w') ∧
    sent_by below w' = [("s", bs)] ∧ Decode bs = Ok m ∧ mPrimitive m = PrimitiveGoodbye ∧
    vHeld <$> vwVirtual w' !! 0%nat = Some {[ 2 := 6 ]} ∧
    run (V_ReleaseFloor no_app 0 6) w' = Ok (inr ErrClientClosed, w').
Proof.
  destruct (@virtual_close_releases_nothing virtual_demo virtual_dialer no_app 0
    (with_vheld (λ _, {[ 2 := 6 ]}) demo_vclient) 0 demo_tcp_client "s" demo_holding (λ _, eq_refl)
    ltac:(by split) ltac:(split; [done..|]; by eexists 0%nat, _)
    ltac:(apply (bool_decide_unpack _); exact I) ltac:(apply (bool_decide_unpack _); exact I))
    as (bs & m & w' & x' & Hrun & Hsent & Hdec & Hprim & Hx & Hheld & _ & Hrel).
  exists bs, m, w'. split; [exact Hrun|]. split; [exact Hsent|]. split; [exact Hdec|].
  split; [exact Hprim|]. split; [rewrite Hx; cbn; by rewrite Hheld|]. apply Hrel.
Defined.
