(* ===== verification/VirtualExchange.v ===== *)
(** * A floor request of a virtual client

    The request of a virtual client against the server over TCP, from the call of the
    application to its callback, when the answers arrive one after the other. *)

From S2P Require Import Prelude Types Message Grouped Codec Framing FloorFSM Session Prog World Transport UDPClient Client Virtual Server Threads Interleave ServerSafe Scenario Safety Responses ServerRun ClientRun FloorLocks Channel Typed Service Served Exchange VirtualRun.

Section Virtual.
Context {env : Env} (vapp : nat → VCallbacks).

(** What only concerns the TCP clients leaves the virtual ones alone. *)
Lemma within_below w w' :
  within below w w' → vwVirtual w' = vwVirtual w ∧ vwOwner w' = vwOwner w.
Proof. by intros [u ->]. Qed.

Lemma run_under_mu {A} v (f : VClient → A * VClient) x w :
  vwVirtual w !! v = Some x → vMu x = false →
  run (under_mu v f) w = Ok ((f x).1, set_virtual <[v := (f x).2]> w).
Proof. intros Hx Hmu. unfold under_mu. rewrite run_atomic, Hx, Hmu. by destruct (f x). Qed.

(** The request as the client records it. *)
Definition pending_request (requestID floorID : Z) (options : floorRequestOptions) (t : Time)
    : FloorRequest :=
  mkFloorRequest requestID floorID RequestStatusPending (optPriority options) 0 t
    (optInformation options) (optBeneficiaryID options).

(** The end of the call: the mutex is free. *)
Lemma run_concluded v floorID options requestID x w :
  vwVirtual w !! v = Some x →
  ∃ t, run (conclude_request v floorID options (inl requestID)) w =
    Ok (inl requestID,
        set_virtual <[v := with_vmu false
          (with_vactive <[requestID := pending_request requestID floorID options t]> x)]> w).
Proof.
  intros Hx. eexists. unfold conclude_request. rewrite run_bind, run_bind, run_gets.
  cbn [mbind res_bind fst snd]. rewrite (run_bind_Ok _ _ _ _ _ (run_on_virtual v _ x w Hx)).
  cbn [fst snd run mret prog_ret mbind res_bind]. set (x1 := with_vactive _ x). set (w1 := set_virtual _ w).
  assert (vwVirtual w1 !! v = Some x1) as Hx1
    by (cbn; apply list_lookup_insert_eq; by eapply lookup_lt_Some).
  unfold unlock_mu. rewrite (run_bind_Ok _ _ _ _ _ (run_on_virtual v _ x1 w1 Hx1)).
  unfold w1, set_virtual. cbn. by rewrite list_insert_insert_eq.
Qed.

Lemma run_refused v floorID options e x w :
  vwVirtual w !! v = Some x →
  run (conclude_request v floorID options (inr e)) w =
    Ok (inr (FailedRequest e), set_virtual <[v := with_vmu false x]> w).
Proof.
  intros Hx. unfold conclude_request, unlock_mu. rewrite run_bind. cbn [run mret prog_ret mbind res_bind fst snd].
  by rewrite (run_bind_Ok _ _ _ _ _ (run_on_virtual v _ x w Hx)).
Qed.

(** The callback of a grant: the floor is held, the request granted, and the application
    is told. *)
Lemma run_granted v k floorID requestID x w :
  vwVirtual w !! v = Some x → vMu x = false → vwOwner w !! k = Some v →
  run (call_back (OnGranted (virtual_callbacks vapp k)) (λ f, f floorID requestID)) w =
  run (onFloorGranted (vapp v) floorID requestID)
    (set_virtual <[v := with_vactive (alter set_granted requestID)
                          (with_vheld <[floorID := requestID]> x)]> w).
Proof.
  intros Hx Hmu Ho. cbn [call_back virtual_callbacks OnGranted].
  assert (run (owner_of k) w = Ok (v, w)) as Hown by (unfold owner_of; by rewrite run_atomic, Ho).
  rewrite (run_bind_Ok _ _ _ _ _ Hown). unfold on_granted.
  by rewrite (run_bind_Ok _ _ _ _ _ (run_under_mu v _ x w Hx Hmu)).
Qed.

(** The callback of a refusal: the request is not active any more. *)
Lemma run_denied v k floorID requestID code x w :
  vwVirtual w !! v = Some x → vMu x = false → vwOwner w !! k = Some v →
  run (call_back (OnDenied (virtual_callbacks vapp k)) (λ f, f floorID requestID code)) w =
  run (onFloorDenied (vapp v) floorID requestID code (ErrorCode_String code))
    (set_virtual <[v := with_vactive (delete requestID) x]> w).
Proof.
  intros Hx Hmu Ho. cbn [call_back virtual_callbacks OnDenied].
  assert (run (owner_of k) w = Ok (v, w)) as Hown by (unfold owner_of; by rewrite run_atomic, Ho).
  rewrite (run_bind_Ok _ _ _ _ _ Hown). unfold on_denied.
  by rewrite (run_bind_Ok _ _ _ _ _ (run_under_mu v _ x w Hx Hmu)).
Qed.
End Virtual.

(** ** From the call to the callback *)

Section Outcome.
Context {env : Env} (vapp : nat → VCallbacks).

(** The call is over: the client can be used again; its floors and requests. *)
Definition settled (w : VWorld) (v k : nat) (active : gmap Z FloorRequest) (held : gmap Z Z) : Prop :=
  ∃ x, usable w v x k ∧ vActive x = active ∧ vHeld x = held.

Lemma settled_put v k x0 x w :
  vwVirtual w !! v = Some x0 → vwOwner w !! k = Some v → vClosed x = false → vConnected x = true →
  vMu x = false → vClient x = Some k →
  settled (set_virtual <[v := x]> w) v k (vActive x) (vHeld x).
Proof.
  intros Hx Ho ? ? ? ?. exists x. split_and!; [split; try done|done|done].
  cbn. apply list_lookup_insert_eq. by eapply lookup_lt_Some.
Qed.

(** The first answer says that the request is pending. *)
Lemma run_pending_answer v x k k3 (floorID f requestID : Z) options w w3 :
  usable w v x k → within below (set_virtual <[v := with_vmu true x]> w) w3 →
  has_client below w3 k k3 →
  ∃ t w4 k4, run (use_answer below (virtual_callbacks vapp) k floorID (optBeneficiaryID options)
                    (optPriority options) (Status f requestID RequestStatusPending)
                  ≫= conclude_request v floorID options) w3 = Ok (inl requestID, w4) ∧
    has_client below w4 k k4 ∧ knows k4 floorID requestID RequestStatusPending ∧
    kPending k4 = kPending k3 ∧
    settled w4 v k (<[requestID := pending_request requestID floorID options t]> (vActive x)) (vHeld x).
Proof.
  intros [Hx ? ? ? ? Ho] Hin Hc. 
  destruct (run_use_pending below (virtual_callbacks vapp) k k3 floorID (optBeneficiaryID options)
    (optPriority options) f requestID w3 Hc) as (w4 & k4 & H1 & Hc4 & _ & Hk4 & Hp4 & Hin4).
  destruct (within_below _ _ (within_trans below _ _ _ Hin Hin4)) as [Ev Eo].
  assert (vwVirtual w4 !! v = Some (with_vmu true x)) as Hx4
    by (rewrite Ev; cbn; apply list_lookup_insert_eq; by eapply lookup_lt_Some).
  destruct (run_concluded v floorID options requestID (with_vmu true x) w4 Hx4) as (t & H2).
  eexists t, _, k4. rewrite (run_bind_Ok _ _ _ _ _ H1). split_and!; [exact H2|done|done|done|].
  refine (settled_put v k _ (with_vmu false (with_vactive _ (with_vmu true x))) w4 Hx4 _ _ _ _ _); try done.
  by rewrite Eo.
Qed.

(** The one answer refuses the request. *)
Lemma run_refused_answer v x k floorID opts code info w w3 :
  usable w v x k → within below (set_virtual <[v := with_vmu true x]> w) w3 →
  let options := request_options opts in
  ∃ w4, run (use_answer below (virtual_callbacks vapp) k floorID (optBeneficiaryID options)
                    (optPriority options) (Refusal code info)
                  ≫= conclude_request v floorID options) w3 =
      Ok (inr (FailedRequest (RequestFailed code (string_bytes info))), w4) ∧
    settled w4 v k (vActive x) (vHeld x).
Proof.
  intros [Hx ? ? ? ? Ho] Hin options. destruct (within_below _ _ Hin) as [Ev Eo].
  assert (vwVirtual w3 !! v = Some (with_vmu true x)) as Hx3
    by (rewrite Ev; cbn; apply list_lookup_insert_eq; by eapply lookup_lt_Some).
  eexists. split.
  { rewrite run_bind. exact (run_refused v floorID options _ (with_vmu true x) w3 Hx3). }
  refine (settled_put v k _ (with_vmu false (with_vmu true x)) w3 Hx3 _ _ _ _ _); try done.
  by rewrite Eo.
Qed.

(** The decision, when it arrives. *)
Lemma run_decided v k k3 m2 bs2 m (floorID requestID : Z) (granted : bool) active held w :
  settled w v k active held → has_client below w k k3 → knows k3 floorID requestID RequestStatusPending →
  kPending k3 !! mTransactionID m = None →
  answers bs2 m false (Status floorID requestID
                         (if granted then RequestStatusGranted else RequestStatusDenied)) →
  Decode bs2 = Ok m2 →
  ∃ w4, run (Client_handleMessage below (virtual_callbacks vapp) k m2) w =
      run (if granted then onFloorGranted (vapp v) floorID requestID
           else onFloorDenied (vapp v) floorID requestID 0 (ErrorCode_String 0)) w4 ∧
    settled w4 v k (if granted then alter set_granted requestID active else delete requestID active)
      (if granted then <[floorID := requestID]> held else held).
Proof.
  intros (x & [Hx ? ? Hmu ? Ho] & <- & <-) Hc Hk Hpend Ha Hdec.
  destruct (run_decision below (virtual_callbacks vapp) k k3 m2 bs2 m false floorID requestID _ w Hc Ha Hdec
    Hpend Hk) as (w3 & k4 & H1 & _ & _ & _ & [Ev Eo]%within_below).
  rewrite <- Ev in Hx. rewrite <- Eo in Ho. rewrite H1. destruct granted.
  - eexists. split; [exact (run_granted vapp v k floorID requestID x w3 Hx Hmu Ho)|].
    by refine (settled_put v k x (with_vactive _ (with_vheld _ x)) w3 Hx Ho _ _ _ _).
  - eexists. split; [exact (run_denied vapp v k floorID requestID 0 x w3 Hx Hmu Ho)|].
    by refine (settled_put v k x (with_vactive _ x) w3 Hx Ho _ _ _ _).
Qed.
End Outcome.

(** C6: a floor request of a virtual client over TCP, from end to end, when the client
    reads the first answer while the call waits and the second after it has returned.  (A
    second answer that is read before the call has forgotten its transaction is lost to
    the TCP client below, and no callback runs: [tcp_decision_lost].)  If the floor is free, the call returns the
    server's request id with the first answer, and the client counts the request as
    pending; with the second, the client grants the request and holds the floor, or
    forgets the request, and then calls the application; the client can be used again
    after each, and the server's lock is held by its user under the same id, or blocked.
    If the floor is taken, the call fails with the error of the server, and the client
    is as it was. *)
Theorem virtual_request_exchange (client server : Env) (vapp : nat → VCallbacks)
    v x k kc r (floorID : Z) opts w i rc vs ws :
  (∀ t, @write_ok client t = true) → (∀ t, @chance client t = 0%nat) →
  (∀ t, @write_ok server t = true) →
  usable w v x k → online below w k kc r →
  is_u32 (kConferenceID (kConfig kc)) → is_u16 (kUserID (kConfig kc)) →
  is_u16 floorID → floorID ≠ 0 → tcp_peer ws i rc vs → floors_ok ws →
  let user := kUserID (kConfig kc) in
  let requestID := next_request_id ws in
  let granted := @decides server floorID user requestID in
  let reads := @Client_handleMessage _ below (@virtual_callbacks client vapp) client k in
  ∃ q w1 bs m ws',
    steps (@V_RequestFloor client vapp v floorID opts) w q w1 ∧
    sent_by below w1 = sent_by below w ++ [(r, bs)] ∧ Decode bs = Ok m ∧
    run (@handleMessage server i m) ws = Ok (tt, ws') ∧
    match lock_at ws floorID with
    | Lock.Free =>
        ∃ bs1 m1 bs2 m2 w2 w3 w4 t,
          packets (w_trace ws') = packets (w_trace ws) ++ [(rc, bs1); (rc, bs2)] ∧
          Decode bs1 = Ok m1 ∧ Decode bs2 = Ok m2 ∧
          run (reads m1) w1 = Ok (tt, w2) ∧ run q w2 = Ok (inl requestID, w3) ∧
          let active := <[requestID := pending_request requestID floorID (request_options opts) t]>
                          (vActive x) in
          settled w3 v k active (vHeld x) ∧
          if granted then
            run (reads m2) w3 = run (onFloorGranted (vapp v) floorID requestID) w4 ∧
            settled w4 v k (alter set_granted requestID active) (<[floorID := requestID]> (vHeld x)) ∧
            lock_at ws' floorID = Lock.Held user requestID
          else
            run (reads m2) w3 =
              run (onFloorDenied (vapp v) floorID requestID 0 (ErrorCode_String 0)) w4 ∧
            settled w4 v k (delete requestID active) (vHeld x) ∧
            lock_at ws' floorID = Lock.Blocked
    | taken =>
        ∃ bs1 m1 w2 w3,
          packets (w_trace ws') = packets (w_trace ws) ++ [(rc, bs1)] ∧ Decode bs1 = Ok m1 ∧
          run (reads m1) w1 = Ok (tt, w2) ∧
          run q w2 = Ok (inr (FailedRequest (RequestFailed ErrorUnauthorizedOperation
                                (string_bytes (floor_error_text (refusal floorID taken))))), w3) ∧
          settled w3 v k (vActive x) (vHeld x) ∧ lock_at ws' floorID = taken
    end.
Proof.
  intros Hwc Hch Hws Hus Hon Hconf Huser Hf Hne Hp Hok user requestID granted reads.
  destruct (@virtual_waits client vapp v x k kc r floorID opts w Hwc Hch Hus Hon Hconf Huser Hf Hne)
    as (q & w1 & bs & m & Hsteps & Hsent & Hdec & Hprim & Hu & Hfid & Hm & Hresume).
  destruct (@serve_tcp_request server Hws i rc vs m floorID ws Hp Hm Hok Hprim Hfid)
    as (pk & bs2 & ws' & Hrun & Hpk & Ha & [Hpks _ _ Hlock _ _]). rewrite Hu in *.
  fold user requestID in Hpk, Ha, Hlock. fold granted in Ha, Hlock.
  exists q, w1, bs, m, ws'. split_and!; [done..|]. unfold pending_first in Hpk.
  destruct (lock_at ws floorID) as [|u rid|u rid|] eqn:Hl; cbn [serve_request] in Ha, Hlock.
  2-4: destruct (Hresume _ _ _ Ha) as (m1 & w2 & w3 & k3 & Hdec1 & Hh & Hq%steps_run & Hin & _);
    destruct (@run_refused_answer client vapp v x k floorID opts ErrorUnauthorizedOperation
      (floor_error_text (refusal floorID (lock_at ws floorID))) w w3 Hus Hin) as (w4 & H4 & Hset);
    rewrite Hl in H4;
    rewrite decide_False in Hpk by done; subst pk;
    exists bs2, m1, w2, w4; split_and!; try done; by rewrite Hq.
  rewrite decide_True in Hpk by done. destruct Hpk as (bs1 & -> & Ha1).
  destruct (Hresume _ _ _ Ha1) as (m1 & w2 & w3 & k3 & Hdec1 & Hh & Hq%steps_run & Hin & Hc3 & Hpend).
  destruct (@run_pending_answer client vapp v x k k3 floorID floorID requestID (request_options opts)
    w w3 Hus Hin Hc3) as (t & w4 & k4 & Hq' & Hc4 & Hk4 & Hp4 & Hset).
  assert (answers bs2 m false (Status floorID requestID
    (if granted then RequestStatusGranted else RequestStatusDenied))) as Ha2 by by destruct granted.
  destruct (answers_transaction _ _ _ _ Ha2) as (m2 & Hdec2 & _).
  destruct (@run_decided client vapp v k k4 m2 bs2 m floorID requestID granted _ _ w4 Hset Hc4 Hk4)
    as (w5 & Hnews & Hset5); [by rewrite Hp4|done..|].
  exists bs1, m1, bs2, m2, w2, w4, w5, t.
  do 6 (split; [first [done|by rewrite Hq]|]).
  destruct granted; split_and!; done.
Qed.

(** User 7 at server "s" asks for floor 2. *)
Lemma virtual_request_exchange_witness :
  ∃ q w1 m1 m2 w2 w3 w4 x,
    steps (@V_RequestFloor (demo_env TransportTCP) no_app 0 2 [WithPriority PriorityHigh])
      demo_virtual q w1 ∧
    run (@Client_handleMessage _ below (@virtual_callbacks (demo_env TransportTCP) no_app)
           (demo_env TransportTCP) 0 m1) w1 = Ok (tt, w2) ∧
    run q w2 = Ok (inl 6, w3) ∧
    run (@Client_handleMessage _ below (@virtual_callbacks (demo_env TransportTCP) no_app)
           (demo_env TransportTCP) 0 m2) w3 = Ok (tt, w4) ∧
    vwVirtual w4 !! 0%nat = Some x ∧ vHeld x = {[ 2 := 6 ]} ∧ vMu x = false.
Proof.
  destruct (virtual_request_exchange (demo_env TransportTCP) (demo_env TransportTCP) no_app 0 demo_vclient 0
    demo_tcp_client "s" 2 [WithPriority PriorityHigh] demo_virtual 0 "a" 2 demo_tcp
    (λ _, eq_refl) (λ _, eq_refl) (λ _, eq_refl)
    ltac:(by split) ltac:(split; [done..|]; by eexists 0%nat, _)
    ltac:(apply (bool_decide_unpack _); exact I) ltac:(apply (bool_decide_unpack _); exact I)
    ltac:(apply (bool_decide_unpack _); exact I) ltac:(discriminate) demo_tcp_a (demo_floors_ok _ _))
    as (q & w1 & bs & m & ws' & Hs & _ & _ & _ & Hcase).
  assert (lock_at demo_tcp 2 = Lock.Free) as Hfree by (vm_compute; reflexivity).
  rewrite Hfree in Hcase.
  destruct Hcase as (bs1 & m1 & bs2 & m2 & w2 & w3 & w4 & t & _ & _ & _ & H2 & H3 & _ & H4 & Hset & _).
  destruct Hset as (x & [Hx _ _ Hmu _ _] & _ & Hheld).
  exists q, w1, m1, m2, w2, w3, w4, x. do 3 (split; [assumption|]).
  split; [exact H4|]. split; [exact Hx|]. by split.
Defined.
