(* ===== verification/ManagerRun.v ===== *)
(** * The manager at work

    What every interleaving of the manager's calls with the calls and read loops of its
    clients keeps: the user ids of the clients, and of those on their way out. *)

From S2P Require Import Prelude Types Message Grouped Codec Framing FloorFSM UserIDPool Session Prog World Transport UDPClient Client Virtual Manager Server Interleave Scenario ClientRun VirtualRun.

(** ** The invariant *)

(** The ids of the virtual clients, and the user id of one. *)
Definition registry (w : MWorld) : list (string * Z) := identities (mwVirtual w).
Definition uid (w : MWorld) (v : nat) : Z := default 0 (snd <$> registry w !! v).

(** The clients of the manager. *)
Definition managed_clients (w : MWorld) : list nat := (map_to_list (mClients (mwManager w))).*2.

(** The user ids of the clients, and of those that calls are removing: [us] has them
    with their user ids. *)
Definition users (us : list (nat * Z)) (w : MWorld) : list Z :=
  (uid w <$> managed_clients w) ++ us.*2.

Record managed (start end_ : Z) (us : list (nat * Z)) (w : MWorld) : Prop := {
  mg_pool : wf_pool (mUserIDPool (mwManager w));
  mg_start : pStart (mUserIDPool (mwManager w)) = start;
  mg_end : pEnd (mUserIDPool (mwManager w)) = end_;
  mg_clients : ∀ id v, mClients (mwManager w) !! id = Some v → ∃ u, registry w !! v = Some (id, u);
  mg_owned : ∀ v u, (v, u) ∈ us → ∃ id, registry w !! v = Some (id, u);
  mg_out : hands (users us w) (mUserIDPool (mwManager w))
}.

Lemma hands_perm l l' p : l ≡ₚ l' → hands l p → hands l' p.
Proof. intros Hp [Hnd Hiff]. split; [by rewrite <- Hp|]. intros id. by rewrite <- Hp. Qed.

Lemma hands_cons u l p : hands l p → u ∉ pAllocated p → hands (u :: l) (add_allocated u p).
Proof.
  intros [Hnd Hiff] Hu. split; [by constructor; [rewrite Hiff|]|].
  intros id. cbn. rewrite elem_of_cons, Hiff. set_solver.
Qed.

Lemma hands_release u l p : hands (u :: l) p → hands l (Pool_Release u p).
Proof.
  intros [Hnd%NoDup_cons Hiff]. destruct Hnd as [Hu Hnd]. split; [done|]. intros id. cbn.
  specialize (Hiff id). rewrite elem_of_cons in Hiff. set_solver.
Qed.

Section Managed.
Context (start end_ : Z).
Abbreviation I := (managed start end_).

Lemma managed_perm l l' w : l ≡ₚ l' → I l w → I l' w.
Proof.
  intros Hp [H1 H2 H3 H4 H5 H6]. split; try done.
  - intros v u Hv. apply H5. by rewrite Hp.
  - eapply hands_perm; [|exact H6]. unfold users. by rewrite Hp.
Qed.

(** What the invariant is about. *)
Definition accounts (w : MWorld) : Manager * list (string * Z) := (mwManager w, registry w).

Lemma managed_same l w w' : accounts w' = accounts w → I l w → I l w'.
Proof.
  intros Heq. unfold accounts in Heq. injection Heq as Hm Hr. intros [H1 H2 H3 H4 H5 H6].
  unfold users, managed_clients, uid in H6.
  split; try (by rewrite Hm); rewrite ?Hm, ?Hr; try done.
  unfold users, managed_clients, uid. by rewrite Hm, Hr.
Qed.

(** The readers do not matter. *)
Lemma managed_readers l f w : I l w → I l (set_manager (with_readers f) w).
Proof. by intros [H1 H2 H3 H4 H5 H6]; split. Qed.
Lemma managed_ticked l w : I l w → I l (ticked w).
Proof. by apply managed_same. Qed.

(** A new client. *)
Lemma managed_create l id u x w :
  mClients (mwManager w) !! id = None → identity x = (id, u) →
  in_range (mUserIDPool (mwManager w)) u → u ∉ pAllocated (mUserIDPool (mwManager w)) →
  I l w →
  I l (update virtuals (set_virtual (λ l, l ++ [x]) (mwVirtual w))
         (set_manager (λ m, with_mclients <[id := length (vwVirtual (mwVirtual w))]>
                              (with_pool (λ _, add_allocated u (mUserIDPool (mwManager w))) m)) w)).
Proof.
  intros Hid Hx Hr Hu [H1 H2 H3 H4 H5 H6]. set (w' := update _ _ _).
  assert (registry w' = registry w ++ [(id, u)]) as Hreg
    by (unfold registry, identities; cbn; by rewrite fmap_app; cbn; rewrite Hx).
  assert (∀ v e, registry w !! v = Some e → registry w' !! v = Some e) as Hold
    by (intros v e Hv; rewrite Hreg; by apply lookup_app_l_Some).
  assert (registry w' !! length (vwVirtual (mwVirtual w)) = Some (id, u)) as Hnew.
  { rewrite Hreg. apply list_lookup_middle. unfold registry, identities. by rewrite length_fmap. }
  split; cbn; try done.
  - by apply add_allocated_wf.
  - intros id' v. rewrite lookup_insert_Some. intros [[<- <-]|[Hne Hv]]; [eauto|].
    destruct (H4 _ _ Hv) as [u' Hu']. eauto.
  - intros v u' Hv. destruct (H5 _ _ Hv) as [id' Hid']. eauto.
  - assert (uid w' <$> managed_clients w = uid w <$> managed_clients w) as Hsame.
    { apply list_fmap_ext. intros i v Hv. apply list_elem_of_lookup_2 in Hv.
      apply list_elem_of_fmap in Hv as ([id' v'] & -> & Hv%elem_of_map_to_list). cbn.
      destruct (H4 _ _ Hv) as [u' Hu'].
      change (default 0 (snd <$> registry w' !! v') = default 0 (snd <$> registry w !! v')).
      by rewrite (Hold _ _ Hu'), Hu'. }
    change (hands (users l w') (add_allocated u (mUserIDPool (mwManager w)))).
    eapply hands_perm; [|by eapply hands_cons; [exact H6|]].
    unfold users. rewrite <- Hsame.
    assert (managed_clients w' ≡ₚ length (vwVirtual (mwVirtual w)) :: managed_clients w) as ->
      by (unfold managed_clients; cbn; by rewrite map_to_list_insert).
    cbn [fmap list_fmap app]. assert (uid w' (length (vwVirtual (mwVirtual w))) = u) as ->
      by (unfold uid; by rewrite Hnew). done.
Qed.

(** A client leaves the map, and the call that took it has it. *)
Lemma managed_remove l id v w :
  mClients (mwManager w) !! id = Some v → I l w →
  ∃ u, I ((v, u) :: l) (set_manager (with_mclients (delete id)) w).
Proof.
  intros Hv [H1 H2 H3 H4 H5 H6]. destruct (H4 _ _ Hv) as [u Hu]. exists u. split; cbn; try done.
  - intros id' v'. rewrite lookup_delete_Some. intros [_ Hv']. by eapply H4.
  - intros v' u'. rewrite elem_of_cons. intros [[= -> ->]|Hv']; [eauto|]. by apply H5.
  - eapply hands_perm; [|exact H6]. unfold users.
    assert (managed_clients w ≡ₚ v :: managed_clients (set_manager (with_mclients (delete id)) w)) as ->
      by (unfold managed_clients; cbn; by rewrite <- (map_to_list_delete _ _ _ Hv)).
    cbn. unfold uid at 1. rewrite Hu. cbn. by rewrite Permutation_middle.
Qed.

Lemma managed_remove_all l w vs :
  vs ≡ₚ managed_clients w → I l w →
  I (((λ v, (v, uid w v)) <$> vs) ++ l) (set_manager (with_mclients (λ _, ∅)) w).
Proof.
  intros Hvs [H1 H2 H3 H4 H5 H6]. split; cbn; try done.
  - intros v u. rewrite elem_of_app, list_elem_of_fmap. intros [(v' & [= -> ->] & Hv')|Hv]; [|by apply H5].
    rewrite Hvs in Hv'. apply list_elem_of_fmap in Hv' as ([id v] & -> & Hv%elem_of_map_to_list).
    destruct (H4 _ _ Hv) as [u Hu]. exists id. unfold uid. cbn. by rewrite Hu.
  - eapply hands_perm; [|exact H6]. unfold users. cbn. rewrite fmap_app, <- list_fmap_compose, <- Hvs.
    done.
Qed.

(** The user id of a client that has left. *)
Lemma managed_release l v u w :
  I ((v, u) :: l) w → I l (set_manager (with_pool (Pool_Release u)) w).
Proof.
  intros [H1 H2 H3 H4 H5 H6]. split; cbn; try done.
  - by apply Pool_Release_wf.
  - intros v' u' Hv. apply H5. by right.
  - apply hands_release. eapply hands_perm; [|exact H6]. unfold users. cbn.
    by rewrite <- Permutation_middle.
Qed.
End Managed.

(** ** The calls *)

Section Calls.
Context {env : Env} {dialer : Dialer} (vapp : nat → VCallbacks) (start end_ : Z).
Context (Happ : ∀ u, app_keeps (same identities) (vapp u)).
Abbreviation I := (managed start end_).
#[local] Set Default Proof Using "All".

(** A program on the virtual clients keeps the accounts. *)
Lemma owns_virtual {A} us (p : gprog VWorld A) :
  keeps (same identities) p → owns I (λ _ us', us' = us) us (zoom virtuals p).
Proof using.
  intros Hp. apply (owns_same I accounts us); [by intros; eapply managed_same|].
  apply (keeps_zoom_part (same accounts) virtuals (same identities)); [by intros w _| |exact Hp].
  intros v w Hv. unfold same, accounts, registry in *. cbn. by rewrite Hv.
Qed.

Lemma owns_locked {A} (Q : A → list (nat * Z) → Prop) us f :
  (∀ rest w a w', I (us ++ rest) w → f w = Ok (a, w') → ∃ us', I (us' ++ rest) w' ∧ Q a us') →
  owns I Q us (locked f).
Proof using.
  intros Hf. apply owns_atomic. intros rest w a w' HI H. case_decide; [|done]. by eapply Hf.
Qed.

Lemma owns_gets {A} us (f : MWorld → A) : owns I (λ _ us', us' = us) us (gets f).
Proof using. apply owns_atomic. intros rest w a w' HI [= _ <-]. by exists us. Qed.

(** What [create] needs of the way in which it gets a user id. *)
Definition allocates (allocate : UserIDPool → res manager_error (Z * UserIDPool)) : Prop :=
  ∀ p u p', wf_pool p → allocate p = Ok (u, p') →
    in_range p u ∧ (u ∉ pAllocated p) ∧ p' = add_allocated u p.

Lemma owns_create id allocate :
  allocates allocate → owns I (λ _ us', us' = []) [] (create id allocate).
Proof using.
  intros Hall. apply owns_locked. intros rest w r w' HI H. exists []. split; [|done]. cbn [app] in *.
  destruct (mClients (mwManager w) !! id) as [v|] eqn:Hid; [by injection H as _ <-|].
  destruct (allocate (mUserIDPool (mwManager w))) as [[u p]|e| |] eqn:Ha; [|by injection H as _ <-|done..].
  destruct (Hall _ _ _ (mg_pool _ _ _ _ HI) Ha) as (Hr & Hu & ->).
  unfold New in H. repeat case_decide; injection H as _ <-; [..|by apply managed_create].
  all: destruct HI as [I1 I2 I3 I4 I5 I6]; destruct w as [? [? ? ? [] ? ?]]; split; cbn in *; try done.
  - by apply (Pool_Release_wf u), (add_allocated_wf u).
  - apply hands_release. by apply hands_cons.
  - by apply (Pool_Release_wf u), (add_allocated_wf u).
  - apply hands_release. by apply hands_cons.
Qed.

Lemma owns_CreateClient id : owns I (λ _ us', us' = []) [] (CreateClient id).
Proof using.
  unfold CreateClient. case_decide; [by constructor|]. apply owns_create. intros p u p' Hwf.
  destruct (Allocate p) as [[u1 p1]|e| |] eqn:Ha; try done. intros [= <- <-]. by apply Allocate_Ok.
Qed.

Lemma owns_CreateClientWithUserID id userID :
  owns I (λ _ us', us' = []) [] (CreateClientWithUserID id userID).
Proof using.
  unfold CreateClientWithUserID. case_decide; [by constructor|].
  eapply owns_bind; [apply owns_gets|]. intros config us' ->. case_match; [by constructor|].
  apply owns_create. intros p u p' Hwf Ha. pose proof (AllocateSpecific_cases userID p) as Hspec.
  destruct (AllocateSpecific userID p) as [p1|e| |]; try done. injection Ha as <- <-. done.
Qed.

(** Closing a client that left and giving its user id back. *)
Lemma owns_return v u : owns I (λ _ us, us = []) [(v, u)] (return_id v).
Proof using.
  unfold return_id. eapply (owns_bind I (λ r us', r = u ∧ us' = [(v, u)])).
  - unfold on_virtual. cbn [zoom atomic]. constructor. intros rest w p w' HI Hp.
    exists [(v, u)]. cbn in Hp.
    destruct (vwVirtual (mwVirtual w) !! v) as [x|] eqn:Hx; [|done]. cbn in Hp. injection Hp as <- <-.
    destruct (mg_owned _ _ _ _ HI v u) as [id Hid]; [by left|].
    assert (vUserID x = u) as Hux.
    { unfold registry, identities in Hid. rewrite list_lookup_fmap, Hx in Hid. by injection Hid. }
    split; [|by constructor]. eapply managed_same; [|exact HI]. unfold accounts, registry. cbn.
    unfold set_virtual. rewrite list_insert_id by done. by destruct w as [[] ?].
  - intros r us' [-> ->]. apply owns_atomic. intros rest w a w' HI [= _ <-]. exists []. split; [|done].
    eapply managed_release. exact HI.
Qed.

Lemma owns_leave v u :
  owns I (λ _ us, us = []) [(v, u)] (zoom virtuals (V_Close vapp v) ;; return_id v).
Proof.
  eapply owns_bind; [apply owns_virtual|intros _ us' ->; apply owns_return].
  by eapply keeps_V_Close; [apply identities_keep|].
Qed.

Lemma owns_RemoveClient id : owns I (λ _ us', us' = []) [] (RemoveClient vapp id).
Proof.
  unfold RemoveClient. eapply (owns_bind I (λ r us',
    match r with None => us' = [] | Some v => ∃ u, us' = [(v, u)] end)).
  - apply owns_locked. intros rest w r w' HI H.
    destruct (mClients (mwManager w) !! id) as [v|] eqn:Hid; injection H as <- <-; [|by exists []].
    destruct (managed_remove start end_ rest id v w Hid HI) as [u HI']. exists [(v, u)]. eauto.
  - intros [v|] us'; [|intros ->; by constructor]. intros [u ->].
    change (owns I (λ _ us, us = []) [(v, u)]
      (zoom virtuals (V_Close vapp v) ;; (return_id v ;; mret (@None manager_error)))).
    eapply owns_bind; [apply owns_virtual; by eapply keeps_V_Close; [apply identities_keep|]|].
    intros _ us' ->. eapply owns_bind; [apply owns_return|]. intros _ us' ->. by constructor.
Qed.

Lemma owns_RemoveAll : owns I (λ _ us', us' = []) [] (RemoveAll vapp).
Proof.
  unfold RemoveAll. eapply (owns_bind I (λ vs us', ∃ f, us' = (λ v : nat, (v, f v)) <$> vs)).
  - apply owns_locked. intros rest w vs w' HI [= <- <-].
    exists ((λ v, (v, uid (ticked w) v)) <$> ranged w). split; [|by eexists].
    apply managed_remove_all; [|by apply managed_ticked].
    unfold ranged, managed_clients. by rewrite range_perm.
  - intros vs us' [f ->]. apply owns_for_each. intros v. apply owns_leave.
Qed.

Lemma owns_client_infos clients : owns I (λ _ us', us' = []) [] (client_infos clients).
Proof using.
  induction clients as [|v clients IH]; cbn [client_infos]; [by constructor|].
  eapply owns_bind; [apply owns_virtual; by eapply keeps_GetStatus, identities_keep|].
  intros status us' ->. eapply owns_bind; [exact IH|]. intros infos us' ->. by constructor.
Qed.

Lemma owns_ListClients : owns I (λ _ us', us' = []) [] ListClients.
Proof using.
  unfold ListClients. eapply (owns_bind I (λ _ us', us' = [])).
  - apply owns_atomic. intros rest w vs w' HI [= <- <-]. exists []. split; [|done].
    by apply managed_readers, managed_ticked.
  - intros clients us' ->. eapply owns_bind; [apply owns_client_infos|]. intros infos us' ->.
    eapply (owns_bind I (λ _ us', us' = [])); [|intros _ us' ->; by constructor].
    apply owns_atomic. intros rest w a w' HI [= _ <-]. exists []. split; [|done].
    by apply managed_readers.
Qed.
End Calls.

(** ** Any number of calls at once *)

(** The calls on a manager, and the calls and read loops of its clients. *)
Inductive manager_thread {env : Env} {dialer : Dialer} (vapp : nat → VCallbacks)
    : gprog MWorld () → Prop :=
| ThreadCreate id : manager_thread vapp (CreateClient id ;; mret tt)
| ThreadCreateWith id userID : manager_thread vapp (CreateClientWithUserID id userID ;; mret tt)
| ThreadRemove id : manager_thread vapp (RemoveClient vapp id ;; mret tt)
| ThreadRemoveAll : manager_thread vapp (RemoveAll vapp)
| ThreadList : manager_thread vapp (ListClients ;; mret tt)
| ThreadVirtual p : virtual_thread vapp p → manager_thread vapp (zoom virtuals p).

Lemma manager_thread_owns {env : Env} {dialer : Dialer} vapp start end_ p :
  (∀ u, app_keeps (same identities) (vapp u)) → manager_thread vapp p →
  owns (managed start end_) (λ _ us, us = []) [] p.
Proof.
  intros Happ Hp.
  assert (∀ A (q : gprog MWorld A), owns (managed start end_) (λ _ us, us = []) [] q →
    owns (managed start end_) (λ _ us, us = []) [] (q ;; mret tt)) as Hend.
  { intros A q Hq. eapply owns_bind; [exact Hq|]. intros _ us ->. by constructor. }
  destruct Hp as [id|id userID|id| | |p Hp].
  - by apply Hend, owns_CreateClient.
  - by apply Hend, owns_CreateClientWithUserID.
  - by apply Hend, owns_RemoveClient.
  - by apply owns_RemoveAll.
  - by apply Hend, owns_ListClients.
  - eapply owns_virtual, virtual_thread_keeps; [apply identities_keep|done|done].
Qed.

Lemma NewManager_managed serverAddr conferenceID config v :
  0 <= UserIDRangeStart config → 0 <= UserIDRangeEnd config < 65535 →
  let c := checked_config config in
  managed (UserIDRangeStart c) (UserIDRangeEnd c) []
    (mkMWorld v (NewManager serverAddr conferenceID config)).
Proof.
  intros Hs He c.
  assert (0 <= UserIDRangeStart c ∧ UserIDRangeStart c <= UserIDRangeEnd c ∧ UserIDRangeEnd c < 65535)
    as (H1 & H2 & H3).
  { unfold c, checked_config. destruct config as [s e d t m]; cbn in *.
    destruct (Z.ltb_spec (if e =? 0 then 1000 else e) (if s =? 0 then 100 else s)); cbn; [lia|].
    destruct (Z.eqb_spec s 0), (Z.eqb_spec e 0); lia. }
  split; [split; [exact (conj H1 H2)|exact H3|cbn; set_solver]|done|done|done|set_solver|].
  split; [constructor|cbn; set_solver].
Qed.

(** Two clients with the same user id are one. *)
Lemma managed_unique start end_ us w id1 id2 v1 v2 :
  managed start end_ us w → mClients (mwManager w) !! id1 = Some v1 →
  mClients (mwManager w) !! id2 = Some v2 → uid w v1 = uid w v2 → id1 = id2.
Proof.
  intros [_ _ _ _ _ [Hnd _]] H1 H2 Hu. apply NoDup_app in Hnd as [Hnd _].
  unfold managed_clients in Hnd. rewrite <- list_fmap_compose in Hnd.
  apply elem_of_map_to_list, list_elem_of_lookup in H1 as [i Hi].
  apply elem_of_map_to_list, list_elem_of_lookup in H2 as [j Hj].
  assert (i = j) as <-; [|by rewrite Hi in Hj; simplify_eq].
  eapply (NoDup_lookup _ i j _ Hnd); rewrite list_lookup_fmap; [by rewrite Hi|].
  rewrite Hj. cbn. by rewrite Hu.
Qed.

(** A client of the manager, and how many user ids are left. *)
Lemma managed_client start end_ us w id v :
  managed start end_ us w → mClients (mwManager w) !! id = Some v →
  ∃ x, vwVirtual (mwVirtual w) !! v = Some x ∧ vID x = id ∧ vUserID x = uid w v ∧
    start <= vUserID x <= end_ ∧ vUserID x ∈ pAllocated (mUserIDPool (mwManager w)).
Proof.
  intros [Hwf Hstart Hend H4 _ [_ Hiff]] Hv. destruct (H4 _ _ Hv) as [user Huser].
  assert (uid w v ∈ pAllocated (mUserIDPool (mwManager w))) as Hin.
  { apply Hiff. unfold users. rewrite elem_of_app. left. apply list_elem_of_fmap_2. unfold managed_clients.
    apply (list_elem_of_fmap_2' _ _ (id, v)); [by apply elem_of_map_to_list|done]. }
  unfold uid in *. unfold registry, identities in *. rewrite list_lookup_fmap in *.
  destruct (vwVirtual (mwVirtual w) !! v) as [x|] eqn:Hx; [|done]. injection Huser as Hid Hu. cbn in *.
  pose proof (wf_pool_allocated _ Hwf _ Hin) as Hr. unfold in_range in Hr. rewrite Hstart, Hend in Hr.
  by exists x.
Qed.

Lemma managed_available start end_ us w :
  managed start end_ us w →
  Available (mUserIDPool (mwManager w)) + Z.of_nat (size (mClients (mwManager w))) +
    Z.of_nat (length us) = end_ - start + 1.
Proof.
  intros [[Hr Hlt _] Hstart Hend _ _ [Hnd Hiff]]. set (pool := mUserIDPool (mwManager w)) in *.
  assert (Z.of_nat (size (pAllocated pool)) =
    Z.of_nat (size (mClients (mwManager w))) + Z.of_nat (length us)) as Hsize.
  { assert (pAllocated pool = list_to_set (users us w)) as -> by set_solver.
    rewrite size_list_to_set by done. unfold users, managed_clients.
    by rewrite length_app, !length_fmap, length_map_to_list, Nat2Z.inj_add. }
  unfold Available. rewrite Hstart, Hend in *.
  rewrite !u16_small by (rewrite ?u16_small by (width; lia); width; lia). lia.
Qed.

(** What calls that have returned own. *)
Lemma returned_own_nothing {start end_} owned (rest : list (gprog MWorld ())) :
  Forall2 (owns (managed start end_) (λ _ us, us = [])) owned rest →
  Forall (λ p, p = mret tt) rest → concat owned = [].
Proof.
  intros Hrest Hdone. induction Hrest as [|us p owned rest Hp Hrest IH]; [done|].
  inversion Hdone; subst. inversion Hp; subst; cbn. by apply IH.
Qed.

(** C17: no two clients of a manager have the same user id, and no id is lost, when its
    range of user ids ends below 65535 (see [Allocate_wraps] for one that does not).  Run any
    number of its calls at once, interleaved with the calls and the read loops of its
    clients in any order: at every moment each client has the id it was created under
    and a user id of the range that the pool has as taken, no other client has that one,
    and at least so many user ids are taken as there are clients; when all calls have
    returned, exactly so many. *)
Theorem manager_ids_unique {env : Env} {dialer : Dialer} (vapp : nat → VCallbacks)
    serverAddr conferenceID config v calls sched rest w :
  0 <= UserIDRangeStart config → 0 <= UserIDRangeEnd config < 65535 →
  (∀ u, app_keeps (same identities) (vapp u)) → Forall (manager_thread vapp) calls →
  Interleave.pool_run sched calls (mkMWorld v (NewManager serverAddr conferenceID config)) =
    Ok (rest, w) →
  let c := checked_config config in
  let clients := mClients (mwManager w) in
  let pool := mUserIDPool (mwManager w) in
  let total := UserIDRangeEnd c - UserIDRangeStart c + 1 in
  (∀ id v, clients !! id = Some v →
     ∃ x, vwVirtual (mwVirtual w) !! v = Some x ∧ vID x = id ∧
       UserIDRangeStart c <= vUserID x <= UserIDRangeEnd c ∧ IsAllocated (vUserID x) pool = true) ∧
  (∀ id1 id2 v1 v2 x1 x2, clients !! id1 = Some v1 → clients !! id2 = Some v2 →
     vwVirtual (mwVirtual w) !! v1 = Some x1 → vwVirtual (mwVirtual w) !! v2 = Some x2 →
     vUserID x1 = vUserID x2 → id1 = id2) ∧
  Available pool + Z.of_nat (size clients) <= total ∧
  (Forall (λ p, p = mret tt) rest → Available pool + Z.of_nat (size clients) = total).
Proof.
  intros Hs He Happ Hcalls Hrun c clients pool total.
  pose proof (NewManager_managed serverAddr conferenceID config v Hs He) as HI. cbv zeta in HI. fold c in HI.
  destruct (pool_owns (managed (UserIDRangeStart c) (UserIDRangeEnd c)) (managed_perm _ _) sched calls
    (replicate (length calls) []) (mkMWorld v (NewManager serverAddr conferenceID config)) rest w)
    as (owned & Hrest & HIw); [| |exact Hrun|].
  { apply Forall2_replicate_l; [done|]. eapply Forall_impl; [exact Hcalls|].
    intros p Hp. by apply (manager_thread_owns vapp). }
  { by replace (concat _) with (@nil (nat * Z)) by (induction (length calls); cbn; congruence). }
  pose proof (managed_available _ _ _ _ HIw) as Hav. fold pool clients in Hav.
  split_and!.
  - intros id u Hu. destruct (managed_client _ _ _ _ _ _ HIw Hu) as (x & Hx & Hid & _ & Hr & Hin).
    exists x. split_and!; [done|done|lia|lia|]. unfold IsAllocated. by rewrite bool_decide_eq_true.
  - intros id1 id2 v1 v2 x1 x2 Hc1 Hc2 Hx1 Hx2 Heq.
    destruct (managed_client _ _ _ _ _ _ HIw Hc1) as (y1 & Hy1 & _ & Hu1 & _).
    destruct (managed_client _ _ _ _ _ _ HIw Hc2) as (y2 & Hy2 & _ & Hu2 & _). simplify_eq.
    eapply (managed_unique _ _ _ w id1 id2 v1 v2 HIw); [done|done|congruence].
  - unfold total. lia.
  - intros Hdone. rewrite (returned_own_nothing _ _ Hrest Hdone) in Hav. cbn in Hav. unfold total. lia.
Qed.

(** "c" is created while "a" is on its way out. *)
#[local] Instance manager_demo : Env := demo_env TransportTCP.
#[local] Instance manager_dialer : Dialer := {| dial := λ _ address, Some address |}.

Definition demo_calls : list (gprog MWorld ()) :=
  [CreateClient "a" ;; mret tt; CreateClient "b" ;; mret tt; RemoveClient no_app "a" ;; mret tt;
   CreateClient "c" ;; mret tt].
Definition demo_order : list nat := [0; 2; 1; 3; 2; 2; 2; 2]%nat.
Definition demo_manager : MWorld :=
  mkMWorld (mkVWorld demo_connected [] ∅) (NewManager "s" 1 DefaultConfig).
Definition demo_managed : list (gprog MWorld ()) * MWorld :=
  match pool_run demo_order demo_calls demo_manager with
  | Ok r => r
  | _ => ([], demo_manager)
  end.

Lemma manager_ids_unique_witness :
  let w := demo_managed.2 in
  pool_run demo_order demo_calls demo_manager = Ok demo_managed ∧
  (map_to_list (mClients (mwManager w))).*1 = ["c"; "b"] ∧
  (∃ x, vwVirtual (mwVirtual w) !! 2%nat = Some x ∧ vID x = "c" ∧
     100 <= vUserID x <= 1000 ∧ IsAllocated (vUserID x) (mUserIDPool (mwManager w)) = true) ∧
  Available (mUserIDPool (mwManager w)) + 2 = 901.
Proof.
  intros w.
  assert (pool_run demo_order demo_calls demo_manager = Ok demo_managed) as Hrun
    by (vm_compute; reflexivity).
  assert (demo_managed = (demo_managed.1, w)) as Hpair by (vm_compute; reflexivity).
  split; [exact Hrun|]. split; [vm_compute; reflexivity|]. rewrite Hpair in Hrun.
  destruct (@manager_ids_unique manager_demo manager_dialer no_app "s" 1 DefaultConfig
    (mkVWorld demo_connected [] ∅) demo_calls demo_order demo_managed.1 w
    ltac:(discriminate) ltac:(split; [discriminate|reflexivity]) (λ _, no_op_keeps _)
    ltac:(repeat (apply Forall_cons_2 || apply Forall_nil_2);
          [apply ThreadCreate|apply ThreadCreate|apply ThreadRemove|apply ThreadCreate]) Hrun)
    as (Hid & _ & _ & Hend).
  split.
  - apply (Hid "c" 2%nat). vm_compute. reflexivity.
  - assert (size (mClients (mwManager w)) = 2%nat) as Hsize by (vm_compute; reflexivity).
    rewrite Hsize in Hend. apply Hend. vm_compute. by repeat constructor.
Defined.
