(* ===== verification/ListenerRun.v ===== *)
(** * Listeners at work

    The port that [Listen] binds, and what [Close] leaves behind. *)

From S2P Require Import Prelude Types Message Grouped Codec Framing FloorFSM Session Prog World Transport UDPClient Server Listener Interleave Responses ServerSafe Scenario ServerRun Channel Service Served.

(** ** Suffixes *)

Lemma substring_all s : String.substring 0 (String.length s) s = s.
Proof. induction s as [|c s IH]; cbn; [done|]. f_equal. exact IH. Qed.
Lemma substring_prefix s t : String.substring 0 (String.length s) (s +:+ t) = s.
Proof.
  induction s as [|c s IH]; [by destruct t|].
  change (String c (String.substring 0 (String.length s) (s +:+ t)) = String c s). by rewrite IH.
Qed.
Lemma substring_suffix s t : String.substring (String.length s) (String.length t) (s +:+ t) = t.
Proof. induction s as [|c s IH]; [apply substring_all|exact IH]. Qed.
Lemma length_string_app s t : String.length (s +:+ t) = (String.length s + String.length t)%nat.
Proof. induction s as [|c s IH]; [done|]. exact (f_equal S IH). Qed.

Lemma trim_suffix_app s t : trim_suffix t (s +:+ t) = Some s.
Proof.
  unfold trim_suffix. rewrite length_string_app, Nat.add_sub, substring_suffix, substring_prefix.
  rewrite bool_decide_eq_true_2 by done. destruct (Nat.leb_spec (String.length t) (String.length s + String.length t));
    [done|lia].
Qed.

(** ** Ports *)

Section Ports.
Context {env : Env} {binder : Binder}.

(** The listener was not there, and nothing but the clock moved. *)
Definition later (n : nat) (w : ServerWorld) : ServerWorld :=
  update server (Nat.iter n tick (swServer w)) w.

Lemma later_S n w : later n (update server (tick (swServer w)) w) = later (S n) w.
Proof. unfold later. cbn [swServer server update]. by rewrite <- Nat.iter_succ_r. Qed.
Lemma w_tick_later n w : w_tick (swServer (later n w)) = (n + w_tick (swServer w))%nat.
Proof. induction n as [|n IH]; [done|]. exact (f_equal S IH). Qed.

Section Range.
Context {A : Type} (network : TransportType) (mk : string → A).
Context (listen : string → gprog ServerWorld (A + listen_error)).
Context (Hlisten : ∀ address w, run (listen address) w =
  Ok (match opened (w_tick (swServer w)) network address with inl a => inl (mk a) | inr e => inr e end,
      later 1 w)).
#[local] Set Default Proof Using "Hlisten".

Definition try_port (ip : string) (port : Z) (w : ServerWorld) (i : nat) : string + listen_error :=
  opened (i + w_tick (swServer w)) network (host_port ip (port + Z.of_nat i)).

Lemma try_port_S ip port w i : try_port ip (port + 1) (later 1 w) i = try_port ip port w (S i).
Proof using.
  unfold try_port. rewrite w_tick_later. f_equal; [lia|]. f_equal. lia.
Qed.

Lemma run_first_port ip ports : ∀ port last w,
  ∃ r n, run (first_port listen ports ip port last) w = Ok (r, later n w) ∧
    match r with
    | inl l => ∃ i a, (i < ports)%nat ∧ try_port ip port w i = inl a ∧ l = mk a ∧
                 ∀ j, (j < i)%nat → ∃ e, try_port ip port w j = inr e
    | inr _ => ∀ j, (j < ports)%nat → ∃ e, try_port ip port w j = inr e
    end.
Proof.
  induction ports as [|ports IH]; intros port last w; cbn [first_port].
  { exists (inr last), 0%nat. split; [by destruct w|]. intros j Hj. lia. }
  rewrite run_bind, Hlisten. cbn [mbind res_bind fst snd].
  assert (try_port ip port w 0 = opened (w_tick (swServer w)) network (host_port ip port)) as H0
    by (unfold try_port; by rewrite Z.add_0_r).
  destruct (opened _ _ _) as [a|e].
  { exists (inl (mk a)), 1%nat. split; [done|]. exists 0%nat, a. split_and!; [lia|done|done|lia]. }
  destruct (IH (port + 1) (Some e) (later 1 w)) as (r & n & -> & Hr).
  exists r, (S n). split; [exact (f_equal (λ u, Ok (r, u)) (later_S n w))|].
  destruct r as [l|e'].
  - destruct Hr as (i & a & Hi & Ha & Hl & Hlt). rewrite try_port_S in Ha. exists (S i), a.
    split_and!; [lia|done|done|]. intros [|j] Hj; [eauto|].
    destruct (Hlt j) as [e'' He]; [lia|]. rewrite try_port_S in He. eauto.
  - intros [|j] Hj; [eauto|]. destruct (Hr j) as [e'' He]; [lia|]. rewrite try_port_S in He. eauto.
Qed.
End Range.

Lemma run_Listen address w :
  run (Listen address) w =
    Ok (match opened (w_tick (swServer w)) TransportTCP address with
        | inl a => inl (mkListener a None false) | inr e => inr e end, later 1 w).
Proof. unfold Listen, net_listen. rewrite run_bind, run_atomic. done. Qed.
Lemma run_ListenUDP address w :
  run (ListenUDP address) w =
    Ok (match opened (w_tick (swServer w)) TransportUDP address with
        | inl a => inl (mkUDPListener a false) | inr e => inr e end, later 1 w).
Proof. unfold ListenUDP, net_listen. rewrite run_bind, run_atomic. done. Qed.

(** C22: an address that ends in ":0" with a port range binds the first port of the range
    that can be bound when it is tried, from [PortMin] up to but without [PortMax], over
    TCP and over UDP, and [Addr] then is what was bound; [Listen] fails exactly when no
    port could be bound, and then there is no listener. *)
Theorem Server_Listen_first_port ip w :
  Address config = ip +:+ ":0" → 0 < PortMin config → 0 < PortMax config →
  swListener w = None → swUDPListener w = None →
  let ports := Z.to_nat (PortMax config - PortMin config) in
  let try := try_port (cTransport config) ip (PortMin config) w in
  ∃ e w', run Server_Listen w = Ok (e, w') ∧
    match e with
    | None => ∃ i a, (i < ports)%nat ∧ try i = inl a ∧ (∀ j, (j < i)%nat → ∃ e, try j = inr e) ∧
                run Server_Addr w' = Ok (Some a, w')
    | Some _ => (∀ j, (j < ports)%nat → ∃ e, try j = inr e) ∧ run Server_Addr w' = Ok (None, w')
    end.
Proof.
  intros Haddr Hmin Hmax Ht Hu ports try.
  assert (range_host = Some ip) as Hhost.
  { unfold range_host. rewrite Haddr, trim_suffix_app.
    by destruct (Z.ltb_spec 0 (PortMin config)), (Z.ltb_spec 0 (PortMax config)); try lia. }
  unfold Server_Listen. unfold try. destruct (cTransport config).
  - unfold listenTCP, ListenPortRange, port_range. rewrite Hhost.
    destruct (run_first_port TransportTCP (λ a, mkListener a None false) Listen run_Listen ip ports
      (PortMin config) None w) as (r & n & Hrun & Hr).
    rewrite !run_bind. fold ports. rewrite Hrun. cbn [mbind res_bind fst snd run mret prog_ret].
    destruct r as [l|e]; cbn; eexists _, _; (split; [done|]).
    + destruct Hr as (i & a & Hi & Ha & -> & Hlt). by exists i, a.
    + cbn. by rewrite Ht, Hu.
  - unfold listenUDP, ListenUDPPortRange, port_range. rewrite Hhost.
    destruct (run_first_port TransportUDP (λ a, mkUDPListener a false) ListenUDP run_ListenUDP ip ports
      (PortMin config) None w) as (r & n & Hrun & Hr).
    rewrite !run_bind. fold ports. rewrite Hrun. cbn [mbind res_bind fst snd run mret prog_ret].
    destruct r as [l|e]; cbn; eexists _, _; (split; [done|]).
    + destruct Hr as (i & a & Hi & Ha & -> & Hlt). exists i, a. cbn. by rewrite Ht.
    + cbn. by rewrite Ht, Hu.
Qed.
End Ports.

(** ** Closing *)

(** The TCP transport of a session. *)
Definition transport_of (w : World) (i : nat) : option nat := s ← w_session_heap w !! i; sTransport s.

(** Transport [t] belongs to a registered session. *)
Definition registered (w : World) (t : nat) : Prop :=
  ∃ r i, w_sessions w !! r = Some i ∧ transport_of w i = Some t.

(** Registered sessions and their transports exist. *)
Definition sessions_exist (w : World) : Prop :=
  ∀ r i, w_sessions w !! r = Some i → ∃ s, w_session_heap w !! i = Some s ∧
    ∀ t, sTransport s = Some t → is_Some (w_transports w !! t).

Section Closing.
Context {env : Env}.

(** The transports of these sessions are shut, and nothing else happens. *)
Lemma run_close_each l : ∀ w,
  (∀ i, i ∈ l → ∃ s, w_session_heap w !! i = Some s ∧
     ∀ t, sTransport s = Some t → is_Some (w_transports w !! t)) →
  ∃ trs, run (for_each l (λ session,
      s ← deref w_session_heap session;
      match sTransport s with Some t => Transport_Close t | None => mret tt end)) w =
    Ok (tt, set_transports (λ _, trs) w) ∧
    ∀ t tr, w_transports w !! t = Some tr →
      trs !! t = Some (if decide (t ∈ omap (transport_of w) l) then close_tcp tr else tr).
Proof.
  induction l as [|i l IH]; intros w Hl; cbn [for_each].
  { exists (w_transports w). split; [by destruct w|]. intros t tr Ht. by rewrite decide_False by set_solver. }
  destruct (Hl i) as (s & Hs & Ht); [by left|].
  rewrite !run_bind, (run_deref _ _ _ _ Hs). cbn [mbind res_bind fst snd].
  assert (transport_of w i = sTransport s) as Hti by (unfold transport_of; by rewrite Hs).
  destruct (sTransport s) as [t|].
  - destruct (Ht t eq_refl) as [tr Htr]. unfold Transport_Close. rewrite run_atomic, Htr.
    cbn [mbind res_bind fst snd]. set (w1 := set_transports _ w).
    destruct (IH w1) as (trs & Hrun & Htrs).
    { intros j Hj. destruct (Hl j) as (s' & Hs' & Ht'); [by right|]. exists s'. split; [done|].
      intros t' Et. destruct (Ht' t' Et) as [tr' Htr']. cbn. destruct (decide (t' = t)) as [->|].
      - rewrite list_lookup_insert_eq by (by eapply lookup_lt_Some). by eexists.
      - rewrite list_lookup_insert_ne by done. by eexists. }
    exists trs. split; [exact Hrun|]. intros t' tr' Htr'. cbn [omap list_omap]. rewrite Hti.
    change (omap (transport_of w1) l) with (omap (transport_of w) l) in Htrs.
    destruct (decide (t' = t)) as [->|Hne].
    + simplify_eq. rewrite (decide_True (P:=t ∈ t :: _)) by (by left).
      rewrite (Htrs t (close_tcp tr)); [by case_decide|].
      cbn. apply list_lookup_insert_eq. by eapply lookup_lt_Some.
    + rewrite (Htrs t' tr') by (cbn; by rewrite list_lookup_insert_ne). f_equal.
      do 2 case_decide; set_solver.
  - destruct (IH w) as (trs & Hrun & Htrs); [intros j Hj; apply Hl; by right|].
    exists trs. split; [exact Hrun|]. cbn [omap list_omap]. by rewrite Hti.
Qed.

Lemma run_close_sessions w :
  sessions_exist w →
  ∃ trs, run close_sessions w = Ok (tt, set_transports (λ _, trs) (tick w)) ∧
    ∀ t tr, w_transports w !! t = Some tr →
      (registered w t → trs !! t = Some (close_tcp tr)) ∧ (¬ registered w t → trs !! t = Some tr).
Proof.
  intros Hex. unfold close_sessions, range_of. rewrite run_bind, run_atomic. cbn [mbind res_bind fst snd].
  set (l := range_order _ _).
  assert (∀ i, i ∈ l ↔ ∃ r, w_sessions w !! r = Some i) as Hl.
  { intros i. unfold l. rewrite range_perm, list_elem_of_fmap. split.
    - intros ([r j] & -> & Hr%elem_of_map_to_list). by exists r.
    - intros [r Hr]. exists (r, i). split; [done|]. by apply elem_of_map_to_list. }
  destruct (run_close_each l (tick w)) as (trs & Hrun & Htrs).
  { intros i [r Hr]%Hl. by apply (Hex r). }
  exists trs. split; [exact Hrun|]. intros t tr Ht. specialize (Htrs t tr Ht).
  assert (t ∈ omap (transport_of (tick w)) l ↔ registered w t) as Hreg.
  { rewrite list_elem_of_omap. split.
    - intros (i & [r Hr]%Hl & Hi). by exists r, i.
    - intros (r & i & Hr & Hi). exists i. split; [|done]. apply Hl. by exists r. }
  split; intros Hr; rewrite Htrs; case_decide; tauto.
Qed.
End Closing.

(** C37: closing a server closes the listener and the connections of the registered
    sessions, and no other: the connection of a client that has not said Hello stays
    open, and its floor requests are served as before - the answers are sent, the lock of
    the floor moves. *)
Theorem closed_server_still_serves {env : Env} l i r v msg floorID w :
  (∀ t, write_ok t = true) →
  swListener w = Some l → sessions_exist (swServer w) →
  tcp_peer (swServer w) i r v → (∀ t, transport_of (swServer w) i = Some t → ¬ registered (swServer w) t) →
  wf_request msg → floors_ok (swServer w) →
  mPrimitive msg = PrimitiveFloorRequest → GetFloorID msg = Ok (Some floorID) →
  let user := mUserID msg in
  let requestID := next_request_id (swServer w) in
  let lock := lock_at (swServer w) floorID in
  let spec := serve_request (decides floorID user requestID) floorID user requestID lock in
  ∃ w1 pk bs w2,
    run Server_Close w = Ok (tt, w1) ∧ swListener w1 = Some (close_listener l) ∧
    (∀ t tr, registered (swServer w) t → w_transports (swServer w) !! t = Some tr →
       tClosed <$> w_transports (swServer w1) !! t = Some true) ∧
    run (handleMessage i msg) (swServer w1) = Ok (tt, w2) ∧
    answers bs msg false spec.1 ∧ lock_at w2 floorID = spec.2 ∧
    packets (w_trace w2) = packets (w_trace (swServer w)) ++ pk ++ [(r, bs)].
Proof.
  intros Hwrite Hl Hex Hp Hreg Hm Hok Hprim Hfid user requestID lock spec.
  destruct (run_close_sessions (swServer w) Hex) as (trs & Hrun & Htrs).
  set (n1 := set_transports (λ _, trs) (tick (swServer w))) in *.
  set (w1 := set_listener (fmap (λ l, close_listener l)) (update server n1 w)).
  assert (tcp_peer n1 i r v) as Hp1.
  { destruct Hp as (t & tr & He & Ht & Hr & Hc & Hwg). exists t, tr. split_and!; [exact He| |done..].
    apply (proj2 (Htrs t tr Ht)), Hreg. apply endpoints_lookup in He as (s & Hs & He).
    unfold transport_of. rewrite Hs. by injection He. }
  destruct (serve_tcp_request Hwrite i r v msg floorID n1 Hp1 Hm Hok Hprim Hfid)
    as (pk & bs & w2 & Hrun2 & _ & Ha & [Hpk _ _ Hlock _ _]).
  exists w1, pk, bs, w2. split_and!; [|by unfold w1; cbn [set_listener swListener update server]; rewrite Hl| |exact Hrun2|exact Ha|exact Hlock|].
  - unfold Server_Close, on_server. rewrite run_bind, (run_zoom_Ok server _ _ _ _ Hrun).
    cbn [mbind res_bind fst snd]. rewrite run_bind, run_gets. cbn [mbind res_bind fst snd].
    change (swListener (update server _ w)) with (swListener w). rewrite Hl. exact (run_modify _ _).
  - intros t tr Hr Ht. change (tClosed <$> trs !! t = Some true).
    by rewrite (proj1 (Htrs t tr Ht) Hr).
  - rewrite Hpk. done.
Qed.

(** ** Concrete servers *)

(** Of the ports 5070 to 5079 the first is taken. *)
Definition range_env (transport : TransportType) : Env := {|
  config := mkServerConfig "10.0.0.1:0" 5070 5080 1 true 10 300 transport;
  hooks := demo_hooks;
  now := λ t, Z.of_nat t;
  write_ok := λ _, true;
  range_order := λ _ A l, l;
  range_perm := λ _ A l, Permutation_refl l;
  resolve := λ a, Some a;
  chance := λ _, 0%nat
|}.
Definition taken_binder : Binder :=
  {| bind := λ _ _ address, if decide (address = "10.0.0.1:5070") then None else Some address |}.
Definition demo_server (server : World) (l : option Listener) : ServerWorld :=
  mkServerWorld server l None [].

Lemma Server_Listen_first_port_witness :
  ∃ e w', run (@Server_Listen (range_env TransportUDP) taken_binder) (demo_server demo_udp None) = Ok (e, w') ∧
    e = None ∧ run Server_Addr w' = Ok (Some "10.0.0.1:5071", w').
Proof.
  destruct (@Server_Listen_first_port (range_env TransportUDP) taken_binder "10.0.0.1"
    (demo_server demo_udp None) eq_refl eq_refl eq_refl eq_refl eq_refl) as (e & w' & Hrun & He).
  exists e, w'. split; [exact Hrun|]. destruct e as [e|].
  - exfalso. destruct (proj1 He 1%nat) as [e1 He1]; [apply Nat.ltb_lt; vm_compute; reflexivity|].
    vm_compute in He1. discriminate He1.
  - split; [reflexivity|]. destruct He as (i & a & _ & Ha & Hlt & Haddr).
    destruct i as [|[|i]].
    + vm_compute in Ha. discriminate Ha.
    + vm_compute in Ha. injection Ha as <-. exact Haddr.
    + exfalso. destruct (Hlt 1%nat) as [e1 He1]; [lia|]. vm_compute in He1. discriminate He1.
Defined.

(** The client at "b" has not said Hello. *)
Definition half_registered : World := set_sessions (λ _, {[ "a" := 0%nat ]}) demo_tcp.

Lemma closed_server_still_serves_witness :
  let w := demo_server half_registered (Some (mkListener "0.0.0.0:5070" None false)) in
  ∃ w1 bs w2,
    run (@Server_Close (demo_env TransportTCP)) w = Ok (tt, w1) ∧
    swListener w1 = Some (mkListener "0.0.0.0:5070" None true) ∧
    run (@handleMessage (demo_env TransportTCP) 1 (demo_request 1 9 8 2)) (swServer w1) = Ok (tt, w2) ∧
    answers bs (demo_request 1 9 8 2) false (Status 2 6 RequestStatusGranted) ∧
    lock_at w2 2 = Lock.Held 8 6.
Proof.
  intros w.
  assert (∀ k j, w_sessions half_registered !! k = Some j → j = 0%nat) as Honly.
  { intros k j Hk. change (({[ "a" := 0%nat ]} : gmap string nat) !! k = Some j) in Hk.
    by apply lookup_singleton_Some in Hk as [_ <-]. }
  destruct (@closed_server_still_serves (demo_env TransportTCP) (mkListener "0.0.0.0:5070" None false)
    1 "b" 1 (demo_request 1 9 8 2) 2 w (λ _, eq_refl) eq_refl
    ltac:(intros k j ->%Honly; eexists; split; [reflexivity|]; intros t [= <-]; by eexists)
    demo_tcp_b
    ltac:(intros t [= <-] (k & j & ->%Honly & [=]))
    (demo_request_ok 2 ltac:(apply (bool_decide_unpack _); exact I)) (demo_floors_ok _ _)
    eq_refl eq_refl) as (w1 & pk & bs & w2 & H1 & H2 & _ & H3 & Ha & Hlock & _).
  exists w1, bs, w2. split; [exact H1|]. split; [exact H2|]. split; [exact H3|].
  split; [exact Ha|exact Hlock].
Defined.
