(* ===== verification/ExamplesRun.v ===== *)
(** * What the sample programs do

    The command line of the client, word for word and up to what the server answers, and
    the policy of the server. *)

From S2P Require Import Prelude Types Message Text Grouped Codec Framing FloorFSM Session Prog World Transport UDPClient Client Virtual Manager Server Threads Listener Examples Interleave ServerSafe Scenario Safety Responses ServerRun ClientRun FloorLocks Channel Typed Service Served Exchange.

Lemma run_say {W L} (l : L) (t : Terminal W L) :
  run (say l) t = Ok (tt, mkTerminal (tmWorld t) (tmOutput t ++ [l])).
Proof. done. Qed.

(** What stays within the library prints nothing. *)
Lemma within_beneath {L} (t t' : Terminal ClientWorld L) :
  within beneath t t' → tmOutput t' = tmOutput t.
Proof. by intros [u ->]. Qed.

(** ** The client *)

Section Client.
Import SampleClient.
Context {env : Env} {dialer : Dialer}.

(** A line of a command and its argument, whatever the white space, is the command. *)
Lemma typed_command c name body floorID u v t :
  (name, body) ∈ [("request", do_request c); ("release", do_release c); ("query", do_query c)] →
  is_u16 floorID → Forall blank u → Forall blank v → v ≠ [] → Forall blank t →
  command c (u ++ string_bytes name ++ v ++ string_bytes (pretty floorID) ++ t) =
    (body floorID ;; mret true).
Proof.
  intros Hname Hf Hu Hv Hne Ht. pose proof (ParseUint_pretty floorID Hf) as Hparse.
  assert (Fields (TrimSpace (u ++ string_bytes name ++ v ++ string_bytes (pretty floorID) ++ t)) =
    [string_bytes name; string_bytes (pretty floorID)]) as Hfields.
  { assert (Forall plain (string_bytes name) ∧ string_bytes name ≠ []) as [? ?]
      by (set_unfold; destruct_or?; simplify_eq; (split; [apply (bool_decide_unpack _); exact I|done])).
    apply Fields_two; try done; [by apply pretty_plain|]. by destruct (string_bytes (pretty _)). }
  unfold command. rewrite decide_False.
  - rewrite Hfields. set_unfold. destruct_or?; simplify_eq; cbn -[ParseUint pretty];
      unfold with_floor; by rewrite Hparse.
  - intros He. by rewrite He in Hfields.
Qed.

(** No line makes the program index a list of words that is empty. *)
Lemma command_words text : TrimSpace text ≠ [] → ∃ cmd args, Fields (TrimSpace text) = cmd :: args.
Proof.
  intros H%Fields_TrimSpace. destruct (Fields _) as [|cmd args]; [done|]. by exists cmd, args.
Qed.
End Client.

(** What the program prints of the answer to a request. *)
Definition request_report (r : Z + call_error) : SampleClient.client_line :=
  match r with
  | inl requestID => SampleClient.Submitted requestID
  | inr e => SampleClient.RequestError e
  end.

(** A request, after its wait. *)
Definition report_request (q : gprog (Terminal ClientWorld SampleClient.client_line) (Z + call_error)) : gprog (Terminal ClientWorld SampleClient.client_line) bool :=
  (r ← q;
   match r with
   | inr e => say (SampleClient.RequestError e)
   | inl requestID => say (SampleClient.Submitted requestID)
   end) ;; mret true.

Lemma run_reported (p : gprog (Terminal ClientWorld SampleClient.client_line) (Z + call_error)) r w w' :
  run p w = Ok (r, w') →
  run (report_request p) w =
    Ok (true, mkTerminal (tmWorld w') (tmOutput w' ++ [request_report r])).
Proof.
  intros H. unfold report_request. rewrite run_bind. rewrite (run_bind_Ok _ _ _ _ _ H). by destruct r.
Qed.

Lemma online_beneath {L} (w w' : Terminal ClientWorld L) c k r :
  tmWorld w' = tmWorld w → online beneath w c k r → online beneath w' c k r.
Proof.
  intros He [Hc Hk Ht]. split; [unfold has_client in *|done|]; cbn [view beneath] in *; by rewrite He.
Qed.

(** A request that is typed, up to its wait. *)
Lemma typed_request_waits {env : Env} c k r (floorID : Z) u v t w :
  (∀ t, write_ok t = true) → (∀ t, chance t = 0%nat) →
  online beneath w c k r → is_u32 (kConferenceID (kConfig k)) → is_u16 (kUserID (kConfig k)) →
  is_u16 floorID → Forall blank u → Forall blank v → v ≠ [] → Forall blank t →
  let text := u ++ string_bytes "request" ++ v ++ string_bytes (pretty floorID) ++ t in
  ∃ q w1 bs m, steps (SampleClient.command c text) w (report_request q) w1 ∧
    sent_by beneath w1 = sent_by beneath w ++ [(r, bs)] ∧ Decode bs = Ok m ∧
    mPrimitive m = PrimitiveFloorRequest ∧ mUserID m = kUserID (kConfig k) ∧
    GetFloorID m = Ok (Some floorID) ∧ wf_request m ∧
    ∀ flag a bs', answers bs' m flag a →
      ∃ m' w2 w3 k3, Decode bs' = Ok m' ∧
        run (Client_handleMessage beneath SampleClient.sample_app c m') w1 = Ok (tt, w2) ∧
        steps q w2 (use_answer beneath SampleClient.sample_app c floorID 0 PriorityNormal a) w3 ∧
        tmOutput w3 = tmOutput w ++ [SampleClient.Requesting floorID] ∧
        has_client beneath w3 c k3 ∧ kPending k3 !! mTransactionID m = None.
Proof.
  intros Hwrite Hchance Hon Hconf Huser Hf Hu Hv Hne Ht text.
  set (w0 := mkTerminal (tmWorld w) (tmOutput w ++ [SampleClient.Requesting floorID])).
  destruct (tcp_request_waits beneath SampleClient.sample_app Hwrite Hchance c k r floorID 0 PriorityNormal w0)
    as (q & w1 & bs & m & Hs & Hsent & Hdec & Hprim & Huid & Hfid & Hm & _ & Hresume & _);
    [by apply (online_beneath w w0)|done..|].
  exists q, w1, bs, m. split.
  { unfold text. rewrite (typed_command c "request" (SampleClient.do_request c) floorID u v t)
      by (try done; set_solver).
    apply steps_bind. eapply steps_run_bind; [apply run_say|]. by apply steps_bind. }
  split_and!; try done. intros flag a bs' Ha.
  destruct (Hresume flag a bs' Ha) as (m' & w2 & w3 & k3 & Hdec' & Hh & Hs2 & Hin & Hon3 & _ & Hpend & _).
  exists m', w2, w3, k3. split_and!; try done; [by apply within_beneath in Hin|exact (on_has _ _ _ _ _ Hon3)].
Qed.

(** C21: a request typed at the terminal, from the line to what is printed.  A line with
    [request] and a floor, whatever the white space, sends one message; the server that
    handles it answers twice if the floor is free: with the first answer the program
    prints that the request is submitted under the server's id, and with the second, read
    after the command has come to its end, that the floor is granted, or denied, as the
    server decided; a second answer that is read while the call still has its transaction
    is lost, and nothing is printed for it ([tcp_decision_lost]).  If the floor is taken,
    the program prints the error of the server.  The loop goes on in every case. *)
Theorem typed_request_exchange (client server : Env) c k r (floorID : Z) u v t w i rc vs ws :
  (∀ t, @write_ok client t = true) → (∀ t, @chance client t = 0%nat) →
  (∀ t, @write_ok server t = true) →
  online beneath w c k r → is_u32 (kConferenceID (kConfig k)) → is_u16 (kUserID (kConfig k)) →
  is_u16 floorID → Forall blank u → Forall blank v → v ≠ [] → Forall blank t →
  tcp_peer ws i rc vs → floors_ok ws →
  let text := u ++ string_bytes "request" ++ v ++ string_bytes (pretty floorID) ++ t in
  let requestID := next_request_id ws in
  let reads := @Client_handleMessage _ beneath SampleClient.sample_app client c in
  ∃ q w1 bs m ws',
    steps (@SampleClient.command client c text) w q w1 ∧
    sent_by beneath w1 = sent_by beneath w ++ [(r, bs)] ∧ Decode bs = Ok m ∧
    run (@handleMessage server i m) ws = Ok (tt, ws') ∧
    match lock_at ws floorID with
    | Lock.Free =>
        ∃ bs1 m1 bs2 m2 w2 w3 w4,
          packets (w_trace ws') = packets (w_trace ws) ++ [(rc, bs1); (rc, bs2)] ∧
          Decode bs1 = Ok m1 ∧ Decode bs2 = Ok m2 ∧
          run (reads m1) w1 = Ok (tt, w2) ∧ run q w2 = Ok (true, w3) ∧
          tmOutput w3 = tmOutput w ++ [SampleClient.Requesting floorID; SampleClient.Submitted requestID] ∧
          run (reads m2) w3 = Ok (tt, w4) ∧
          tmOutput w4 = tmOutput w3 ++
            [if @decides server floorID (kUserID (kConfig k)) requestID
             then SampleClient.FloorGranted floorID requestID
             else SampleClient.FloorDenied floorID requestID 0]
    | taken =>
        ∃ bs1 m1 w2 w3,
          packets (w_trace ws') = packets (w_trace ws) ++ [(rc, bs1)] ∧ Decode bs1 = Ok m1 ∧
          run (reads m1) w1 = Ok (tt, w2) ∧ run q w2 = Ok (true, w3) ∧
          tmOutput w3 = tmOutput w ++ [SampleClient.Requesting floorID;
            SampleClient.RequestError (RequestFailed ErrorUnauthorizedOperation
              (string_bytes (floor_error_text (refusal floorID taken))))]
    end.
Proof.
  intros Hwc Hch Hws Hon Hconf Huser Hf Hu Hv Hne Ht Hp Hok text requestID reads.
  destruct (@typed_request_waits client c k r floorID u v t w Hwc Hch Hon Hconf Huser Hf Hu Hv Hne Ht)
    as (q & w1 & bs & m & Hsteps & Hsent & Hdec & Hprim & Huid & Hfid & Hm & Hresume).
  destruct (@serve_tcp_request server Hws i rc vs m floorID ws Hp Hm Hok Hprim Hfid)
    as (pk & bs2 & ws' & Hrun & Hpk & Ha & [Hpks _ _ Hlock _ _]). rewrite Huid in *.
  fold requestID in Hpk, Ha, Hlock. set (granted := decides floorID (kUserID (kConfig k)) requestID) in *.
  exists (report_request q), w1, bs, m, ws'. split_and!; [done..|]. unfold pending_first in Hpk.
  destruct (lock_at ws floorID) as [|u' rid|u' rid|] eqn:Hl; cbn [serve_request] in Ha, Hlock.
  2-4: destruct (Hresume _ _ _ Ha) as (m1 & w2 & w3 & k3 & Hdec1 & Hh & Hq%steps_run & Hout & _);
    rewrite decide_False in Hpk by done; subst pk;
    eexists bs2, m1, w2, _;
    (split_and!; [done..|refine (run_reported _ (inr (RequestFailed _ _)) _ w3 _); by rewrite Hq|]);
    cbn [tmOutput request_report]; by rewrite Hout, <- (assoc_L (++)).
  rewrite decide_True in Hpk by done. destruct Hpk as (bs1 & -> & Ha1).
  destruct (Hresume _ _ _ Ha1) as (m1 & w2 & w3 & k3 & Hdec1 & Hh & Hq%steps_run & Hout & Hc3 & Hpend).
  destruct (@run_use_pending _ beneath _ SampleClient.sample_app client c k3 floorID 0 PriorityNormal floorID
    requestID w3 Hc3) as (w4 & k4 & Hq' & Hc4 & _ & Hk4 & Hp4 & Hin4).
  set (w5 := mkTerminal (tmWorld w4) (tmOutput w4 ++ [SampleClient.Submitted requestID])).
  set (status := if granted then RequestStatusGranted else RequestStatusDenied).
  assert (answers bs2 m false (Status floorID requestID status)) as Ha2
    by (unfold status; destruct granted; exact Ha).
  destruct (answers_transaction _ _ _ _ Ha2) as (m2 & Hdec2 & _).
  destruct (@run_decision _ beneath _ SampleClient.sample_app client c k4 m2 bs2 m false floorID requestID status w5)
    as (w6 & k6 & Hnews & _ & _ & _ & Hin6); [done..|by rewrite Hp4|done|].
  apply within_beneath in Hin4, Hin6.
  exists bs1, m1, bs2, m2, w2, w5, (mkTerminal (tmWorld w6) (tmOutput w6 ++
    [if granted then SampleClient.FloorGranted floorID requestID
     else SampleClient.FloorDenied floorID requestID 0])). do 4 (split; [done|]).
  split; [refine (run_reported _ (inl requestID) _ w4 _); by rewrite Hq|]. split.
  { cbn [tmOutput w5]. by rewrite Hin4, Hout, <- (assoc_L (++)). }
  split; [unfold reads; rewrite Hnews; unfold status; destruct granted; reflexivity|].
  cbn [tmOutput]. by rewrite Hin6.
Qed.

(** User 7 types a request for floor 2, with more white space than it takes. *)
Definition demo_terminal : Terminal ClientWorld SampleClient.client_line := mkTerminal demo_connected [].

Lemma typed_request_exchange_witness :
  ∃ q w1 m1 m2 w2 w3 w4,
    steps (@SampleClient.command (demo_env TransportTCP) 0 (string_bytes "  request   2 ")) demo_terminal q w1 ∧
    run (@Client_handleMessage _ beneath SampleClient.sample_app (demo_env TransportTCP) 0 m1) w1 = Ok (tt, w2) ∧
    run q w2 = Ok (true, w3) ∧
    run (@Client_handleMessage _ beneath SampleClient.sample_app (demo_env TransportTCP) 0 m2) w3 = Ok (tt, w4) ∧
    tmOutput w4 = [SampleClient.Requesting 2; SampleClient.Submitted 6; SampleClient.FloorGranted 2 6].
Proof.
  destruct (typed_request_exchange (demo_env TransportTCP) (demo_env TransportTCP) 0 demo_tcp_client "s" 2
    [32; 32] [32; 32; 32] [32] demo_terminal 0 "a" 2 demo_tcp (λ _, eq_refl) (λ _, eq_refl) (λ _, eq_refl)
    ltac:(split; [done..|]; by eexists 0%nat, _)
    ltac:(apply (bool_decide_unpack _); exact I) ltac:(apply (bool_decide_unpack _); exact I)
    ltac:(apply (bool_decide_unpack _); exact I) ltac:(apply (bool_decide_unpack _); exact I)
    ltac:(apply (bool_decide_unpack _); exact I) ltac:(discriminate)
    ltac:(apply (bool_decide_unpack _); exact I) demo_tcp_a (demo_floors_ok _ _))
    as (q & w1 & bs & m & ws' & Hs & _ & _ & _ & Hcase).
  assert (lock_at demo_tcp 2 = Lock.Free) as Hfree by (vm_compute; reflexivity).
  rewrite Hfree in Hcase.
  destruct Hcase as (bs1 & m1 & bs2 & m2 & w2 & w3 & w4 & _ & _ & _ & H1 & H2 & Ho3 & H3 & Ho4).
  exists q, w1, m1, m2, w2, w3, w4. split; [exact Hs|]. split; [exact H1|]. split; [exact H2|].
  split; [exact H3|]. rewrite Ho4, Ho3. reflexivity.
Defined.

(** ** The server *)

Lemma available_free f : Floor_IsAvailable f = bool_decide (lock_of f = Lock.Free).
Proof.
  unfold Floor_IsAvailable, lock_of. destruct (fCurrentState f =? RequestStatusReleased); [done|].
  destruct (fCurrentState f =? RequestStatusPending); [done|].
  by destruct (fCurrentState f =? RequestStatusGranted).
Qed.

(** The policy of the sample server only refuses what the floor would refuse as well: it
    grants floor 1, and every other floor that is free. *)
Theorem sample_policy {env : Env} floorID userID requestID t :
  let w := swServer (tmWorld t) in
  floors_ok w → is_Some (w_floors w !! floorID) →
  ∃ t', run (SampleServer.sample_OnFloorRequest floorID userID requestID) t =
      Ok ((floorID =? 1) || bool_decide (lock_at w floorID = Lock.Free), t') ∧
    tmWorld t' = tmWorld t.
Proof.
  intros w Hok [l Hl]. destruct (Hok floorID l Hl) as (f & Hf & _).
  unfold SampleServer.sample_OnFloorRequest. rewrite (run_bind_Ok _ _ _ _ _ (run_say _ t)).
  set (t1 := mkTerminal _ _). destruct (floorID =? 1); [by eexists|].
  assert (∀ A (p : prog A) a, run p w = Ok (a, w) → run (SampleServer.serverCall p) t1 = Ok (a, t1)) as Hcalls.
  { intros A p a Hp. unfold SampleServer.serverCall, on_server.
    rewrite (run_zoom beneath), (run_zoom server). cbn. fold w. rewrite Hp.
    cbn. do 2 f_equal. unfold t1, w. by destruct t as [[] ?]. }
  assert (run (GetFloor floorID) w = Ok (Some l, w)) as Hget by (unfold GetFloor; by rewrite run_gets, Hl).
  rewrite (run_bind_Ok _ _ _ _ _ (Hcalls _ _ _ Hget)).
  assert (run (floor_get l Floor_IsAvailable) w = Ok (Floor_IsAvailable f, w)) as Hav
    by (unfold floor_get; by rewrite (run_bind_Ok _ _ _ _ _ (run_deref _ _ _ w Hf))).
  rewrite (run_bind_Ok _ _ _ _ _ (Hcalls _ _ _ Hav)).
  rewrite available_free. unfold lock_at, floor_of. rewrite Hl. cbn [mbind option_bind]. rewrite Hf.
  destruct (bool_decide (lock_of f = Lock.Free)); by eexists.
Qed.
